(* ===== verification/_CoqProject ===== *)
-Q . S2P
Prelude.v
Bytes.v
Util.v
Params.v
Chunks.v
ChunksRoundtrip.v
Packet.v
CodecTyped.v
PayloadQueue.v
PayloadRun.v
PendingQueue.v
OutboundQueue.v
ReassemblyQueue.v
ReassemblyOrder.v
Shared.v
Stream.v
Monad.v
Timer.v
Config.v
Association.v
AssocReset.v
AssocRecv.v
AssocSend.v
AssocControl.v
AssocFrame.v
AssocMachine.v
AssocHandshake.v
AssocData.v
AssocAck.v
AssocSack.v
AssocSackHandle.v
AssocReliable.v
AssocPoll.v
AssocRetransmit.v
AssocLink.v
AssocWire.v
AssocForward.v
AssocMessage.v
AssocOrder.v
AssocShutdown.v
AssocRetry.v
AssocResetSpec.v
Endpoint.v
EndpointRoute.v
EndpointSnap.v
