(* ===== verification/Prelude.v ===== *)
(** * A verification development for sctp-proto

    sctp-proto ([src/src]) is the protocol logic of SCTP without I/O.  An
    application feeds received datagrams to an [Endpoint], which routes each to
    an [Association] or starts one; it polls associations for datagrams to send,
    timeouts and events, and reads and writes messages on their [Stream]s.
    This library models that code as executable functions and proves what makes
    it correct.

    ** The parts and where they are modelled

    - [Prelude]: machine integers, record updates, the outcome of a call
      ([Ok], [Err], [Panic], [Stuck]), [Error] (error.rs), sorting and sums.
    - [Bytes]: the [bytes] crate as a class [BufApi] with its documented laws
      [BufLaws] and a list implementation.
    - [Util] (util.rs): serial numbers, padding, checksum, [BytesSource].
    - [Params] (param/), [Chunks] and [ChunksRoundtrip] (chunk/), [Packet]
      (packet.rs): the wire format, decoding in one and in two steps, encoding.
      [CodecTyped]: the types of what the decoders produce.
    - [PayloadQueue], [PendingQueue], [OutboundQueue], [ReassemblyQueue]
      (queue/): the four queues, one file each; [PayloadRun]: a TSN queue that
      holds a run of consecutive TSNs, as the flight does; [ReassemblyOrder]:
      a reassembly queue that holds parts of several messages.
    - [Shared] (lib.rs, shared.rs, the id generator of util.rs): addresses,
      datagrams, events between endpoint and association.
    - [Stream] (association/stream.rs, [StreamState]): fragmentation and the
      state per stream.  The methods of the [Stream] handle run in the state of
      the association and are in [AssocControl].
    - [Timer] (association/timer.rs, state.rs, stats.rs): timer table, RTO
      estimator at binary64, states and counters.
    - [Config] (config.rs): configuration, builders, SNAP tokens.
    - [Monad]: methods on [&mut self] as functions from a state to a result and
      a state; [holds] specifies a method on return, on error and on panic,
      [preserves] is a frame property.
    - association/mod.rs: [Association] has the struct with all its fields and
      the constructors; [AssocReset] stream reset and deferred data;
      [AssocRecv] DATA, FORWARD TSN, RE-CONFIG; [AssocSend] SACK processing,
      congestion control, retransmission, abandonment, [poll_transmit];
      [AssocControl] handshake, shutdown, dispatch, timers, the application's
      methods.
    - Theorems about one association: [AssocFrame] (which fields a method leaves
      alone), [AssocMachine] (the state machine, any sequence of calls),
      [AssocData] (sending), [AssocAck] (receiving and building a SACK),
      [AssocSack] and [AssocSackHandle] (processing a SACK), [AssocReliable] and
      [AssocPoll] (the flight under every operation that touches it),
      [AssocRetransmit] (the retransmission timeout), [AssocResetSpec] (a
      reset request of the peer), [AssocRetry] (a handshake nobody answers).
    - Theorems about two associations: [AssocHandshake]; [AssocLink] (a sender
      and a receiver joined by a network that loses, repeats and reorders);
      [AssocForward] (giving up data, at both ends); [AssocMessage] (a message from
      the write on one end to the read on the other); [AssocOrder] (many of
      them, with losses, repetitions and reads in between);
      [AssocWire] (a packet from the poll of one end through the encoder, the
      two-step decoder and the handler of the other); [AssocShutdown].
    - [Endpoint] (endpoint/mod.rs): routing tables, accepting, connecting;
      [EndpointRoute] and [EndpointSnap]: theorems about it.

    A definition has the name of the function it models, prefixed by its type
    where two would clash ([pq_push], [rq_push], [endpoint_handle]).  A loop
    inside a function is a [Fixpoint] of its own, named after what it does.

    ** What the theorems show

    - Wire format: parameters, chunks and packets round trip
      ([param_roundtrip], [packet_roundtrip], [partial_decode_roundtrip]),
      HEARTBEAT ACK apart, which is encoded and not decoded;
      decoding arbitrary bytes returns ([packet_unmarshal_returns],
      [partial_decode_returns]); whatever is decoded has every field at its
      width and every length within its wire field ([decoding_is_type_sound]),
      so it can be encoded and decodes to itself ([decode_encode_decode]);
      two-step and one-step decoding agree; the lemma [check_packet_spec].
    - Queues: reachable invariants of the TSN queue and the reassembly queue,
      exactness of the gap blocks, messages kept together by the pending queue,
      abandonment and expiry under partial reliability, reassembly in any
      arrival order, reading, FORWARD TSN.
    - Streams: [packetize_spec].
    - Association: [handle_chunk_transition] (state machine), [close_spec],
      [association_reachable_inv] (any sequence of calls, errors included),
      [handshake_completes] (two associations), [bundle_spec] and
      [pop_pending_within_windows] (sending), [data_acknowledged] (receiving and
      the SACK).
    - Reliability: [honest_sack_handled] (a SACK that reports only what was sent
      is processed exactly), [timeout_resends_oldest] (after T3 expires the
      oldest outstanding chunk goes out again), and composed with the handshake
      and the receiver: [connected_ends_lose_nothing], for every interleaving of
      writes, sends, timeouts and of DATA and SACKs lost, repeated or reordered.
    - Delivery: [written_message_is_read], from the write through the poll and the
      arrival of the chunks in any order to the read of the peer, and
      [stream_delivers_in_order], the same for a sequence of messages whose chunks
      are lost, repeated and reordered across messages while the peer reads.
    - Partial reliability: [forward_tsn_handled] (what a FORWARD TSN does to the
      receiver) and [given_up_data_is_skipped] (from the sender's poll to the
      receiver and back with the SACK).
    - Stream reset: [reset_request_spec] (what the request of a peer does and how
      it is answered), [reset_holds_back_data] (data from behind the boundary of
      a waiting request does not reach a stream).
    - Shutdown: [shutdown_closes_the_peer_only] runs the three packets over the
      wire.
    - Endpoint: [endpoint_refines_demux] is a forward simulation of an abstract
      demultiplexer; [snap_connects]; [client_panics_on_init].
    - Timers: backoff, failure counting, RTO bounds, next timeout, and composed with
      the application's polling [unanswered_handshake_fails].
    - What the code gets wrong is stated as a theorem too:
      [empty_write_blocks_stream], [client_panics_on_init],
      [set_new_rtt_min_above_max], [BytesArray_remaining_mixes_units], the
      lemma [bundle_exceeds_mtu], the refused HEARTBEAT ACK in
      [packet_roundtrip], and in [reassembly_queue_reachable_inv] the bytes a
      reassembly queue counts twice when an ordered fragment is pushed twice.

    ** Parameters

    Code that is not in the repository is a parameter with its documented
    behaviour as laws, and has an instance that satisfies them: [bytes]
    ([BufApi], [BufLaws], [list_buf]), the CRC ([crc]), iteration order of hash
    maps ([MapIter], [MapIterLaws], [list_iter]), [slab] ([SlabApi],
    [SlabLaws], [map_slab]).  An application's id generator is the class
    [AssociationIdGenerator].  Random numbers (initial TSN, cookie, tags) and
    the current time are arguments.

    ** Bounds and fuel

    Integers are [Z] with the width of the source written at each operation:
    wrapping, saturating, checked (a panic, as in a debug build) or cast.
    Counters of bytes held in memory cannot reach 64 bits and are not wrapped;
    statistics counters likewise.
    A loop that is not structural takes fuel and is [Stuck] without it.  The
    decoders get one more than the number of bytes, [packetize_loop] the length
    of the message, loops over the flight one more than the chunks in flight,
    loops over pending data one more than the pending chunks.  That this is
    enough is proved for the decoders, [packetize], [Chunks_next],
    [BytesArray_pop_chunk], [pop_pending_loop], for a flight of consecutive
    TSNs [ack_cumulative], [skip_abandoned], [forward_streams] and
    [retransmit_loop], and, while no reset is under
    way, [advance_peer_last_tsn]; the other loops of the association stop at the first
    TSN that is not in flight, or take a chunk away in each round.  The loop
    that draws an id ([new_aid]) ends when the generator gives an unused one
    ([new_aid_ends]); [patience] bounds the draws.

    ** Not modelled

    Log statements; the text of errors inside errors (the error itself stands
    there); the [rng] field of the endpoint, which is never read; [Debug]
    output; the fuzz entry point of lib.rs and the tests.  Aliasing does not
    arise: the association owns its state.

    ** Plan

    Left: the types of the association's fields as an invariant of every
    call (the decoders' part is [decoding_is_type_sound]); stream reset across
    two associations: no message of an old generation is delivered to a new
    one. *)

From stdpp Require Import base list gmap numbers strings option sets sorting.
From Stdlib Require Import ZArith Lia ZifyBool.

#[global] Open Scope Z_scope.

(** ** Machine integers

    A [w]-bit unsigned integer of the source is a [Z]; [uN w z] says that it
    is in range.  [wrap w] is the truncating [as uN] cast and the result of
    [wrapping_add]/[wrapping_sub]. *)

Abbreviation u8 := Z (only parsing).
Abbreviation u16 := Z (only parsing).
Abbreviation u32 := Z (only parsing).
Abbreviation u64 := Z (only parsing).
Abbreviation usize := Z (only parsing).
Abbreviation isize := Z (only parsing).

Definition uN (w : Z) (z : Z) : Prop := 0 <= z < 2 ^ w.

Definition wrap (w : Z) (z : Z) : Z := z mod 2 ^ w.

#[export] Instance uN_dec w z : Decision (uN w z).
Proof. unfold uN. apply _. Defined.

Definition wrapping_add (w a b : Z) : Z := wrap w (a + b).
Definition wrapping_sub (w a b : Z) : Z := wrap w (a - b).
Definition saturating_sub (a b : Z) : Z := Z.max 0 (a - b).

(** ** Errors

    [error.rs]: the crate's [Error] enum. *)

Inductive Error : Type :=
| ErrChunkHeaderTooSmall
| ErrChunkHeaderNotEnoughSpace
| ErrChunkHeaderPaddingNonZero
| ErrChunkHeaderInvalidLength
| ErrChunkTypeNotAbort
| ErrBuildAbortChunkFailed
| ErrChunkTypeNotCookieAck
| ErrChunkTypeNotCookieEcho
| ErrChunkTypeNotCt
| ErrBuildErrorChunkFailed
| ErrMarshalStreamFailed
| ErrChunkTooShort
| ErrChunkTypeNotForwardTsn
| ErrChunkTypeNotHeartbeat
| ErrChunkTypeNotHeartbeatAck
| ErrHeartbeatNotLongEnoughInfo
| ErrParseParamTypeFailed
| ErrHeartbeatParam
| ErrHeartbeatChunkUnmarshal
| ErrUnimplemented
| ErrHeartbeatAckParams
| ErrHeartbeatAckNotHeartbeatInfo
| ErrHeartbeatAckMarshalParam
| ErrErrorCauseTooSmall
| ErrParamTypeUnhandled (typ : u16)
| ErrParamTypeUnexpected
| ErrParamHeaderTooShort
| ErrParamHeaderSelfReportedLengthShorter
| ErrParamHeaderSelfReportedLengthLonger
| ErrParamHeaderParseFailed
| ErrParamPacketTooShort
| ErrSsnResetRequestParamTooShort
| ErrSsnResetRequestParamInvalidLength
| ErrReconfigRespParamTooShort
| ErrSupportedAddressTypesParamInvalidLength
| ErrInvalidAlgorithmType
| ErrInitChunkParseParamTypeFailed
| ErrInitChunkUnmarshalParam
| ErrInitAckMarshalParam
| ErrChunkTypeNotTypeInit
| ErrChunkValueNotLongEnough
| ErrChunkTypeInitFlagZero
| ErrChunkTypeInitUnmarshalFailed
| ErrChunkTypeInitMarshalFailed
| ErrChunkTypeInitInitiateTagZero
| ErrInitInboundStreamRequestZero
| ErrInitOutboundStreamRequestZero
| ErrInitAdvertisedReceiver1500
| ErrChunkPayloadSmall
| ErrChunkTypeNotPayloadData
| ErrChunkTypeNotReconfig
| ErrChunkReconfigInvalidParamA
| ErrChunkReconfigInvalidParamCombination
| ErrChunkParseParamTypeFailed
| ErrChunkMarshalParamAReconfigFailed
| ErrChunkMarshalParamBReconfigFailed
| ErrChunkTypeNotSack
| ErrSackSizeNotLargeEnoughInfo
| ErrInvalidChunkSize
| ErrChunkTypeNotShutdown
| ErrChunkTypeNotShutdownAck
| ErrChunkTypeNotShutdownComplete
| ErrPacketRawTooSmall
| ErrParseSctpChunkNotEnoughData
| ErrUnmarshalUnknownChunkType
| ErrChecksumMismatch
| ErrUnexpectedChuckPoppedUnordered
| ErrUnexpectedChuckPoppedOrdered
| ErrUnexpectedQState
| ErrReceiveBufferExhausted
| ErrTryAgain
| ErrAbortChunk (msg : string)
| ErrShutdownNonEstablished
| ErrAssociationClosedBeforeConn
| ErrAssociationInitFailed
| ErrAssociationHandshakeClosed
| ErrSilentlyDiscard
| ErrInitNotStoredToSend
| ErrCookieEchoNotStoredToSend
| ErrSctpPacketSourcePortZero
| ErrSctpPacketDestinationPortZero
| ErrInitChunkBundled
| ErrInitChunkVerifyTagNotZero
| ErrHandleInitState
| ErrInitAckNoCookie
| ErrStreamAlreadyExist
| ErrStreamResetPending
| ErrStreamCreateFailed
| ErrInflightQueueTsnPop
| ErrTsnRequestNotExist
| ErrResetPacketInStateNotExist
| ErrParameterType
| ErrPayloadDataStateNotExist
| ErrChunkTypeUnhandled
| ErrHandshakeInitAck
| ErrHandshakeCookieEcho
| ErrOutboundPacketTooLarge
| ErrInboundPacketTooLarge
| ErrStreamClosed
| ErrStreamNotExisted
| ErrShortBuffer
| ErrEof
| ErrInvalidSystemTime
| ErrNetConnRead
| ErrMaxDataChannelID
| Other (msg : string).

#[export] Instance Error_eq_dec : EqDecision Error.
Proof. solve_decision. Defined.

(** ** Outcomes

    What a call of the source can do: return [Ok v], return [Err e], panic
    (an index or slice out of range, a reader with too few bytes, an
    arithmetic overflow caught by the overflow checks), or not return:
    [Stuck] is what a loop gives when its fuel runs out.  A function whose
    Rust result type is a plain value uses [Ok] for it. *)

Inductive Outcome (A : Type) : Type :=
| Ok (a : A)
| Err (e : Error)
| Panic
| Stuck.
Arguments Ok {A} a.
Arguments Err {A} e.
Arguments Panic {A}.
Arguments Stuck {A}.

#[export] Instance Outcome_ret : MRet Outcome := fun _ a => Ok a.
#[export] Instance Outcome_bind : MBind Outcome := fun _ _ f m =>
  match m with
  | Ok a => f a
  | Err e => Err e
  | Panic => Panic
  | Stuck => Stuck
  end.

#[export] Instance Outcome_eq_dec {A} `{EqDecision A} : EqDecision (Outcome A).
Proof. solve_decision. Defined.

(** The call returns to its caller: neither a panic nor a divergence. *)
Definition returns {A} (m : Outcome A) : Prop :=
  match m with Ok _ | Err _ => True | Panic | Stuck => False end.

(** Guards: [if c { return Err(e) }]. *)
Definition guard_err (c : bool) (e : Error) : Outcome unit :=
  if c then Err e else Ok tt.

(** Overflow-checked [usize]/[uN] arithmetic. *)
Definition checked_sub (a b : Z) : Outcome Z := if b <=? a then Ok (a - b) else Panic.
Definition checked_add (w a b : Z) : Outcome Z := if a + b <? 2 ^ w then Ok (a + b) else Panic.

(** ** Lemmas on outcomes *)

Section OutcomeLemmas.
Context {A B : Type}.

Lemma bind_Ok (m : Outcome A) (f : A → Outcome B) b :
  (m ≫= f) = Ok b ↔ ∃ a, m = Ok a ∧ f a = Ok b.
Proof. destruct m; simpl; split; try naive_solver. Qed.

Lemma returns_bind (m : Outcome A) (f : A → Outcome B) :
  returns m → (∀ a, m = Ok a → returns (f a)) → returns (m ≫= f).
Proof. destruct m; simpl; naive_solver. Qed.

Lemma returns_not (m : Outcome A) : returns m ↔ m ≠ Panic ∧ m ≠ Stuck.
Proof. destruct m; simpl; naive_solver. Qed.
End OutcomeLemmas.

Lemma guard_err_Ok c e : guard_err c e = Ok tt ↔ c = false.
Proof. destruct c; simpl; naive_solver. Qed.

Lemma returns_guard c e : returns (guard_err c e).
Proof. by destruct c. Qed.

(** ** Lemmas on machine integers *)

Lemma pow2_pos w : 0 <= w → 0 < 2 ^ w.
Proof. intros. by apply Z.pow_pos_nonneg. Qed.

Lemma wrap_uN w z : 0 <= w → uN w (wrap w z).
Proof. intros. apply Z.mod_pos_bound, pow2_pos; done. Qed.

Lemma wrap_small w z : uN w z → wrap w z = z.
Proof. apply Z.mod_small. Qed.

Create HintDb outcome.
#[export] Hint Resolve returns_guard : outcome.
Create HintDb machine.
#[export] Hint Resolve wrap_uN : machine.

(** ** Lengths as [usize] values *)

Definition len {A} (l : list A) : usize := Z.of_nat (length l).

Section Len.
Context {A : Type}.
Implicit Types l : list A.

Lemma len_nonneg l : 0 <= len l.
Proof. unfold len. lia. Qed.

Lemma len_nil : len (@nil A) = 0.
Proof. done. Qed.

Lemma len_cons a l : len (a :: l) = 1 + len l.
Proof. unfold len. simpl. lia. Qed.

Lemma len_app l1 l2 : len (l1 ++ l2) = len l1 + len l2.
Proof. unfold len. rewrite length_app. lia. Qed.

Lemma len_replicate n (a : A) : len (replicate n a) = Z.of_nat n.
Proof. unfold len. by rewrite length_replicate. Qed.

Lemma len_take n l : len (take n l) = Z.min (Z.of_nat n) (len l).
Proof. unfold len. rewrite length_take. lia. Qed.

Lemma len_drop n l : len (drop n l) = Z.max 0 (len l - Z.of_nat n).
Proof. unfold len. rewrite length_drop. lia. Qed.

Lemma len_0 l : len l = 0 → l = [].
Proof. unfold len. destruct l; simpl; [done|lia]. Qed.
End Len.


Create Rewrite HintDb lens.
#[export] Hint Rewrite @len_nil @len_cons @len_app @len_replicate @len_take @len_drop
  @length_fmap @length_replicate : lens.

(** [lens] normalises lengths and closes linear goals about them. *)
Ltac lens :=
  repeat match goal with
  | l : list ?A |- _ =>
      lazymatch goal with
      | H : 0 <= len l |- _ => fail
      | _ => pose proof (len_nonneg l)
      end
  end;
  autorewrite with lens in *; try lia.

(** Sum of a measure over a list: the accounting of queued bytes. *)
Definition sum_with {A} (f : A → Z) (l : list A) : Z := foldr (λ a n, f a + n) 0 l.

Section SumWith.
Context {A : Type} (f : A → Z).

Lemma sum_with_app l1 l2 : sum_with f (l1 ++ l2) = sum_with f l1 + sum_with f l2.
Proof. induction l1; simpl; [done|]. unfold sum_with in *. simpl. lia. Qed.

Lemma sum_with_nonneg l : (∀ a, a ∈ l → 0 <= f a) → 0 <= sum_with f l.
Proof.
  induction l as [|a l IH]; simpl; intros H; [done|].
  assert (0 <= f a) by (apply H; left).
  assert (0 <= sum_with f l) by (apply IH; intros; apply H; by right).
  unfold sum_with in *. lia.
Qed.

Lemma fold_left_sum l a : fold_left (λ n x, n + f x) l a = a + sum_with f l.
Proof. revert a; induction l as [|x l IH]; intros a; simpl; [lia|]. rewrite IH. unfold sum_with. simpl. lia. Qed.

Lemma sum_with_cons x l : sum_with f (x :: l) = f x + sum_with f l.
Proof. done. Qed.

Lemma sum_with_Permutation l1 l2 : l1 ≡ₚ l2 → sum_with f l1 = sum_with f l2.
Proof. unfold sum_with. induction 1; simpl; lia. Qed.
End SumWith.

(** ** Record updates

    [r <| f := v |>] replaces one field, [r <| f ::= g |>] applies [g] to it.
    A record declares its eta expansion once and its updates are derived. *)

Class Eta (R : Type) := eta_of : R → R.
Class Update {R T : Type} (proj : R → T) := update : (T → T) → R → R.
#[global] Hint Mode Update + - + : typeclass_instances.
Arguments update {R T} proj {_} f r /.

Ltac solve_update :=
  lazymatch goal with |- @Update ?R ?T ?proj =>
    let g := fresh "g" in let r := fresh "r" in
    intros g r;
    let i := constr:(_ : Eta R) in
    let e := eval hnf in (i r) in
    lazymatch e with context C [proj r] =>
      let e' := context C [g (proj r)] in exact e'
    end
  end.

Notation "r <| f := v |>" := (update f (λ _, v) r)
  (at level 12, f at next level, v at level 200, left associativity, format "r <| f  :=  v |>").
Notation "r <| f ::= g |>" := (update f g r)
  (at level 12, f at next level, g at level 200, left associativity, format "r <| f  ::=  g |>").

(** ** [sort_by]

    The stable sort of the standard library, for comparators of the form
    [if lt a b { Less } else { Greater }].  The documentation fixes its result
    only when [lt] is a total order on the elements, which is what the lemmas
    below ask for; there every stable sorting algorithm gives the same list. *)

Section SortBy.
Context {A : Type} (lt : A → A → bool).

Fixpoint insert_by (x : A) (l : list A) : list A :=
  match l with
  | [] => [x]
  | y :: l' => if lt x y then x :: l else y :: insert_by x l'
  end.

Definition sort_by (l : list A) : list A := fold_left (λ acc x, insert_by x acc) l [].

Lemma insert_by_Permutation x l : insert_by x l ≡ₚ x :: l.
Proof. induction l as [|y l IH]; simpl; [done|]. destruct (lt x y); [done|]. rewrite IH. constructor. Qed.

Lemma fold_insert_Permutation l acc : fold_left (λ acc x, insert_by x acc) l acc ≡ₚ l ++ acc.
Proof.
  revert acc; induction l as [|x l IH]; intros acc; simpl; [done|].
  rewrite IH, insert_by_Permutation. by rewrite Permutation_middle.
Qed.

Lemma sort_by_Permutation l : sort_by l ≡ₚ l.
Proof. unfold sort_by. by rewrite fold_insert_Permutation, app_nil_r. Qed.

(** [lt] is the order of the measure [m] on the elements of interest. *)
Definition measured_by (m : A → Z) (l : list A) : Prop :=
  ∀ a b, a ∈ l → b ∈ l → lt a b = true ↔ m a < m b.

Context (m : A → Z).

Lemma insert_by_sorted x l :
  measured_by m (x :: l) → StronglySorted (λ a b, m a <= m b) l →
  StronglySorted (λ a b, m a <= m b) (insert_by x l).
Proof.
  intros Hm. induction 1 as [|y l Hl IH Hy]; simpl; [repeat constructor|].
  pose proof (Hm x y ltac:(set_solver) ltac:(set_solver)) as Hxy.
  destruct (lt x y).
  - constructor; [by constructor|]. constructor; [by apply Z.lt_le_incl, Hxy|].
    eapply Forall_impl; [exact Hy|]. simpl. intros z Hz. assert (m x < m y) by (by apply Hxy). lia.
  - constructor.
    + apply IH. intros a b ??. apply Hm; set_solver.
    + rewrite (insert_by_Permutation x l). constructor; [|done].
      destruct (Z.le_gt_cases (m y) (m x)); [done|]. assert (false = true) by (by apply Hxy). done.
Qed.

Lemma measured_by_Permutation l1 l2 : l1 ≡ₚ l2 → measured_by m l1 → measured_by m l2.
Proof. intros E H a b Ha Hb. apply H; by rewrite E. Qed.

Lemma sort_by_sorted l : measured_by m l → StronglySorted (λ a b, m a <= m b) (sort_by l).
Proof.
  unfold sort_by. intros Hm. assert (measured_by m (l ++ [])) as Hm' by (by rewrite app_nil_r).
  clear Hm. assert (StronglySorted (λ a b, m a <= m b) (@nil A)) as Hs by constructor.
  revert Hm' Hs. generalize (@nil A). induction l as [|x l IH]; intros acc Hm Hs; simpl; [done|].
  apply IH.
  - eapply measured_by_Permutation; [|done]. simpl. by rewrite insert_by_Permutation, Permutation_middle.
  - apply insert_by_sorted; [|done]. intros a b ??. apply Hm; set_solver.
Qed.
End SortBy.

(** ** Sums over the values of a map *)

Definition map_sum {A} (f : A → Z) (m : gmap Z A) : Z := map_fold (λ _ a n, f a + n) 0 m.

Section MapSum.
Context {A : Type}.
Implicit Types (f g : A → Z) (m : gmap Z A).

Lemma map_sum_empty f : map_sum f ∅ = 0.
Proof. done. Qed.

Lemma map_sum_insert f m k a : m !! k = None → map_sum f (<[k := a]> m) = f a + map_sum f m.
Proof. intros. unfold map_sum. rewrite map_fold_insert_L; [done|intros; simpl; lia|done]. Qed.

Lemma map_sum_delete f m k a : m !! k = Some a → map_sum f m = f a + map_sum f (delete k m).
Proof.
  intros. rewrite <- (insert_delete_id m k a) at 1 by done. apply map_sum_insert, lookup_delete_eq.
Qed.

Lemma map_sum_replace f m k a b :
  m !! k = Some a → map_sum f (<[k := b]> m) = map_sum f m - f a + f b.
Proof.
  intros Ha. rewrite <- insert_delete_eq, map_sum_insert by apply lookup_delete_eq.
  rewrite (map_sum_delete f m k a Ha). lia.
Qed.

Lemma map_sum_ext f g m : (∀ k a, m !! k = Some a → f a = g a) → map_sum f m = map_sum g m.
Proof.
  induction m as [|k a m Hk IH] using map_ind; intros H; [done|]. rewrite !map_sum_insert by done.
  rewrite (H k a) by apply lookup_insert_eq. rewrite IH; [done|].
  intros k' a' Hk'. apply (H k'). rewrite lookup_insert_ne; [done|]. intros ->. congruence.
Qed.

Lemma map_sum_add f g m : map_sum (λ a, f a + g a) m = map_sum f m + map_sum g m.
Proof.
  induction m as [|k a m Hk IH] using map_ind; [done|]. rewrite !map_sum_insert by done. lia.
Qed.

Lemma map_sum_nonneg f m : (∀ a, 0 <= f a) → 0 <= map_sum f m.
Proof.
  intros Hf. induction m as [|k a m Hk IH] using map_ind; [done|].
  rewrite map_sum_insert by done. specialize (Hf a). lia.
Qed.

Lemma map_sum_le f g m : (∀ a, f a <= g a) → map_sum f m <= map_sum g m.
Proof.
  intros Hf. induction m as [|k a m Hk IH] using map_ind; [done|].
  rewrite !map_sum_insert by done. specialize (Hf a). lia.
Qed.
End MapSum.

Lemma map_sum_fmap {A B} (h : A → B) (f : B → Z) (m : gmap Z A) : map_sum f (h <$> m) = map_sum (λ a, f (h a)) m.
Proof.
  induction m as [|k a m Hk IH] using map_ind; [by rewrite fmap_empty|].
  rewrite fmap_insert, !map_sum_insert; [lia|done|by rewrite lookup_fmap, Hk].
Qed.

Lemma alter_present {A} (f : A → A) (m : gmap Z A) k a : m !! k = Some a → alter f k m = <[k := f a]> m.
Proof.
  intros Hk. apply map_eq. intros j. rewrite lookup_insert, lookup_alter.
  destruct (decide (k = j)) as [<-|]; [by rewrite Hk|done].
Qed.

Lemma alter_absent {A} (f : A → A) (m : gmap Z A) k : m !! k = None → alter f k m = m.
Proof.
  intros Hk. apply map_eq. intros j. rewrite lookup_alter. destruct (decide (k = j)) as [<-|]; [by rewrite Hk|done].
Qed.

(** A map under another one, entry by entry, sums to no more. *)
Lemma map_sum_sub {A} (f : A → Z) (m m' : gmap Z A) :
  (∀ a, 0 <= f a) → (∀ k b, m' !! k = Some b → ∃ a, m !! k = Some a ∧ f b <= f a) → map_sum f m' <= map_sum f m.
Proof.
  intros Hf. revert m. induction m' as [|k b m' Hk IH] using map_ind; intros m H; [by apply map_sum_nonneg|].
  destruct (H k b) as (a & Ha & Hle); [apply lookup_insert_eq|]. rewrite map_sum_insert, (map_sum_delete f m k a Ha) by done.
  assert (map_sum f m' <= map_sum f (delete k m)); [|lia]. apply IH. intros k' b' Hk'.
  assert (k ≠ k') as Hne by congruence. destruct (H k' b') as (a' & Ha' & ?); [by rewrite lookup_insert_ne|].
  exists a'. by rewrite lookup_delete_ne.
Qed.

(** A filter that drops one more element gives a shorter list. *)
Lemma filter_shorter {A} (P Q : A → Prop) `{!∀ x, Decision (P x), !∀ x, Decision (Q x)} (l : list A) x :
  (∀ y, y ∈ l → P y → Q y) → x ∈ l → Q x → ¬ P x → (length (filter P l) < length (filter Q l))%nat.
Proof.
  intros Hpq Hx HQ HP. assert (∀ l, (∀ y, y ∈ l → P y → Q y) → length (filter P l) <= length (filter Q l))%nat as Hle.
  { clear Hpq Hx. intros k. induction k as [|y k IH]; intros Hk; [done|]. rewrite !filter_cons.
    assert (length (filter P k) <= length (filter Q k))%nat by (apply IH; intros; apply Hk; [by right|done]).
    destruct (decide (P y)) as [Hp|]; [rewrite decide_True by (apply Hk; [left|done])|case_decide]; cbn; lia. }
  induction l as [|y l IH]; [by apply not_elem_of_nil in Hx|]. rewrite !filter_cons.
  assert (∀ z, z ∈ l → P z → Q z) as Hpq' by (intros; apply Hpq; [by right|done]). specialize (Hle l Hpq').
  apply elem_of_cons in Hx as [<-|Hx].
  - rewrite decide_False, decide_True by done. cbn. lia.
  - specialize (IH Hpq' Hx).
    destruct (decide (P y)) as [Hp|]; [rewrite decide_True by (apply Hpq; [left|done])|case_decide]; cbn; lia.
Qed.

Lemma elem_of_rev {A} (x : A) l : x ∈ rev l ↔ x ∈ l.
Proof. by rewrite !list_elem_of_In, <- in_rev. Qed.

(** ** Strictly sorted lists *)

Section StrictlySorted.
Context {A : Type} (R : A → A → Prop).

Lemma StronglySorted_filter (P : A → Prop) `{!∀ x, Decision (P x)} l :
  StronglySorted R l → StronglySorted R (filter P l).
Proof.
  induction 1 as [|x l Hl IH Hx]; [constructor|]. rewrite filter_cons.
  destruct (decide (P x)); [|done]. constructor; [done|].
  apply Forall_forall. intros y [? Hy]%list_elem_of_filter. rewrite Forall_forall in Hx. auto.
Qed.

Lemma StronglySorted_NoDup l : (∀ x, ¬ R x x) → StronglySorted R l → NoDup l.
Proof.
  intros Hirr. induction 1 as [|x l Hl IH Hx]; constructor; [|done].
  rewrite Forall_forall in Hx. intros Hin. by apply (Hirr x), Hx.
Qed.

Lemma StronglySorted_impl_in (Q : A → A → Prop) l :
  (∀ x y, x ∈ l → y ∈ l → R x y → Q x y) → StronglySorted R l → StronglySorted Q l.
Proof.
  intros HRQ Hl. induction Hl as [|x l Hl IH Hx]; constructor.
  - apply IH. intros; apply HRQ; set_solver.
  - rewrite Forall_forall in *. intros y Hy. apply HRQ; [left|by right|by apply Hx].
Qed.
Lemma StronglySorted_rev l : StronglySorted (λ a b, R b a) l → StronglySorted R (rev l).
Proof.
  induction 1 as [|x l Hl IH Hx]; simpl; [constructor|]. apply StronglySorted_app_2; [|done|repeat constructor].
  intros y z Hy Hz. apply list_elem_of_singleton in Hz as ->. rewrite Forall_forall in Hx.
  apply Hx. by rewrite <- elem_of_rev.
Qed.
End StrictlySorted.

(** A list sorted by a measure without repetitions is strictly sorted. *)
Lemma StronglySorted_strict {A} (m : A → Z) l :
  (∀ x y, x ∈ l → y ∈ l → m x = m y → x = y) → NoDup l →
  StronglySorted (λ a b, m a <= m b) l → StronglySorted (λ a b, m a < m b) l.
Proof.
  intros Hinj Hnd Hl. induction Hl as [|x l Hl IH Hx]; constructor.
  - apply IH; [intros; apply Hinj; set_solver|by inversion Hnd].
  - rewrite Forall_forall in *. intros y Hy. apply NoDup_cons in Hnd as [Hnx _].
    assert (m x ≠ m y) by (intros E%Hinj; [congruence|left|by right]). specialize (Hx y Hy). simpl in *. lia.
Qed.
