(* ===== verification/Bytes.v ===== *)
(** * Byte buffers

    The source reads and writes wire data through the [bytes] crate
    ([Bytes], [BytesMut], [Buf], [BufMut]), which is not part of the
    repository.  A [Bytes] value is the sequence of its octets, a list of
    [Z] in [0, 256); the accessors the source calls are the operations of the
    class [BufApi], and what their documentation promises (big-endian
    integers, a panic when a read or a slice leaves the buffer) are the laws
    [BufLaws].  The codec is defined and proved against the class;
    [list_buf] is an implementation, so the laws are satisfiable and every
    definition evaluates. *)

From stdpp Require Import base list numbers.
From Stdlib Require Import ZArith Lia ZifyBool.
From S2P Require Import Prelude.

Abbreviation Bytes := (list u8) (only parsing).

(** Every octet is in range. *)
Definition bytes_ok (b : Bytes) : Prop := Forall (uN 8) b.

#[export] Instance bytes_ok_dec b : Decision (bytes_ok b).
Proof. unfold bytes_ok. apply _. Defined.

(** The sub-sequence [l[a..b]]. *)
Definition range {A} (l : list A) (a b : Z) : list A :=
  take (Z.to_nat (b - a)) (drop (Z.to_nat a) l).

(** Big-endian values of octet sequences, and back. *)
Definition be_val (b : Bytes) : Z := fold_left (λ acc x, acc * 256 + x) b 0.

Fixpoint be (n : nat) (v : Z) : Bytes :=
  match n with
  | O => []
  | S m => be m (v / 256) ++ [v mod 256]
  end.

(** Little-endian order: [get_u32_le] and [u32::to_le_bytes]. *)
Definition le_val (b : Bytes) : Z := be_val (rev b).
Definition le (n : nat) (v : Z) : Bytes := rev (be n v).

Class BufApi := {
  get_u8 : Bytes → Outcome (u8 * Bytes);
  get_u16 : Bytes → Outcome (u16 * Bytes);
  get_u32 : Bytes → Outcome (u32 * Bytes);
  get_u32_le : Bytes → Outcome (u32 * Bytes);
  slice : Bytes → usize → usize → Outcome Bytes;
  advance : Bytes → usize → Outcome Bytes;
  put_u8 : Bytes → u8 → Bytes;
  put_u16 : Bytes → u16 → Bytes;
  put_u32 : Bytes → u32 → Bytes;
}.

(** A read of [n] octets interpreted by [val]. *)
Definition read_n (n : nat) (val : Bytes → Z) (b : Bytes) : Outcome (Z * Bytes) :=
  if decide (n ≤ length b)%nat then Ok (val (take n b), drop n b) else Panic.

Class BufLaws (B : BufApi) : Prop := {
  get_u8_law b : get_u8 b = read_n 1 be_val b;
  get_u16_law b : get_u16 b = read_n 2 be_val b;
  get_u32_law b : get_u32 b = read_n 4 be_val b;
  get_u32_le_law b : get_u32_le b = read_n 4 le_val b;
  slice_law b i j : 0 <= i →
    slice b i j = if (i <=? j) && (j <=? len b) then Ok (range b i j) else Panic;
  advance_law b n : 0 <= n →
    advance b n = if n <=? len b then Ok (drop (Z.to_nat n) b) else Panic;
  put_u8_law w v : uN 8 v → put_u8 w v = w ++ be 1 v;
  put_u16_law w v : uN 16 v → put_u16 w v = w ++ be 2 v;
  put_u32_law w v : uN 32 v → put_u32 w v = w ++ be 4 v;
}.

(** The list implementation. *)
Definition list_buf : BufApi := {|
  get_u8 := read_n 1 be_val;
  get_u16 := read_n 2 be_val;
  get_u32 := read_n 4 be_val;
  get_u32_le := read_n 4 le_val;
  slice b i j := if (i <=? j) && (j <=? len b) then Ok (range b i j) else Panic;
  advance b n := if n <=? len b then Ok (drop (Z.to_nat n) b) else Panic;
  put_u8 w v := w ++ be 1 v;
  put_u16 w v := w ++ be 2 v;
  put_u32 w v := w ++ be 4 v;
|}.

Lemma list_buf_laws : BufLaws list_buf.
Proof. constructor; done. Qed.

(** ** Lengths *)

Lemma length_be n v : length (be n v) = n.
Proof.
  revert v; induction n as [|n IH]; intros v; simpl; [done|].
  rewrite length_app, IH. simpl. lia.
Qed.

Lemma len_be n v : len (be n v) = Z.of_nat n.
Proof. unfold len. by rewrite length_be. Qed.

Lemma len_le n v : len (le n v) = Z.of_nat n.
Proof. unfold len, le. by rewrite length_rev, length_be. Qed.

Lemma len_range {A} (l : list A) i j :
  0 <= i → i <= j → j <= len l → len (range l i j) = j - i.
Proof. intros. unfold range. lens. Qed.

#[export] Hint Rewrite len_be len_le : lens.

(** ** Integers and octets *)

Lemma be_val_snoc b x : be_val (b ++ [x]) = be_val b * 256 + x.
Proof. unfold be_val. by rewrite fold_left_app. Qed.

Lemma be_val_app a b : be_val (a ++ b) = be_val a * 256 ^ len b + be_val b.
Proof.
  induction b as [|x b IH] using rev_ind.
  - rewrite app_nil_r, len_nil. change (be_val []) with 0. lia.
  - rewrite app_assoc, !be_val_snoc, IH, len_app, len_cons, len_nil, Z.pow_add_r by lens. lia.
Qed.

Lemma be_val_be n v : 0 <= v → be_val (be n v) = v mod 256 ^ Z.of_nat n.
Proof.
  revert v; induction n as [|n IH]; intros v Hv.
  - by rewrite Z.mod_1_r.
  - cbn [be]. rewrite be_val_snoc, IH by (apply Z.div_pos; lia).
    rewrite Nat2Z.inj_succ, Z.pow_succ_r, Z.rem_mul_r by lia. lia.
Qed.

Lemma be_val_bounds b : bytes_ok b → 0 <= be_val b < 256 ^ len b.
Proof.
  induction b as [|x b IH] using rev_ind; intros Hb; [done|].
  apply Forall_app in Hb as [Hb Hx]. rewrite Forall_singleton in Hx.
  unfold uN in Hx. specialize (IH Hb). rewrite be_val_snoc.
  replace (len (b ++ [x])) with (len b + 1) by lens. rewrite Z.pow_add_r by lens. lia.
Qed.

Lemma be_bytes_ok n v : bytes_ok (be n v).
Proof.
  revert v; induction n as [|n IH]; intros v; simpl; [by constructor|].
  apply Forall_app. split; [apply IH|]. constructor; [|by constructor].
  split; [apply Z.mod_pos_bound|apply Z.mod_pos_bound]; lia.
Qed.

Lemma be_be_val b : bytes_ok b → be (length b) (be_val b) = b.
Proof.
  induction b as [|x b IH] using rev_ind; intros Hb; [done|].
  apply Forall_app in Hb as [Hb Hx]. rewrite Forall_singleton in Hx. unfold uN in Hx.
  rewrite length_app, Nat.add_comm. cbn [be length Nat.add].
  rewrite be_val_snoc, Z.div_add_l, (Z.add_comm (_ * _)), Z.mod_add by lia.
  rewrite Z.div_small, Z.add_0_r, IH, Z.mod_small by (done || lia). done.
Qed.

Lemma le_val_le n v : 0 <= v → le_val (le n v) = v mod 256 ^ Z.of_nat n.
Proof. intros. unfold le_val, le. rewrite rev_involutive. by apply be_val_be. Qed.

Lemma le_bytes_ok n v : bytes_ok (le n v).
Proof. apply List.Forall_rev, be_bytes_ok. Qed.

Lemma uN_pow256 n v : uN (8 * Z.of_nat n) v → 0 <= v < 256 ^ Z.of_nat n.
Proof. unfold uN. rewrite Z.pow_mul_r by lia. done. Qed.

(** ** Ranges *)

Lemma range_app_mid {A} (a b c : list A) i j :
  len a = i → len b = j - i → range (a ++ b ++ c) i j = b.
Proof.
  intros Ha Hb. unfold range.
  rewrite drop_app_length' by (unfold len in *; lia).
  rewrite take_app_length' by (unfold len in *; lia). done.
Qed.

Lemma range_bytes_ok b i j : bytes_ok b → bytes_ok (range b i j).
Proof. intros. by apply Forall_take, Forall_drop. Qed.

Lemma range_to_end {A} (l : list A) i : 0 <= i → range l i (len l) = drop (Z.to_nat i) l.
Proof. intros. unfold range. apply take_ge. rewrite length_drop. unfold len. lia. Qed.

Lemma range_drop {A} (l : list A) n i j :
  0 <= n → 0 <= i → range (drop (Z.to_nat n) l) i j = range l (n + i) (n + j).
Proof.
  intros. unfold range. rewrite drop_drop. f_equal; [lia|]. f_equal. lia.
Qed.

Lemma range_range {A} (l : list A) a b i j :
  0 <= a → 0 <= i → i <= j → j <= b - a →
  range (range l a b) i j = range l (a + i) (a + j).
Proof.
  intros. unfold range. rewrite skipn_firstn_comm, take_take, drop_drop.
  f_equal; [lia|]. f_equal. lia.
Qed.

Lemma bytes_ok_app a b : bytes_ok (a ++ b) ↔ bytes_ok a ∧ bytes_ok b.
Proof. apply Forall_app. Qed.

Lemma bytes_ok_drop n b : bytes_ok b → bytes_ok (drop n b).
Proof. apply Forall_drop. Qed.

Lemma bytes_ok_zeros n : bytes_ok (replicate n 0).
Proof. apply Forall_replicate. by compute. Qed.

Create HintDb bytes.
#[export] Hint Resolve be_bytes_ok le_bytes_ok range_bytes_ok bytes_ok_drop bytes_ok_zeros : bytes.

(** ** Consequences of the laws: what the codec proofs use *)

Section Laws.
Context {B : BufApi} {BL : BufLaws B}.

Lemma read_n_Ok n val b v r :
  read_n n val b = Ok (v, r) ↔ Z.of_nat n <= len b ∧ v = val (take n b) ∧ r = drop n b.
Proof. unfold read_n, len. case_decide; split; try naive_solver lia. Qed.

Lemma read_n_returns n val b : Z.of_nat n <= len b → returns (read_n n val b).
Proof. unfold read_n, len. intros. case_decide; [done|lia]. Qed.

Lemma read_n_be n v r : uN (8 * Z.of_nat n) v → read_n n be_val (be n v ++ r) = Ok (v, r).
Proof.
  intros Hv%uN_pow256. unfold read_n. rewrite decide_True by (rewrite length_app, length_be; lia).
  rewrite take_app_length', drop_app_length' by (by rewrite length_be).
  rewrite be_val_be, Z.mod_small by lia. done.
Qed.

Lemma get_u8_be v r : uN 8 v → get_u8 (be 1 v ++ r) = Ok (v, r).
Proof. rewrite get_u8_law. apply (read_n_be 1). Qed.
Lemma get_u16_be v r : uN 16 v → get_u16 (be 2 v ++ r) = Ok (v, r).
Proof. rewrite get_u16_law. apply (read_n_be 2). Qed.
Lemma get_u32_be v r : uN 32 v → get_u32 (be 4 v ++ r) = Ok (v, r).
Proof. rewrite get_u32_law. apply (read_n_be 4). Qed.

Lemma get_u32_le_le v r : uN 32 v → get_u32_le (le 4 v ++ r) = Ok (v, r).
Proof.
  intros Hv. rewrite get_u32_le_law. unfold read_n.
  assert (length (le 4 v) = 4%nat) as Hl by (unfold le; by rewrite length_rev, length_be).
  rewrite decide_True by (rewrite length_app, Hl; lia).
  rewrite take_app_length', drop_app_length' by done.
  unfold uN in Hv. rewrite le_val_le, Z.mod_small by (simpl; lia). done.
Qed.

Lemma slice_Ok b i j : 0 <= i → i <= j → j <= len b → slice b i j = Ok (range b i j).
Proof.
  intros. rewrite slice_law by done.
  by rewrite (proj2 (Z.leb_le i j)), (proj2 (Z.leb_le j (len b))).
Qed.

Lemma slice_mid a b c i j :
  len a = i → len b = j - i → slice (a ++ b ++ c) i j = Ok b.
Proof.
  intros Ha Hb. rewrite slice_Ok by lens. by rewrite range_app_mid.
Qed.

Lemma advance_Ok b n : 0 <= n → n <= len b → advance b n = Ok (drop (Z.to_nat n) b).
Proof. intros. rewrite advance_law by done. by rewrite (proj2 (Z.leb_le n (len b))). Qed.
End Laws.
