(* ===== verification/Util.v ===== *)
(** * Utilities ([src/util.rs])

    Serial-number arithmetic (RFC 1982) on TSNs and SSNs, padding, the
    packet checksum over the CRC-32C of the [crc] crate, the constant-time
    comparison of cookies, and the two [BytesSource] readers the application
    data of a write goes through. *)

From stdpp Require Import base list numbers sets.
From Stdlib Require Import ZArith Lia ZifyBool.
From S2P Require Import Prelude Bytes.

(** ** Serial numbers *)

Definition sna32lt (i1 i2 : u32) : bool :=
  ((i1 <? i2) && (i2 - i1 <? Z.shiftl 1 31)) || ((i1 >? i2) && (i1 - i2 >? Z.shiftl 1 31)).

Definition sna32lte (i1 i2 : u32) : bool := (i1 =? i2) || sna32lt i1 i2.

Definition sna32gt (i1 i2 : u32) : bool :=
  ((i1 <? i2) && (i2 - i1 >=? Z.shiftl 1 31)) || ((i1 >? i2) && (i1 - i2 <=? Z.shiftl 1 31)).

Definition sna32gte (i1 i2 : u32) : bool := (i1 =? i2) || sna32gt i1 i2.

Definition sna32eq (i1 i2 : u32) : bool := i1 =? i2.

Definition sna16lt (i1 i2 : u16) : bool :=
  ((i1 <? i2) && (i2 - i1 <? Z.shiftl 1 15)) || ((i1 >? i2) && (i1 - i2 >? Z.shiftl 1 15)).

Definition sna16lte (i1 i2 : u16) : bool := (i1 =? i2) || sna16lt i1 i2.

Definition sna16gt (i1 i2 : u16) : bool :=
  ((i1 <? i2) && (i2 - i1 >=? Z.shiftl 1 15)) || ((i1 >? i2) && (i1 - i2 <=? Z.shiftl 1 15)).

Definition sna16gte (i1 i2 : u16) : bool := (i1 =? i2) || sna16gt i1 i2.

Definition sna16eq (i1 i2 : u16) : bool := i1 =? i2.

(** ** Padding *)

Definition PADDING_MULTIPLE : usize := 4.

Definition get_padding_size (n : usize) : usize :=
  (PADDING_MULTIPLE - (n mod PADDING_MULTIPLE)) mod PADDING_MULTIPLE.

(** ** Constant-time comparison *)

(** [assert!(a.len() == b.len())], then the fold of [a[i] ^ b[i]]. *)
Definition constant_time_ne (a b : Bytes) : Outcome u8 :=
  if len a =? len b
  then Ok (fold_left (λ tmp i, Z.lor tmp (Z.lxor (nth i a 0) (nth i b 0))) (seq 0 (length a)) 0)
  else Panic.

Definition constant_time_eq (a b : Bytes) : Outcome bool :=
  if len a =? len b then t ← constant_time_ne a b; Ok (t =? 0) else Ok false.

(** ** Checksum

    [crc] is the CRC-32C digest of the [crc] crate; a digest fed in pieces
    is the digest of their concatenation. *)

Definition FOUR_ZEROES : Bytes := [0; 0; 0; 0].

(** [&raw[i..j]] on a byte slice. *)
Definition index_range (b : Bytes) (i j : usize) : Outcome Bytes :=
  if (i <=? j) && (j <=? len b) then Ok (range b i j) else Panic.

Definition generate_packet_checksum (crc : Bytes → u32) (raw : Bytes) : Outcome u32 :=
  a ← index_range raw 0 8;
  b ← index_range raw 12 (len raw);
  Ok (crc (a ++ FOUR_ZEROES ++ b)).

(** ** Byte sources *)

Record BytesArray := mkBytesArray {
  ba_chunks : list Bytes;
  ba_consumed : usize;
  ba_length : usize;
}.

Definition BytesArray_from_chunks (chunks : list Bytes) : BytesArray :=
  mkBytesArray chunks 0 (fold_left (λ length chunk, length + len chunk) chunks 0).

(** The [while] loop of [pop_chunk]: empty chunks are skipped and counted, a
    chunk longer than the limit is split in place. *)
Fixpoint BytesArray_pop_loop (fuel : nat) (s : BytesArray) (limit chunks_consumed : usize)
    : Outcome (Bytes * usize * BytesArray) :=
  match fuel with
  | O => Stuck
  | S fuel' =>
      if ba_consumed s <? len (ba_chunks s) then
        match ba_chunks s !! Z.to_nat (ba_consumed s) with
        | None => Panic
        | Some chunk =>
            if len chunk <=? limit then
              let s' := mkBytesArray (<[Z.to_nat (ba_consumed s) := []]> (ba_chunks s))
                          (ba_consumed s + 1) (ba_length s) in
              if len chunk =? 0
              then BytesArray_pop_loop fuel' s' limit (chunks_consumed + 1)
              else Ok (chunk, chunks_consumed + 1, s')
            else if limit >? 0 then
              let s' := mkBytesArray
                          (<[Z.to_nat (ba_consumed s) := drop (Z.to_nat limit) chunk]> (ba_chunks s))
                          (ba_consumed s) (ba_length s) in
              Ok (take (Z.to_nat limit) chunk, chunks_consumed, s')
            else Ok ([], chunks_consumed, s)
        end
      else Ok ([], chunks_consumed, s)
  end.

(** One iteration per remaining chunk, plus the final test. *)
Definition BytesArray_pop_chunk (s : BytesArray) (limit : usize)
    : Outcome (Bytes * usize * BytesArray) :=
  BytesArray_pop_loop (S (length (ba_chunks s))) s limit 0.

Definition BytesArray_has_remaining (s : BytesArray) : bool := ba_consumed s <? ba_length s.

Definition BytesArray_remaining (s : BytesArray) : Outcome usize :=
  checked_sub (ba_length s) (ba_consumed s).

(** [ByteSlice]: the state is the remaining data. *)
Definition ByteSlice_pop_chunk (data : Bytes) (limit : usize) : Bytes * usize * Bytes :=
  let limit := Z.min limit (len data) in
  if limit =? 0 then ([], 0, data)
  else
    let chunk := take (Z.to_nat limit) data in
    let data' := drop (length chunk) data in
    (chunk, if len data' =? 0 then 1 else 0, data').

Definition ByteSlice_has_remaining (data : Bytes) : bool := negb (len data =? 0).

Definition ByteSlice_remaining (data : Bytes) : usize := len data.

(** ** Serial-number order as forward distance

    [dist32 a b] is how far [b] is ahead of [a] on the 32-bit circle. *)

Definition dist32 (a b : u32) : Z := (b - a) mod 2 ^ 32.
Definition dist16 (a b : u16) : Z := (b - a) mod 2 ^ 16.

(** Case split on a serial comparison, with the distance eliminated. *)
Ltac sna :=
  unfold sna32lte, sna32gte, sna32lt, sna32gt, sna32eq,
    sna16lte, sna16gte, sna16lt, sna16gt, sna16eq, dist32, dist16, wrapping_add, wrapping_sub,
    wrap, uN in *; 
  change (Z.shiftl 1 31) with 2147483648 in *; change (Z.shiftl 1 15) with 32768 in *;
  change (2 ^ 32) with 4294967296 in *; change (2 ^ 16) with 65536 in *;
  repeat match goal with
  | |- context [?a mod ?m] =>
      let q := fresh "q" in let r := fresh "r" in let H := fresh "Hmod" in let Hr := fresh "Hr" in
      pose proof (Z.div_mod a m ltac:(lia)) as H;
      pose proof (Z.mod_pos_bound a m ltac:(lia)) as Hr;
      set (q := a / m) in *; set (r := a mod m) in *; clearbody q r
  | H0 : context [?a mod ?m] |- _ =>
      let q := fresh "q" in let r := fresh "r" in let H := fresh "Hmod" in let Hr := fresh "Hr" in
      pose proof (Z.div_mod a m ltac:(lia)) as H;
      pose proof (Z.mod_pos_bound a m ltac:(lia)) as Hr;
      set (q := a / m) in *; set (r := a mod m) in *; clearbody q r
  end; lia.

Lemma dist32_bounds a b : 0 <= dist32 a b < 2 ^ 32.
Proof. apply Z.mod_pos_bound. lia. Qed.

Lemma dist32_self a : dist32 a a = 0.
Proof. unfold dist32. by rewrite Z.sub_diag. Qed.

Lemma dist16_bounds a b : 0 <= dist16 a b < 2 ^ 16.
Proof. apply Z.mod_pos_bound. lia. Qed.

Lemma sna32lt_dist a b : uN 32 a → uN 32 b →
  sna32lt a b = true ↔ 0 < dist32 a b < 2 ^ 31.
Proof. intros. sna. Qed.

Lemma sna16lt_dist a b : uN 16 a → uN 16 b →
  sna16lt a b = true ↔ 0 < dist16 a b < 2 ^ 15.
Proof. intros. sna. Qed.

Lemma sna32gt_irrefl a : sna32gt a a = false.
Proof. unfold sna32gt. by rewrite Z.ltb_irrefl, Z.gtb_ltb, Z.ltb_irrefl. Qed.

Lemma sna32gt_negb_lte a b : sna32gt a b = negb (sna32lte a b).
Proof. apply eq_true_iff_eq. sna. Qed.

Lemma sna16gt_negb_lte a b : sna16gt a b = negb (sna16lte a b).
Proof. apply eq_true_iff_eq. sna. Qed.

Lemma sna32lt_irrefl a : sna32lt a a = false.
Proof. sna. Qed.

(** Inside half the circle ahead of [base] the serial order is the order of
    the distances: the reason TSN comparisons are total on a live window. *)
Lemma sna32lt_window base a b : uN 32 base → uN 32 a → uN 32 b →
  dist32 base a < 2 ^ 31 → dist32 base b < 2 ^ 31 →
  sna32lt a b = true ↔ dist32 base a < dist32 base b.
Proof. intros. sna. Qed.

Lemma sna32lte_window base a b : uN 32 base → uN 32 a → uN 32 b →
  dist32 base a < 2 ^ 31 → dist32 base b < 2 ^ 31 →
  sna32lte a b = true ↔ dist32 base a <= dist32 base b.
Proof. intros. sna. Qed.

Lemma dist32_inj base a b : uN 32 a → uN 32 b → dist32 base a = dist32 base b → a = b.
Proof. intros. sna. Qed.

Lemma dist16_inj base a b : uN 16 a → uN 16 b → dist16 base a = dist16 base b → a = b.
Proof. intros. sna. Qed.

Lemma sna16lt_window base a b : uN 16 base → uN 16 a → uN 16 b →
  dist16 base a < 2 ^ 15 → dist16 base b < 2 ^ 15 →
  sna16lt a b = true ↔ dist16 base a < dist16 base b.
Proof. intros. sna. Qed.

(** ** Padding *)

Lemma get_padding_size_bounds n : 0 <= get_padding_size n < 4.
Proof. apply Z.mod_pos_bound. unfold PADDING_MULTIPLE. lia. Qed.

Lemma get_padding_size_mod n : (n + get_padding_size n) mod 4 = 0.
Proof.
  unfold get_padding_size, PADDING_MULTIPLE.
  pose proof (Z.div_mod n 4). pose proof (Z.mod_pos_bound n 4).
  destruct (decide (n mod 4 = 0)) as [E|E].
  - rewrite E. simpl. rewrite Z.add_0_r. lia.
  - rewrite (Z.mod_small (4 - _)) by lia.
    replace (n + (4 - n mod 4)) with ((n / 4 + 1) * 4) by lia. apply Z.mod_mul. lia.
Qed.

(** Padding only depends on the length modulo four. *)
Lemma get_padding_size_add n k : get_padding_size (n + 4 * k) = get_padding_size n.
Proof.
  unfold get_padding_size, PADDING_MULTIPLE.
  by rewrite (Z.mul_comm 4 k), Z.mod_add by lia.
Qed.

Lemma get_padding_size_add_mult4 a n :
  a mod 4 = 0 → get_padding_size (a + n) = get_padding_size n.
Proof.
  intros. pose proof (Z.div_mod a 4). replace (a + n) with (n + 4 * (a / 4)) by lia.
  apply get_padding_size_add.
Qed.

(** ** The constant-time comparison decides equality *)

Lemma fold_lor_0 {A} (f : A → Z) l acc :
  fold_left (λ t i, Z.lor t (f i)) l acc = 0 ↔ acc = 0 ∧ ∀ i, i ∈ l → f i = 0.
Proof.
  revert acc; induction l as [|x l IH]; intros acc; simpl.
  - set_solver.
  - rewrite IH, Z.lor_eq_0_iff. set_solver.
Qed.

(** Comparing two cookies in constant time never panics and is exactly equality
    of the byte strings, whatever their lengths. *)
Theorem constant_time_eq_spec a b : constant_time_eq a b = Ok (bool_decide (a = b)).
Proof.
  unfold constant_time_eq, constant_time_ne.
  destruct (Z.eqb_spec (len a) (len b)) as [E|E]; simpl; last first.
  { rewrite bool_decide_false by congruence. done. }
  f_equal. apply eq_true_iff_eq.
  rewrite Z.eqb_eq, bool_decide_eq_true, (fold_lor_0 (λ i, Z.lxor (nth i a 0) (nth i b 0))).
  split; [|intros ->; split; [done|]; intros; apply Z.lxor_nilpotent].
  intros [_ H]. apply (nth_ext _ _ 0 0); [unfold len in *; lia|].
  intros i Hi. apply Z.lxor_eq, H, elem_of_seq. lia.
Qed.

(** ** Byte sources hand out the data in order *)

(** The data a source still holds. *)
Definition ba_rest (s : BytesArray) : Bytes := mjoin (drop (Z.to_nat (ba_consumed s)) (ba_chunks s)).

(** The chunk counter stays inside the array. *)
Definition ba_wf (s : BytesArray) : Prop := 0 <= ba_consumed s <= len (ba_chunks s).

Lemma BytesArray_pop_loop_spec fuel s limit n :
  ba_wf s → 0 <= limit → len (ba_chunks s) - ba_consumed s < Z.of_nat fuel →
  ∃ chunk n' s', BytesArray_pop_loop fuel s limit n = Ok (chunk, n', s') ∧
    ba_wf s' ∧ chunk ++ ba_rest s' = ba_rest s ∧ len chunk <= limit ∧
    (chunk = [] → limit = 0 ∨ ba_rest s = []) ∧ n' - n = ba_consumed s' - ba_consumed s.
Proof.
  unfold ba_wf. revert s n; induction fuel as [|fuel IH]; intros s n Hwf Hl Hf; [lia|].
  cbn [BytesArray_pop_loop]. destruct (Z.ltb_spec (ba_consumed s) (len (ba_chunks s))) as [Hc|Hc].
  2: { exists [], n, s. split_and!; try done; try lia. right.
    unfold ba_rest. rewrite drop_ge by (unfold len in *; lia). done. }
  destruct (lookup_lt_is_Some_2 (ba_chunks s) (Z.to_nat (ba_consumed s))) as [chunk Hch];
    [unfold len in *; lia|]. rewrite Hch.
  assert (ba_rest s = chunk ++ mjoin (drop (S (Z.to_nat (ba_consumed s))) (ba_chunks s))) as Hrest
    by (unfold ba_rest; by erewrite drop_S).
  assert (∀ d, drop (S (Z.to_nat (ba_consumed s))) (<[Z.to_nat (ba_consumed s):=d]> (ba_chunks s))
     = drop (S (Z.to_nat (ba_consumed s))) (ba_chunks s)) as Hdrop.
  { intros d. rewrite drop_insert_lt by lia. done. }
  destruct (Z.leb_spec (len chunk) limit) as [Hle|Hle].
  - set (s1 := mkBytesArray _ _ _).
    assert (ba_rest s1 = mjoin (drop (S (Z.to_nat (ba_consumed s))) (ba_chunks s))) as Hr1.
    { unfold ba_rest, s1. cbn [ba_chunks ba_consumed]. rewrite <- (Hdrop []). f_equal. f_equal. lia. }
    assert (len (ba_chunks s1) = len (ba_chunks s)) as Hlen
      by (unfold s1, len; simpl; by rewrite length_insert).
    destruct (Z.eqb_spec (len chunk) 0) as [Hz|Hz].
    + apply len_0 in Hz. subst chunk.
      destruct (IH s1 (n + 1)) as (c & n' & s' & -> & ? & Hcat & ? & He & Hn');
        [rewrite Hlen; unfold s1; cbn [ba_consumed]; lia|done
        |rewrite Hlen; unfold s1; cbn [ba_consumed]; lia|].
      exists c, n', s'. rewrite Hrest, <- Hr1. unfold s1 in Hn'. cbn [ba_consumed] in Hn'.
      split_and!; (done || lia).
    + exists chunk, (n + 1), s1. split_and!; rewrite ?Hlen; try done;
        unfold s1; cbn [ba_consumed]; try lia.
      { rewrite Hrest, <- Hr1. done. }
      intros ->. done.
  - destruct (Z.gtb_spec limit 0).
    + eexists _, n, _. split; [done|]. cbn [ba_chunks ba_consumed].
      split_and!; try lia.
      * unfold len. rewrite length_insert. unfold len in Hwf. lia.
      * unfold ba_rest. cbn [ba_chunks ba_consumed].
        erewrite (drop_S (<[_:=_]> _)); [|rewrite list_lookup_insert_eq by (unfold len in *; lia); done].
        rewrite Hdrop. simpl. rewrite app_assoc, take_drop. symmetry. apply Hrest.
      * lens.
      * intros E%(f_equal len). lens.
    + exists [], n, s. split_and!; try done; lia.
Qed.

(** Popping from an array of buffers always returns, yields at most [limit] bytes, and
    the yielded bytes followed by what the source still holds are what it held before;
    it yields nothing only when the limit is zero or no data is left. *)
Theorem BytesArray_pop_chunk_spec s limit :
  ba_wf s → 0 <= limit →
  ∃ chunk n s', BytesArray_pop_chunk s limit = Ok (chunk, n, s') ∧
    ba_wf s' ∧ chunk ++ ba_rest s' = ba_rest s ∧ len chunk <= limit ∧
    (chunk = [] → limit = 0 ∨ ba_rest s = []) ∧ n = ba_consumed s' - ba_consumed s.
Proof.
  intros Hwf Hl. unfold BytesArray_pop_chunk.
  destruct (BytesArray_pop_loop_spec (S (length (ba_chunks s))) s limit 0 Hwf Hl)
    as (c & n & s' & H1 & H2 & H3 & H4 & H5 & H6).
  - unfold ba_wf, len in *. lia.
  - exists c, n, s'. split_and!; try done. lia.
Qed.

Lemma BytesArray_pop_chunk_witness :
  ba_wf (BytesArray_from_chunks [[]; [1; 2; 3]; [4]]) ∧
  ∃ chunk n s', BytesArray_pop_chunk (BytesArray_from_chunks [[]; [1; 2; 3]; [4]]) 2 = Ok (chunk, n, s') ∧
    ba_wf s' ∧ chunk ++ ba_rest s' = ba_rest (BytesArray_from_chunks [[]; [1; 2; 3]; [4]]) ∧
    len chunk <= 2 ∧ (chunk = [] → 2 = 0 ∨ ba_rest (BytesArray_from_chunks [[]; [1; 2; 3]; [4]]) = []) ∧
    n = ba_consumed s' - ba_consumed (BytesArray_from_chunks [[]; [1; 2; 3]; [4]]).
Proof.
  split; [unfold ba_wf; vm_compute; split; discriminate|].
  apply (BytesArray_pop_chunk_spec (BytesArray_from_chunks [[]; [1; 2; 3]; [4]]) 2);
    [unfold ba_wf; vm_compute; split; discriminate|lia].
Defined.

(** [remaining] and [has_remaining] subtract a number of consumed chunks from a number of
    bytes: after the single buffer of three bytes has been handed out completely the source
    still reports two remaining bytes. *)
Theorem BytesArray_remaining_mixes_units :
  ∃ s n, BytesArray_pop_chunk (BytesArray_from_chunks [[1; 2; 3]]) 16 = Ok ([1; 2; 3], n, s) ∧
    ba_rest s = [] ∧ BytesArray_has_remaining s = true ∧ BytesArray_remaining s = Ok 2.
Proof. eexists _, _. split; [vm_compute; reflexivity|]. vm_compute. done. Qed.
