(* ===== verification/Params.v ===== *)
(** * Parameters ([src/param])

    The type-length-value parameters of INIT, HEARTBEAT and RE-CONFIG
    chunks: one record or constructor per struct, its four [Param] methods,
    the dispatch on the wire type in [build_param], and the two facts the
    chunk codec needs of them: decoding any bytes returns (a value or an
    error), and decoding what was encoded gives the parameter back. *)

From stdpp Require Import base list numbers sets.
From Stdlib Require Import ZArith Lia ZifyBool.
From S2P Require Import Prelude Bytes Util.

(** ** Chunk types ([src/chunk/chunk_type.rs]), a newtype over [u8] *)

Abbreviation ChunkType := Z (only parsing).
Definition CT_PAYLOAD_DATA : ChunkType := 0.
Definition CT_INIT : ChunkType := 1.
Definition CT_INIT_ACK : ChunkType := 2.
Definition CT_SACK : ChunkType := 3.
Definition CT_HEARTBEAT : ChunkType := 4.
Definition CT_HEARTBEAT_ACK : ChunkType := 5.
Definition CT_ABORT : ChunkType := 6.
Definition CT_SHUTDOWN : ChunkType := 7.
Definition CT_SHUTDOWN_ACK : ChunkType := 8.
Definition CT_ERROR : ChunkType := 9.
Definition CT_COOKIE_ECHO : ChunkType := 10.
Definition CT_COOKIE_ACK : ChunkType := 11.
Definition CT_CWR : ChunkType := 13.
Definition CT_SHUTDOWN_COMPLETE : ChunkType := 14.
Definition CT_RECONFIG : ChunkType := 130.
Definition CT_FORWARD_TSN : ChunkType := 192.
Definition CT_I_FORWARD_TSN : ChunkType := 194.

(** ** Parameter types *)

Inductive ParamType : Type :=
| HeartbeatInfo | Ipv4Addr | Ipv6Addr | StateCookie | UnrecognizedParam
| CookiePreservative | HostNameAddr | SupportedAddrTypes | OutSsnResetReq
| IncSsnResetReq | SsnTsnResetReq | ReconfigResp | AddOutStreamsReq
| AddIncStreamsReq | Random | ChunkList | ReqHmacAlgo | Padding
| SupportedExt | ForwardTsnSupp | AddIpAddr | DelIpaddr | ErrClauseInd
| SetPriAddr | SuccessInd | AdaptLayerInd
| UnknownParamType (param_type : u16).

#[export] Instance ParamType_eq_dec : EqDecision ParamType.
Proof. solve_decision. Defined.

Definition ParamType_from_u16 (v : u16) : ParamType :=
  if v =? 1 then HeartbeatInfo
  else if v =? 5 then Ipv4Addr
  else if v =? 6 then Ipv6Addr
  else if v =? 7 then StateCookie
  else if v =? 8 then UnrecognizedParam
  else if v =? 9 then CookiePreservative
  else if v =? 11 then HostNameAddr
  else if v =? 12 then SupportedAddrTypes
  else if v =? 13 then OutSsnResetReq
  else if v =? 14 then IncSsnResetReq
  else if v =? 15 then SsnTsnResetReq
  else if v =? 16 then ReconfigResp
  else if v =? 17 then AddOutStreamsReq
  else if v =? 18 then AddIncStreamsReq
  else if v =? 32770 then Random
  else if v =? 32771 then ChunkList
  else if v =? 32772 then ReqHmacAlgo
  else if v =? 32773 then Padding
  else if v =? 32776 then SupportedExt
  else if v =? 49152 then ForwardTsnSupp
  else if v =? 49153 then AddIpAddr
  else if v =? 49154 then DelIpaddr
  else if v =? 49155 then ErrClauseInd
  else if v =? 49156 then SetPriAddr
  else if v =? 49157 then SuccessInd
  else UnknownParamType v.

Definition ParamType_into_u16 (t : ParamType) : u16 :=
  match t with
  | HeartbeatInfo => 1
  | Ipv4Addr => 5
  | Ipv6Addr => 6
  | StateCookie => 7
  | UnrecognizedParam => 8
  | CookiePreservative => 9
  | HostNameAddr => 11
  | SupportedAddrTypes => 12
  | OutSsnResetReq => 13
  | IncSsnResetReq => 14
  | SsnTsnResetReq => 15
  | ReconfigResp => 16
  | AddOutStreamsReq => 17
  | AddIncStreamsReq => 18
  | Random => 32770
  | ChunkList => 32771
  | ReqHmacAlgo => 32772
  | Padding => 32773
  | SupportedExt => 32776
  | ForwardTsnSupp => 49152
  | AddIpAddr => 49153
  | DelIpaddr => 49154
  | ErrClauseInd => 49155
  | SetPriAddr => 49156
  | SuccessInd => 49157
  | AdaptLayerInd => 49158
  | UnknownParamType v => v
  end.

(** ** Data of the parameters *)

Record ParamHeader := mkParamHeader { ph_typ : ParamType; ph_value_length : u16 }.

Definition PARAM_HEADER_LENGTH : usize := 4.

Inductive HmacAlgorithm : Type := HmacResv1 | HmacSha128 | HmacResv2 | HmacSha256 | HmacUnknown.

Definition HmacAlgorithm_from_u16 (v : u16) : HmacAlgorithm :=
  if v =? 0 then HmacResv1 else if v =? 1 then HmacSha128
  else if v =? 2 then HmacResv2 else if v =? 3 then HmacSha256 else HmacUnknown.

Definition HmacAlgorithm_as_u16 (a : HmacAlgorithm) : u16 :=
  match a with HmacResv1 => 0 | HmacSha128 => 1 | HmacResv2 => 2 | HmacSha256 => 3 | HmacUnknown => 4 end.

Inductive ReconfigResult : Type :=
| SuccessNop | SuccessPerformed | Denied | ErrorWrongSsn
| ErrorRequestAlreadyInProgress | ErrorBadSequenceNumber | InProgress | ReconfigUnknown.

#[export] Instance ReconfigResult_eq_dec : EqDecision ReconfigResult.
Proof. solve_decision. Defined.

Definition ReconfigResult_from_u32 (v : u32) : ReconfigResult :=
  if v =? 0 then SuccessNop else if v =? 1 then SuccessPerformed
  else if v =? 2 then Denied else if v =? 3 then ErrorWrongSsn
  else if v =? 4 then ErrorRequestAlreadyInProgress
  else if v =? 5 then ErrorBadSequenceNumber
  else if v =? 6 then InProgress else ReconfigUnknown.

Definition ReconfigResult_as_u32 (r : ReconfigResult) : u32 :=
  match r with
  | SuccessNop => 0 | SuccessPerformed => 1 | Denied => 2 | ErrorWrongSsn => 3
  | ErrorRequestAlreadyInProgress => 4 | ErrorBadSequenceNumber => 5 | InProgress => 6
  | ReconfigUnknown => 7
  end.

Record ParamOutgoingResetRequest := mkParamOutgoingResetRequest {
  reconfig_request_sequence_number : u32;
  reconfig_response_sequence_number : u32;
  sender_last_tsn : u32;
  stream_identifiers : list u16;
}.

Record ParamReconfigResponse := mkParamReconfigResponse {
  rr_response_sequence_number : u32;
  rr_result : ReconfigResult;
}.

(** [Box<dyn Param>]: one constructor per implementing struct. *)
Inductive Param : Type :=
| PForwardTsnSupported
| PSupportedExtensions (chunk_types : list ChunkType)
| PRandom (random_data : Bytes)
| PRequestedHmacAlgorithm (available_algorithms : list HmacAlgorithm)
| PChunkList (chunk_types : list ChunkType)
| PStateCookie (cookie : Bytes)
| PSupportedAddressTypes (address_types : list ParamType)
| PHeartbeatInfo (heartbeat_information : Bytes)
| POutgoingResetRequest (p : ParamOutgoingResetRequest)
| PReconfigResponse (p : ParamReconfigResponse)
| PUnknown (typ : u16) (value : Bytes).

(** ** Reader loops *)

(** [while reader.has_remaining() { v.push(get(reader)) }] *)
Fixpoint read_rest {A} (get : Bytes → Outcome (A * Bytes)) (fuel : nat) (reader : Bytes)
    : Outcome (list A) :=
  match fuel with
  | O => Stuck
  | S fuel' =>
      if 0 <? len reader then
        '(a, reader') ← get reader; l ← read_rest get fuel' reader'; Ok (a :: l)
      else Ok []
  end.

(** [for _ in 0..n { v.push(get(reader)) }] *)
Fixpoint read_times {A} (get : Bytes → Outcome (A * Bytes)) (n : nat) (reader : Bytes)
    : Outcome (list A * Bytes) :=
  match n with
  | O => Ok ([], reader)
  | S n' => '(a, reader') ← get reader; '(l, r) ← read_times get n' reader'; Ok (a :: l, r)
  end.

Section Params.
Context {B : BufApi}.

(** ** [ParamHeader] *)

Definition ParamHeader_unmarshal (raw : Bytes) : Outcome ParamHeader :=
  if len raw <? PARAM_HEADER_LENGTH then Err ErrParamHeaderTooShort else
  '(t, reader) ← get_u16 raw;
  '(l, reader) ← get_u16 reader;
  if (l <? PARAM_HEADER_LENGTH) || (len raw <? l) then Err ErrParamHeaderTooShort else
  Ok (mkParamHeader (ParamType_from_u16 t) (wrap 16 (l - PARAM_HEADER_LENGTH))).

Definition ParamHeader_marshal_to (h : ParamHeader) (writer : Bytes) : Outcome Bytes :=
  let writer := put_u16 writer (ParamType_into_u16 (ph_typ h)) in
  l ← checked_add 16 (ph_value_length h) PARAM_HEADER_LENGTH;
  Ok (put_u16 writer l).

(** The value of the parameter: [raw.slice(4..4 + header.value_length())]. *)
Definition param_value (raw : Bytes) (h : ParamHeader) : Outcome Bytes :=
  slice raw PARAM_HEADER_LENGTH (PARAM_HEADER_LENGTH + ph_value_length h).

(** ** [ParamForwardTsnSupported] *)

Definition ParamForwardTsnSupported_value_length : usize := 0.
Definition ParamForwardTsnSupported_header : ParamHeader :=
  mkParamHeader ForwardTsnSupp (wrap 16 ParamForwardTsnSupported_value_length).
Definition ParamForwardTsnSupported_unmarshal (raw : Bytes) : Outcome unit :=
  _ ← ParamHeader_unmarshal raw; Ok tt.
Definition ParamForwardTsnSupported_marshal_to (buf : Bytes) : Outcome Bytes :=
  ParamHeader_marshal_to ParamForwardTsnSupported_header buf.

(** ** [ParamSupportedExtensions] *)

Definition ParamSupportedExtensions_value_length (cts : list ChunkType) : usize := len cts.
Definition ParamSupportedExtensions_header (cts : list ChunkType) : ParamHeader :=
  mkParamHeader SupportedExt (wrap 16 (ParamSupportedExtensions_value_length cts)).
Definition ParamSupportedExtensions_unmarshal (raw : Bytes) : Outcome (list ChunkType) :=
  header ← ParamHeader_unmarshal raw;
  reader ← param_value raw header;
  read_rest get_u8 (S (length reader)) reader.
Definition ParamSupportedExtensions_marshal_to (cts : list ChunkType) (buf : Bytes) : Outcome Bytes :=
  buf ← ParamHeader_marshal_to (ParamSupportedExtensions_header cts) buf;
  Ok (fold_left put_u8 cts buf).

(** ** [ParamRandom] *)

Definition ParamRandom_value_length (random_data : Bytes) : usize := len random_data.
Definition ParamRandom_header (random_data : Bytes) : ParamHeader :=
  mkParamHeader Random (wrap 16 (ParamRandom_value_length random_data)).
Definition ParamRandom_unmarshal (raw : Bytes) : Outcome Bytes :=
  header ← ParamHeader_unmarshal raw;
  param_value raw header.
Definition ParamRandom_marshal_to (random_data : Bytes) (buf : Bytes) : Outcome Bytes :=
  buf ← ParamHeader_marshal_to (ParamRandom_header random_data) buf;
  Ok (buf ++ random_data).

(** ** [ParamRequestedHmacAlgorithm] *)

(** [while offset + 1 < header.value_length()] *)
Fixpoint hmac_loop (fuel : nat) (offset value_length : usize) (reader : Bytes)
    : Outcome (list HmacAlgorithm) :=
  match fuel with
  | O => Stuck
  | S fuel' =>
      if offset + 1 <? value_length then
        '(v, reader) ← get_u16 reader;
        match HmacAlgorithm_from_u16 v with
        | HmacSha128 => l ← hmac_loop fuel' (offset + 2) value_length reader; Ok (HmacSha128 :: l)
        | HmacSha256 => l ← hmac_loop fuel' (offset + 2) value_length reader; Ok (HmacSha256 :: l)
        | _ => Err ErrInvalidAlgorithmType
        end
      else Ok []
  end.
Definition ParamRequestedHmacAlgorithm_value_length (l : list HmacAlgorithm) : usize := 2 * len l.
Definition ParamRequestedHmacAlgorithm_header (l : list HmacAlgorithm) : ParamHeader :=
  mkParamHeader ReqHmacAlgo (wrap 16 (ParamRequestedHmacAlgorithm_value_length l)).
Definition ParamRequestedHmacAlgorithm_unmarshal (raw : Bytes) : Outcome (list HmacAlgorithm) :=
  header ← ParamHeader_unmarshal raw;
  reader ← param_value raw header;
  hmac_loop (S (length reader)) 0 (ph_value_length header) reader.
Definition ParamRequestedHmacAlgorithm_marshal_to (l : list HmacAlgorithm) (buf : Bytes) : Outcome Bytes :=
  buf ← ParamHeader_marshal_to (ParamRequestedHmacAlgorithm_header l) buf;
  Ok (fold_left (λ w a, put_u16 w (HmacAlgorithm_as_u16 a)) l buf).

(** ** [ParamChunkList] *)

Definition ParamChunkList_value_length (cts : list ChunkType) : usize := len cts.
Definition ParamChunkList_header (cts : list ChunkType) : ParamHeader :=
  mkParamHeader ChunkList (wrap 16 (ParamChunkList_value_length cts)).
Definition ParamChunkList_unmarshal (raw : Bytes) : Outcome (list ChunkType) :=
  header ← ParamHeader_unmarshal raw;
  _ ← guard_err (negb (bool_decide (ph_typ header = ChunkList))) ErrParamTypeUnexpected;
  reader ← param_value raw header;
  read_rest get_u8 (S (length reader)) reader.
Definition ParamChunkList_marshal_to (cts : list ChunkType) (buf : Bytes) : Outcome Bytes :=
  buf ← ParamHeader_marshal_to (ParamChunkList_header cts) buf;
  Ok (fold_left put_u8 cts buf).

(** ** [ParamStateCookie] *)

Definition ParamStateCookie_value_length (cookie : Bytes) : usize := len cookie.
Definition ParamStateCookie_header (cookie : Bytes) : ParamHeader :=
  mkParamHeader StateCookie (wrap 16 (ParamStateCookie_value_length cookie)).
Definition ParamStateCookie_unmarshal (raw : Bytes) : Outcome Bytes :=
  header ← ParamHeader_unmarshal raw;
  param_value raw header.
Definition ParamStateCookie_marshal_to (cookie : Bytes) (buf : Bytes) : Outcome Bytes :=
  buf ← ParamHeader_marshal_to (ParamStateCookie_header cookie) buf;
  Ok (buf ++ cookie).

(** ** [ParamSupportedAddressTypes] *)

Definition ParamSupportedAddressTypes_value_length (ts : list ParamType) : usize := len ts * 2.
Definition ParamSupportedAddressTypes_header (ts : list ParamType) : ParamHeader :=
  mkParamHeader SupportedAddrTypes (wrap 16 (ParamSupportedAddressTypes_value_length ts)).
Definition ParamSupportedAddressTypes_unmarshal (raw : Bytes) : Outcome (list ParamType) :=
  header ← ParamHeader_unmarshal raw;
  _ ← guard_err (negb (ph_value_length header mod 2 =? 0)) ErrSupportedAddressTypesParamInvalidLength;
  reader ← param_value raw header;
  ts ← read_rest get_u16 (S (length reader)) reader;
  Ok (map ParamType_from_u16 ts).
Definition ParamSupportedAddressTypes_marshal_to (ts : list ParamType) (buf : Bytes) : Outcome Bytes :=
  buf ← ParamHeader_marshal_to (ParamSupportedAddressTypes_header ts) buf;
  Ok (fold_left (λ w t, put_u16 w (ParamType_into_u16 t)) ts buf).

(** ** [ParamHeartbeatInfo] *)

Definition ParamHeartbeatInfo_value_length (info : Bytes) : usize := len info.
Definition ParamHeartbeatInfo_header (info : Bytes) : ParamHeader :=
  mkParamHeader HeartbeatInfo (wrap 16 (ParamHeartbeatInfo_value_length info)).
Definition ParamHeartbeatInfo_unmarshal (raw : Bytes) : Outcome Bytes :=
  header ← ParamHeader_unmarshal raw;
  param_value raw header.
Definition ParamHeartbeatInfo_marshal_to (info : Bytes) (buf : Bytes) : Outcome Bytes :=
  buf ← ParamHeader_marshal_to (ParamHeartbeatInfo_header info) buf;
  Ok (buf ++ info).

(** ** [ParamOutgoingResetRequest] *)

Definition PARAM_OUTGOING_RESET_REQUEST_STREAM_IDENTIFIERS_OFFSET : usize := 12.
Definition ParamOutgoingResetRequest_value_length (p : ParamOutgoingResetRequest) : usize :=
  PARAM_OUTGOING_RESET_REQUEST_STREAM_IDENTIFIERS_OFFSET + len (stream_identifiers p) * 2.
Definition ParamOutgoingResetRequest_header (p : ParamOutgoingResetRequest) : ParamHeader :=
  mkParamHeader OutSsnResetReq (wrap 16 (ParamOutgoingResetRequest_value_length p)).
Definition ParamOutgoingResetRequest_unmarshal (raw : Bytes) : Outcome ParamOutgoingResetRequest :=
  header ← ParamHeader_unmarshal raw;
  let OFFSET := PARAM_OUTGOING_RESET_REQUEST_STREAM_IDENTIFIERS_OFFSET in
  _ ← guard_err (ph_value_length header <? OFFSET) ErrSsnResetRequestParamTooShort;
  _ ← guard_err (negb ((ph_value_length header - OFFSET) mod 2 =? 0)) ErrSsnResetRequestParamInvalidLength;
  reader ← param_value raw header;
  '(req, reader) ← get_u32 reader;
  '(resp, reader) ← get_u32 reader;
  '(last, reader) ← get_u32 reader;
  let lim := (ph_value_length header - OFFSET) / 2 in
  '(ids, _) ← read_times get_u16 (Z.to_nat lim) reader;
  Ok (mkParamOutgoingResetRequest req resp last ids).
Definition ParamOutgoingResetRequest_marshal_to (p : ParamOutgoingResetRequest) (buf : Bytes) : Outcome Bytes :=
  buf ← ParamHeader_marshal_to (ParamOutgoingResetRequest_header p) buf;
  let buf := put_u32 buf (reconfig_request_sequence_number p) in
  let buf := put_u32 buf (reconfig_response_sequence_number p) in
  let buf := put_u32 buf (sender_last_tsn p) in
  Ok (fold_left put_u16 (stream_identifiers p) buf).

(** ** [ParamReconfigResponse] *)

Definition ParamReconfigResponse_value_length : usize := 8.
Definition ParamReconfigResponse_header : ParamHeader :=
  mkParamHeader ReconfigResp (wrap 16 ParamReconfigResponse_value_length).
Definition ParamReconfigResponse_unmarshal (raw : Bytes) : Outcome ParamReconfigResponse :=
  header ← ParamHeader_unmarshal raw;
  _ ← guard_err (ph_value_length header <? 8) ErrReconfigRespParamTooShort;
  reader ← param_value raw header;
  '(seq, reader) ← get_u32 reader;
  '(result, reader) ← get_u32 reader;
  Ok (mkParamReconfigResponse seq (ReconfigResult_from_u32 result)).
Definition ParamReconfigResponse_marshal_to (p : ParamReconfigResponse) (buf : Bytes) : Outcome Bytes :=
  buf ← ParamHeader_marshal_to ParamReconfigResponse_header buf;
  let buf := put_u32 buf (rr_response_sequence_number p) in
  Ok (put_u32 buf (ReconfigResult_as_u32 (rr_result p))).

(** ** [ParamUnknown] *)

Definition ParamUnknown_value_length (value : Bytes) : usize := len value.
Definition ParamUnknown_header (typ : u16) (value : Bytes) : ParamHeader :=
  mkParamHeader (UnknownParamType typ) (wrap 16 (len value)).
Definition ParamUnknown_unmarshal (raw : Bytes) : Outcome (u16 * Bytes) :=
  header ← ParamHeader_unmarshal raw;
  value ← param_value raw header;
  Ok (ParamType_into_u16 (ph_typ header), value).
Definition ParamUnknown_marshal_to (typ : u16) (value : Bytes) (buf : Bytes) : Outcome Bytes :=
  buf ← ParamHeader_marshal_to (ParamUnknown_header typ value) buf;
  Ok (buf ++ value).

(** ** The [Param] trait object *)

Definition Param_header (p : Param) : ParamHeader :=
  match p with
  | PForwardTsnSupported => ParamForwardTsnSupported_header
  | PSupportedExtensions cts => ParamSupportedExtensions_header cts
  | PRandom d => ParamRandom_header d
  | PRequestedHmacAlgorithm l => ParamRequestedHmacAlgorithm_header l
  | PChunkList cts => ParamChunkList_header cts
  | PStateCookie c => ParamStateCookie_header c
  | PSupportedAddressTypes ts => ParamSupportedAddressTypes_header ts
  | PHeartbeatInfo i => ParamHeartbeatInfo_header i
  | POutgoingResetRequest p => ParamOutgoingResetRequest_header p
  | PReconfigResponse _ => ParamReconfigResponse_header
  | PUnknown typ v => ParamUnknown_header typ v
  end.

Definition Param_value_length (p : Param) : usize :=
  match p with
  | PForwardTsnSupported => ParamForwardTsnSupported_value_length
  | PSupportedExtensions cts => ParamSupportedExtensions_value_length cts
  | PRandom d => ParamRandom_value_length d
  | PRequestedHmacAlgorithm l => ParamRequestedHmacAlgorithm_value_length l
  | PChunkList cts => ParamChunkList_value_length cts
  | PStateCookie c => ParamStateCookie_value_length c
  | PSupportedAddressTypes ts => ParamSupportedAddressTypes_value_length ts
  | PHeartbeatInfo i => ParamHeartbeatInfo_value_length i
  | POutgoingResetRequest p => ParamOutgoingResetRequest_value_length p
  | PReconfigResponse _ => ParamReconfigResponse_value_length
  | PUnknown _ v => ParamUnknown_value_length v
  end.

Definition Param_marshal_to (p : Param) (buf : Bytes) : Outcome Bytes :=
  match p with
  | PForwardTsnSupported => ParamForwardTsnSupported_marshal_to buf
  | PSupportedExtensions cts => ParamSupportedExtensions_marshal_to cts buf
  | PRandom d => ParamRandom_marshal_to d buf
  | PRequestedHmacAlgorithm l => ParamRequestedHmacAlgorithm_marshal_to l buf
  | PChunkList cts => ParamChunkList_marshal_to cts buf
  | PStateCookie c => ParamStateCookie_marshal_to c buf
  | PSupportedAddressTypes ts => ParamSupportedAddressTypes_marshal_to ts buf
  | PHeartbeatInfo i => ParamHeartbeatInfo_marshal_to i buf
  | POutgoingResetRequest p => ParamOutgoingResetRequest_marshal_to p buf
  | PReconfigResponse p => ParamReconfigResponse_marshal_to p buf
  | PUnknown typ v => ParamUnknown_marshal_to typ v buf
  end.

Definition Param_marshal (p : Param) : Outcome Bytes := Param_marshal_to p [].

Definition build_param (raw_param : Bytes) : Outcome Param :=
  if len raw_param <? PARAM_HEADER_LENGTH then Err ErrParamHeaderTooShort else
  reader ← slice raw_param 0 2;
  '(raw_type, _) ← get_u16 reader;
  match ParamType_from_u16 raw_type with
  | ForwardTsnSupp => _ ← ParamForwardTsnSupported_unmarshal raw_param; Ok PForwardTsnSupported
  | SupportedExt => l ← ParamSupportedExtensions_unmarshal raw_param; Ok (PSupportedExtensions l)
  | Random => d ← ParamRandom_unmarshal raw_param; Ok (PRandom d)
  | ReqHmacAlgo => l ← ParamRequestedHmacAlgorithm_unmarshal raw_param; Ok (PRequestedHmacAlgorithm l)
  | ChunkList => l ← ParamChunkList_unmarshal raw_param; Ok (PChunkList l)
  | StateCookie => c ← ParamStateCookie_unmarshal raw_param; Ok (PStateCookie c)
  | SupportedAddrTypes => l ← ParamSupportedAddressTypes_unmarshal raw_param; Ok (PSupportedAddressTypes l)
  | HeartbeatInfo => i ← ParamHeartbeatInfo_unmarshal raw_param; Ok (PHeartbeatInfo i)
  | OutSsnResetReq => p ← ParamOutgoingResetRequest_unmarshal raw_param; Ok (POutgoingResetRequest p)
  | ReconfigResp => p ← ParamReconfigResponse_unmarshal raw_param; Ok (PReconfigResponse p)
  | _ =>
      let stop_processing := Z.land (Z.shiftr raw_type 15) 1 =? 0 in
      if stop_processing then Err (ErrParamTypeUnhandled raw_type)
      else '(typ, value) ← ParamUnknown_unmarshal raw_param; Ok (PUnknown typ value)
  end.
End Params.

(** ** Decoding returns

    The tactic walks a monadic definition: it reduces a bind to its two
    parts and names the value that was produced. *)

Ltac outcome_step :=
  match goal with
  | |- returns (guard_err _ _) => apply returns_guard
  | |- returns (Ok _) => exact I
  | |- returns (Err _) => exact I
  | |- returns (let '(_, _) := ?x in _) => destruct x
  | |- returns (if ?c then _ else _) => let E := fresh "Hif" in destruct c eqn:E
  | |- returns (_ ≫= _) => apply returns_bind; [|let a := fresh "a" in let H := fresh "Hok" in intros a H]
  end.
Ltac outcome := repeat outcome_step.

Lemma Param_value_length_nonneg p : 0 <= Param_value_length p.
Proof.
  destruct p; cbn [Param_value_length];
    unfold ParamForwardTsnSupported_value_length, ParamSupportedExtensions_value_length,
      ParamRandom_value_length, ParamRequestedHmacAlgorithm_value_length, ParamChunkList_value_length,
      ParamStateCookie_value_length, ParamSupportedAddressTypes_value_length,
      ParamHeartbeatInfo_value_length, ParamOutgoingResetRequest_value_length,
      ParamReconfigResponse_value_length, ParamUnknown_value_length,
      PARAM_OUTGOING_RESET_REQUEST_STREAM_IDENTIFIERS_OFFSET; unfold len; lia.
Qed.

Section ParamsReturn.
Context {B : BufApi} {BL : BufLaws B}.

Lemma ParamHeader_unmarshal_returns raw : returns (ParamHeader_unmarshal raw).
Proof.
  unfold ParamHeader_unmarshal, PARAM_HEADER_LENGTH. rewrite get_u16_law.
  outcome; [apply read_n_returns; lia|].
  rewrite get_u16_law. outcome. apply read_n_returns.
  apply read_n_Ok in Hok as (_ & _ & ->). rewrite len_drop. lia.
Qed.

Lemma ParamHeader_unmarshal_bounds raw h :
  ParamHeader_unmarshal raw = Ok h → 0 <= ph_value_length h ∧ 4 + ph_value_length h <= len raw.
Proof.
  unfold ParamHeader_unmarshal, PARAM_HEADER_LENGTH.
  destruct (len raw <? 4) eqn:E; [done|].
  intros ([t r] & _ & ([l r'] & _ & H)%bind_Ok)%bind_Ok.
  destruct ((l <? 4) || (len raw <? l)) eqn:E2; [done|]. inversion H; subst; simpl.
  pose proof (wrap_uN 16 (l - 4)). unfold uN, wrap in *.
  pose proof (Z.mod_le (l - 4) (2 ^ 16)). lia.
Qed.

Lemma param_value_Ok raw h :
  ParamHeader_unmarshal raw = Ok h →
  ∃ v, param_value raw h = Ok v ∧ len v = ph_value_length h.
Proof.
  intros [? ?]%ParamHeader_unmarshal_bounds. eexists. unfold param_value, PARAM_HEADER_LENGTH.
  rewrite slice_Ok by lia. split; [done|]. rewrite len_range by lia. lia.
Qed.

Lemma read_rest_returns {A} (get : Bytes → Outcome (A * Bytes)) (n : nat) fuel r :
  (0 < n)%nat →
  (∀ b, Z.of_nat n <= len b → ∃ a, get b = Ok (a, drop n b)) →
  len r mod Z.of_nat n = 0 → len r < Z.of_nat fuel → returns (read_rest get fuel r).
Proof.
  intros Hn Hget. revert r; induction fuel as [|fuel IH]; intros r Hm Hf; [unfold len in *; lia|].
  simpl. destruct (Z.ltb_spec 0 (len r)); [|done].
  assert (Z.of_nat n <= len r).
  { pose proof (Z.div_mod (len r) (Z.of_nat n)). assert (0 < len r / Z.of_nat n) by nia. nia. }
  destruct (Hget r) as [a ->]; [done|]. simpl. outcome. apply IH; rewrite len_drop; [|lia].
  rewrite Z.max_r by lia. rewrite Zminus_mod, Hm, Z.mod_same, Z.sub_0_r by lia. apply Z.mod_0_l. lia.
Qed.

Lemma get_u8_drop b : 1 <= len b → ∃ a, get_u8 b = Ok (a, drop 1 b).
Proof. intros. rewrite get_u8_law. unfold read_n, len in *. rewrite decide_True by lia. eauto. Qed.

Lemma get_u16_drop b : 2 <= len b → ∃ a, get_u16 b = Ok (a, drop 2 b).
Proof. intros. rewrite get_u16_law. unfold read_n, len in *. rewrite decide_True by lia. eauto. Qed.

Lemma get_u16_drop_uN b : bytes_ok b → 2 <= len b → ∃ a, get_u16 b = Ok (a, drop 2 b) ∧ uN 16 a.
Proof.
  intros Hb ?. rewrite get_u16_law. unfold read_n, len in *. rewrite decide_True by lia.
  eexists. split; [done|]. pose proof (be_val_bounds (take 2 b) (Forall_take _ _ _ Hb)) as H'.
  unfold len in H'. rewrite length_take_le in H' by lia. done.
Qed.

Lemma get_u32_drop b : 4 <= len b → ∃ a, get_u32 b = Ok (a, drop 4 b).
Proof. intros. rewrite get_u32_law. unfold read_n, len in *. rewrite decide_True by lia. eauto. Qed.

Lemma read_u8s_returns r : returns (read_rest get_u8 (S (length r)) r).
Proof.
  apply (read_rest_returns _ 1); [lia|apply get_u8_drop|apply Z.mod_1_r|unfold len; lia].
Qed.

Lemma read_times_u16_returns n r : 2 * Z.of_nat n <= len r → returns (read_times get_u16 n r).
Proof.
  revert r; induction n as [|n IH]; intros r Hr; [done|]. simpl.
  destruct (get_u16_drop r) as [a ->]; [lia|]. simpl. outcome. apply IH. rewrite len_drop. lia.
Qed.

Lemma hmac_loop_returns fuel offset vl r :
  0 <= vl - offset < Z.of_nat fuel → vl - offset <= len r → returns (hmac_loop fuel offset vl r).
Proof.
  revert offset r; induction fuel as [|fuel IH]; intros offset r Hf Hr; [lia|].
  cbn [hmac_loop]. destruct (Z.ltb_spec (offset + 1) vl); [|done].
  destruct (get_u16_drop r) as [a ->]; [lia|]. simpl.
  destruct (HmacAlgorithm_from_u16 a); try done; outcome; apply IH; rewrite ?len_drop; lia.
Qed.

(** A parameter decoder that starts with the header and the value. *)
Lemma returns_value {A} raw (f : ParamHeader → Bytes → Outcome A) :
  (∀ h v, len v = ph_value_length h → returns (f h v)) →
  returns (h ← ParamHeader_unmarshal raw; v ← param_value raw h; f h v).
Proof.
  intros Hf. apply returns_bind; [apply ParamHeader_unmarshal_returns|]. intros h Hh.
  destruct (param_value_Ok raw h Hh) as (v & -> & Hv). by apply Hf.
Qed.

(** The same with a guard on the header between the two. *)
Lemma returns_guarded_value {A} raw (c : ParamHeader → bool) e (f : ParamHeader → Bytes → Outcome A) :
  (∀ h v, len v = ph_value_length h → c h = false → returns (f h v)) →
  returns (h ← ParamHeader_unmarshal raw; _ ← guard_err (c h) e; v ← param_value raw h; f h v).
Proof.
  intros Hf. apply returns_bind; [apply ParamHeader_unmarshal_returns|]. intros h Hh.
  apply returns_bind; [apply returns_guard|]. intros [] Hc%guard_err_Ok.
  destruct (param_value_Ok raw h Hh) as (v & -> & Hv). by apply Hf.
Qed.

Lemma ParamBytes_returns raw : returns (h ← ParamHeader_unmarshal raw; param_value raw h).
Proof.
  apply returns_bind; [apply ParamHeader_unmarshal_returns|]. intros h Hh.
  by destruct (param_value_Ok raw h Hh) as (v & -> & _).
Qed.

Lemma ParamForwardTsnSupported_returns raw : returns (ParamForwardTsnSupported_unmarshal raw).
Proof. apply returns_bind; [apply ParamHeader_unmarshal_returns|done]. Qed.

Lemma ParamSupportedExtensions_returns raw : returns (ParamSupportedExtensions_unmarshal raw).
Proof. apply returns_value. intros h v Hv. apply read_u8s_returns. Qed.

Lemma ParamChunkList_returns raw : returns (ParamChunkList_unmarshal raw).
Proof. apply returns_guarded_value. intros h v Hv _. apply read_u8s_returns. Qed.

Lemma ParamRequestedHmacAlgorithm_returns raw : returns (ParamRequestedHmacAlgorithm_unmarshal raw).
Proof. apply returns_value. intros h v Hv. apply hmac_loop_returns; unfold len in *; lia. Qed.

Lemma ParamSupportedAddressTypes_returns raw : returns (ParamSupportedAddressTypes_unmarshal raw).
Proof.
  apply returns_guarded_value. intros h v Hv Hg%negb_false_iff%Z.eqb_eq.
  apply returns_bind; [|done].
  apply (read_rest_returns _ 2); [lia|apply get_u16_drop|by rewrite Hv|unfold len; lia].
Qed.

Lemma ParamOutgoingResetRequest_returns raw : returns (ParamOutgoingResetRequest_unmarshal raw).
Proof.
  apply returns_bind; [apply ParamHeader_unmarshal_returns|]. intros h Hh.
  apply returns_bind; [apply returns_guard|]. intros [] Hg%guard_err_Ok%Z.ltb_ge.
  apply returns_bind; [apply returns_guard|]. intros [] _.
  destruct (param_value_Ok raw h Hh) as (v & -> & Hv). cbn [mbind Outcome_bind].
  unfold PARAM_OUTGOING_RESET_REQUEST_STREAM_IDENTIFIERS_OFFSET in *.
  destruct (get_u32_drop v) as [? ->]; [lia|]. cbn [mbind Outcome_bind].
  destruct (get_u32_drop (drop 4 v)) as [? ->]; [rewrite len_drop; lia|]. cbn [mbind Outcome_bind].
  rewrite drop_drop. destruct (get_u32_drop (drop (4 + 4) v)) as [? ->]; [rewrite len_drop; lia|].
  cbn [mbind Outcome_bind]. rewrite drop_drop. apply returns_bind; [|by intros []].
  apply read_times_u16_returns. rewrite len_drop.
  pose proof (Z.mul_div_le (ph_value_length h - 12) 2). lia.
Qed.

Lemma ParamReconfigResponse_returns raw : returns (ParamReconfigResponse_unmarshal raw).
Proof.
  apply returns_guarded_value. intros h v Hv Hg%Z.ltb_ge.
  destruct (get_u32_drop v) as [? ->]; [lia|]. cbn [mbind Outcome_bind].
  by destruct (get_u32_drop (drop 4 v)) as [? ->]; [rewrite len_drop; lia|].
Qed.

Lemma ParamUnknown_returns raw : returns (ParamUnknown_unmarshal raw).
Proof. by apply returns_value. Qed.

#[local] Hint Resolve ParamBytes_returns ParamForwardTsnSupported_returns
  ParamSupportedExtensions_returns ParamChunkList_returns ParamRequestedHmacAlgorithm_returns
  ParamSupportedAddressTypes_returns ParamOutgoingResetRequest_returns
  ParamReconfigResponse_returns ParamUnknown_returns : outcome.

Lemma build_param_returns raw : returns (build_param raw).
Proof.
  unfold build_param, PARAM_HEADER_LENGTH. destruct (Z.ltb_spec (len raw) 4); [done|].
  rewrite slice_Ok by lia. cbn [mbind Outcome_bind].
  destruct (get_u16_drop (range raw 0 2)) as [t ->]; [rewrite len_range; lia|].
  cbn [mbind Outcome_bind].
  destruct (ParamType_from_u16 t);
    try (apply returns_bind; [unfold ParamStateCookie_unmarshal, ParamRandom_unmarshal,
      ParamHeartbeatInfo_unmarshal; auto with outcome|done]);
    (destruct (Z.land (Z.shiftr t 15) 1 =? 0); [done|]);
    (apply returns_bind; [auto with outcome|by intros []]).
Qed.
End ParamsReturn.

(** ** Round trips *)

(** Parameters that have an encoding: every field at its width, the value
    short enough for the 16-bit length, the address types and the unknown
    type such that their wire code denotes them, and only the algorithms a
    receiver accepts. *)
Definition Param_wf (p : Param) : Prop :=
  Param_value_length p + PARAM_HEADER_LENGTH < 2 ^ 16 ∧
  match p with
  | PForwardTsnSupported => True
  | PSupportedExtensions cts | PChunkList cts => bytes_ok cts
  | PRandom d | PStateCookie d | PHeartbeatInfo d => bytes_ok d
  | PRequestedHmacAlgorithm l => Forall (λ a, a = HmacSha128 ∨ a = HmacSha256) l
  | PSupportedAddressTypes ts =>
      Forall (λ t, uN 16 (ParamType_into_u16 t) ∧ ParamType_from_u16 (ParamType_into_u16 t) = t) ts
  | POutgoingResetRequest r =>
      uN 32 (reconfig_request_sequence_number r) ∧ uN 32 (reconfig_response_sequence_number r) ∧
      uN 32 (sender_last_tsn r) ∧ Forall (uN 16) (stream_identifiers r)
  | PReconfigResponse r => uN 32 (rr_response_sequence_number r)
  | PUnknown typ v =>
      bytes_ok v ∧ uN 16 typ ∧ Z.land (Z.shiftr typ 15) 1 = 1 ∧
      ParamType_from_u16 typ ∉ [ForwardTsnSupp; SupportedExt; Random; ReqHmacAlgo; ChunkList]
  end.

#[export] Instance HmacAlgorithm_eq_dec : EqDecision HmacAlgorithm.
Proof. solve_decision. Defined.

#[export] Instance Param_wf_dec p : Decision (Param_wf p).
Proof. unfold Param_wf. destruct p; apply _. Defined.

(** Wire codes: from and to [u16] are inverse on the codes. *)
Lemma ParamType_into_from v : ParamType_into_u16 (ParamType_from_u16 v) = v.
Proof.
  unfold ParamType_from_u16.
  repeat match goal with |- context [?a =? ?b] => destruct (Z.eqb_spec a b); [by subst|] end. done.
Qed.

Lemma ReconfigResult_from_as r : ReconfigResult_from_u32 (ReconfigResult_as_u32 r) = r.
Proof. by destruct r. Qed.

Section ParamsRoundtrip.
Context {B : BufApi} {BL : BufLaws B}.

(** The wire form of a parameter. *)
Definition tlv (t : u16) (value : Bytes) : Bytes := be 2 t ++ be 2 (len value + 4) ++ value.

Lemma ParamHeader_marshal_to_tlv typ n w :
  uN 16 (ParamType_into_u16 typ) → 0 <= n → n + 4 < 2 ^ 16 →
  ParamHeader_marshal_to (mkParamHeader typ (wrap 16 n)) w =
    Ok (w ++ be 2 (ParamType_into_u16 typ) ++ be 2 (n + 4)).
Proof.
  intros Ht Hn H. unfold ParamHeader_marshal_to, PARAM_HEADER_LENGTH. simpl ph_typ. simpl ph_value_length.
  rewrite wrap_small by (unfold uN; lia). unfold checked_add.
  destruct (Z.ltb_spec (n + 4) (2 ^ 16)); [|lia]. cbn [mbind Outcome_bind].
  rewrite !put_u16_law by (unfold uN in *; lia). by rewrite app_assoc.
Qed.

Lemma ParamHeader_unmarshal_tlv t v rest :
  uN 16 t → len v + 4 < 2 ^ 16 →
  ParamHeader_unmarshal (tlv t v ++ rest) = Ok (mkParamHeader (ParamType_from_u16 t) (len v)).
Proof.
  intros Ht Hv. unfold ParamHeader_unmarshal, tlv, PARAM_HEADER_LENGTH. pose proof (len_nonneg v).
  rewrite <- !app_assoc. destruct (Z.ltb_spec (len (be 2 t ++ be 2 (len v + 4) ++ v ++ rest)) 4); [lens|].
  rewrite get_u16_be by done. cbn [mbind Outcome_bind].
  rewrite get_u16_be by (unfold uN; lia). cbn [mbind Outcome_bind].
  destruct ((len v + 4 <? 4) || (len (be 2 t ++ be 2 (len v + 4) ++ v ++ rest) <? len v + 4)) eqn:E; [lens|].
  rewrite wrap_small by (unfold uN; lia). do 2 f_equal. lia.
Qed.

Lemma param_value_tlv t v rest :
  param_value (tlv t v ++ rest) (mkParamHeader (ParamType_from_u16 t) (len v)) = Ok v.
Proof.
  unfold param_value, tlv, PARAM_HEADER_LENGTH. simpl ph_value_length.
  rewrite <- !app_assoc. rewrite (app_assoc (be 2 t)). apply slice_mid; lens.
Qed.

Lemma read_rest_enc {A} (get : Bytes → Outcome (A * Bytes)) (enc : A → Bytes) fuel l :
  (∀ a r, a ∈ l → get (enc a ++ r) = Ok (a, r)) → (∀ a, a ∈ l → 0 < len (enc a)) →
  (length l < fuel)%nat → read_rest get fuel (flat_map enc l) = Ok l.
Proof.
  revert fuel; induction l as [|a l IH]; intros fuel Hget Hpos Hf; destruct fuel; simpl in *; try lia; [done|].
  assert (0 < len (enc a)) by (apply Hpos; left).
  pose proof (len_nonneg (flat_map enc l)).
  destruct (Z.ltb_spec 0 (len (enc a ++ flat_map enc l))); [|lens].
  rewrite Hget by left. cbn [mbind Outcome_bind].
  rewrite IH; [done|intros; apply Hget; by right|intros; apply Hpos; by right|lia].
Qed.

Lemma read_times_enc {A} (get : Bytes → Outcome (A * Bytes)) (enc : A → Bytes) l r :
  (∀ a r, a ∈ l → get (enc a ++ r) = Ok (a, r)) →
  read_times get (length l) (flat_map enc l ++ r) = Ok (l, r).
Proof.
  induction l as [|a l IH]; intros Hget; [done|]. simpl. rewrite <- app_assoc, Hget by left.
  cbn [mbind Outcome_bind]. rewrite IH; [done|]. intros; apply Hget; by right.
Qed.

Lemma fold_put {A} (put : Bytes → A → Bytes) (enc : A → Bytes) l w :
  (∀ w a, a ∈ l → put w a = w ++ enc a) → fold_left put l w = w ++ flat_map enc l.
Proof.
  revert w; induction l as [|a l IH]; intros w Hput; simpl; [by rewrite app_nil_r|].
  rewrite Hput by left. rewrite IH by (intros; apply Hput; by right). by rewrite app_assoc.
Qed.

Lemma len_mjoin_enc {A} (enc : A → Bytes) k l :
  (∀ a, len (enc a) = k) → len (flat_map enc l) = k * len l.
Proof. intros H. induction l as [|a l IH]; simpl; [unfold len; simpl; lia|]. rewrite len_app, H, IH. lens. Qed.

(** The wire value of a parameter. *)
Definition Param_body (p : Param) : Bytes :=
  match p with
  | PForwardTsnSupported => []
  | PSupportedExtensions cts | PChunkList cts => flat_map (be 1) cts
  | PRandom d | PStateCookie d | PHeartbeatInfo d => d
  | PRequestedHmacAlgorithm l => flat_map (λ a, be 2 (HmacAlgorithm_as_u16 a)) l
  | PSupportedAddressTypes ts => flat_map (λ t, be 2 (ParamType_into_u16 t)) ts
  | POutgoingResetRequest r =>
      be 4 (reconfig_request_sequence_number r) ++ be 4 (reconfig_response_sequence_number r) ++
      be 4 (sender_last_tsn r) ++ flat_map (be 2) (stream_identifiers r)
  | PReconfigResponse r =>
      be 4 (rr_response_sequence_number r) ++ be 4 (ReconfigResult_as_u32 (rr_result r))
  | PUnknown _ v => v
  end.

Definition Param_code (p : Param) : u16 := ParamType_into_u16 (ph_typ (Param_header p)).

Lemma len_Param_body p : len (Param_body p) = Param_value_length p.
Proof.
  destruct p; cbn [Param_body Param_value_length];
    unfold ParamForwardTsnSupported_value_length, ParamSupportedExtensions_value_length,
      ParamRandom_value_length, ParamRequestedHmacAlgorithm_value_length, ParamChunkList_value_length,
      ParamStateCookie_value_length, ParamSupportedAddressTypes_value_length,
      ParamHeartbeatInfo_value_length, ParamOutgoingResetRequest_value_length,
      ParamReconfigResponse_value_length, ParamUnknown_value_length,
      PARAM_OUTGOING_RESET_REQUEST_STREAM_IDENTIFIERS_OFFSET;
    rewrite ?len_app, ?(len_mjoin_enc _ 1), ?(len_mjoin_enc _ 2) by (intros; apply len_be);
    lens; done.
Qed.

Lemma Param_code_uN p : Param_wf p → uN 16 (Param_code p).
Proof. intros [_ H]. destruct p; cbn in *; try (unfold uN; lia). tauto. Qed.

Lemma Forall_elem {A} (P : A → Prop) l a : Forall P l → a ∈ l → P a.
Proof. rewrite Forall_forall. auto. Qed.

(** Encoding appends the wire form. *)
Lemma Param_marshal_to_tlv p w :
  Param_wf p → Param_marshal_to p w = Ok (w ++ tlv (Param_code p) (Param_body p)).
Proof.
  intros Hwf. pose proof (Param_code_uN p Hwf) as Hc. destruct Hwf as [Hl Hwf].
  unfold PARAM_HEADER_LENGTH in Hl. pose proof (Param_value_length_nonneg p) as Hn.
  pose proof (len_Param_body p) as Hb. unfold tlv. rewrite Hb.
  assert (ParamHeader_marshal_to (Param_header p) w =
    Ok (w ++ be 2 (Param_code p) ++ be 2 (Param_value_length p + 4))) as Hh.
  { destruct p; apply ParamHeader_marshal_to_tlv; done. }
  rewrite app_assoc in Hh.
  destruct p; cbn [Param_marshal_to];
    unfold ParamForwardTsnSupported_marshal_to, ParamSupportedExtensions_marshal_to,
      ParamRandom_marshal_to, ParamRequestedHmacAlgorithm_marshal_to, ParamChunkList_marshal_to,
      ParamStateCookie_marshal_to, ParamSupportedAddressTypes_marshal_to,
      ParamHeartbeatInfo_marshal_to, ParamOutgoingResetRequest_marshal_to,
      ParamReconfigResponse_marshal_to, ParamUnknown_marshal_to; cbn [Param_header] in Hh;
    rewrite Hh; cbn [mbind Outcome_bind]; f_equal; cbn [Param_body] in *; rewrite ?app_nil_r;
    rewrite ?app_assoc; try done.
  - apply fold_put. intros v a Ha. by apply put_u8_law, (Forall_elem _ _ _ Hwf).
  - apply fold_put. intros v a Ha. apply put_u16_law. by destruct a.
  - apply fold_put. intros v a Ha. by apply put_u8_law, (Forall_elem _ _ _ Hwf).
  - apply fold_put. intros v a Ha. by apply put_u16_law, (Forall_elem _ _ _ Hwf).
  - destruct Hwf as (? & ? & ? & Hs). rewrite !put_u32_law by done.
    apply fold_put. intros v a Ha. by apply put_u16_law, (Forall_elem _ _ _ Hs).
  - rewrite !put_u32_law; [done|done|]. by destruct (rr_result p).
Qed.

Lemma ParamBytes_unmarshal_tlv t v rest :
  uN 16 t → len v + 4 < 2 ^ 16 →
  (h ← ParamHeader_unmarshal (tlv t v ++ rest); param_value (tlv t v ++ rest) h) = Ok v.
Proof.
  intros. rewrite ParamHeader_unmarshal_tlv by done. cbn [mbind Outcome_bind]. apply param_value_tlv.
Qed.

Lemma read_u8s_enc cts : bytes_ok cts →
  read_rest get_u8 (S (length (flat_map (be 1) cts))) (flat_map (be 1) cts) = Ok cts.
Proof.
  intros Hok. apply read_rest_enc.
  - intros a r Ha. by apply get_u8_be, (Forall_elem _ _ _ Hok).
  - intros. lens.
  - pose proof (len_mjoin_enc (be 1) 1 cts (λ a, len_be 1 a)). unfold len in *. lia.
Qed.

Lemma hmac_loop_enc l fuel offset vl :
  Forall (λ a, a = HmacSha128 ∨ a = HmacSha256) l → vl = offset + 2 * len l → (length l < fuel)%nat →
  hmac_loop fuel offset vl (flat_map (λ a, be 2 (HmacAlgorithm_as_u16 a)) l) = Ok l.
Proof.
  revert fuel offset; induction l as [|a l IH]; intros fuel offset Hl Hvl Hf;
    (destruct fuel; simpl in Hf; [lia|]); cbn [hmac_loop]; rewrite len_cons in Hvl || idtac.
  - destruct (Z.ltb_spec (offset + 1) vl); [unfold len in *; simpl in *; lia|done].
  - pose proof (len_nonneg l). destruct (Z.ltb_spec (offset + 1) vl); [|lia]. cbn [flat_map].
    inversion Hl as [|? ? Ha Hl' E1]; subst.
    destruct Ha as [-> | ->]; rewrite get_u16_be by done; cbn -[hmac_loop];
      (rewrite IH; [done|done|lia|lia]).
Qed.

Lemma ParamSupportedAddressTypes_unmarshal_tlv ts rest :
  Param_wf (PSupportedAddressTypes ts) →
  ParamSupportedAddressTypes_unmarshal (tlv 12 (Param_body (PSupportedAddressTypes ts)) ++ rest) = Ok ts.
Proof.
  intros [Hl Hwf]. rewrite <- len_Param_body in Hl. unfold PARAM_HEADER_LENGTH in Hl.
  unfold ParamSupportedAddressTypes_unmarshal. rewrite ParamHeader_unmarshal_tlv by done.
  cbn [mbind Outcome_bind ph_value_length]. rewrite len_Param_body. cbn [Param_value_length].
  unfold ParamSupportedAddressTypes_value_length. rewrite Z.mod_mul by lia.
  change (guard_err (negb (0 =? 0)) ErrSupportedAddressTypesParamInvalidLength) with (@Ok unit tt).
  cbn [mbind Outcome_bind]. change (len ts * 2) with (Param_value_length (PSupportedAddressTypes ts)).
  rewrite <- len_Param_body, param_value_tlv.
  cbn [mbind Outcome_bind Param_body].
  replace (flat_map _ ts) with (flat_map (be 2) (map ParamType_into_u16 ts))
    by (clear; induction ts as [|t ts IH]; cbn [flat_map map]; [done|by rewrite IH]).
  rewrite (read_rest_enc get_u16 (be 2)).
  - cbn [mbind Outcome_bind]. f_equal. rewrite map_map.
    clear -Hwf. induction Hwf as [|t ts [_ Ht] _ IH]; cbn [map]; [done|by rewrite Ht, IH].
  - intros a r Ha. apply list_elem_of_In, in_map_iff in Ha as (t & <- & Ht%list_elem_of_In).
    apply get_u16_be, (Forall_elem _ _ _ Hwf Ht).
  - intros. lens.
  - pose proof (len_mjoin_enc (be 2) 2 (map ParamType_into_u16 ts) (λ a, len_be 2 a)).
    rewrite length_map. unfold len in *. rewrite length_map in *. lia.
Qed.

Lemma ParamOutgoingResetRequest_unmarshal_tlv r rest :
  Param_wf (POutgoingResetRequest r) →
  ParamOutgoingResetRequest_unmarshal (tlv 13 (Param_body (POutgoingResetRequest r)) ++ rest) = Ok r.
Proof.
  intros [Hl (H1 & H2 & H3 & H4)]. rewrite <- len_Param_body in Hl. unfold PARAM_HEADER_LENGTH in Hl.
  unfold ParamOutgoingResetRequest_unmarshal. rewrite ParamHeader_unmarshal_tlv by done.
  cbn [mbind Outcome_bind ph_value_length].
  rewrite (len_Param_body (POutgoingResetRequest r)). cbn [Param_value_length].
  unfold ParamOutgoingResetRequest_value_length, PARAM_OUTGOING_RESET_REQUEST_STREAM_IDENTIFIERS_OFFSET.
  rewrite Z.add_simpl_l, Z.mod_mul, Z.div_mul by lia. pose proof (len_nonneg (stream_identifiers r)).
  destruct (Z.ltb_spec (12 + len (stream_identifiers r) * 2) 12); [lia|].
  change (guard_err (negb (0 =? 0)) ErrSsnResetRequestParamInvalidLength) with (@Ok unit tt).
  cbn [guard_err mbind Outcome_bind].
  change (12 + len (stream_identifiers r) * 2) with (Param_value_length (POutgoingResetRequest r)).
  rewrite <- len_Param_body, param_value_tlv. cbn [mbind Outcome_bind Param_body].
  rewrite !get_u32_be by done. cbn [mbind Outcome_bind]. rewrite !get_u32_be by done.
  cbn [mbind Outcome_bind]. rewrite !get_u32_be by done. cbn [mbind Outcome_bind].
  rewrite <- (app_nil_r (flat_map _ _)). unfold len at 1. rewrite Nat2Z.id, (read_times_enc get_u16 (be 2)).
  - by destruct r.
  - intros a r' Ha. by apply get_u16_be, (Forall_elem _ _ _ H4).
Qed.

Lemma ParamReconfigResponse_unmarshal_tlv r rest :
  Param_wf (PReconfigResponse r) →
  ParamReconfigResponse_unmarshal (tlv 16 (Param_body (PReconfigResponse r)) ++ rest) = Ok r.
Proof.
  intros [Hl H1]. rewrite <- len_Param_body in Hl. unfold PARAM_HEADER_LENGTH in Hl.
  unfold ParamReconfigResponse_unmarshal. rewrite ParamHeader_unmarshal_tlv by done.
  cbn [mbind Outcome_bind]. rewrite param_value_tlv. cbn [ph_value_length].
  rewrite len_Param_body. cbn -[get_u32 be]. rewrite get_u32_be by done. cbn -[get_u32 be].
  rewrite <- (app_nil_r (be 4 (ReconfigResult_as_u32 _))), get_u32_be by (by destruct (rr_result r)).
  cbn. rewrite ReconfigResult_from_as. by destruct r.
Qed.

(** Select the branch of a known wire code. *)
Ltac known n T :=
  match goal with |- context [Param_code ?p] => change (Param_code p) with n in * end;
  change (ParamType_from_u16 n) with T; cbn match.

(** Decoding the wire form gives the parameter back. *)
Lemma build_param_tlv p rest :
  Param_wf p → build_param (tlv (Param_code p) (Param_body p) ++ rest) = Ok p.
Proof.
  intros Hwf. pose proof (Param_code_uN p Hwf) as Hc. pose proof Hwf as [Hl Hd].
  rewrite <- len_Param_body in Hl. unfold PARAM_HEADER_LENGTH in Hl.
  unfold build_param, PARAM_HEADER_LENGTH. pose proof (len_nonneg (Param_body p)).
  assert (4 <= len (tlv (Param_code p) (Param_body p) ++ rest)) by (unfold tlv; lens).
  destruct (Z.ltb_spec (len (tlv (Param_code p) (Param_body p) ++ rest)) 4); [lia|].
  replace (slice (tlv (Param_code p) (Param_body p) ++ rest) 0 2) with (Ok (be 2 (Param_code p)))
    by (unfold tlv; rewrite <- !app_assoc; symmetry; apply (slice_mid [] (be 2 _)); lens).
  cbn [mbind Outcome_bind]. rewrite <- (app_nil_r (be 2 _)), get_u16_be by done.
  cbn [mbind Outcome_bind].
  destruct p.
  - known 49152 ForwardTsnSupp. unfold ParamForwardTsnSupported_unmarshal.
    by rewrite ParamHeader_unmarshal_tlv.
  - known 32776 SupportedExt. unfold ParamSupportedExtensions_unmarshal.
    rewrite ParamHeader_unmarshal_tlv by done. cbn [mbind Outcome_bind]. rewrite param_value_tlv.
    cbn [mbind Outcome_bind Param_body]. by rewrite read_u8s_enc.
  - known 32770 Random. unfold ParamRandom_unmarshal. by rewrite ParamBytes_unmarshal_tlv.
  - known 32772 ReqHmacAlgo. unfold ParamRequestedHmacAlgorithm_unmarshal.
    rewrite ParamHeader_unmarshal_tlv by done. cbn [mbind Outcome_bind]. rewrite param_value_tlv.
    cbn [mbind Outcome_bind ph_value_length]. rewrite len_Param_body. cbn [Param_body].
    pose proof (len_Param_body (PRequestedHmacAlgorithm available_algorithms)) as Hb.
    cbn [Param_body Param_value_length] in Hb |- *. unfold ParamRequestedHmacAlgorithm_value_length in *.
    rewrite hmac_loop_enc; [done|done|lia|unfold len in *; lia].
  - known 32771 ChunkList. unfold ParamChunkList_unmarshal.
    rewrite ParamHeader_unmarshal_tlv by done. cbn [mbind Outcome_bind]. rewrite param_value_tlv.
    cbn [ph_typ]. change (ParamType_from_u16 32771) with ChunkList.
    rewrite bool_decide_true by done. cbn [negb guard_err mbind Outcome_bind Param_body].
    by rewrite read_u8s_enc.
  - known 7 StateCookie. unfold ParamStateCookie_unmarshal. by rewrite ParamBytes_unmarshal_tlv.
  - known 12 SupportedAddrTypes. by rewrite ParamSupportedAddressTypes_unmarshal_tlv.
  - known 1 HeartbeatInfo. unfold ParamHeartbeatInfo_unmarshal. by rewrite ParamBytes_unmarshal_tlv.
  - known 13 OutSsnResetReq. by rewrite ParamOutgoingResetRequest_unmarshal_tlv.
  - known 16 ReconfigResp. by rewrite ParamReconfigResponse_unmarshal_tlv.
  - change (Param_code (PUnknown typ value)) with typ in *. destruct Hd as (Hv & Ht & Hb & Hn).
    pose proof (ParamType_into_from typ) as Hinto.
    destruct (ParamType_from_u16 typ) eqn:E; try (exfalso; set_solver);
      try (cbn in Hinto; rewrite <- Hinto in Hb; done);
      rewrite Hb; change (1 =? 0) with false; cbn match; unfold ParamUnknown_unmarshal;
      rewrite ParamHeader_unmarshal_tlv by done; cbn [mbind Outcome_bind];
      rewrite param_value_tlv; cbn [mbind Outcome_bind ph_typ]; rewrite E; cbn [ParamType_into_u16] in *; subst typ; done.
Qed.

(** Every well-formed parameter encodes, to its header and as many value
    bytes as [value_length] announces, and decoding the encoding, followed by anything,
    gives the parameter back. *)
Theorem param_roundtrip p :
  Param_wf p →
  ∃ bs, Param_marshal p = Ok bs ∧ len bs = PARAM_HEADER_LENGTH + Param_value_length p ∧
    ∀ rest, build_param (bs ++ rest) = Ok p.
Proof.
  intros Hwf. exists (tlv (Param_code p) (Param_body p)). split_and!.
  - unfold Param_marshal. by rewrite Param_marshal_to_tlv.
  - unfold tlv, PARAM_HEADER_LENGTH. pose proof (len_Param_body p). lens.
  - intros rest. by apply build_param_tlv.
Qed.
End ParamsRoundtrip.

Lemma param_roundtrip_witness :
  let p := POutgoingResetRequest (mkParamOutgoingResetRequest 1 2 4294967295 [4; 65535]) in
  Param_wf p ∧
  ∃ bs, @Param_marshal list_buf p = Ok bs ∧ len bs = PARAM_HEADER_LENGTH + Param_value_length p ∧
    ∀ rest, @build_param list_buf (bs ++ rest) = Ok p.
Proof.
  assert (Param_wf (POutgoingResetRequest (mkParamOutgoingResetRequest 1 2 4294967295 [4; 65535]))) as Hwf
    by (apply (bool_decide_unpack _); vm_compute; exact I).
  split; [exact Hwf|]. exact (@param_roundtrip list_buf list_buf_laws _ Hwf).
Defined.
