(* ===== verification/Chunks.v ===== *)
(** * Chunks ([src/chunk])

    The chunk header, the error causes, one record or constructor per chunk
    struct with its [Chunk] methods, and the [Chunk] trait object as a sum
    type.  A [marshal_to(writer)] is modelled by the writer it leaves behind;
    the length it returns in Rust is that writer's length. *)

From stdpp Require Import base list numbers sets.
From Stdlib Require Import ZArith Lia ZifyBool.
From S2P Require Import Prelude Bytes Util Params.

(** ** Data *)

Record ChunkHeader := mkChunkHeader { ch_typ : ChunkType; ch_flags : u8; ch_value_length : u16 }.

Definition CHUNK_HEADER_SIZE : usize := 4.

Record ErrorCause := mkErrorCause { ec_code : u16; ec_raw : Bytes }.

Definition ERROR_CAUSE_HEADER_LENGTH : usize := 4.
Definition OUT_OF_RESOURCE : u16 := 4.
Definition UNRECOGNIZED_CHUNK_TYPE : u16 := 6.
Definition USER_INITIATED_ABORT : u16 := 12.
Definition PROTOCOL_VIOLATION : u16 := 13.

Inductive PayloadProtocolIdentifier : Type :=
| Dcep | PpString | Binary | StringEmpty | BinaryEmpty | PpUnknown.

#[export] Instance PayloadProtocolIdentifier_eq_dec : EqDecision PayloadProtocolIdentifier.
Proof. solve_decision. Defined.

Definition PayloadProtocolIdentifier_from_u32 (v : u32) : PayloadProtocolIdentifier :=
  if v =? 50 then Dcep else if v =? 51 then PpString else if v =? 53 then Binary
  else if v =? 56 then StringEmpty else if v =? 57 then BinaryEmpty else PpUnknown.

(** [as u32]: the discriminants; [Unknown] follows [BinaryEmpty = 57]. *)
Definition PayloadProtocolIdentifier_as_u32 (p : PayloadProtocolIdentifier) : u32 :=
  match p with
  | Dcep => 50 | PpString => 51 | Binary => 53 | StringEmpty => 56 | BinaryEmpty => 57 | PpUnknown => 58
  end.

(** [association/stream.rs]: how far the delivery of a message is pursued. *)
Inductive ReliabilityType : Type := Reliable | Rexmit | Timed.

#[export] Instance ReliabilityType_eq_dec : EqDecision ReliabilityType.
Proof. solve_decision. Defined.

(** [std::time::Instant] in nanoseconds from an arbitrary origin; on the
    64-bit platforms its seconds are an [i64]. *)
Abbreviation Instant := Z (only parsing).

Definition ms : Z := 1000000.
Definition INSTANT_LIMIT : Instant := 2 ^ 63 * 1000 * ms.

(** [Instant::checked_add(Duration::from_millis(millis))] *)
Definition Instant_checked_add (now : Instant) (millis : Z) : option Instant :=
  if now + millis * ms <? INSTANT_LIMIT then Some (now + millis * ms) else None.

Record ChunkPayloadData := mkChunkPayloadData {
  unordered : bool;
  beginning_fragment : bool;
  ending_fragment : bool;
  immediate_sack : bool;
  tsn : u32;
  stream_identifier : u16;
  stream_sequence_number : u16;
  payload_type : PayloadProtocolIdentifier;
  user_data : Bytes;
  acked : bool;
  miss_indicator : u8;
  message_id : u64;
  abandoned : bool;
  since : option Instant;
  reliability : option (ReliabilityType * u32);
  deadline : option Instant;
  nsent : u32;
  retransmit : bool;
}.

#[export] Instance ChunkPayloadData_eq_dec : EqDecision ChunkPayloadData.
Proof. solve_decision. Defined.

#[export] Instance ChunkPayloadData_eta : Eta ChunkPayloadData := λ c,
  mkChunkPayloadData (unordered c) (beginning_fragment c) (ending_fragment c) (immediate_sack c) (tsn c) (stream_identifier c)
    (stream_sequence_number c) (payload_type c) (user_data c) (acked c) (miss_indicator c) (message_id c)
    (abandoned c) (since c) (reliability c) (deadline c) (nsent c) (retransmit c).
#[export] Instance upd_unordered : Update unordered. Proof. solve_update. Defined.
#[export] Instance upd_beginning_fragment : Update beginning_fragment. Proof. solve_update. Defined.
#[export] Instance upd_ending_fragment : Update ending_fragment. Proof. solve_update. Defined.
#[export] Instance upd_immediate_sack : Update immediate_sack. Proof. solve_update. Defined.
#[export] Instance upd_tsn : Update tsn. Proof. solve_update. Defined.
#[export] Instance upd_stream_identifier : Update stream_identifier. Proof. solve_update. Defined.
#[export] Instance upd_stream_sequence_number : Update stream_sequence_number. Proof. solve_update. Defined.
#[export] Instance upd_payload_type : Update payload_type. Proof. solve_update. Defined.
#[export] Instance upd_user_data : Update user_data. Proof. solve_update. Defined.
#[export] Instance upd_acked : Update acked. Proof. solve_update. Defined.
#[export] Instance upd_miss_indicator : Update miss_indicator. Proof. solve_update. Defined.
#[export] Instance upd_message_id : Update message_id. Proof. solve_update. Defined.
#[export] Instance upd_abandoned : Update abandoned. Proof. solve_update. Defined.
#[export] Instance upd_since : Update since. Proof. solve_update. Defined.
#[export] Instance upd_reliability : Update reliability. Proof. solve_update. Defined.
#[export] Instance upd_deadline : Update deadline. Proof. solve_update. Defined.
#[export] Instance upd_nsent : Update nsent. Proof. solve_update. Defined.
#[export] Instance upd_retransmit : Update retransmit. Proof. solve_update. Defined.

Definition ChunkPayloadData_default : ChunkPayloadData :=
  mkChunkPayloadData false false false false 0 0 0 PpUnknown [] false 0 0 false None None None 0 false.

Record GapAckBlock := mkGapAckBlock { gab_start : u16; gab_end : u16 }.

Record ChunkSelectiveAck := mkChunkSelectiveAck {
  cumulative_tsn_ack : u32;
  sack_advertised_receiver_window_credit : u32;
  gap_ack_blocks : list GapAckBlock;
  duplicate_tsn : list u32;
}.

Record ChunkForwardTsnStream := mkChunkForwardTsnStream { fs_identifier : u16; fs_sequence : u16 }.

Record ChunkForwardTsn := mkChunkForwardTsn {
  new_cumulative_tsn : u32;
  ft_streams : list ChunkForwardTsnStream;
}.

Record ChunkIForwardTsnStream := mkChunkIForwardTsnStream {
  ifs_identifier : u16; ifs_unordered : bool; ifs_mid : u32;
}.

Record ChunkIForwardTsn := mkChunkIForwardTsn {
  i_new_cumulative_tsn : u32;
  ift_streams : list ChunkIForwardTsnStream;
}.

Record ChunkInit := mkChunkInit {
  is_ack : bool;
  initiate_tag : u32;
  advertised_receiver_window_credit : u32;
  num_outbound_streams : u16;
  num_inbound_streams : u16;
  initial_tsn : u32;
  params : list Param;
}.

Record ChunkReconfig := mkChunkReconfig { param_a : option Param; param_b : option Param }.

(** [Box<dyn Chunk>]. *)
Inductive Chunk : Type :=
| CInit (c : ChunkInit)
| CAbort (error_causes : list ErrorCause)
| CCookieEcho (cookie : Bytes)
| CCookieAck
| CHeartbeat (params : list Param)
| CHeartbeatAck (params : list Param)
| CPayloadData (c : ChunkPayloadData)
| CSelectiveAck (c : ChunkSelectiveAck)
| CReconfig (c : ChunkReconfig)
| CForwardTsn (c : ChunkForwardTsn)
| CIForwardTsn (c : ChunkIForwardTsn)
| CError (error_causes : list ErrorCause)
| CShutdown (cumulative_tsn_ack : u32)
| CShutdownAck
| CShutdownComplete.

Section Chunks.
Context {B : BufApi}.

(** ** [ChunkHeader] *)

(** [for i in (1..=length_after_value).rev()]: every padding byte is zero. *)
Fixpoint check_padding (n : nat) (raw : Bytes) (value_length : isize) : Outcome unit :=
  match n with
  | O => Ok tt
  | S n' =>
      let padding_offset := CHUNK_HEADER_SIZE + (value_length + Z.of_nat n - 1) in
      match raw !! Z.to_nat padding_offset with
      | None => Panic
      | Some b => if b =? 0 then check_padding n' raw value_length else Err ErrChunkHeaderPaddingNonZero
      end
  end.

Definition ChunkHeader_unmarshal (raw : Bytes) : Outcome ChunkHeader :=
  if len raw <? CHUNK_HEADER_SIZE then Err ErrChunkHeaderTooSmall else
  '(typ, reader) ← get_u8 raw;
  '(flags, reader) ← get_u8 reader;
  '(length, reader) ← get_u16 reader;
  if length <? CHUNK_HEADER_SIZE then Err ErrChunkHeaderInvalidLength else
  let value_length := length - CHUNK_HEADER_SIZE in
  let length_after_value := len raw - length in
  if length_after_value <? 0 then Err ErrChunkHeaderNotEnoughSpace else
  _ ← (if length_after_value <? 4
       then check_padding (Z.to_nat length_after_value) raw value_length else Ok tt);
  Ok (mkChunkHeader typ flags value_length).

Definition ChunkHeader_marshal_to (h : ChunkHeader) (writer : Bytes) : Outcome Bytes :=
  let writer := put_u8 writer (ch_typ h) in
  let writer := put_u8 writer (ch_flags h) in
  l ← checked_add 16 (ch_value_length h) CHUNK_HEADER_SIZE;
  Ok (put_u16 writer l).

(** The chunk value [raw.slice(4..4 + header.value_length())]. *)
Definition chunk_value (raw : Bytes) (h : ChunkHeader) : Outcome Bytes :=
  slice raw CHUNK_HEADER_SIZE (CHUNK_HEADER_SIZE + ch_value_length h).

(** ** [ErrorCause] *)

Definition ErrorCause_unmarshal (buf : Bytes) : Outcome ErrorCause :=
  if len buf <? ERROR_CAUSE_HEADER_LENGTH then Err ErrErrorCauseTooSmall else
  '(code, reader) ← get_u16 buf;
  '(l, reader) ← get_u16 reader;
  if l <? ERROR_CAUSE_HEADER_LENGTH then Err ErrErrorCauseTooSmall else
  let value_length := l - ERROR_CAUSE_HEADER_LENGTH in
  if len buf <? ERROR_CAUSE_HEADER_LENGTH + value_length then Err ErrErrorCauseTooSmall else
  raw ← slice buf ERROR_CAUSE_HEADER_LENGTH (ERROR_CAUSE_HEADER_LENGTH + value_length);
  Ok (mkErrorCause code raw).

Definition ErrorCause_marshal (e : ErrorCause) : Bytes :=
  let l := len (ec_raw e) + ERROR_CAUSE_HEADER_LENGTH in
  let writer := put_u16 [] (ec_code e) in
  let writer := put_u16 writer (wrap 16 l) in
  writer ++ ec_raw e.

Definition ErrorCause_length (e : ErrorCause) : usize := len (ec_raw e) + ERROR_CAUSE_HEADER_LENGTH.

(** [while offset + ERROR_CAUSE_HEADER_LENGTH <= value_end], shared by ABORT and ERROR. *)
Fixpoint error_causes_loop (fuel : nat) (raw : Bytes) (offset value_end : usize)
    : Outcome (list ErrorCause) :=
  match fuel with
  | O => Stuck
  | S fuel' =>
      if offset + ERROR_CAUSE_HEADER_LENGTH <=? value_end then
        s ← slice raw offset value_end;
        e ← ErrorCause_unmarshal s;
        l ← error_causes_loop fuel' raw (offset + ErrorCause_length e) value_end;
        Ok (e :: l)
      else Ok []
  end.

Definition error_causes_value_length (l : list ErrorCause) : usize :=
  fold_left (λ length ec, length + ErrorCause_length ec) l 0.

(** ** [ChunkAbort] and [ChunkError] *)

Definition ChunkAbort_header (l : list ErrorCause) : ChunkHeader :=
  mkChunkHeader CT_ABORT 0 (wrap 16 (error_causes_value_length l)).
Definition ChunkAbort_unmarshal (raw : Bytes) : Outcome (list ErrorCause) :=
  header ← ChunkHeader_unmarshal raw;
  _ ← guard_err (negb (ch_typ header =? CT_ABORT)) ErrChunkTypeNotAbort;
  error_causes_loop (S (length raw)) raw CHUNK_HEADER_SIZE (CHUNK_HEADER_SIZE + ch_value_length header).
Definition ChunkAbort_marshal_to (l : list ErrorCause) (buf : Bytes) : Outcome Bytes :=
  buf ← ChunkHeader_marshal_to (ChunkAbort_header l) buf;
  Ok (fold_left (λ w ec, w ++ ErrorCause_marshal ec) l buf).

Definition ChunkError_header (l : list ErrorCause) : ChunkHeader :=
  mkChunkHeader CT_ERROR 0 (wrap 16 (error_causes_value_length l)).
Definition ChunkError_unmarshal (raw : Bytes) : Outcome (list ErrorCause) :=
  header ← ChunkHeader_unmarshal raw;
  _ ← guard_err (negb (ch_typ header =? CT_ERROR)) ErrChunkTypeNotCt;
  error_causes_loop (S (length raw)) raw CHUNK_HEADER_SIZE (CHUNK_HEADER_SIZE + ch_value_length header).
Definition ChunkError_marshal_to (l : list ErrorCause) (buf : Bytes) : Outcome Bytes :=
  buf ← ChunkHeader_marshal_to (ChunkError_header l) buf;
  Ok (fold_left (λ w ec, w ++ ErrorCause_marshal ec) l buf).

(** ** [ChunkCookieEcho], [ChunkCookieAck] *)

Definition ChunkCookieEcho_header (cookie : Bytes) : ChunkHeader :=
  mkChunkHeader CT_COOKIE_ECHO 0 (wrap 16 (len cookie)).
Definition ChunkCookieEcho_unmarshal (raw : Bytes) : Outcome Bytes :=
  header ← ChunkHeader_unmarshal raw;
  _ ← guard_err (negb (ch_typ header =? CT_COOKIE_ECHO)) ErrChunkTypeNotCookieEcho;
  chunk_value raw header.
Definition ChunkCookieEcho_marshal_to (cookie : Bytes) (buf : Bytes) : Outcome Bytes :=
  buf ← ChunkHeader_marshal_to (ChunkCookieEcho_header cookie) buf;
  Ok (buf ++ cookie).

Definition ChunkCookieAck_header : ChunkHeader := mkChunkHeader CT_COOKIE_ACK 0 (wrap 16 0).
Definition ChunkCookieAck_unmarshal (raw : Bytes) : Outcome unit :=
  header ← ChunkHeader_unmarshal raw;
  guard_err (negb (ch_typ header =? CT_COOKIE_ACK)) ErrChunkTypeNotCookieAck.
Definition ChunkCookieAck_marshal_to (buf : Bytes) : Outcome Bytes :=
  ChunkHeader_marshal_to ChunkCookieAck_header buf.

(** ** [ChunkHeartbeat], [ChunkHeartbeatAck] *)

Definition ChunkHeartbeat_value_length (ps : list Param) : usize :=
  fold_left (λ length p, length + PARAM_HEADER_LENGTH + Param_value_length p) ps 0.
Definition ChunkHeartbeat_header (ps : list Param) : ChunkHeader :=
  mkChunkHeader CT_HEARTBEAT 0 (wrap 16 (ChunkHeartbeat_value_length ps)).
Definition ChunkHeartbeat_unmarshal (raw : Bytes) : Outcome (list Param) :=
  header ← ChunkHeader_unmarshal raw;
  _ ← guard_err (negb (ch_typ header =? CT_HEARTBEAT)) ErrChunkTypeNotHeartbeat;
  _ ← guard_err (ch_value_length header <? PARAM_HEADER_LENGTH) ErrHeartbeatNotLongEnoughInfo;
  v ← chunk_value raw header;
  p ← build_param v;
  _ ← guard_err (negb (bool_decide (ph_typ (Param_header p) = HeartbeatInfo))) ErrHeartbeatParam;
  Ok [p].
Fixpoint marshal_heartbeat_params (ps : list Param) (buf : Bytes) : Outcome Bytes :=
  match ps with
  | [] => Ok buf
  | p :: ps' => pp ← Param_marshal p; marshal_heartbeat_params ps' (buf ++ pp)
  end.
Definition ChunkHeartbeat_marshal_to (ps : list Param) (buf : Bytes) : Outcome Bytes :=
  buf ← ChunkHeader_marshal_to (ChunkHeartbeat_header ps) buf;
  marshal_heartbeat_params ps buf.

(** The parameter list of INIT and HEARTBEAT ACK: every parameter but the last is padded. *)
Fixpoint padded_params_length (ps : list Param) : usize :=
  match ps with
  | [] => 0
  | p :: ps' =>
      let p_len := PARAM_HEADER_LENGTH + Param_value_length p in
      p_len + (match ps' with [] => 0 | _ => get_padding_size p_len end) + padded_params_length ps'
  end.
Fixpoint marshal_padded_params (ps : list Param) (writer : Bytes) : Outcome Bytes :=
  match ps with
  | [] => Ok writer
  | p :: ps' =>
      pp ← Param_marshal p;
      let writer := writer ++ pp in
      let writer := match ps' with
                    | [] => writer
                    | _ => writer ++ replicate (Z.to_nat (get_padding_size (len pp))) 0
                    end in
      marshal_padded_params ps' writer
  end.

Definition ChunkHeartbeatAck_header (ps : list Param) : ChunkHeader :=
  mkChunkHeader CT_HEARTBEAT_ACK 0 (wrap 16 (padded_params_length ps)).
Definition ChunkHeartbeatAck_unmarshal (raw : Bytes) : Outcome (list Param) :=
  header ← ChunkHeader_unmarshal raw;
  _ ← guard_err (negb (ch_typ header =? CT_HEARTBEAT_ACK)) ErrChunkTypeNotHeartbeatAck;
  _ ← guard_err (ch_value_length header <? PARAM_HEADER_LENGTH) ErrHeartbeatNotLongEnoughInfo;
  v ← chunk_value raw header;
  p ← build_param v;
  _ ← guard_err (negb (bool_decide (ph_typ (Param_header p) = HeartbeatInfo))) ErrHeartbeatParam;
  Ok [p].
Definition ChunkHeartbeatAck_marshal_to (ps : list Param) (buf : Bytes) : Outcome Bytes :=
  match ps with
  | [p] =>
      if bool_decide (ph_typ (Param_header p) = HeartbeatInfo) then
        buf ← ChunkHeader_marshal_to (ChunkHeartbeatAck_header ps) buf;
        marshal_padded_params ps buf
      else Err ErrHeartbeatAckNotHeartbeatInfo
  | _ => Err ErrHeartbeatAckParams
  end.

(** ** [ChunkPayloadData] *)

Definition PAYLOAD_DATA_ENDING_FRAGMENT_BITMASK : u8 := 1.
Definition PAYLOAD_DATA_BEGINING_FRAGMENT_BITMASK : u8 := 2.
Definition PAYLOAD_DATA_UNORDERED_BITMASK : u8 := 4.
Definition PAYLOAD_DATA_IMMEDIATE_SACK : u8 := 8.
Definition PAYLOAD_DATA_HEADER_SIZE : usize := 12.

Definition ChunkPayloadData_value_length (c : ChunkPayloadData) : usize :=
  PAYLOAD_DATA_HEADER_SIZE + len (user_data c).

Definition ChunkPayloadData_flags (c : ChunkPayloadData) : u8 :=
  let flags := if ending_fragment c then 1 else 0 in
  let flags := if beginning_fragment c then Z.lor flags (Z.shiftl 1 1) else flags in
  let flags := if unordered c then Z.lor flags (Z.shiftl 1 2) else flags in
  if immediate_sack c then Z.lor flags (Z.shiftl 1 3) else flags.

Definition ChunkPayloadData_header (c : ChunkPayloadData) : ChunkHeader :=
  mkChunkHeader CT_PAYLOAD_DATA (ChunkPayloadData_flags c) (wrap 16 (ChunkPayloadData_value_length c)).

Definition ChunkPayloadData_unmarshal (raw : Bytes) : Outcome ChunkPayloadData :=
  header ← ChunkHeader_unmarshal raw;
  _ ← guard_err (negb (ch_typ header =? CT_PAYLOAD_DATA)) ErrChunkTypeNotPayloadData;
  let bit mask := negb (Z.land (ch_flags header) mask =? 0) in
  let immediate_sack := bit PAYLOAD_DATA_IMMEDIATE_SACK in
  let unordered := bit PAYLOAD_DATA_UNORDERED_BITMASK in
  let beginning_fragment := bit PAYLOAD_DATA_BEGINING_FRAGMENT_BITMASK in
  let ending_fragment := bit PAYLOAD_DATA_ENDING_FRAGMENT_BITMASK in
  _ ← guard_err (ch_value_length header <? PAYLOAD_DATA_HEADER_SIZE) ErrChunkPayloadSmall;
  reader ← chunk_value raw header;
  '(tsn, reader) ← get_u32 reader;
  '(stream_identifier, reader) ← get_u16 reader;
  '(stream_sequence_number, reader) ← get_u16 reader;
  '(ppi, reader) ← get_u32 reader;
  user_data ← slice raw (CHUNK_HEADER_SIZE + PAYLOAD_DATA_HEADER_SIZE)
                (CHUNK_HEADER_SIZE + ch_value_length header);
  Ok (mkChunkPayloadData unordered beginning_fragment ending_fragment immediate_sack tsn
        stream_identifier stream_sequence_number (PayloadProtocolIdentifier_from_u32 ppi) user_data
        false 0 0 false None None None 0 false).

Definition ChunkPayloadData_marshal_to (c : ChunkPayloadData) (writer : Bytes) : Outcome Bytes :=
  writer ← ChunkHeader_marshal_to (ChunkPayloadData_header c) writer;
  let writer := put_u32 writer (tsn c) in
  let writer := put_u16 writer (stream_identifier c) in
  let writer := put_u16 writer (stream_sequence_number c) in
  let writer := put_u32 writer (PayloadProtocolIdentifier_as_u32 (payload_type c)) in
  Ok (writer ++ user_data c).

(** ** [ChunkSelectiveAck] *)

Definition SELECTIVE_ACK_HEADER_SIZE : usize := 12.

Definition ChunkSelectiveAck_value_length (c : ChunkSelectiveAck) : usize :=
  SELECTIVE_ACK_HEADER_SIZE + len (gap_ack_blocks c) * 4 + len (duplicate_tsn c) * 4.
Definition ChunkSelectiveAck_header (c : ChunkSelectiveAck) : ChunkHeader :=
  mkChunkHeader CT_SACK 0 (wrap 16 (ChunkSelectiveAck_value_length c)).

Definition get_gap_ack_block (reader : Bytes) : Outcome (GapAckBlock * Bytes) :=
  '(start, reader) ← get_u16 reader;
  '(end_, reader) ← get_u16 reader;
  Ok (mkGapAckBlock start end_, reader).

Definition ChunkSelectiveAck_unmarshal (raw : Bytes) : Outcome ChunkSelectiveAck :=
  header ← ChunkHeader_unmarshal raw;
  _ ← guard_err (negb (ch_typ header =? CT_SACK)) ErrChunkTypeNotSack;
  _ ← guard_err (ch_value_length header <? SELECTIVE_ACK_HEADER_SIZE) ErrSackSizeNotLargeEnoughInfo;
  reader ← chunk_value raw header;
  '(cumulative_tsn_ack, reader) ← get_u32 reader;
  '(credit, reader) ← get_u32 reader;
  '(gap_ack_blocks_len, reader) ← get_u16 reader;
  '(duplicate_tsn_len, reader) ← get_u16 reader;
  _ ← guard_err (ch_value_length header <?
                   SELECTIVE_ACK_HEADER_SIZE + (4 * gap_ack_blocks_len + 4 * duplicate_tsn_len))
        ErrSackSizeNotLargeEnoughInfo;
  '(gap_ack_blocks, reader) ← read_times get_gap_ack_block (Z.to_nat gap_ack_blocks_len) reader;
  '(duplicate_tsn, reader) ← read_times get_u32 (Z.to_nat duplicate_tsn_len) reader;
  Ok (mkChunkSelectiveAck cumulative_tsn_ack credit gap_ack_blocks duplicate_tsn).

Definition ChunkSelectiveAck_marshal_to (c : ChunkSelectiveAck) (writer : Bytes) : Outcome Bytes :=
  writer ← ChunkHeader_marshal_to (ChunkSelectiveAck_header c) writer;
  let writer := put_u32 writer (cumulative_tsn_ack c) in
  let writer := put_u32 writer (sack_advertised_receiver_window_credit c) in
  let writer := put_u16 writer (wrap 16 (len (gap_ack_blocks c))) in
  let writer := put_u16 writer (wrap 16 (len (duplicate_tsn c))) in
  let writer := fold_left (λ w g, put_u16 (put_u16 w (gab_start g)) (gab_end g)) (gap_ack_blocks c) writer in
  Ok (fold_left put_u32 (duplicate_tsn c) writer).

(** ** [ChunkForwardTsn] *)

Definition NEW_CUMULATIVE_TSN_LENGTH : usize := 4.
Definition FORWARD_TSN_STREAM_LENGTH : usize := 4.

Definition ChunkForwardTsnStream_value_length : usize := FORWARD_TSN_STREAM_LENGTH.
Definition ChunkForwardTsnStream_unmarshal (buf : Bytes) : Outcome ChunkForwardTsnStream :=
  if len buf <? FORWARD_TSN_STREAM_LENGTH then Err ErrChunkTooShort else
  '(identifier, reader) ← get_u16 buf;
  '(sequence, reader) ← get_u16 reader;
  Ok (mkChunkForwardTsnStream identifier sequence).
Definition ChunkForwardTsnStream_marshal (s : ChunkForwardTsnStream) : Bytes :=
  put_u16 (put_u16 [] (fs_identifier s)) (fs_sequence s).

(** [while remaining > 0] *)
Fixpoint forward_tsn_loop (fuel : nat) (buf : Bytes) (offset value_end remaining : usize)
    : Outcome (list ChunkForwardTsnStream) :=
  match fuel with
  | O => Stuck
  | S fuel' =>
      if remaining >? 0 then
        b ← slice buf offset value_end;
        s ← ChunkForwardTsnStream_unmarshal b;
        remaining ← checked_sub remaining ChunkForwardTsnStream_value_length;
        l ← forward_tsn_loop fuel' buf (offset + ChunkForwardTsnStream_value_length) value_end remaining;
        Ok (s :: l)
      else Ok []
  end.

Definition ChunkForwardTsn_value_length (c : ChunkForwardTsn) : usize :=
  NEW_CUMULATIVE_TSN_LENGTH + FORWARD_TSN_STREAM_LENGTH * len (ft_streams c).
Definition ChunkForwardTsn_header (c : ChunkForwardTsn) : ChunkHeader :=
  mkChunkHeader CT_FORWARD_TSN 0 (wrap 16 (ChunkForwardTsn_value_length c)).
Definition ChunkForwardTsn_unmarshal (buf : Bytes) : Outcome ChunkForwardTsn :=
  header ← ChunkHeader_unmarshal buf;
  _ ← guard_err (negb (ch_typ header =? CT_FORWARD_TSN)) ErrChunkTypeNotForwardTsn;
  _ ← guard_err (ch_value_length header <? NEW_CUMULATIVE_TSN_LENGTH) ErrChunkTooShort;
  let offset := CHUNK_HEADER_SIZE + NEW_CUMULATIVE_TSN_LENGTH in
  reader ← chunk_value buf header;
  '(new_cumulative_tsn, _) ← get_u32 reader;
  let value_end := CHUNK_HEADER_SIZE + ch_value_length header in
  remaining ← checked_sub value_end offset;
  streams ← forward_tsn_loop (S (length buf)) buf offset value_end remaining;
  Ok (mkChunkForwardTsn new_cumulative_tsn streams).
Definition ChunkForwardTsn_marshal_to (c : ChunkForwardTsn) (writer : Bytes) : Outcome Bytes :=
  writer ← ChunkHeader_marshal_to (ChunkForwardTsn_header c) writer;
  let writer := put_u32 writer (new_cumulative_tsn c) in
  Ok (fold_left (λ w s, w ++ ChunkForwardTsnStream_marshal s) (ft_streams c) writer).

(** ** [ChunkIForwardTsn] *)

Definition I_FORWARD_TSN_STREAM_ENTRY_LENGTH : usize := 8.

(** [while offset + I_FORWARD_TSN_STREAM_ENTRY_LENGTH <= value_end] *)
Fixpoint i_forward_tsn_loop (fuel : nat) (buf : Bytes) (offset value_end : usize)
    : Outcome (list ChunkIForwardTsnStream) :=
  match fuel with
  | O => Stuck
  | S fuel' =>
      if offset + I_FORWARD_TSN_STREAM_ENTRY_LENGTH <=? value_end then
        entry_buf ← slice buf offset value_end;
        '(identifier, entry_buf) ← get_u16 entry_buf;
        '(flags, entry_buf) ← get_u8 entry_buf;
        '(_, entry_buf) ← get_u8 entry_buf;
        '(mid, entry_buf) ← get_u32 entry_buf;
        l ← i_forward_tsn_loop fuel' buf (offset + I_FORWARD_TSN_STREAM_ENTRY_LENGTH) value_end;
        Ok (mkChunkIForwardTsnStream identifier (negb (Z.land flags 1 =? 0)) mid :: l)
      else Ok []
  end.

Definition ChunkIForwardTsn_value_length (c : ChunkIForwardTsn) : usize :=
  4 + I_FORWARD_TSN_STREAM_ENTRY_LENGTH * len (ift_streams c).
Definition ChunkIForwardTsn_header (c : ChunkIForwardTsn) : ChunkHeader :=
  mkChunkHeader CT_I_FORWARD_TSN 0 (wrap 16 (ChunkIForwardTsn_value_length c)).
Definition ChunkIForwardTsn_unmarshal (buf : Bytes) : Outcome ChunkIForwardTsn :=
  header ← ChunkHeader_unmarshal buf;
  _ ← guard_err (negb (ch_typ header =? CT_I_FORWARD_TSN)) ErrChunkTypeNotForwardTsn;
  let value_end := CHUNK_HEADER_SIZE + ch_value_length header in
  _ ← guard_err (ch_value_length header <? NEW_CUMULATIVE_TSN_LENGTH) ErrChunkTooShort;
  reader ← slice buf CHUNK_HEADER_SIZE value_end;
  '(new_cumulative_tsn, _) ← get_u32 reader;
  streams ← i_forward_tsn_loop (S (length buf)) buf (CHUNK_HEADER_SIZE + NEW_CUMULATIVE_TSN_LENGTH) value_end;
  Ok (mkChunkIForwardTsn new_cumulative_tsn streams).
Definition ChunkIForwardTsn_marshal_to (c : ChunkIForwardTsn) (writer : Bytes) : Outcome Bytes :=
  writer ← ChunkHeader_marshal_to (ChunkIForwardTsn_header c) writer;
  let writer := put_u32 writer (i_new_cumulative_tsn c) in
  Ok (fold_left (λ w s,
        let w := put_u16 w (ifs_identifier s) in
        let w := put_u8 w (if ifs_unordered s then 1 else 0) in
        let w := put_u8 w 0 in
        put_u32 w (ifs_mid s)) (ift_streams c) writer).

(** ** [ChunkInit] *)

Definition INIT_CHUNK_MIN_LENGTH : usize := 16.
Definition INIT_OPTIONAL_VAR_HEADER_LENGTH : usize := 4.

Definition ChunkInit_value_length (c : ChunkInit) : usize :=
  4 + 4 + 2 + 2 + 4 + padded_params_length (params c).
Definition ChunkInit_header (c : ChunkInit) : ChunkHeader :=
  mkChunkHeader (if is_ack c then CT_INIT_ACK else CT_INIT) 0 (wrap 16 (ChunkInit_value_length c)).

(** [while remaining >= INIT_OPTIONAL_VAR_HEADER_LENGTH] *)
Fixpoint init_params_loop (fuel : nat) (raw : Bytes) (offset value_end : usize) (remaining : isize)
    : Outcome (list Param) :=
  match fuel with
  | O => Stuck
  | S fuel' =>
      if remaining >=? INIT_OPTIONAL_VAR_HEADER_LENGTH then
        s ← slice raw offset value_end;
        p ← build_param s;
        let p_len := PARAM_HEADER_LENGTH + Param_value_length p in
        let len_plus_padding := p_len + get_padding_size p_len in
        l ← init_params_loop fuel' raw (offset + len_plus_padding) value_end (remaining - len_plus_padding);
        Ok (p :: l)
      else Ok []
  end.

Definition ChunkInit_unmarshal (raw : Bytes) : Outcome ChunkInit :=
  header ← ChunkHeader_unmarshal raw;
  _ ← guard_err (negb ((ch_typ header =? CT_INIT) || (ch_typ header =? CT_INIT_ACK))) ErrChunkTypeNotTypeInit;
  _ ← guard_err (ch_value_length header <? INIT_CHUNK_MIN_LENGTH) ErrChunkValueNotLongEnough;
  _ ← guard_err (negb (ch_flags header =? 0)) ErrChunkTypeInitFlagZero;
  reader ← chunk_value raw header;
  '(initiate_tag, reader) ← get_u32 reader;
  '(credit, reader) ← get_u32 reader;
  '(num_outbound_streams, reader) ← get_u16 reader;
  '(num_inbound_streams, reader) ← get_u16 reader;
  '(initial_tsn, reader) ← get_u32 reader;
  let offset := CHUNK_HEADER_SIZE + INIT_CHUNK_MIN_LENGTH in
  let value_end := CHUNK_HEADER_SIZE + ch_value_length header in
  params ← init_params_loop (S (length raw)) raw offset value_end (value_end - offset);
  Ok (mkChunkInit (ch_typ header =? CT_INIT_ACK) initiate_tag credit num_outbound_streams
        num_inbound_streams initial_tsn params).

Definition ChunkInit_marshal_to (c : ChunkInit) (writer : Bytes) : Outcome Bytes :=
  writer ← ChunkHeader_marshal_to (ChunkInit_header c) writer;
  let writer := put_u32 writer (initiate_tag c) in
  let writer := put_u32 writer (advertised_receiver_window_credit c) in
  let writer := put_u16 writer (num_outbound_streams c) in
  let writer := put_u16 writer (num_inbound_streams c) in
  let writer := put_u32 writer (initial_tsn c) in
  marshal_padded_params (params c) writer.

Definition ChunkInit_check (c : ChunkInit) : Outcome unit :=
  _ ← guard_err (initiate_tag c =? 0) ErrChunkTypeInitInitiateTagZero;
  _ ← guard_err (num_inbound_streams c =? 0) ErrInitInboundStreamRequestZero;
  _ ← guard_err (num_outbound_streams c =? 0) ErrInitOutboundStreamRequestZero;
  guard_err (advertised_receiver_window_credit c <? 1500) ErrInitAdvertisedReceiver1500.

Definition ChunkInit_set_supported_extensions (c : ChunkInit) : ChunkInit :=
  mkChunkInit (is_ack c) (initiate_tag c) (advertised_receiver_window_credit c)
    (num_outbound_streams c) (num_inbound_streams c) (initial_tsn c)
    (params c ++ [PSupportedExtensions [CT_RECONFIG; CT_FORWARD_TSN]]).

(** ** [ChunkReconfig] *)

Definition ChunkReconfig_value_length (c : ChunkReconfig) : usize :=
  let l := PARAM_HEADER_LENGTH in
  let '(l, a_len) := match param_a c with
                     | Some a => (l + Param_value_length a, Param_value_length a)
                     | None => (l, 0)
                     end in
  match param_b c with
  | Some b => l + (PARAM_HEADER_LENGTH + Param_value_length b + get_padding_size (PARAM_HEADER_LENGTH + a_len))
  | None => l
  end.
Definition ChunkReconfig_header (c : ChunkReconfig) : ChunkHeader :=
  mkChunkHeader CT_RECONFIG 0 (wrap 16 (ChunkReconfig_value_length c)).
Definition ChunkReconfig_unmarshal (raw : Bytes) : Outcome ChunkReconfig :=
  header ← ChunkHeader_unmarshal raw;
  _ ← guard_err (negb (ch_typ header =? CT_RECONFIG)) ErrChunkTypeNotReconfig;
  _ ← guard_err (ch_value_length header <? PARAM_HEADER_LENGTH) ErrChunkTooShort;
  v ← chunk_value raw header;
  param_a ← build_param v;
  let padding := get_padding_size (PARAM_HEADER_LENGTH + Param_value_length param_a) in
  let offset := CHUNK_HEADER_SIZE + PARAM_HEADER_LENGTH + Param_value_length param_a + padding in
  if CHUNK_HEADER_SIZE + ch_value_length header >? offset then
    s ← slice raw offset (CHUNK_HEADER_SIZE + ch_value_length header);
    b ← build_param s;
    Ok (mkChunkReconfig (Some param_a) (Some b))
  else Ok (mkChunkReconfig (Some param_a) None).
Definition ChunkReconfig_marshal_to (c : ChunkReconfig) (writer : Bytes) : Outcome Bytes :=
  writer ← ChunkHeader_marshal_to (ChunkReconfig_header c) writer;
  match param_a c with
  | None => Err ErrChunkReconfigInvalidParamA
  | Some a =>
      pa ← Param_marshal a;
      let writer := writer ++ pa in
      match param_b c with
      | None => Ok writer
      | Some b =>
          let padding := get_padding_size (PARAM_HEADER_LENGTH + Param_value_length a) in
          let writer := writer ++ replicate (Z.to_nat padding) 0 in
          pb ← Param_marshal b;
          Ok (writer ++ pb)
      end
  end.
Definition ChunkReconfig_check (c : ChunkReconfig) : Outcome unit :=
  match param_a c, param_b c with
  | None, _ => Err ErrChunkReconfigInvalidParamA
  | Some _, None => Ok tt
  | Some a, Some b =>
      match ph_typ (Param_header a), ph_typ (Param_header b) with
      | OutSsnResetReq, IncSsnResetReq
      | AddOutStreamsReq, AddIncStreamsReq
      | ReconfigResp, OutSsnResetReq
      | ReconfigResp, ReconfigResp => Ok tt
      | _, _ => Err ErrChunkReconfigInvalidParamCombination
      end
  end.

(** ** [ChunkShutdown], [ChunkShutdownAck], [ChunkShutdownComplete] *)

Definition CUMULATIVE_TSN_ACK_LENGTH : usize := 4.
Definition ChunkShutdown_header : ChunkHeader :=
  mkChunkHeader CT_SHUTDOWN 0 (wrap 16 CUMULATIVE_TSN_ACK_LENGTH).
Definition ChunkShutdown_unmarshal (raw : Bytes) : Outcome u32 :=
  header ← ChunkHeader_unmarshal raw;
  _ ← guard_err (negb (ch_typ header =? CT_SHUTDOWN)) ErrChunkTypeNotShutdown;
  _ ← guard_err (negb (ch_value_length header =? CUMULATIVE_TSN_ACK_LENGTH)) ErrInvalidChunkSize;
  reader ← chunk_value raw header;
  '(cumulative_tsn_ack, _) ← get_u32 reader;
  Ok cumulative_tsn_ack.
Definition ChunkShutdown_marshal_to (cumulative_tsn_ack : u32) (writer : Bytes) : Outcome Bytes :=
  writer ← ChunkHeader_marshal_to ChunkShutdown_header writer;
  Ok (put_u32 writer cumulative_tsn_ack).

Definition ChunkShutdownAck_header : ChunkHeader := mkChunkHeader CT_SHUTDOWN_ACK 0 (wrap 16 0).
Definition ChunkShutdownAck_unmarshal (raw : Bytes) : Outcome unit :=
  header ← ChunkHeader_unmarshal raw;
  guard_err (negb (ch_typ header =? CT_SHUTDOWN_ACK)) ErrChunkTypeNotShutdownAck.
Definition ChunkShutdownAck_marshal_to (writer : Bytes) : Outcome Bytes :=
  ChunkHeader_marshal_to ChunkShutdownAck_header writer.

Definition ChunkShutdownComplete_header : ChunkHeader := mkChunkHeader CT_SHUTDOWN_COMPLETE 0 (wrap 16 0).
Definition ChunkShutdownComplete_unmarshal (raw : Bytes) : Outcome unit :=
  header ← ChunkHeader_unmarshal raw;
  guard_err (negb (ch_typ header =? CT_SHUTDOWN_COMPLETE)) ErrChunkTypeNotShutdownComplete.
Definition ChunkShutdownComplete_marshal_to (writer : Bytes) : Outcome Bytes :=
  ChunkHeader_marshal_to ChunkShutdownComplete_header writer.

(** ** The [Chunk] trait object *)

Definition Chunk_header (c : Chunk) : ChunkHeader :=
  match c with
  | CInit c => ChunkInit_header c
  | CAbort l => ChunkAbort_header l
  | CCookieEcho c => ChunkCookieEcho_header c
  | CCookieAck => ChunkCookieAck_header
  | CHeartbeat ps => ChunkHeartbeat_header ps
  | CHeartbeatAck ps => ChunkHeartbeatAck_header ps
  | CPayloadData c => ChunkPayloadData_header c
  | CSelectiveAck c => ChunkSelectiveAck_header c
  | CReconfig c => ChunkReconfig_header c
  | CForwardTsn c => ChunkForwardTsn_header c
  | CIForwardTsn c => ChunkIForwardTsn_header c
  | CError l => ChunkError_header l
  | CShutdown _ => ChunkShutdown_header
  | CShutdownAck => ChunkShutdownAck_header
  | CShutdownComplete => ChunkShutdownComplete_header
  end.

Definition Chunk_value_length (c : Chunk) : usize :=
  match c with
  | CInit c => ChunkInit_value_length c
  | CAbort l | CError l => error_causes_value_length l
  | CCookieEcho c => len c
  | CCookieAck | CShutdownAck | CShutdownComplete => 0
  | CHeartbeat ps => ChunkHeartbeat_value_length ps
  | CHeartbeatAck ps => padded_params_length ps
  | CPayloadData c => ChunkPayloadData_value_length c
  | CSelectiveAck c => ChunkSelectiveAck_value_length c
  | CReconfig c => ChunkReconfig_value_length c
  | CForwardTsn c => ChunkForwardTsn_value_length c
  | CIForwardTsn c => ChunkIForwardTsn_value_length c
  | CShutdown _ => CUMULATIVE_TSN_ACK_LENGTH
  end.

Definition Chunk_marshal_to (c : Chunk) (writer : Bytes) : Outcome Bytes :=
  match c with
  | CInit c => ChunkInit_marshal_to c writer
  | CAbort l => ChunkAbort_marshal_to l writer
  | CCookieEcho c => ChunkCookieEcho_marshal_to c writer
  | CCookieAck => ChunkCookieAck_marshal_to writer
  | CHeartbeat ps => ChunkHeartbeat_marshal_to ps writer
  | CHeartbeatAck ps => ChunkHeartbeatAck_marshal_to ps writer
  | CPayloadData c => ChunkPayloadData_marshal_to c writer
  | CSelectiveAck c => ChunkSelectiveAck_marshal_to c writer
  | CReconfig c => ChunkReconfig_marshal_to c writer
  | CForwardTsn c => ChunkForwardTsn_marshal_to c writer
  | CIForwardTsn c => ChunkIForwardTsn_marshal_to c writer
  | CError l => ChunkError_marshal_to l writer
  | CShutdown t => ChunkShutdown_marshal_to t writer
  | CShutdownAck => ChunkShutdownAck_marshal_to writer
  | CShutdownComplete => ChunkShutdownComplete_marshal_to writer
  end.

Definition Chunk_check (c : Chunk) : Outcome unit :=
  match c with
  | CInit c => ChunkInit_check c
  | CReconfig c => ChunkReconfig_check c
  | _ => Ok tt
  end.
End Chunks.

(** ** Decoding returns *)

(** The length functions are sums of non-negative terms. *)
Lemma padded_params_length_nonneg ps : 0 <= padded_params_length ps.
Proof.
  induction ps as [|p ps IH]; simpl; [done|]. unfold PARAM_HEADER_LENGTH.
  pose proof (Param_value_length_nonneg p).
  destruct ps; [lia|]. pose proof (get_padding_size_bounds (4 + Param_value_length p)). lia.
Qed.

Lemma fold_add_nonneg {A} (f : A → Z) l acc :
  0 <= acc → (∀ a, 0 <= f a) → 0 <= fold_left (λ n a, n + f a) l acc.
Proof.
  intros Hacc Hf. revert acc Hacc. induction l as [|a l IH]; intros; simpl; [done|].
  apply IH. specialize (Hf a). lia.
Qed.

Lemma error_causes_value_length_nonneg l : 0 <= error_causes_value_length l.
Proof.
  apply fold_add_nonneg; [lia|]. intros a. unfold ErrorCause_length, ERROR_CAUSE_HEADER_LENGTH. lens.
  pose proof (len_nonneg (ec_raw a)). lia.
Qed.

Lemma ChunkHeartbeat_value_length_nonneg ps : 0 <= ChunkHeartbeat_value_length ps.
Proof.
  unfold ChunkHeartbeat_value_length.
  assert (∀ acc, 0 <= acc → 0 <= fold_left (λ n p, n + PARAM_HEADER_LENGTH + Param_value_length p) ps acc) as H;
    [|by apply H].
  induction ps as [|p ps IH]; intros acc Hacc; simpl; [done|]. apply IH.
  pose proof (Param_value_length_nonneg p). unfold PARAM_HEADER_LENGTH. lia.
Qed.

Lemma ChunkReconfig_value_length_nonneg c : 0 <= ChunkReconfig_value_length c.
Proof.
  unfold ChunkReconfig_value_length, PARAM_HEADER_LENGTH.
  destruct (param_a c) as [a|], (param_b c) as [b|];
    repeat match goal with
    | p : Param |- _ => lazymatch goal with H : 0 <= Param_value_length p |- _ => fail
                        | _ => pose proof (Param_value_length_nonneg p) end
    end; try lia.
  - pose proof (get_padding_size_bounds (4 + Param_value_length a)). lia.
  - pose proof (get_padding_size_bounds (4 + 0)). lia.
Qed.

Lemma Chunk_value_length_nonneg c : 0 <= Chunk_value_length c.
Proof.
  destruct c; cbn [Chunk_value_length]; try done;
    auto using error_causes_value_length_nonneg, ChunkHeartbeat_value_length_nonneg,
      padded_params_length_nonneg, len_nonneg, ChunkReconfig_value_length_nonneg;
    unfold ChunkInit_value_length, ChunkPayloadData_value_length, ChunkSelectiveAck_value_length,
      ChunkForwardTsn_value_length, ChunkIForwardTsn_value_length, PAYLOAD_DATA_HEADER_SIZE,
      SELECTIVE_ACK_HEADER_SIZE, NEW_CUMULATIVE_TSN_LENGTH, FORWARD_TSN_STREAM_LENGTH,
      I_FORWARD_TSN_STREAM_ENTRY_LENGTH.
  - pose proof (padded_params_length_nonneg (params c)). lia.
  - pose proof (len_nonneg (user_data c)). lia.
  - pose proof (len_nonneg (gap_ack_blocks c)). pose proof (len_nonneg (duplicate_tsn c)). lia.
  - pose proof (len_nonneg (ft_streams c)). lia.
  - pose proof (len_nonneg (ift_streams c)). lia.
Qed.

(** [step_get] evaluates the next fixed-width read of a long enough reader. *)
Ltac step_get :=
  match goal with
  | |- context [get_u32 ?b] =>
      let a := fresh "v" in destruct (get_u32_drop b) as [a ->]; [rewrite ?len_drop; lia|]
  | |- context [get_u16 ?b] =>
      let a := fresh "v" in destruct (get_u16_drop b) as [a ->]; [rewrite ?len_drop; lia|]
  | |- context [get_u8 ?b] =>
      let a := fresh "v" in destruct (get_u8_drop b) as [a ->]; [rewrite ?len_drop; lia|]
  end; cbn [mbind Outcome_bind]; rewrite ?drop_drop.

Section ChunksReturn.
Context {B : BufApi} {BL : BufLaws B}.

Lemma check_padding_returns n raw vl :
  0 <= vl → 4 + vl + Z.of_nat n <= len raw → returns (check_padding n raw vl).
Proof.
  intros Hvl. induction n as [|n IH]; intros Hn; [done|]. cbn [check_padding].
  destruct (lookup_lt_is_Some_2 raw (Z.to_nat (CHUNK_HEADER_SIZE + (vl + Z.of_nat (S n) - 1)))) as [b ->].
  - unfold CHUNK_HEADER_SIZE, len in *. lia.
  - destruct (b =? 0); [apply IH; lia|done].
Qed.

Lemma ChunkHeader_unmarshal_returns raw : returns (ChunkHeader_unmarshal raw).
Proof.
  unfold ChunkHeader_unmarshal, CHUNK_HEADER_SIZE. destruct (Z.ltb_spec (len raw) 4); [done|].
  do 2 step_get. step_get.
  destruct (Z.ltb_spec v1 4); [done|]. destruct (Z.ltb_spec (len raw - v1) 0); [done|].
  apply returns_bind; [|done].
  destruct (len raw - v1 <? 4); [|done]. apply check_padding_returns; lia.
Qed.

Lemma ChunkHeader_unmarshal_bounds raw h :
  ChunkHeader_unmarshal raw = Ok h → 0 <= ch_value_length h ∧ 4 + ch_value_length h <= len raw.
Proof.
  unfold ChunkHeader_unmarshal, CHUNK_HEADER_SIZE. destruct (len raw <? 4); [done|].
  intros ([t r] & _ & ([f r'] & _ & ([l r''] & _ & H)%bind_Ok)%bind_Ok)%bind_Ok.
  destruct (Z.ltb_spec l 4); [done|]. destruct (Z.ltb_spec (len raw - l) 0); [done|].
  apply bind_Ok in H as (_ & _ & [= <-]). simpl. lia.
Qed.

Lemma chunk_value_Ok raw h :
  ChunkHeader_unmarshal raw = Ok h → ∃ v, chunk_value raw h = Ok v ∧ len v = ch_value_length h.
Proof.
  intros [? ?]%ChunkHeader_unmarshal_bounds. eexists. unfold chunk_value, CHUNK_HEADER_SIZE.
  rewrite slice_Ok by lia. split; [done|]. rewrite len_range by lia. lia.
Qed.

(** Decoders start with the header; the rest may use its bounds. *)
Lemma returns_header {A} raw (f : ChunkHeader → Outcome A) :
  (∀ h, ChunkHeader_unmarshal raw = Ok h → returns (f h)) → returns (ChunkHeader_unmarshal raw ≫= f).
Proof. intros. apply returns_bind; [apply ChunkHeader_unmarshal_returns|auto]. Qed.

Lemma returns_guard_bind {A} c e (f : unit → Outcome A) :
  (c = false → returns (f tt)) → returns (guard_err c e ≫= f).
Proof. intros Hf. destruct c; simpl; auto. Qed.

Lemma ErrorCause_unmarshal_returns buf : returns (ErrorCause_unmarshal buf).
Proof.
  unfold ErrorCause_unmarshal, ERROR_CAUSE_HEADER_LENGTH. destruct (Z.ltb_spec (len buf) 4); [done|].
  do 2 step_get. destruct (Z.ltb_spec v0 4); [done|].
  destruct (Z.ltb_spec (len buf) (4 + (v0 - 4))); [done|]. by rewrite slice_Ok by lia.
Qed.

Lemma error_causes_loop_returns fuel raw offset vend :
  0 <= offset → vend <= len raw → vend - offset < Z.of_nat fuel → 0 < Z.of_nat fuel →
  returns (error_causes_loop fuel raw offset vend).
Proof.
  revert offset; induction fuel as [|fuel IH]; intros offset Ho He Hf Hp; [lia|].
  cbn [error_causes_loop]. unfold ERROR_CAUSE_HEADER_LENGTH at 1.
  destruct (Z.leb_spec (offset + 4) vend); [|done]. rewrite slice_Ok by lia. cbn [mbind Outcome_bind].
  apply returns_bind; [apply ErrorCause_unmarshal_returns|]. intros e _.
  apply returns_bind; [|done].
  pose proof (len_nonneg (ec_raw e)).
  apply IH; unfold ErrorCause_length, ERROR_CAUSE_HEADER_LENGTH; lia.
Qed.

Lemma ChunkAbort_unmarshal_returns raw : returns (ChunkAbort_unmarshal raw).
Proof.
  apply returns_header. intros h [? ?]%ChunkHeader_unmarshal_bounds. apply returns_guard_bind. intros _.
  unfold CHUNK_HEADER_SIZE. apply error_causes_loop_returns; unfold len in *; lia.
Qed.

Lemma ChunkError_unmarshal_returns raw : returns (ChunkError_unmarshal raw).
Proof.
  apply returns_header. intros h [? ?]%ChunkHeader_unmarshal_bounds. apply returns_guard_bind. intros _.
  unfold CHUNK_HEADER_SIZE. apply error_causes_loop_returns; unfold len in *; lia.
Qed.

Lemma ChunkCookieEcho_unmarshal_returns raw : returns (ChunkCookieEcho_unmarshal raw).
Proof.
  apply returns_header. intros h Hh. apply returns_guard_bind. intros _.
  by destruct (chunk_value_Ok raw h Hh) as (v & -> & _).
Qed.

Lemma ChunkHeartbeat_unmarshal_returns raw : returns (ChunkHeartbeat_unmarshal raw).
Proof.
  apply returns_header. intros h Hh. do 2 (apply returns_guard_bind; intros _).
  destruct (chunk_value_Ok raw h Hh) as (v & -> & _). cbn [mbind Outcome_bind].
  apply returns_bind; [apply build_param_returns|]. intros p _. by apply returns_guard_bind.
Qed.

Lemma ChunkPayloadData_unmarshal_returns raw : returns (ChunkPayloadData_unmarshal raw).
Proof.
  apply returns_header. intros h Hh. apply returns_guard_bind. intros _.
  apply returns_guard_bind. unfold PAYLOAD_DATA_HEADER_SIZE. intros Hl%Z.ltb_ge.
  destruct (chunk_value_Ok raw h Hh) as (v & -> & Hv). cbn [mbind Outcome_bind].
  do 4 step_get. apply ChunkHeader_unmarshal_bounds in Hh. unfold CHUNK_HEADER_SIZE.
  by rewrite slice_Ok by lia.
Qed.

Lemma get_gap_ack_block_drop b : 4 <= len b → ∃ a, get_gap_ack_block b = Ok (a, drop 4 b).
Proof.
  intros. unfold get_gap_ack_block. do 2 step_get. eauto.
Qed.

Lemma read_times_returns {A} (get : Bytes → Outcome (A * Bytes)) (k : nat) n r :
  (∀ b, Z.of_nat k <= len b → ∃ a, get b = Ok (a, drop k b)) → Z.of_nat k * Z.of_nat n <= len r →
  ∃ l, read_times get n r = Ok (l, drop (k * n) r).
Proof.
  intros Hget. revert r; induction n as [|n IH]; intros r Hr.
  - exists []. by rewrite Nat.mul_0_r.
  - cbn [read_times]. destruct (Hget r) as [a ->]; [lia|]. cbn [mbind Outcome_bind].
    destruct (IH (drop k r)) as [l ->]; [rewrite len_drop; lia|]. cbn [mbind Outcome_bind].
    exists (a :: l). rewrite drop_drop. do 3 f_equal. lia.
Qed.

Lemma ChunkSelectiveAck_unmarshal_returns raw : bytes_ok raw → returns (ChunkSelectiveAck_unmarshal raw).
Proof.
  intros Hok. apply returns_header. intros h Hh. apply returns_guard_bind. intros _.
  apply returns_guard_bind. unfold SELECTIVE_ACK_HEADER_SIZE. intros Hl%Z.ltb_ge.
  assert (∀ v, chunk_value raw h = Ok v → bytes_ok v) as Hvok.
  { intros v. apply ChunkHeader_unmarshal_bounds in Hh. unfold chunk_value, CHUNK_HEADER_SIZE.
    rewrite slice_Ok by lia. intros [= <-]. auto with bytes. }
  destruct (chunk_value_Ok raw h Hh) as (v & Ev & Hv). specialize (Hvok v Ev). rewrite Ev.
  cbn [mbind Outcome_bind]. do 2 step_get.
  destruct (get_u16_drop_uN (drop (4 + 4) v)) as (n1 & -> & [Hn1 _]); [auto with bytes|rewrite len_drop; lia|].
  cbn [mbind Outcome_bind]. rewrite drop_drop.
  destruct (get_u16_drop_uN (drop (4 + 4 + 2) v)) as (n2 & -> & [Hn2 _]); [auto with bytes|rewrite len_drop; lia|].
  cbn [mbind Outcome_bind]. rewrite drop_drop. apply returns_guard_bind. intros Hg%Z.ltb_ge.
  destruct (read_times_returns get_gap_ack_block 4 (Z.to_nat n1) (drop (4 + 4 + 2 + 2) v)) as [l ->];
    [apply get_gap_ack_block_drop|rewrite len_drop; lia|]. cbn [mbind Outcome_bind]. rewrite drop_drop.
  destruct (read_times_returns get_u32 4 (Z.to_nat n2) (drop (4 + 4 + 2 + 2 + 4 * Z.to_nat n1) v)) as [l' ->];
    [apply get_u32_drop|rewrite len_drop; lia|]. done.
Qed.

Lemma forward_tsn_loop_returns fuel buf offset vend :
  0 <= offset → offset <= vend <= len buf → vend - offset < Z.of_nat fuel →
  returns (forward_tsn_loop fuel buf offset vend (vend - offset)).
Proof.
  revert offset; induction fuel as [|fuel IH]; intros offset Ho He Hf; [lia|]. cbn [forward_tsn_loop].
  destruct (Z.gtb_spec (vend - offset) 0); [|done]. rewrite slice_Ok by lia. cbn [mbind Outcome_bind].
  unfold ChunkForwardTsnStream_unmarshal, FORWARD_TSN_STREAM_LENGTH.
  rewrite len_range by lia. destruct (Z.ltb_spec (vend - offset) 4); [done|].
  destruct (get_u16_drop (range buf offset vend)) as [a ->]; [rewrite len_range; lia|].
  cbn [mbind Outcome_bind].
  destruct (get_u16_drop (drop 2 (range buf offset vend))) as [b ->]; [rewrite len_drop, len_range; lia|].
  cbn [mbind Outcome_bind]. unfold checked_sub, ChunkForwardTsnStream_value_length, FORWARD_TSN_STREAM_LENGTH.
  destruct (Z.leb_spec 4 (vend - offset)); [|lia]. cbn [mbind Outcome_bind].
  apply returns_bind; [|done].
  replace (vend - offset - 4) with (vend - (offset + 4)) by lia. apply IH; lia.
Qed.

Lemma ChunkForwardTsn_unmarshal_returns buf : returns (ChunkForwardTsn_unmarshal buf).
Proof.
  apply returns_header. intros h Hh. apply returns_guard_bind. intros _.
  apply returns_guard_bind. unfold NEW_CUMULATIVE_TSN_LENGTH, CHUNK_HEADER_SIZE. intros Hl%Z.ltb_ge.
  destruct (chunk_value_Ok buf h Hh) as (v & -> & Hv). cbn [mbind Outcome_bind]. step_get.
  apply ChunkHeader_unmarshal_bounds in Hh. unfold checked_sub.
  destruct (Z.leb_spec (4 + 4) (4 + ch_value_length h)); [|lia]. cbn [mbind Outcome_bind].
  apply returns_bind; [|done]. apply forward_tsn_loop_returns; unfold len in *; lia.
Qed.

Lemma i_forward_tsn_loop_returns fuel buf offset vend :
  0 <= offset → vend <= len buf → vend - offset < Z.of_nat fuel → 0 < Z.of_nat fuel →
  returns (i_forward_tsn_loop fuel buf offset vend).
Proof.
  revert offset; induction fuel as [|fuel IH]; intros offset Ho He Hf Hp; [lia|]. cbn [i_forward_tsn_loop].
  unfold I_FORWARD_TSN_STREAM_ENTRY_LENGTH. destruct (Z.leb_spec (offset + 8) vend); [|done].
  rewrite slice_Ok by lia. cbn [mbind Outcome_bind].
  assert (8 <= len (range buf offset vend)) by (rewrite len_range; lia).
  do 4 step_get. apply returns_bind; [|done]. apply IH; lia.
Qed.

Lemma ChunkIForwardTsn_unmarshal_returns buf : returns (ChunkIForwardTsn_unmarshal buf).
Proof.
  apply returns_header. intros h Hh. apply returns_guard_bind. intros _.
  apply returns_guard_bind. unfold NEW_CUMULATIVE_TSN_LENGTH. intros Hl%Z.ltb_ge.
  destruct (chunk_value_Ok buf h Hh) as (v & Ev & Hv). unfold chunk_value in Ev. rewrite Ev.
  cbn [mbind Outcome_bind]. step_get. apply ChunkHeader_unmarshal_bounds in Hh.
  apply returns_bind; [|done]. unfold CHUNK_HEADER_SIZE.
  apply i_forward_tsn_loop_returns; unfold len in *; lia.
Qed.

Lemma init_params_loop_returns fuel raw offset vend :
  0 <= offset → vend <= len raw → vend - offset < Z.of_nat fuel → 0 < Z.of_nat fuel →
  returns (init_params_loop fuel raw offset vend (vend - offset)).
Proof.
  revert offset; induction fuel as [|fuel IH]; intros offset Ho He Hf Hp; [lia|]. cbn [init_params_loop].
  unfold INIT_OPTIONAL_VAR_HEADER_LENGTH. rewrite Z.geb_leb.
  destruct (Z.leb_spec 4 (vend - offset)); [|done].
  rewrite slice_Ok by lia. cbn [mbind Outcome_bind].
  apply returns_bind; [apply build_param_returns|]. intros p _. apply returns_bind; [|done].
  pose proof (Param_value_length_nonneg p). unfold PARAM_HEADER_LENGTH.
  pose proof (get_padding_size_bounds (4 + Param_value_length p)).
  set (k := 4 + Param_value_length p + get_padding_size _) in *.
  replace (vend - offset - k) with (vend - (offset + k)) by lia. apply IH; lia.
Qed.

Lemma ChunkInit_unmarshal_returns raw : returns (ChunkInit_unmarshal raw).
Proof.
  apply returns_header. intros h Hh. apply returns_guard_bind. intros _.
  apply returns_guard_bind. unfold INIT_CHUNK_MIN_LENGTH. intros Hl%Z.ltb_ge.
  apply returns_guard_bind. intros _.
  destruct (chunk_value_Ok raw h Hh) as (v & -> & Hv). cbn [mbind Outcome_bind]. do 5 step_get.
  apply ChunkHeader_unmarshal_bounds in Hh. unfold CHUNK_HEADER_SIZE. apply returns_bind; [|done].
  apply init_params_loop_returns; unfold len in *; lia.
Qed.

Lemma ChunkReconfig_unmarshal_returns raw : returns (ChunkReconfig_unmarshal raw).
Proof.
  apply returns_header. intros h Hh. do 2 (apply returns_guard_bind; intros _).
  destruct (chunk_value_Ok raw h Hh) as (v & -> & _). cbn [mbind Outcome_bind].
  apply returns_bind; [apply build_param_returns|]. intros p _.
  unfold CHUNK_HEADER_SIZE, PARAM_HEADER_LENGTH. apply ChunkHeader_unmarshal_bounds in Hh.
  pose proof (Param_value_length_nonneg p). pose proof (get_padding_size_bounds (4 + Param_value_length p)).
  destruct (Z.gtb_spec (4 + ch_value_length h) (4 + 4 + Param_value_length p + get_padding_size (4 + Param_value_length p)));
    [|done].
  rewrite slice_Ok by lia. cbn [mbind Outcome_bind]. apply returns_bind; [apply build_param_returns|done].
Qed.

Lemma ChunkShutdown_unmarshal_returns raw : returns (ChunkShutdown_unmarshal raw).
Proof.
  apply returns_header. intros h Hh. apply returns_guard_bind. intros _.
  apply returns_guard_bind. unfold CUMULATIVE_TSN_ACK_LENGTH. intros Hl%negb_false_iff%Z.eqb_eq.
  destruct (chunk_value_Ok raw h Hh) as (v & -> & Hv). cbn [mbind Outcome_bind]. by step_get.
Qed.

Lemma flag_only_returns raw ct e :
  returns (header ← ChunkHeader_unmarshal raw; guard_err (negb (ch_typ header =? ct)) e).
Proof. apply returns_header. intros. apply returns_guard. Qed.
End ChunksReturn.
