(* ===== verification/ChunksRoundtrip.v ===== *)
(** * Chunk round trips

    The wire form of every chunk, that [marshal_to] appends exactly it, and
    that the chunk's [unmarshal] reads it back from the front of a longer
    buffer.  Decoding sees what the wire carries: the sender-only fields of a
    DATA chunk come back at their defaults ([wire_view]). *)

From stdpp Require Import base list numbers sets.
From Stdlib Require Import ZArith Lia ZifyBool.
From S2P Require Import Prelude Bytes Util Params Chunks.

(** What follows a chunk in a packet: at least another header, or nothing
    but zero padding. *)
Definition rest_ok (rest : Bytes) : Prop := 4 <= len rest ∨ Forall (λ b, b = 0) rest.

Definition wire_view (c : ChunkPayloadData) : ChunkPayloadData :=
  mkChunkPayloadData (unordered c) (beginning_fragment c) (ending_fragment c) (immediate_sack c)
    (tsn c) (stream_identifier c) (stream_sequence_number c) (payload_type c) (user_data c)
    false 0 0 false None None None 0 false.

Definition Chunk_view (c : Chunk) : Chunk :=
  match c with CPayloadData d => CPayloadData (wire_view d) | _ => c end.

(** The zero bytes after a parameter that is not the last. *)
Definition pad_bytes (n : usize) : Bytes := replicate (Z.to_nat (get_padding_size n)) 0.

Definition Param_wire (p : Param) : Bytes := tlv (Param_code p) (Param_body p).

Fixpoint padded_params_bytes (ps : list Param) : Bytes :=
  match ps with
  | [] => []
  | p :: ps' =>
      Param_wire p ++
      (match ps' with [] => [] | _ => pad_bytes (PARAM_HEADER_LENGTH + Param_value_length p) end) ++
      padded_params_bytes ps'
  end.

Definition ErrorCause_wire (e : ErrorCause) : Bytes := tlv (ec_code e) (ec_raw e).

Definition gap_block_bytes (g : GapAckBlock) : Bytes := be 2 (gab_start g) ++ be 2 (gab_end g).
Definition fwd_stream_bytes (s : ChunkForwardTsnStream) : Bytes := be 2 (fs_identifier s) ++ be 2 (fs_sequence s).
Definition i_fwd_stream_bytes (s : ChunkIForwardTsnStream) : Bytes :=
  be 2 (ifs_identifier s) ++ be 1 (if ifs_unordered s then 1 else 0) ++ be 1 0 ++ be 4 (ifs_mid s).

Definition Chunk_body (c : Chunk) : Bytes :=
  match c with
  | CInit c =>
      be 4 (initiate_tag c) ++ be 4 (advertised_receiver_window_credit c) ++
      be 2 (num_outbound_streams c) ++ be 2 (num_inbound_streams c) ++ be 4 (initial_tsn c) ++
      padded_params_bytes (params c)
  | CAbort l | CError l => flat_map ErrorCause_wire l
  | CCookieEcho cookie => cookie
  | CCookieAck | CShutdownAck | CShutdownComplete => []
  | CHeartbeat ps => flat_map Param_wire ps
  | CHeartbeatAck ps => padded_params_bytes ps
  | CPayloadData d =>
      be 4 (tsn d) ++ be 2 (stream_identifier d) ++ be 2 (stream_sequence_number d) ++
      be 4 (PayloadProtocolIdentifier_as_u32 (payload_type d)) ++ user_data d
  | CSelectiveAck s =>
      be 4 (cumulative_tsn_ack s) ++ be 4 (sack_advertised_receiver_window_credit s) ++
      be 2 (len (gap_ack_blocks s)) ++ be 2 (len (duplicate_tsn s)) ++
      flat_map gap_block_bytes (gap_ack_blocks s) ++ flat_map (be 4) (duplicate_tsn s)
  | CReconfig r =>
      match param_a r with
      | None => []
      | Some a =>
          Param_wire a ++
          match param_b r with
          | None => []
          | Some b => pad_bytes (PARAM_HEADER_LENGTH + Param_value_length a) ++ Param_wire b
          end
      end
  | CForwardTsn f => be 4 (new_cumulative_tsn f) ++ flat_map fwd_stream_bytes (ft_streams f)
  | CIForwardTsn f => be 4 (i_new_cumulative_tsn f) ++ flat_map i_fwd_stream_bytes (ift_streams f)
  | CShutdown t => be 4 t
  end.

Definition chunk_bytes (typ : ChunkType) (flags : u8) (body : Bytes) : Bytes :=
  be 1 typ ++ be 1 flags ++ be 2 (len body + 4) ++ body.

Definition Chunk_wire (c : Chunk) : Bytes :=
  chunk_bytes (ch_typ (Chunk_header c)) (ch_flags (Chunk_header c)) (Chunk_body c).

(** Chunks that have an encoding the receiver accepts. *)
Definition Chunk_wf (c : Chunk) : Prop :=
  Chunk_value_length c + CHUNK_HEADER_SIZE < 2 ^ 16 ∧
  match c with
  | CInit c =>
      uN 32 (initiate_tag c) ∧ uN 32 (advertised_receiver_window_credit c) ∧
      uN 16 (num_outbound_streams c) ∧ uN 16 (num_inbound_streams c) ∧ uN 32 (initial_tsn c) ∧
      Forall Param_wf (params c)
  | CAbort l | CError l =>
      Forall (λ e, uN 16 (ec_code e) ∧ bytes_ok (ec_raw e) ∧ len (ec_raw e) + 4 < 2 ^ 16) l
  | CCookieEcho cookie => bytes_ok cookie
  | CCookieAck | CShutdownAck | CShutdownComplete => True
  | CHeartbeat ps | CHeartbeatAck ps =>
      match ps with [p] => Param_wf p ∧ ph_typ (Param_header p) = HeartbeatInfo | _ => False end
  | CPayloadData d =>
      uN 32 (tsn d) ∧ uN 16 (stream_identifier d) ∧ uN 16 (stream_sequence_number d) ∧ bytes_ok (user_data d)
  | CSelectiveAck s =>
      uN 32 (cumulative_tsn_ack s) ∧ uN 32 (sack_advertised_receiver_window_credit s) ∧
      Forall (λ g, uN 16 (gab_start g) ∧ uN 16 (gab_end g)) (gap_ack_blocks s) ∧
      Forall (uN 32) (duplicate_tsn s)
  | CReconfig r =>
      match param_a r with None => False | Some a => Param_wf a end ∧
      match param_b r with None => True | Some b => Param_wf b end
  | CForwardTsn f =>
      uN 32 (new_cumulative_tsn f) ∧
      Forall (λ s, uN 16 (fs_identifier s) ∧ uN 16 (fs_sequence s)) (ft_streams f)
  | CIForwardTsn f =>
      uN 32 (i_new_cumulative_tsn f) ∧
      Forall (λ s, uN 16 (ifs_identifier s) ∧ uN 32 (ifs_mid s)) (ift_streams f)
  | CShutdown t => uN 32 t
  end.

#[export] Instance Chunk_wf_dec c : Decision (Chunk_wf c).
Proof.
  unfold Chunk_wf. destruct c; try apply _.
  - destruct params as [|? []]; apply _.
  - destruct params as [|? []]; apply _.
  - destruct (param_a c), (param_b c); apply _.
Defined.

(** ** Lengths of the wire forms *)

Lemma len_Param_wire p : len (Param_wire p) = PARAM_HEADER_LENGTH + Param_value_length p.
Proof. unfold Param_wire, tlv, PARAM_HEADER_LENGTH. pose proof (len_Param_body p). lens. Qed.

Lemma len_pad_bytes n : len (pad_bytes n) = get_padding_size n.
Proof. unfold pad_bytes. rewrite len_replicate. pose proof (get_padding_size_bounds n). lia. Qed.

Lemma len_padded_params_bytes ps : len (padded_params_bytes ps) = padded_params_length ps.
Proof.
  induction ps as [|p ps IH]; [done|]. cbn [padded_params_bytes padded_params_length].
  rewrite !len_app, len_Param_wire, IH. destruct ps; [|rewrite len_pad_bytes]; unfold len; simpl; lia.
Qed.

Lemma fold_add_sum {A} (f : A → Z) l acc : fold_left (λ n a, n + f a) l acc = acc + sum_with f l.
Proof.
  revert acc; induction l as [|a l IH]; intros acc; simpl; [unfold sum_with; simpl; lia|].
  rewrite IH. unfold sum_with. simpl. lia.
Qed.

Lemma len_flat_map {A} (enc : A → Bytes) l : len (flat_map enc l) = sum_with (λ a, len (enc a)) l.
Proof. induction l as [|a l IH]; [done|]. cbn [flat_map]. rewrite len_app, IH. done. Qed.

Lemma sum_with_ext {A} (f g : A → Z) l : (∀ a, f a = g a) → sum_with f l = sum_with g l.
Proof. intros H. unfold sum_with. induction l as [|a l IH]; simpl; [done|]. by rewrite H, IH. Qed.

Lemma len_error_causes l : len (flat_map ErrorCause_wire l) = error_causes_value_length l.
Proof.
  rewrite len_flat_map. unfold error_causes_value_length. rewrite fold_add_sum. simpl.
  apply sum_with_ext. intros e.
  unfold ErrorCause_wire, tlv, ErrorCause_length, ERROR_CAUSE_HEADER_LENGTH. lens.
Qed.

Lemma len_heartbeat_params ps : len (flat_map Param_wire ps) = ChunkHeartbeat_value_length ps.
Proof.
  rewrite len_flat_map. unfold ChunkHeartbeat_value_length.
  assert (∀ acc, fold_left (λ n p, n + PARAM_HEADER_LENGTH + Param_value_length p) ps acc =
    acc + sum_with (λ p, len (Param_wire p)) ps) as ->; [|lia].
  induction ps as [|p ps IH]; intros acc; unfold sum_with in *; cbn [fold_left foldr]; [lia|].
  rewrite IH, len_Param_wire. lia.
Qed.

Lemma len_Chunk_body c : Chunk_wf c → len (Chunk_body c) = Chunk_value_length c.
Proof.
  intros [_ Hwf]. destruct c; cbn [Chunk_body Chunk_value_length];
    rewrite ?len_error_causes, ?len_heartbeat_params, ?len_padded_params_bytes; try done;
    unfold ChunkInit_value_length, ChunkPayloadData_value_length, ChunkSelectiveAck_value_length,
      ChunkForwardTsn_value_length, ChunkIForwardTsn_value_length, PAYLOAD_DATA_HEADER_SIZE,
      SELECTIVE_ACK_HEADER_SIZE, NEW_CUMULATIVE_TSN_LENGTH, FORWARD_TSN_STREAM_LENGTH,
      I_FORWARD_TSN_STREAM_ENTRY_LENGTH, CUMULATIVE_TSN_ACK_LENGTH.
  - rewrite !len_app, len_padded_params_bytes. lens.
  - lens.
  - rewrite !len_app, (len_mjoin_enc gap_block_bytes 4), (len_mjoin_enc (be 4) 4);
      [lens|intros; apply (len_be 4)|intros; unfold gap_block_bytes; lens].
  - unfold ChunkReconfig_value_length. destruct Hwf as [Ha Hb].
    destruct (param_a c) as [a|]; [|done]. rewrite len_app, len_Param_wire.
    destruct (param_b c) as [b|]; [rewrite len_app, len_pad_bytes, len_Param_wire; lia|unfold len; simpl; lia].
  - rewrite len_app, (len_mjoin_enc fwd_stream_bytes 4); [lens|intros; unfold fwd_stream_bytes; lens].
  - rewrite len_app, (len_mjoin_enc i_fwd_stream_bytes 8); [lens|intros; unfold i_fwd_stream_bytes; lens].
Qed.

(** ** Encoding appends the wire form *)

Section Encode.
Context {B : BufApi} {BL : BufLaws B}.

Lemma ChunkHeader_marshal_to_wire typ flags n w :
  uN 8 typ → uN 8 flags → 0 <= n → n + 4 < 2 ^ 16 →
  ChunkHeader_marshal_to (mkChunkHeader typ flags (wrap 16 n)) w =
    Ok (w ++ be 1 typ ++ be 1 flags ++ be 2 (n + 4)).
Proof.
  intros Ht Hf Hn H. unfold ChunkHeader_marshal_to, CHUNK_HEADER_SIZE.
  cbn [ch_typ ch_flags ch_value_length]. rewrite wrap_small by (unfold uN; lia). unfold checked_add.
  destruct (Z.ltb_spec (n + 4) (2 ^ 16)); [|lia]. cbn [mbind Outcome_bind].
  rewrite put_u16_law, !put_u8_law by (done || unfold uN; lia). by rewrite <- !app_assoc.
Qed.

Lemma Chunk_header_uN c : uN 8 (ch_typ (Chunk_header c)) ∧ uN 8 (ch_flags (Chunk_header c)).
Proof.
  destruct c as [c| | | | | |[[] [] [] []]| | | | | | | | ]; cbn; try (split; done).
  by destruct (is_ack c).
Qed.

Lemma Chunk_header_marshal c w :
  Chunk_wf c →
  ChunkHeader_marshal_to (Chunk_header c) w =
    Ok (w ++ be 1 (ch_typ (Chunk_header c)) ++ be 1 (ch_flags (Chunk_header c)) ++ be 2 (len (Chunk_body c) + 4)).
Proof.
  intros Hwf. pose proof (Chunk_header_uN c) as [Ht Hf]. pose proof (len_Chunk_body c Hwf) as Hl.
  pose proof (Chunk_value_length_nonneg c). destruct Hwf as [Hlen _]. unfold CHUNK_HEADER_SIZE in Hlen.
  rewrite Hl.
  destruct c; apply ChunkHeader_marshal_to_wire; done.
Qed.

Lemma Param_marshal_wire p : Param_wf p → Param_marshal p = Ok (Param_wire p).
Proof. intros. unfold Param_marshal. by rewrite Param_marshal_to_tlv. Qed.

Lemma marshal_padded_params_wire ps w :
  Forall Param_wf ps → marshal_padded_params ps w = Ok (w ++ padded_params_bytes ps).
Proof.
  revert w; induction ps as [|p ps IH]; intros w Hps; cbn [marshal_padded_params padded_params_bytes].
  - by rewrite app_nil_r.
  - inversion_clear Hps as [|? ? Hp Hps']. rewrite Param_marshal_wire by done. cbn [mbind Outcome_bind].
    rewrite IH by done. rewrite len_Param_wire. fold (pad_bytes (PARAM_HEADER_LENGTH + Param_value_length p)).
    destruct ps; by rewrite <- ?app_assoc.
Qed.

Lemma ErrorCause_marshal_wire e :
  uN 16 (ec_code e) → len (ec_raw e) + 4 < 2 ^ 16 → ErrorCause_marshal e = ErrorCause_wire e.
Proof.
  intros Hc Hl. unfold ErrorCause_marshal, ErrorCause_wire, tlv, ERROR_CAUSE_HEADER_LENGTH.
  pose proof (len_nonneg (ec_raw e)). rewrite wrap_small by (unfold uN; lia).
  rewrite !put_u16_law by (done || unfold uN; lia). by rewrite <- app_assoc.
Qed.

Lemma error_causes_wire l w :
  Forall (λ e, uN 16 (ec_code e) ∧ bytes_ok (ec_raw e) ∧ len (ec_raw e) + 4 < 2 ^ 16) l →
  fold_left (λ w ec, w ++ ErrorCause_marshal ec) l w = w ++ flat_map ErrorCause_wire l.
Proof.
  intros Hl. apply (fold_put (λ w ec, w ++ ErrorCause_marshal ec)). intros v e He.
  destruct (Forall_elem _ _ _ Hl He) as (? & ? & ?). by rewrite ErrorCause_marshal_wire.
Qed.

Lemma ChunkSelectiveAck_body_put s w :
  Chunk_wf (CSelectiveAck s) →
  (let w := put_u32 w (cumulative_tsn_ack s) in
   let w := put_u32 w (sack_advertised_receiver_window_credit s) in
   let w := put_u16 w (wrap 16 (len (gap_ack_blocks s))) in
   let w := put_u16 w (wrap 16 (len (duplicate_tsn s))) in
   let w := fold_left (λ w g, put_u16 (put_u16 w (gab_start g)) (gab_end g)) (gap_ack_blocks s) w in
   fold_left put_u32 (duplicate_tsn s) w) = w ++ Chunk_body (CSelectiveAck s).
Proof.
  intros [Hl (H1 & H2 & H3 & H4)]. cbn in Hl. unfold ChunkSelectiveAck_value_length, CHUNK_HEADER_SIZE,
    SELECTIVE_ACK_HEADER_SIZE in Hl.
  pose proof (len_nonneg (gap_ack_blocks s)). pose proof (len_nonneg (duplicate_tsn s)).
  cbv zeta. rewrite !(wrap_small 16) by (unfold uN; lia).
  rewrite (fold_put _ (be 4)) by (intros w' t Ht; by apply put_u32_law, (Forall_elem _ _ _ H4)).
  rewrite (fold_put _ gap_block_bytes).
  - rewrite !put_u32_law by done. rewrite !put_u16_law by (unfold uN; lia). cbn [Chunk_body].
    by rewrite <- !app_assoc.
  - intros w' g Hg. destruct (Forall_elem _ _ _ H3 Hg). rewrite !put_u16_law by done.
    unfold gap_block_bytes. by rewrite app_assoc.
Qed.

Lemma ChunkReconfig_marshal_to_wire r w :
  Chunk_wf (CReconfig r) → ChunkReconfig_marshal_to r w = Ok (w ++ Chunk_wire (CReconfig r)).
Proof.
  intros Hwf. unfold ChunkReconfig_marshal_to.
  change (ChunkReconfig_header r) with (Chunk_header (CReconfig r)).
  rewrite Chunk_header_marshal by done. cbn [mbind Outcome_bind]. unfold Chunk_wire, chunk_bytes.
  destruct Hwf as [_ [Ha Hb]]. cbn [Chunk_body].
  destruct (param_a r) as [a|]; [|done]. rewrite Param_marshal_wire by done. cbn [mbind Outcome_bind].
  destruct (param_b r) as [b|]; [|by rewrite app_nil_r, <- !app_assoc].
  rewrite Param_marshal_wire by done. cbn [mbind Outcome_bind]. unfold pad_bytes.
  by rewrite <- !app_assoc.
Qed.

(** Open a [marshal_to]: the header, then the body. *)
Ltac open_marshal c :=
  match goal with |- context [ChunkHeader_marshal_to ?h ?w] =>
    change h with (Chunk_header c); rewrite (Chunk_header_marshal c w) by done
  end; cbn [mbind Outcome_bind]; unfold Chunk_wire, chunk_bytes.

Lemma Chunk_marshal_to_wire c w :
  Chunk_wf c → Chunk_marshal_to c w = Ok (w ++ Chunk_wire c).
Proof.
  intros Hwf. pose proof Hwf as [Hl Hd].
  destruct c; cbn [Chunk_marshal_to];
    unfold ChunkInit_marshal_to, ChunkAbort_marshal_to, ChunkCookieEcho_marshal_to,
      ChunkCookieAck_marshal_to, ChunkHeartbeat_marshal_to, ChunkHeartbeatAck_marshal_to,
      ChunkPayloadData_marshal_to, ChunkSelectiveAck_marshal_to, ChunkForwardTsn_marshal_to,
      ChunkIForwardTsn_marshal_to, ChunkError_marshal_to, ChunkShutdown_marshal_to,
      ChunkShutdownAck_marshal_to, ChunkShutdownComplete_marshal_to.
  - open_marshal (CInit c). destruct Hd as (? & ? & ? & ? & ? & ?).
    rewrite marshal_padded_params_wire by done. rewrite !put_u32_law, !put_u16_law by done.
    cbn [Chunk_body]. by rewrite <- !app_assoc.
  - open_marshal (CAbort error_causes). rewrite error_causes_wire by done. by rewrite <- !app_assoc.
  - open_marshal (CCookieEcho cookie). by rewrite <- !app_assoc.
  - open_marshal CCookieAck. cbn [Chunk_body]. by rewrite app_nil_r.
  - open_marshal (CHeartbeat params). destruct params as [|p []]; try done. destruct Hd as [Hp _].
    cbn [marshal_heartbeat_params]. rewrite Param_marshal_wire by done. cbn [mbind Outcome_bind Chunk_body flat_map].
    by rewrite app_nil_r, <- !app_assoc.
  - destruct params as [|p []]; try done. destruct Hd as [Hp Hi]. rewrite bool_decide_true by done.
    open_marshal (CHeartbeatAck [p]). rewrite marshal_padded_params_wire by (by constructor).
    by rewrite <- !app_assoc.
  - open_marshal (CPayloadData c). destruct Hd as (? & ? & ? & ?).
    assert (uN 32 (PayloadProtocolIdentifier_as_u32 (payload_type c))) by (by destruct (payload_type c)).
    rewrite !put_u32_law, !put_u16_law by done. cbn [Chunk_body]. by rewrite <- !app_assoc.
  - open_marshal (CSelectiveAck c). f_equal. etrans; [by apply ChunkSelectiveAck_body_put|].
    by rewrite <- !app_assoc.
  - by apply ChunkReconfig_marshal_to_wire.
  - open_marshal (CForwardTsn c). destruct Hd as (? & Hs). rewrite put_u32_law by done.
    rewrite (fold_put _ fwd_stream_bytes); [cbn [Chunk_body]; by rewrite <- !app_assoc|].
    intros v s He. destruct (Forall_elem _ _ _ Hs He). unfold ChunkForwardTsnStream_marshal.
    by rewrite !put_u16_law.
  - open_marshal (CIForwardTsn c). destruct Hd as (? & Hs). rewrite put_u32_law by done.
    rewrite (fold_put _ i_fwd_stream_bytes); [cbn [Chunk_body]; by rewrite <- !app_assoc|].
    intros v s He. destruct (Forall_elem _ _ _ Hs He). cbv zeta.
    rewrite put_u32_law, !put_u8_law, put_u16_law by (done || by destruct (ifs_unordered s)).
    unfold i_fwd_stream_bytes. by rewrite <- !app_assoc.
  - open_marshal (CError error_causes). rewrite error_causes_wire by done. by rewrite <- !app_assoc.
  - open_marshal (CShutdown cumulative_tsn_ack). rewrite put_u32_law by done. by rewrite <- !app_assoc.
  - open_marshal CShutdownAck. cbn [Chunk_body]. by rewrite app_nil_r.
  - open_marshal CShutdownComplete. cbn [Chunk_body]. by rewrite app_nil_r.
Qed.
End Encode.

(** ** Decoding reads the wire form back *)

Section Decode.
Context {B : BufApi} {BL : BufLaws B}.

Lemma check_padding_zeros n raw vl pre rest :
  raw = pre ++ rest → len pre = 4 + vl → 0 <= vl → Forall (λ b, b = 0) rest → (n ≤ length rest)%nat →
  check_padding n raw vl = Ok tt.
Proof.
  intros -> Hpre Hvl Hz. induction n as [|n IH]; intros Hn; [done|]. cbn [check_padding].
  destruct (lookup_lt_is_Some_2 rest n) as [b Hb]; [lia|].
  replace (Z.to_nat (CHUNK_HEADER_SIZE + (vl + Z.of_nat (S n) - 1))) with (length pre + n)%nat
    by (unfold CHUNK_HEADER_SIZE, len in *; lia).
  rewrite lookup_app_r, Nat.add_comm, Nat.add_sub, Hb by lia.
  rewrite (Forall_lookup_1 _ _ _ _ Hz Hb). simpl. apply IH. lia.
Qed.

Lemma ChunkHeader_unmarshal_wire typ flags body rest :
  uN 8 typ → uN 8 flags → len body + 4 < 2 ^ 16 → rest_ok rest →
  ChunkHeader_unmarshal (chunk_bytes typ flags body ++ rest) = Ok (mkChunkHeader typ flags (len body)).
Proof.
  intros Ht Hf Hl Hrest. pose proof (len_nonneg body).
  assert (len (chunk_bytes typ flags body) = 4 + len body) as Hcb by (unfold chunk_bytes; lens).
  unfold ChunkHeader_unmarshal, CHUNK_HEADER_SIZE. rewrite len_app, Hcb. pose proof (len_nonneg rest).
  destruct (Z.ltb_spec (4 + len body + len rest) 4); [lia|].
  unfold chunk_bytes. rewrite <- !app_assoc. rewrite get_u8_be by done. cbn [mbind Outcome_bind].
  rewrite get_u8_be by done. cbn [mbind Outcome_bind]. rewrite get_u16_be by (unfold uN; lia).
  cbn [mbind Outcome_bind]. destruct (Z.ltb_spec (len body + 4) 4); [lia|].
  destruct (Z.ltb_spec (4 + len body + len rest - (len body + 4)) 0); [lia|].
  replace (len body + 4 - 4) with (len body) by lia.
  destruct (Z.ltb_spec (4 + len body + len rest - (len body + 4)) 4); [|done].
  rewrite (check_padding_zeros _ _ _ (chunk_bytes typ flags body) rest); try done.
  - destruct Hrest; [lia|done].
  - unfold len in *. lia.
Qed.

Lemma chunk_bytes_split typ flags body rest :
  chunk_bytes typ flags body ++ rest = (be 1 typ ++ be 1 flags ++ be 2 (len body + 4)) ++ body ++ rest.
Proof. unfold chunk_bytes. by rewrite <- !app_assoc. Qed.

Lemma chunk_value_wire typ flags body rest :
  chunk_value (chunk_bytes typ flags body ++ rest) (mkChunkHeader typ flags (len body)) = Ok body.
Proof.
  unfold chunk_value, CHUNK_HEADER_SIZE. cbn [ch_value_length].
  rewrite chunk_bytes_split. apply slice_mid; lens.
Qed.

(** A slice that starts [k] bytes into the body and stops at its end. *)
Lemma slice_body_suffix typ flags (pre suf : Bytes) rest k :
  k = 4 + len pre →
  slice (chunk_bytes typ flags (pre ++ suf) ++ rest) k (4 + len (pre ++ suf)) = Ok suf.
Proof.
  intros ->. rewrite chunk_bytes_split, <- (app_assoc pre suf).
  rewrite (app_assoc _ pre). apply slice_mid; lens.
Qed.

Lemma ErrorCause_unmarshal_wire e rest :
  uN 16 (ec_code e) → len (ec_raw e) + 4 < 2 ^ 16 →
  ErrorCause_unmarshal (ErrorCause_wire e ++ rest) = Ok e.
Proof.
  intros Hc Hl. unfold ErrorCause_unmarshal, ErrorCause_wire, tlv, ERROR_CAUSE_HEADER_LENGTH.
  pose proof (len_nonneg (ec_raw e)). pose proof (len_nonneg rest). rewrite <- !app_assoc.
  destruct (Z.ltb_spec (len (be 2 (ec_code e) ++ be 2 (len (ec_raw e) + 4) ++ ec_raw e ++ rest)) 4); [lens|].
  rewrite get_u16_be by done. cbn [mbind Outcome_bind]. rewrite get_u16_be by (unfold uN; lia).
  cbn [mbind Outcome_bind]. destruct (Z.ltb_spec (len (ec_raw e) + 4) 4); [lia|].
  match goal with |- context [if ?c then _ else _] => destruct c eqn:E end; [lens|].
  rewrite (app_assoc (be 2 _)). rewrite (slice_mid _ (ec_raw e)) by lens. by destruct e.
Qed.

Lemma error_causes_loop_wire fuel typ flags pre l rest :
  Forall (λ e, uN 16 (ec_code e) ∧ bytes_ok (ec_raw e) ∧ len (ec_raw e) + 4 < 2 ^ 16) l →
  (length l < fuel)%nat →
  let body := pre ++ flat_map ErrorCause_wire l in
  error_causes_loop fuel (chunk_bytes typ flags body ++ rest) (4 + len pre) (4 + len body) = Ok l.
Proof.
  revert fuel pre; induction l as [|e l IH]; intros fuel pre Hl Hf body;
    (destruct fuel; simpl in Hf; [lia|]); cbn [error_causes_loop]; unfold ERROR_CAUSE_HEADER_LENGTH at 1.
  - unfold body. cbn [flat_map]. rewrite app_nil_r.
    destruct (Z.leb_spec (4 + len pre + 4) (4 + len pre)); [lia|done].
  - inversion_clear Hl as [|? ? (Hc & _ & Hr) Hl'].
    assert (len body = len pre + (4 + len (ec_raw e)) + len (flat_map ErrorCause_wire l)) as Hb.
    { unfold body. cbn [flat_map]. rewrite !len_app. unfold ErrorCause_wire at 1, tlv. lens. }
    pose proof (len_nonneg (ec_raw e)). pose proof (len_nonneg (flat_map ErrorCause_wire l)).
    destruct (Z.leb_spec (4 + len pre + 4) (4 + len body)); [|lia].
    assert (slice (chunk_bytes typ flags body ++ rest) (4 + len pre) (4 + len body) =
      Ok (ErrorCause_wire e ++ flat_map ErrorCause_wire l)) as -> by (by apply slice_body_suffix).
    cbn [mbind Outcome_bind].
    rewrite ErrorCause_unmarshal_wire by done. cbn [mbind Outcome_bind].
    pose proof (IH fuel (pre ++ ErrorCause_wire e) Hl' ltac:(lia)) as IH'. cbv zeta in IH'.
    rewrite <- app_assoc in IH'.
    replace (4 + len (pre ++ ErrorCause_wire e)) with (4 + len pre + ErrorCause_length e) in IH'
      by (rewrite len_app; unfold ErrorCause_wire, tlv, ErrorCause_length, ERROR_CAUSE_HEADER_LENGTH; lens).
    change (pre ++ ErrorCause_wire e ++ flat_map ErrorCause_wire l) with body in IH'. by rewrite IH'.
Qed.

Lemma build_param_wire p rest : Param_wf p → build_param (Param_wire p ++ rest) = Ok p.
Proof. apply build_param_tlv. Qed.

Lemma init_params_loop_wire fuel typ flags pre ps rest vend :
  Forall Param_wf ps → (length ps < fuel)%nat →
  vend = 4 + len (pre ++ padded_params_bytes ps) →
  init_params_loop fuel (chunk_bytes typ flags (pre ++ padded_params_bytes ps) ++ rest)
    (4 + len pre) vend (vend - (4 + len pre)) = Ok ps.
Proof.
  revert fuel pre; induction ps as [|p ps IH]; intros fuel pre Hps Hf Hv;
    (destruct fuel; simpl in Hf; [lia|]); cbn [init_params_loop]; unfold INIT_OPTIONAL_VAR_HEADER_LENGTH;
    rewrite Z.geb_leb.
  - cbn [padded_params_bytes] in *. rewrite app_nil_r in *. subst vend.
    destruct (Z.leb_spec 4 (4 + len pre - (4 + len pre))); [lia|done].
  - inversion_clear Hps as [|? ? Hp Hps'].
    set (pad := match ps with [] => [] | _ => pad_bytes (PARAM_HEADER_LENGTH + Param_value_length p) end).
    assert (padded_params_bytes (p :: ps) = Param_wire p ++ pad ++ padded_params_bytes ps) as E by done.
    rewrite E in *. pose proof (len_Param_wire p) as Hw. unfold PARAM_HEADER_LENGTH in Hw.
    pose proof (Param_value_length_nonneg p). pose proof (len_nonneg (pad ++ padded_params_bytes ps)).
    destruct (Z.leb_spec 4 (vend - (4 + len pre))); [|rewrite Hv in *; rewrite !len_app in *; lia].
    rewrite Hv at 1. rewrite slice_body_suffix by done. cbn [mbind Outcome_bind].
    rewrite build_param_wire by done. cbn [mbind Outcome_bind].
    unfold PARAM_HEADER_LENGTH.
    destruct ps as [|p' ps'].
    + (* the last parameter: whatever padding is skipped, fewer than four bytes remain *)
      destruct fuel; [simpl in Hf; lia|]. cbn [init_params_loop]. unfold INIT_OPTIONAL_VAR_HEADER_LENGTH.
      rewrite Z.geb_leb. pose proof (get_padding_size_bounds (4 + Param_value_length p)).
      match goal with |- context [4 <=? ?x] => destruct (Z.leb_spec 4 x) end; [|done].
      subst pad. cbn [padded_params_bytes] in *. subst vend. lens. 
    + pose proof (IH fuel (pre ++ Param_wire p ++ pad) Hps' ltac:(simpl in *; lia)) as IH'.
      rewrite <- !app_assoc in IH'. specialize (IH' Hv).
      assert (4 + len (pre ++ Param_wire p ++ pad) = 4 + len pre +
        (4 + Param_value_length p + get_padding_size (4 + Param_value_length p))) as Ho.
      { rewrite !len_app, Hw. unfold pad. rewrite len_pad_bytes. unfold PARAM_HEADER_LENGTH. lia. }
      rewrite Ho in IH'.
      replace (vend - (4 + len pre) - (4 + Param_value_length p + get_padding_size (4 + Param_value_length p)))
        with (vend - (4 + len pre + (4 + Param_value_length p + get_padding_size (4 + Param_value_length p)))) by lia.
      by rewrite IH'.
Qed.

(** The loops get one unit of fuel per byte: never fewer than the items. *)
Lemma length_padded_params ps : (length ps ≤ length (padded_params_bytes ps))%nat.
Proof.
  induction ps as [|p ps IH]; [done|]. cbn [padded_params_bytes length].
  rewrite !length_app. pose proof (len_Param_wire p). pose proof (Param_value_length_nonneg p).
  unfold len, PARAM_HEADER_LENGTH in *. lia.
Qed.

Lemma length_flat_map_ge {A} (enc : A → Bytes) l :
  (∀ a, (0 < length (enc a))%nat) → (length l ≤ length (flat_map enc l))%nat.
Proof.
  intros H. induction l as [|a l IH]; [done|]. cbn [flat_map length]. rewrite length_app. specialize (H a). lia.
Qed.

Lemma fuel_flat_map {A} (enc : A → Bytes) l typ flags rest :
  (∀ a, (0 < length (enc a))%nat) →
  (length l < S (length (chunk_bytes typ flags (flat_map enc l)) + rest))%nat.
Proof.
  intros H. unfold chunk_bytes. rewrite !length_app. pose proof (length_flat_map_ge enc l H). lia.
Qed.

Lemma length_causes e : (0 < length (ErrorCause_wire e))%nat.
Proof. unfold ErrorCause_wire, tlv. rewrite !length_app, length_be. lia. Qed.

(** The header and the value of a well-formed chunk in front of [rest]. *)
Lemma Chunk_wire_header c rest :
  Chunk_wf c → rest_ok rest →
  ChunkHeader_unmarshal (Chunk_wire c ++ rest) =
    Ok (mkChunkHeader (ch_typ (Chunk_header c)) (ch_flags (Chunk_header c)) (len (Chunk_body c))).
Proof.
  intros Hwf Hr. pose proof (Chunk_header_uN c) as [? ?]. pose proof (len_Chunk_body c Hwf).
  destruct Hwf as [Hl _]. unfold CHUNK_HEADER_SIZE in Hl.
  apply ChunkHeader_unmarshal_wire; try done. lia.
Qed.

(** Open an [unmarshal] on a wire form: its header, the type test, the value. *)
Ltac open_wire c :=
  rewrite (Chunk_wire_header c) by done; cbn [mbind Outcome_bind];
  change (ch_typ (mkChunkHeader ?t ?f ?n)) with t;
  cbn [Chunk_header ch_typ ch_flags ch_value_length].
Ltac no_guard :=
  match goal with |- context [guard_err ?b ?e] =>
    replace (guard_err b e) with (@Ok unit tt) by (symmetry; apply guard_err_Ok; (done || lia))
  end; cbn [mbind Outcome_bind].

Lemma ChunkInit_unmarshal_wire c rest :
  Chunk_wf (CInit c) → rest_ok rest → ChunkInit_unmarshal (Chunk_wire (CInit c) ++ rest) = Ok c.
Proof.
  intros Hwf Hr. pose proof (len_Chunk_body _ Hwf) as Hl. pose proof Hwf as [_ (H1 & H2 & H3 & H4 & H5 & H6)].
  cbn [Chunk_value_length] in Hl. unfold ChunkInit_value_length in Hl.
  pose proof (padded_params_length_nonneg (params c)).
  unfold ChunkInit_unmarshal. open_wire (CInit c). unfold ChunkInit_header, INIT_CHUNK_MIN_LENGTH.
  cbn [ch_typ ch_flags].
  assert (((if is_ack c then CT_INIT_ACK else CT_INIT) =? CT_INIT) ||
    ((if is_ack c then CT_INIT_ACK else CT_INIT) =? CT_INIT_ACK) = true) as -> by (by destruct (is_ack c)).
  do 3 no_guard.
  unfold Chunk_wire. cbn [Chunk_header ch_typ ch_flags]. unfold ChunkInit_header. cbn [ch_typ ch_flags].
  rewrite chunk_value_wire. cbn [mbind Outcome_bind]. unfold CHUNK_HEADER_SIZE.
  set (pre := be 4 (initiate_tag c) ++ be 4 (advertised_receiver_window_credit c) ++
    be 2 (num_outbound_streams c) ++ be 2 (num_inbound_streams c) ++ be 4 (initial_tsn c)).
  assert (Chunk_body (CInit c) = pre ++ padded_params_bytes (params c)) as Eb
    by (unfold pre; cbn [Chunk_body]; by rewrite <- !app_assoc).
  assert (get_u32 (Chunk_body (CInit c)) = Ok (initiate_tag c,
    be 4 (advertised_receiver_window_credit c) ++ be 2 (num_outbound_streams c) ++
    be 2 (num_inbound_streams c) ++ be 4 (initial_tsn c) ++ padded_params_bytes (params c))) as ->
    by (by apply get_u32_be).
  cbn [mbind Outcome_bind]. rewrite get_u32_be by done. cbn [mbind Outcome_bind].
  rewrite get_u16_be by done. cbn [mbind Outcome_bind]. rewrite get_u16_be by done. cbn [mbind Outcome_bind].
  rewrite get_u32_be by done. cbn [mbind Outcome_bind]. rewrite Eb.
  assert (4 + 16 = 4 + len pre) as -> by (unfold pre; lens).
  rewrite init_params_loop_wire; [|done| |done].
  - by destruct c as [[] ? ? ? ? ? ?].
  - pose proof (length_padded_params (params c)) as Hp.
    rewrite length_app. unfold chunk_bytes. rewrite !length_app. lia.
Qed.

Lemma ChunkAbort_unmarshal_wire l rest :
  Chunk_wf (CAbort l) → rest_ok rest → ChunkAbort_unmarshal (Chunk_wire (CAbort l) ++ rest) = Ok l.
Proof.
  intros Hwf Hr. unfold ChunkAbort_unmarshal. open_wire (CAbort l). no_guard.
  apply (error_causes_loop_wire _ CT_ABORT 0 [] l rest); [apply Hwf|].
  rewrite length_app. apply fuel_flat_map. apply length_causes.
Qed.

Lemma ChunkError_unmarshal_wire l rest :
  Chunk_wf (CError l) → rest_ok rest → ChunkError_unmarshal (Chunk_wire (CError l) ++ rest) = Ok l.
Proof.
  intros Hwf Hr. unfold ChunkError_unmarshal. open_wire (CError l). no_guard.
  apply (error_causes_loop_wire _ CT_ERROR 0 [] l rest); [apply Hwf|].
  rewrite length_app. apply fuel_flat_map. apply length_causes.
Qed.

Lemma ChunkCookieEcho_unmarshal_wire cookie rest :
  Chunk_wf (CCookieEcho cookie) → rest_ok rest →
  ChunkCookieEcho_unmarshal (Chunk_wire (CCookieEcho cookie) ++ rest) = Ok cookie.
Proof.
  intros Hwf Hr. unfold ChunkCookieEcho_unmarshal. open_wire (CCookieEcho cookie). no_guard.
  apply chunk_value_wire.
Qed.

Lemma ChunkHeartbeat_unmarshal_wire ps rest :
  Chunk_wf (CHeartbeat ps) → rest_ok rest → ChunkHeartbeat_unmarshal (Chunk_wire (CHeartbeat ps) ++ rest) = Ok ps.
Proof.
  intros Hwf Hr. unfold ChunkHeartbeat_unmarshal. open_wire (CHeartbeat ps). no_guard.
  destruct ps as [|p [|]]; try by destruct Hwf.
  pose proof (Param_value_length_nonneg p). pose proof (len_Param_wire p).
  assert (len (Chunk_body (CHeartbeat [p])) = PARAM_HEADER_LENGTH + Param_value_length p) as Hl
    by (cbn [Chunk_body flat_map]; by rewrite app_nil_r).
  no_guard. unfold Chunk_wire. cbn [Chunk_header ch_typ ch_flags ChunkHeartbeat_header].
  rewrite chunk_value_wire. cbn [mbind Outcome_bind Chunk_body flat_map]. destruct Hwf as [_ [Hp Hi]].
  rewrite build_param_wire by done. cbn [mbind Outcome_bind]. by rewrite bool_decide_true.
Qed.

Lemma ChunkHeartbeatAck_unmarshal_wire ps rest :
  Chunk_wf (CHeartbeatAck ps) → rest_ok rest →
  ChunkHeartbeatAck_unmarshal (Chunk_wire (CHeartbeatAck ps) ++ rest) = Ok ps.
Proof.
  intros Hwf Hr. unfold ChunkHeartbeatAck_unmarshal. open_wire (CHeartbeatAck ps). no_guard.
  destruct ps as [|p [|]]; try by destruct Hwf.
  pose proof (Param_value_length_nonneg p). pose proof (len_Param_wire p).
  assert (len (Chunk_body (CHeartbeatAck [p])) = PARAM_HEADER_LENGTH + Param_value_length p) as Hl
    by (cbn [Chunk_body padded_params_bytes]; by rewrite !app_nil_r).
  no_guard. unfold Chunk_wire. cbn [Chunk_header ch_typ ch_flags ChunkHeartbeatAck_header].
  rewrite chunk_value_wire. cbn [mbind Outcome_bind Chunk_body padded_params_bytes].
  destruct Hwf as [_ [Hp Hi]]. rewrite build_param_wire by done. cbn [mbind Outcome_bind].
  by rewrite bool_decide_true.
Qed.

Lemma ppi_from_as p : PayloadProtocolIdentifier_from_u32 (PayloadProtocolIdentifier_as_u32 p) = p.
Proof. by destruct p. Qed.

Lemma ChunkPayloadData_unmarshal_wire d rest :
  Chunk_wf (CPayloadData d) → rest_ok rest →
  ChunkPayloadData_unmarshal (Chunk_wire (CPayloadData d) ++ rest) = Ok (wire_view d).
Proof.
  intros Hwf Hr. pose proof (len_Chunk_body _ Hwf) as Hl. pose proof Hwf as [_ (H1 & H2 & H3 & H4)].
  cbn [Chunk_value_length] in Hl. unfold ChunkPayloadData_value_length, PAYLOAD_DATA_HEADER_SIZE in Hl.
  pose proof (len_nonneg (user_data d)). unfold ChunkPayloadData_unmarshal, PAYLOAD_DATA_HEADER_SIZE.
  open_wire (CPayloadData d). unfold ChunkPayloadData_header. cbn [ch_typ ch_flags]. do 2 no_guard.
  unfold Chunk_wire. cbn [Chunk_header]. unfold ChunkPayloadData_header. cbn [ch_typ ch_flags].
  rewrite chunk_value_wire. cbn [mbind Outcome_bind].
  assert (uN 32 (PayloadProtocolIdentifier_as_u32 (payload_type d))) by (by destruct (payload_type d)).
  set (pre := be 4 (tsn d) ++ be 2 (stream_identifier d) ++ be 2 (stream_sequence_number d) ++
    be 4 (PayloadProtocolIdentifier_as_u32 (payload_type d))).
  assert (Chunk_body (CPayloadData d) = pre ++ user_data d) as Eb
    by (unfold pre; cbn [Chunk_body]; by rewrite <- !app_assoc).
  assert (get_u32 (Chunk_body (CPayloadData d)) = Ok (tsn d, be 2 (stream_identifier d) ++
    be 2 (stream_sequence_number d) ++ be 4 (PayloadProtocolIdentifier_as_u32 (payload_type d)) ++ user_data d))
    as -> by (by apply get_u32_be).
  cbn [mbind Outcome_bind]. rewrite get_u16_be by done. cbn [mbind Outcome_bind].
  rewrite get_u16_be by done. cbn [mbind Outcome_bind]. rewrite get_u32_be by done. cbn [mbind Outcome_bind].
  unfold CHUNK_HEADER_SIZE. rewrite Eb, slice_body_suffix by (unfold pre; lens). cbn [mbind Outcome_bind].
  rewrite ppi_from_as. unfold wire_view, ChunkPayloadData_flags.
  by destruct (unordered d), (beginning_fragment d), (ending_fragment d), (immediate_sack d).
Qed.

Lemma get_gap_ack_block_wire g r :
  uN 16 (gab_start g) → uN 16 (gab_end g) → get_gap_ack_block (gap_block_bytes g ++ r) = Ok (g, r).
Proof.
  intros. unfold get_gap_ack_block, gap_block_bytes. rewrite <- app_assoc, get_u16_be by done.
  cbn [mbind Outcome_bind]. rewrite get_u16_be by done. by destruct g.
Qed.

Lemma ChunkSelectiveAck_unmarshal_wire s rest :
  Chunk_wf (CSelectiveAck s) → rest_ok rest →
  ChunkSelectiveAck_unmarshal (Chunk_wire (CSelectiveAck s) ++ rest) = Ok s.
Proof.
  intros Hwf Hr. pose proof (len_Chunk_body _ Hwf) as Hl. pose proof Hwf as [Hb (H1 & H2 & H3 & H4)].
  cbn [Chunk_value_length] in Hl, Hb.
  unfold ChunkSelectiveAck_value_length, SELECTIVE_ACK_HEADER_SIZE, CHUNK_HEADER_SIZE in Hl, Hb.
  pose proof (len_nonneg (gap_ack_blocks s)). pose proof (len_nonneg (duplicate_tsn s)).
  unfold ChunkSelectiveAck_unmarshal, SELECTIVE_ACK_HEADER_SIZE. open_wire (CSelectiveAck s). do 2 no_guard.
  unfold Chunk_wire. cbn [Chunk_header ChunkSelectiveAck_header ch_typ ch_flags].
  rewrite chunk_value_wire. cbn [mbind Outcome_bind]. rewrite Hl. cbn [Chunk_body].
  rewrite get_u32_be by done. cbn [mbind Outcome_bind]. rewrite get_u32_be by done. cbn [mbind Outcome_bind].
  rewrite get_u16_be by (unfold uN; lia). cbn [mbind Outcome_bind].
  rewrite get_u16_be by (unfold uN; lia). cbn [mbind Outcome_bind]. no_guard.
  unfold len. rewrite !Nat2Z.id.
  rewrite (read_times_enc get_gap_ack_block gap_block_bytes)
    by (intros g r Hg; destruct (Forall_elem _ _ _ H3 Hg); by apply get_gap_ack_block_wire).
  cbn [mbind Outcome_bind]. rewrite <- (app_nil_r (flat_map (be 4) _)).
  rewrite (read_times_enc get_u32 (be 4)) by (intros t r Ht; by apply get_u32_be, (Forall_elem _ _ _ H4)).
  by destruct s.
Qed.

Lemma ChunkReconfig_unmarshal_wire r rest :
  Chunk_wf (CReconfig r) → rest_ok rest → ChunkReconfig_unmarshal (Chunk_wire (CReconfig r) ++ rest) = Ok r.
Proof.
  intros Hwf Hr. pose proof (len_Chunk_body _ Hwf) as Hl. pose proof Hwf as [_ [Ha Hb]].
  cbn [Chunk_value_length] in Hl. pose proof (ChunkReconfig_value_length_nonneg r).
  unfold ChunkReconfig_unmarshal, CHUNK_HEADER_SIZE, PARAM_HEADER_LENGTH. open_wire (CReconfig r). no_guard.
  destruct r as [[a|] pb]; [|done]. cbn [param_a param_b] in *.
  pose proof (Param_value_length_nonneg a). pose proof (len_Param_wire a) as Hwa.
  unfold PARAM_HEADER_LENGTH in Hwa.
  pose proof (get_padding_size_bounds (4 + Param_value_length a)).
  assert (4 + Param_value_length a <= ChunkReconfig_value_length (mkChunkReconfig (Some a) pb)) as Hge.
  { unfold ChunkReconfig_value_length, PARAM_HEADER_LENGTH. cbn [param_a param_b].
    destruct pb as [b|]; [pose proof (Param_value_length_nonneg b)|]; lia. }
  no_guard. unfold Chunk_wire. cbn [Chunk_header ChunkReconfig_header ch_typ ch_flags].
  rewrite chunk_value_wire. cbn [mbind Outcome_bind].
  assert (Chunk_body (CReconfig (mkChunkReconfig (Some a) pb)) = Param_wire a ++ match pb with
    None => [] | Some b => pad_bytes (4 + Param_value_length a) ++ Param_wire b end) as Eb by done.
  rewrite Hl, Eb, build_param_wire by done. cbn [mbind Outcome_bind].
  unfold ChunkReconfig_value_length, PARAM_HEADER_LENGTH. cbn [param_a param_b].
  destruct pb as [b|].
  - pose proof (Param_value_length_nonneg b).
    match goal with |- context [if ?c then _ else _] => destruct c eqn:E end; [|lia].
    assert (4 + 4 + Param_value_length a + get_padding_size (4 + Param_value_length a) =
      4 + len (Param_wire a ++ pad_bytes (4 + Param_value_length a))) as ->
      by (rewrite len_app, len_pad_bytes; lia).
    rewrite app_assoc.
    replace (4 + (4 + Param_value_length a + (4 + Param_value_length b + get_padding_size (4 + Param_value_length a))))
      with (4 + len ((Param_wire a ++ pad_bytes (4 + Param_value_length a)) ++ Param_wire b))
      by (rewrite !len_app, len_pad_bytes, Hwa, len_Param_wire; unfold PARAM_HEADER_LENGTH; lia).
    rewrite slice_body_suffix by done. cbn [mbind Outcome_bind].
    rewrite <- (app_nil_r (Param_wire b)), build_param_wire by done. done.
  - match goal with |- context [if ?c then _ else _] => destruct c eqn:E end; [lia|done].
Qed.

Lemma forward_tsn_loop_wire fuel typ flags pre l rest vend :
  Forall (λ s, uN 16 (fs_identifier s) ∧ uN 16 (fs_sequence s)) l → (length l < fuel)%nat →
  vend = 4 + len (pre ++ flat_map fwd_stream_bytes l) →
  forward_tsn_loop fuel (chunk_bytes typ flags (pre ++ flat_map fwd_stream_bytes l) ++ rest)
    (4 + len pre) vend (vend - (4 + len pre)) = Ok l.
Proof.
  revert fuel pre; induction l as [|s l IH]; intros fuel pre Hl Hf Hv;
    (destruct fuel; simpl in Hf; [lia|]); cbn [forward_tsn_loop].
  - cbn [flat_map] in *. rewrite app_nil_r in *. subst vend.
    by rewrite Z.sub_diag.
  - inversion_clear Hl as [|? ? [H1 H2] Hl']. cbn [flat_map] in *.
    assert (len (fwd_stream_bytes s) = 4) as Hs by (unfold fwd_stream_bytes; lens).
    pose proof (len_nonneg (flat_map fwd_stream_bytes l)).
    assert (vend - (4 + len pre) = 4 + len (flat_map fwd_stream_bytes l)) as Hrem
      by (rewrite Hv, !len_app; lia).
    rewrite Hrem. destruct (Z.gtb_spec (4 + len (flat_map fwd_stream_bytes l)) 0); [|lia].
    rewrite Hv at 1. rewrite slice_body_suffix by done. cbn [mbind Outcome_bind].
    unfold ChunkForwardTsnStream_unmarshal, FORWARD_TSN_STREAM_LENGTH. rewrite len_app, Hs.
    destruct (Z.ltb_spec (4 + len (flat_map fwd_stream_bytes l)) 4); [lia|].
    assert (∀ r, get_u16 (fwd_stream_bytes s ++ r) = Ok (fs_identifier s, be 2 (fs_sequence s) ++ r)) as ->
      by (intros; unfold fwd_stream_bytes; rewrite <- app_assoc; by apply get_u16_be).
    cbn [mbind Outcome_bind]. rewrite get_u16_be by done. cbn [mbind Outcome_bind].
    unfold checked_sub, ChunkForwardTsnStream_value_length, FORWARD_TSN_STREAM_LENGTH.
    destruct (Z.leb_spec 4 (4 + len (flat_map fwd_stream_bytes l))); [|lia]. cbn [mbind Outcome_bind].
    pose proof (IH fuel (pre ++ fwd_stream_bytes s) Hl' ltac:(lia)) as IH'.
    rewrite <- app_assoc in IH'. specialize (IH' Hv). rewrite (len_app pre), Hs in IH'.
    replace (vend - (4 + (len pre + 4))) with (4 + len (flat_map fwd_stream_bytes l) - 4) in IH' by lia.
    replace (4 + len pre + 4) with (4 + (len pre + 4)) by lia. rewrite IH'. by destruct s.
Qed.

Lemma ChunkForwardTsn_unmarshal_wire f rest :
  Chunk_wf (CForwardTsn f) → rest_ok rest → ChunkForwardTsn_unmarshal (Chunk_wire (CForwardTsn f) ++ rest) = Ok f.
Proof.
  intros Hwf Hr. pose proof (len_Chunk_body _ Hwf) as Hl. pose proof Hwf as [_ [H1 H2]].
  cbn [Chunk_value_length] in Hl.
  unfold ChunkForwardTsn_value_length, NEW_CUMULATIVE_TSN_LENGTH, FORWARD_TSN_STREAM_LENGTH in Hl.
  pose proof (len_nonneg (ft_streams f)).
  unfold ChunkForwardTsn_unmarshal, NEW_CUMULATIVE_TSN_LENGTH, CHUNK_HEADER_SIZE.
  open_wire (CForwardTsn f). do 2 no_guard.
  unfold Chunk_wire. cbn [Chunk_header ChunkForwardTsn_header ch_typ ch_flags].
  rewrite chunk_value_wire. cbn [mbind Outcome_bind Chunk_body]. rewrite get_u32_be by done.
  cbn [mbind Outcome_bind]. unfold checked_sub.
  set (vend := 4 + len (be 4 (new_cumulative_tsn f) ++ flat_map fwd_stream_bytes (ft_streams f))).
  assert (4 + 4 <= vend) by (unfold vend; rewrite len_app, len_be; pose proof (len_nonneg (flat_map fwd_stream_bytes (ft_streams f))); lia).
  destruct (Z.leb_spec (4 + 4) vend); [|lia]. cbn [mbind Outcome_bind].
  change (4 + 4) with (4 + len (be 4 (new_cumulative_tsn f))).
  rewrite forward_tsn_loop_wire; [by destruct f|done| |done].
  unfold chunk_bytes. rewrite !length_app. pose proof (len_mjoin_enc fwd_stream_bytes 4 (ft_streams f)
    ltac:(intros; unfold fwd_stream_bytes; lens)). unfold len in *. lia.
Qed.

Lemma i_forward_tsn_loop_wire fuel typ flags pre l rest vend :
  Forall (λ s, uN 16 (ifs_identifier s) ∧ uN 32 (ifs_mid s)) l → (length l < fuel)%nat →
  vend = 4 + len (pre ++ flat_map i_fwd_stream_bytes l) →
  i_forward_tsn_loop fuel (chunk_bytes typ flags (pre ++ flat_map i_fwd_stream_bytes l) ++ rest)
    (4 + len pre) vend = Ok l.
Proof.
  revert fuel pre; induction l as [|s l IH]; intros fuel pre Hl Hf Hv;
    (destruct fuel; simpl in Hf; [lia|]); cbn [i_forward_tsn_loop]; unfold I_FORWARD_TSN_STREAM_ENTRY_LENGTH.
  - cbn [flat_map] in *. rewrite app_nil_r in *. subst vend.
    destruct (Z.leb_spec (4 + len pre + 8) (4 + len pre)); [lia|done].
  - inversion_clear Hl as [|? ? [H1 H2] Hl']. cbn [flat_map] in *.
    assert (len (i_fwd_stream_bytes s) = 8) as Hs by (unfold i_fwd_stream_bytes; lens).
    pose proof (len_nonneg (flat_map i_fwd_stream_bytes l)).
    assert (vend = 4 + len pre + 8 + len (flat_map i_fwd_stream_bytes l)) as Hrem
      by (rewrite Hv, !len_app; lia).
    destruct (Z.leb_spec (4 + len pre + 8) vend); [|lia].
    rewrite Hv at 1. rewrite slice_body_suffix by done. cbn [mbind Outcome_bind].
    assert (∀ r, get_u16 (i_fwd_stream_bytes s ++ r) = Ok (ifs_identifier s,
      be 1 (if ifs_unordered s then 1 else 0) ++ be 1 0 ++ be 4 (ifs_mid s) ++ r)) as ->
      by (intros; unfold i_fwd_stream_bytes; rewrite <- !app_assoc; by apply get_u16_be).
    cbn [mbind Outcome_bind].
    rewrite get_u8_be by (by destruct (ifs_unordered s)). cbn [mbind Outcome_bind].
    rewrite get_u8_be by done. cbn [mbind Outcome_bind]. rewrite get_u32_be by done. cbn [mbind Outcome_bind].
    pose proof (IH fuel (pre ++ i_fwd_stream_bytes s) Hl' ltac:(lia)) as IH'.
    rewrite <- app_assoc in IH'. specialize (IH' Hv). rewrite (len_app pre), Hs in IH'.
    replace (4 + len pre + 8) with (4 + (len pre + 8)) by lia. rewrite IH'. by destruct s as [? [] ?].
Qed.

Lemma ChunkIForwardTsn_unmarshal_wire f rest :
  Chunk_wf (CIForwardTsn f) → rest_ok rest → ChunkIForwardTsn_unmarshal (Chunk_wire (CIForwardTsn f) ++ rest) = Ok f.
Proof.
  intros Hwf Hr. pose proof (len_Chunk_body _ Hwf) as Hl. pose proof Hwf as [_ [H1 H2]].
  cbn [Chunk_value_length] in Hl.
  unfold ChunkIForwardTsn_value_length, I_FORWARD_TSN_STREAM_ENTRY_LENGTH in Hl.
  pose proof (len_nonneg (ift_streams f)).
  unfold ChunkIForwardTsn_unmarshal, NEW_CUMULATIVE_TSN_LENGTH, CHUNK_HEADER_SIZE.
  open_wire (CIForwardTsn f). do 2 no_guard.
  unfold Chunk_wire. cbn [Chunk_header ChunkIForwardTsn_header ch_typ ch_flags].
  pose proof (chunk_value_wire CT_I_FORWARD_TSN 0 (Chunk_body (CIForwardTsn f)) rest) as Hcv.
  unfold chunk_value, CHUNK_HEADER_SIZE in Hcv. cbn [ch_value_length] in Hcv. rewrite Hcv.
  cbn [mbind Outcome_bind Chunk_body]. rewrite get_u32_be by done. cbn [mbind Outcome_bind].
  change (4 + 4) with (4 + len (be 4 (i_new_cumulative_tsn f))).
  rewrite i_forward_tsn_loop_wire; [by destruct f|done| |done].
  unfold chunk_bytes. rewrite !length_app. pose proof (len_mjoin_enc i_fwd_stream_bytes 8 (ift_streams f)
    ltac:(intros; unfold i_fwd_stream_bytes; lens)). unfold len in *. lia.
Qed.

Lemma ChunkShutdown_unmarshal_wire t rest :
  Chunk_wf (CShutdown t) → rest_ok rest → ChunkShutdown_unmarshal (Chunk_wire (CShutdown t) ++ rest) = Ok t.
Proof.
  intros Hwf Hr. unfold ChunkShutdown_unmarshal. open_wire (CShutdown t). do 2 no_guard.
  unfold Chunk_wire. cbn [Chunk_header ChunkShutdown_header ch_typ ch_flags].
  rewrite chunk_value_wire. cbn [mbind Outcome_bind Chunk_body].
  rewrite <- (app_nil_r (be 4 t)), get_u32_be by apply Hwf. done.
Qed.

Lemma flag_only_wire c e rest :
  Chunk_wf c → rest_ok rest →
  (header ← ChunkHeader_unmarshal (Chunk_wire c ++ rest);
   guard_err (negb (ch_typ header =? ch_typ (Chunk_header c))) e) = Ok tt.
Proof. intros. open_wire c. by rewrite Z.eqb_refl. Qed.
End Decode.
