(* ===== verification/Packet.v ===== *)
(** * Packets ([src/packet.rs])

    The common header, the one-step decoder [Packet::unmarshal], the
    two-step decoder an association uses ([PartialDecode::unmarshal] in the
    endpoint, [finish] in the association), the encoder and the packet-level
    checks.  The CRC-32C of the [crc] crate is the argument [crc]. *)

From stdpp Require Import base list numbers sets.
From Stdlib Require Import ZArith Lia ZifyBool.
From S2P Require Import Prelude Bytes Util Params Chunks ChunksRoundtrip.

Definition PACKET_HEADER_SIZE : usize := 12.
Definition INITIATE_TAG_LENGTH : usize := 4.

Record CommonHeader := mkCommonHeader {
  source_port : u16;
  destination_port : u16;
  verification_tag : u32;
}.

Record PartialDecode := mkPartialDecode {
  pd_common_header : CommonHeader;
  pd_remaining : Bytes;
  pd_first_chunk_type : ChunkType;
  pd_initiate_tag : option u32;
  pd_cookie : option Bytes;
}.

Record Packet := mkPacket { common_header : CommonHeader; chunks : list Chunk }.

Section Packet.
Context {B : BufApi} (crc : Bytes → u32).

(** The [match ct] of both decoding loops. *)
Definition unmarshal_chunk (ct : ChunkType) (raw : Bytes) : Outcome Chunk :=
  if ct =? CT_INIT then c ← ChunkInit_unmarshal raw; Ok (CInit c)
  else if ct =? CT_INIT_ACK then c ← ChunkInit_unmarshal raw; Ok (CInit c)
  else if ct =? CT_ABORT then c ← ChunkAbort_unmarshal raw; Ok (CAbort c)
  else if ct =? CT_COOKIE_ECHO then c ← ChunkCookieEcho_unmarshal raw; Ok (CCookieEcho c)
  else if ct =? CT_COOKIE_ACK then _ ← ChunkCookieAck_unmarshal raw; Ok CCookieAck
  else if ct =? CT_HEARTBEAT then c ← ChunkHeartbeat_unmarshal raw; Ok (CHeartbeat c)
  else if ct =? CT_PAYLOAD_DATA then c ← ChunkPayloadData_unmarshal raw; Ok (CPayloadData c)
  else if ct =? CT_SACK then c ← ChunkSelectiveAck_unmarshal raw; Ok (CSelectiveAck c)
  else if ct =? CT_RECONFIG then c ← ChunkReconfig_unmarshal raw; Ok (CReconfig c)
  else if ct =? CT_FORWARD_TSN then c ← ChunkForwardTsn_unmarshal raw; Ok (CForwardTsn c)
  else if ct =? CT_I_FORWARD_TSN then c ← ChunkIForwardTsn_unmarshal raw; Ok (CIForwardTsn c)
  else if ct =? CT_ERROR then c ← ChunkError_unmarshal raw; Ok (CError c)
  else if ct =? CT_SHUTDOWN then c ← ChunkShutdown_unmarshal raw; Ok (CShutdown c)
  else if ct =? CT_SHUTDOWN_ACK then _ ← ChunkShutdownAck_unmarshal raw; Ok CShutdownAck
  else if ct =? CT_SHUTDOWN_COMPLETE then _ ← ChunkShutdownComplete_unmarshal raw; Ok CShutdownComplete
  else Err ErrUnmarshalUnknownChunkType.

(** The [loop] of [finish] and [unmarshal]. *)
Fixpoint chunks_loop (fuel : nat) (raw : Bytes) (offset : usize) : Outcome (list Chunk) :=
  match fuel with
  | O => Stuck
  | S fuel' =>
      if offset =? len raw then Ok []
      else if offset + CHUNK_HEADER_SIZE >? len raw then Err ErrParseSctpChunkNotEnoughData
      else match raw !! Z.to_nat offset with
           | None => Panic
           | Some ct =>
               s ← slice raw offset (len raw);
               c ← unmarshal_chunk ct s;
               let chunk_value_padding := get_padding_size (Chunk_value_length c) in
               l ← chunks_loop fuel' raw
                     (offset + (CHUNK_HEADER_SIZE + Chunk_value_length c + chunk_value_padding));
               Ok (c :: l)
           end
  end.

Definition PartialDecode_unmarshal (raw : Bytes) : Outcome PartialDecode :=
  if len raw <? PACKET_HEADER_SIZE then Err ErrPacketRawTooSmall else
  '(source_port, reader) ← get_u16 raw;
  '(destination_port, reader) ← get_u16 reader;
  '(verification_tag, reader) ← get_u32 reader;
  '(their_checksum, reader) ← get_u32_le reader;
  our_checksum ← generate_packet_checksum crc raw;
  if negb (their_checksum =? our_checksum) then Err ErrChecksumMismatch else
  if len reader <? CHUNK_HEADER_SIZE then Err ErrParseSctpChunkNotEnoughData else
  header ← ChunkHeader_unmarshal reader;
  reader ← advance reader CHUNK_HEADER_SIZE;
  '(initiate_tag, cookie) ←
    (if (ch_typ header =? CT_INIT) || (ch_typ header =? CT_INIT_ACK) then
       if ch_value_length header <? INITIATE_TAG_LENGTH then Err ErrChunkValueNotLongEnough else
       '(tag, _) ← get_u32 reader; Ok (Some tag, None)
     else if ch_typ header =? CT_COOKIE_ECHO then
       let end_ := PACKET_HEADER_SIZE + CHUNK_HEADER_SIZE + ch_value_length header in
       if end_ >? len raw then Err ErrChunkValueNotLongEnough else
       c ← slice raw (PACKET_HEADER_SIZE + CHUNK_HEADER_SIZE) end_; Ok (None, Some c)
     else Ok (None, None));
  remaining ← slice raw PACKET_HEADER_SIZE (len raw);
  Ok (mkPartialDecode (mkCommonHeader source_port destination_port verification_tag)
        remaining (ch_typ header) initiate_tag cookie).

Definition PartialDecode_finish (pd : PartialDecode) : Outcome Packet :=
  chunks ← chunks_loop (S (length (pd_remaining pd))) (pd_remaining pd) 0;
  Ok (mkPacket (pd_common_header pd) chunks).

Definition Packet_unmarshal (raw : Bytes) : Outcome Packet :=
  if len raw <? PACKET_HEADER_SIZE then Err ErrPacketRawTooSmall else
  '(source_port, reader) ← get_u16 raw;
  '(destination_port, reader) ← get_u16 reader;
  '(verification_tag, reader) ← get_u32 reader;
  '(their_checksum, reader) ← get_u32_le reader;
  our_checksum ← generate_packet_checksum crc raw;
  if negb (their_checksum =? our_checksum) then Err ErrChecksumMismatch else
  chunks ← chunks_loop (S (length raw)) raw PACKET_HEADER_SIZE;
  Ok (mkPacket (mkCommonHeader source_port destination_port verification_tag) chunks).

(** [for c in &self.chunks]: each chunk is padded to the four-byte boundary. *)
Fixpoint marshal_chunks (cs : list Chunk) (writer : Bytes) : Outcome Bytes :=
  match cs with
  | [] => Ok writer
  | c :: cs' =>
      writer ← Chunk_marshal_to c writer;
      let padding_needed := get_padding_size (len writer) in
      let writer := if negb (padding_needed =? 0)
                    then writer ++ replicate (Z.to_nat padding_needed) 0 else writer in
      marshal_chunks cs' writer
  end.

Definition Packet_marshal_to (p : Packet) (writer : Bytes) : Outcome Bytes :=
  let writer := put_u16 writer (source_port (common_header p)) in
  let writer := put_u16 writer (destination_port (common_header p)) in
  let writer := put_u32 writer (verification_tag (common_header p)) in
  let checksum_pos := len writer in
  let writer := writer ++ [0; 0; 0; 0] in
  writer ← marshal_chunks (chunks p) writer;
  let checksum := crc writer in
  Ok (range writer 0 checksum_pos ++ le 4 checksum ++ range writer (checksum_pos + 4) (len writer)).

Definition Packet_marshal (p : Packet) : Outcome Bytes := Packet_marshal_to p [].

Definition is_init_chunk (c : Chunk) : bool :=
  match c with CInit ci => negb (is_ack ci) | _ => false end.

(** The [for c in &self.chunks] of [check_packet]. *)
Fixpoint check_init_chunks (p : Packet) (cs : list Chunk) : Outcome unit :=
  match cs with
  | [] => Ok tt
  | c :: cs' =>
      _ ← (if is_init_chunk c then
             _ ← guard_err (negb (len (chunks p) =? 1)) ErrInitChunkBundled;
             guard_err (negb (verification_tag (common_header p) =? 0)) ErrInitChunkVerifyTagNotZero
           else Ok tt);
      check_init_chunks p cs'
  end.

Definition check_packet (p : Packet) : Outcome unit :=
  _ ← guard_err (source_port (common_header p) =? 0) ErrSctpPacketSourcePortZero;
  _ ← guard_err (destination_port (common_header p) =? 0) ErrSctpPacketDestinationPortZero;
  check_init_chunks p (chunks p).
End Packet.

(** ** Decoding arbitrary bytes returns *)

Section Total.
Context {B : BufApi} {BL : BufLaws B} (crc : Bytes → u32).

Lemma unmarshal_chunk_returns ct raw : bytes_ok raw → returns (unmarshal_chunk ct raw).
Proof.
  intros Hok. unfold unmarshal_chunk.
  repeat match goal with |- returns (if ?c then _ else _) => destruct c; [apply returns_bind; [|done]|] end;
    auto using ChunkInit_unmarshal_returns, ChunkAbort_unmarshal_returns, ChunkCookieEcho_unmarshal_returns,
      ChunkHeartbeat_unmarshal_returns, ChunkPayloadData_unmarshal_returns, ChunkSelectiveAck_unmarshal_returns,
      ChunkReconfig_unmarshal_returns, ChunkForwardTsn_unmarshal_returns, ChunkIForwardTsn_unmarshal_returns,
      ChunkError_unmarshal_returns, ChunkShutdown_unmarshal_returns; (apply flag_only_returns || done).
Qed.

Lemma chunks_loop_returns fuel raw offset :
  bytes_ok raw → 0 <= offset → len raw - offset < Z.of_nat fuel → 0 < Z.of_nat fuel →
  returns (chunks_loop fuel raw offset).
Proof.
  intros Hok. revert offset; induction fuel as [|fuel IH]; intros offset Ho Hf Hp; [lia|].
  cbn [chunks_loop]. destruct (Z.eqb_spec offset (len raw)); [done|]. unfold CHUNK_HEADER_SIZE.
  destruct (Z.gtb_spec (offset + 4) (len raw)); [done|].
  destruct (lookup_lt_is_Some_2 raw (Z.to_nat offset)) as [ct ->]; [unfold len in *; lia|].
  rewrite slice_Ok by lia. cbn [mbind Outcome_bind].
  apply returns_bind; [apply unmarshal_chunk_returns; auto with bytes|]. intros c _.
  apply returns_bind; [|done]. pose proof (Chunk_value_length_nonneg c).
  pose proof (get_padding_size_bounds (Chunk_value_length c)). apply IH; lia.
Qed.

Lemma generate_packet_checksum_Ok raw :
  12 <= len raw →
  generate_packet_checksum crc raw = Ok (crc (range raw 0 8 ++ FOUR_ZEROES ++ range raw 12 (len raw))).
Proof.
  intros. unfold generate_packet_checksum, index_range.
  destruct ((0 <=? 8) && (8 <=? len raw)) eqn:E1; [|lia].
  destruct ((12 <=? len raw) && (len raw <=? len raw)) eqn:E2; [done|lia].
Qed.

Lemma get_u32_le_drop b : 4 <= len b → ∃ a, get_u32_le b = Ok (a, drop 4 b).
Proof. intros. rewrite get_u32_le_law. unfold read_n, len in *. rewrite decide_True by lia. eauto. Qed.

(** Claim C19.  Decoding a datagram of arbitrary bytes always returns a packet or an error:
    no slice, index or read leaves the buffer, and every decoding loop ends. *)
Theorem packet_unmarshal_returns raw : bytes_ok raw → returns (Packet_unmarshal crc raw).
Proof.
  intros Hok. unfold Packet_unmarshal, PACKET_HEADER_SIZE. destruct (Z.ltb_spec (len raw) 12); [done|].
  do 3 step_get. destruct (get_u32_le_drop (drop (2 + 2 + 4) raw)) as [ck ->]; [rewrite len_drop; lia|].
  cbn [mbind Outcome_bind]. rewrite generate_packet_checksum_Ok by done. cbn [mbind Outcome_bind].
  match goal with |- returns (if ?c then _ else _) => destruct c end; [done|].
  apply returns_bind; [|done]. apply chunks_loop_returns; unfold len in *; (done || lia).
Qed.

Lemma partial_finish_returns pd : bytes_ok (pd_remaining pd) → returns (PartialDecode_finish pd).
Proof.
  intros. apply returns_bind; [|done]. apply chunks_loop_returns; unfold len in *; (done || lia).
Qed.

(** The first decoding step an endpoint applies to every received datagram returns as
    well, and when it accepts the datagram the second step returns on what it kept. *)
Theorem partial_decode_returns raw :
  bytes_ok raw →
  returns (PartialDecode_unmarshal crc raw) ∧
  ∀ pd, PartialDecode_unmarshal crc raw = Ok pd → returns (PartialDecode_finish pd).
Proof.
  intros Hok. unfold PartialDecode_unmarshal, PACKET_HEADER_SIZE.
  destruct (Z.ltb_spec (len raw) 12); [done|]. do 3 step_get.
  destruct (get_u32_le_drop (drop (2 + 2 + 4) raw)) as [ck ->]; [rewrite len_drop; lia|].
  cbn [mbind Outcome_bind]. rewrite drop_drop. rewrite generate_packet_checksum_Ok by done.
  cbn [mbind Outcome_bind]. match goal with |- context [if ?c then _ else _] => destruct c end; [done|].
  unfold CHUNK_HEADER_SIZE. destruct (Z.ltb_spec (len (drop (2 + 2 + 4 + 4) raw)) 4) as [|Hl]; [done|].
  rewrite slice_Ok by lia. split.
  - apply returns_header. intros h Hh%ChunkHeader_unmarshal_bounds. rewrite advance_Ok by lia.
    cbn [mbind Outcome_bind]. rewrite len_drop in *.
    apply returns_bind; [|by intros [] _].
    destruct ((ch_typ h =? CT_INIT) || (ch_typ h =? CT_INIT_ACK)).
    + unfold INITIATE_TAG_LENGTH. destruct (Z.ltb_spec (ch_value_length h) 4); [done|].
      rewrite drop_drop. by step_get.
    + destruct (ch_typ h =? CT_COOKIE_ECHO); [|done].
      match goal with |- context [if ?c then _ else _] => destruct c eqn:E end; [done|].
      by rewrite slice_Ok by lia.
  - intros pd (h & _ & (r & _ & ([tag ck'] & _ & (rm & [= <-] & [= <-])%bind_Ok)%bind_Ok)%bind_Ok)%bind_Ok.
    apply partial_finish_returns. cbn. auto with bytes.
Qed.
End Total.

(** ** The two-step decoder is the one-step decoder *)

Section TwoStep.
Context {B : BufApi} {BL : BufLaws B} (crc : Bytes → u32).

(** Decoding at an offset of a suffix is decoding at the shifted offset of the whole. *)
Lemma chunks_loop_shift fuel1 fuel2 raw k offset :
  0 <= k <= len raw → 0 <= offset → len raw - k - offset < Z.of_nat fuel1 → 0 < Z.of_nat fuel1 →
  len raw - k - offset < Z.of_nat fuel2 → 0 < Z.of_nat fuel2 →
  chunks_loop fuel1 (drop (Z.to_nat k) raw) offset = chunks_loop fuel2 raw (k + offset).
Proof.
  revert fuel2 offset; induction fuel1 as [|fuel1 IH]; intros fuel2 offset Hk Ho Hf1 Hp1 Hf2 Hp2; [lia|].
  destruct fuel2 as [|fuel2]; [lia|]. cbn [chunks_loop]. rewrite len_drop.
  rewrite Z.max_r, Z2Nat.id by lia.
  replace (offset =? len raw - k) with (k + offset =? len raw) by lia.
  destruct (Z.eqb_spec (k + offset) (len raw)); [done|].
  replace (offset + CHUNK_HEADER_SIZE >? len raw - k) with (k + offset + CHUNK_HEADER_SIZE >? len raw) by lia.
  unfold CHUNK_HEADER_SIZE. destruct (Z.gtb_spec (k + offset + 4) (len raw)); [done|].
  rewrite lookup_drop. replace (Z.to_nat k + Z.to_nat offset)%nat with (Z.to_nat (k + offset)) by lia.
  destruct (lookup_lt_is_Some_2 raw (Z.to_nat (k + offset))) as [ct ->]; [unfold len in *; lia|].
  rewrite !slice_Ok by (rewrite ?len_drop; lia). rewrite range_drop by lia.
  replace (k + (len raw - k)) with (len raw) by lia. cbn [mbind Outcome_bind].
  destruct (unmarshal_chunk ct (range raw (k + offset) (len raw))) as [c| | |]; try done. cbn [mbind Outcome_bind].
  pose proof (Chunk_value_length_nonneg c). pose proof (get_padding_size_bounds (Chunk_value_length c)).
  rewrite (IH fuel2) by lia. f_equal. f_equal. lia.
Qed.

(** Claim C36.  When the endpoint's first step accepts a datagram, finishing the decoding in the
    association gives exactly what decoding the whole datagram in one step gives. *)
Theorem partial_decode_finish_equiv raw pd :
  PartialDecode_unmarshal crc raw = Ok pd → PartialDecode_finish pd = Packet_unmarshal crc raw.
Proof.
  unfold PartialDecode_unmarshal, Packet_unmarshal, PACKET_HEADER_SIZE.
  destruct (Z.ltb_spec (len raw) 12); [done|]. do 3 step_get.
  destruct (get_u32_le_drop (drop (2 + 2 + 4) raw)) as [ck ->]; [rewrite len_drop; lia|].
  cbn [mbind Outcome_bind]. rewrite generate_packet_checksum_Ok by done. cbn [mbind Outcome_bind].
  match goal with |- context [if ?c then _ else _] => destruct c end; [done|].
  match goal with |- context [if ?c then _ else _] => destruct c end; [done|].
  rewrite (slice_Ok raw 12) by lia.
  intros (h & _ & (r & _ & ([tag ck'] & _ & (rm & [= <-] & [= <-])%bind_Ok)%bind_Ok)%bind_Ok)%bind_Ok.
  unfold PartialDecode_finish. cbn [pd_remaining pd_common_header]. rewrite range_to_end by lia.
  rewrite (chunks_loop_shift _ (S (length raw))); [done| | | | | |]; rewrite ?length_drop; unfold len in *; lia.
Qed.
End TwoStep.

(** ** Round trip *)

(** A packet whose fields and chunks fit the wire. *)
Definition Packet_encodable (p : Packet) : Prop :=
  uN 16 (source_port (common_header p)) ∧ uN 16 (destination_port (common_header p)) ∧
  uN 32 (verification_tag (common_header p)) ∧ Forall Chunk_wf (chunks p).

#[export] Instance Packet_encodable_dec p : Decision (Packet_encodable p).
Proof. unfold Packet_encodable. do 3 (apply and_dec; [apply _|]). apply _. Defined.

Definition is_heartbeat_ack (c : Chunk) : bool := match c with CHeartbeatAck _ => true | _ => false end.

(** One that a receiver decodes too: HEARTBEAT ACK is not among the chunk types the decoding loops know. *)
Definition Packet_wf (p : Packet) : Prop :=
  uN 16 (source_port (common_header p)) ∧ uN 16 (destination_port (common_header p)) ∧
  uN 32 (verification_tag (common_header p)) ∧
  Forall (λ c, Chunk_wf c ∧ match c with CHeartbeatAck _ => False | _ => True end) (chunks p).

#[export] Instance Packet_wf_dec p : Decision (Packet_wf p).
Proof.
  unfold Packet_wf. do 3 (apply and_dec; [apply _|]). apply Forall_dec. intros []; apply and_dec; apply _.
Defined.

Lemma wf_encodable p : Packet_wf p → Packet_encodable p.
Proof. intros (? & ? & ? & Hcs). split_and!; [done..|]. eapply Forall_impl; [done|by intros ? []]. Qed.

Lemma no_heartbeat_ack cs :
  Forall (λ c, Chunk_wf c ∧ match c with CHeartbeatAck _ => False | _ => True end) cs →
  Forall Chunk_wf cs ∧ existsb is_heartbeat_ack cs = false.
Proof.
  induction 1 as [|c cs [Hc Hk] _ [IH1 IH2]]; [done|]. split; [by constructor|]. cbn [existsb]. rewrite IH2. by destruct c.
Qed.

Definition Packet_view (p : Packet) : Packet := mkPacket (common_header p) (Chunk_view <$> chunks p).

(** A chunk and its padding. *)
Definition padded_chunk (c : Chunk) : Bytes := Chunk_wire c ++ pad_bytes (len (Chunk_wire c)).

Section Roundtrip.
Context {B : BufApi} {BL : BufLaws B} (crc : Bytes → u32).

Lemma len_Chunk_wire c : Chunk_wf c → len (Chunk_wire c) = 4 + Chunk_value_length c.
Proof. intros Hwf. pose proof (len_Chunk_body c Hwf). unfold Chunk_wire, chunk_bytes. lens. Qed.

Lemma padding_of_wire c : Chunk_wf c → get_padding_size (len (Chunk_wire c)) = get_padding_size (Chunk_value_length c).
Proof. intros. rewrite len_Chunk_wire by done. by apply (get_padding_size_add_mult4 4). Qed.

Lemma len_padded_chunk c :
  Chunk_wf c → len (padded_chunk c) = CHUNK_HEADER_SIZE + Chunk_value_length c + get_padding_size (Chunk_value_length c).
Proof.
  intros. unfold padded_chunk, CHUNK_HEADER_SIZE. rewrite len_app, len_pad_bytes, padding_of_wire, len_Chunk_wire by done.
  lia.
Qed.

Lemma len_padded_chunk_mod4 c : Chunk_wf c → len (padded_chunk c) mod 4 = 0.
Proof. intros. unfold padded_chunk. rewrite len_app, len_pad_bytes. apply get_padding_size_mod. Qed.

Lemma padded_chunks_mod4 cs : Forall Chunk_wf cs → len (flat_map padded_chunk cs) mod 4 = 0.
Proof.
  induction 1 as [|c cs Hc _ IH]; [done|]. cbn [flat_map].
  rewrite len_app, Z.add_mod, len_padded_chunk_mod4, IH by (done || lia). done.
Qed.

Lemma marshal_chunks_wire cs w :
  Forall Chunk_wf cs → len w mod 4 = 0 → marshal_chunks cs w = Ok (w ++ flat_map padded_chunk cs).
Proof.
  intros Hcs. revert w; induction Hcs as [|c cs Hc _ IH]; intros w Hw; cbn [marshal_chunks flat_map];
    [by rewrite app_nil_r|].
  rewrite Chunk_marshal_to_wire by done. cbn [mbind Outcome_bind].
  rewrite len_app, get_padding_size_add_mult4 by done.
  assert ((if negb (get_padding_size (len (Chunk_wire c)) =? 0)
    then (w ++ Chunk_wire c) ++ replicate (Z.to_nat (get_padding_size (len (Chunk_wire c)))) 0
    else w ++ Chunk_wire c) = w ++ padded_chunk c) as ->.
  { unfold padded_chunk, pad_bytes.
    destruct (Z.eqb_spec (get_padding_size (len (Chunk_wire c))) 0) as [E|_]; cbn [negb].
    - rewrite E. by rewrite app_nil_r.
    - by rewrite <- app_assoc. }
  rewrite IH.
  - by rewrite <- app_assoc.
  - rewrite len_app, Z.add_mod, Hw, len_padded_chunk_mod4 by (done || lia). done.
Qed.

(** Dispatching on the first byte of a wire form decodes it. *)
Lemma unmarshal_chunk_wire c rest :
  Chunk_wf c → match c with CHeartbeatAck _ => False | _ => True end → rest_ok rest →
  unmarshal_chunk (ch_typ (Chunk_header c)) (Chunk_wire c ++ rest) = Ok (Chunk_view c).
Proof.
  intros Hwf Hk Hr. unfold unmarshal_chunk.
  destruct c; try done; cbn [Chunk_header ch_typ Chunk_view];
    try (by rewrite ChunkAbort_unmarshal_wire); try (by rewrite ChunkCookieEcho_unmarshal_wire);
    try (by rewrite ChunkHeartbeat_unmarshal_wire); try (by rewrite ChunkSelectiveAck_unmarshal_wire);
    try (by rewrite ChunkReconfig_unmarshal_wire); try (by rewrite ChunkForwardTsn_unmarshal_wire);
    try (by rewrite ChunkIForwardTsn_unmarshal_wire); try (by rewrite ChunkError_unmarshal_wire);
    try (by rewrite ChunkShutdown_unmarshal_wire).
  - unfold ChunkInit_header. cbn [ch_typ].
    destruct (is_ack c); by rewrite ChunkInit_unmarshal_wire.
  - assert (ChunkCookieAck_unmarshal (Chunk_wire CCookieAck ++ rest) = Ok tt) as ->
      by (by apply (flag_only_wire CCookieAck)). done.
  - unfold ChunkPayloadData_header. cbn [ch_typ]. by rewrite ChunkPayloadData_unmarshal_wire.
  - assert (ChunkShutdownAck_unmarshal (Chunk_wire CShutdownAck ++ rest) = Ok tt) as ->
      by (by apply (flag_only_wire CShutdownAck)). done.
  - assert (ChunkShutdownComplete_unmarshal (Chunk_wire CShutdownComplete ++ rest) = Ok tt) as ->
      by (by apply (flag_only_wire CShutdownComplete)). done.
Qed.

Lemma rest_ok_padded c cs : Forall Chunk_wf cs → rest_ok (pad_bytes (len (Chunk_wire c)) ++ flat_map padded_chunk cs).
Proof.
  intros Hcs. destruct Hcs as [|c' cs Hc _]; cbn [flat_map].
  - right. rewrite app_nil_r. by apply Forall_replicate.
  - left. rewrite !len_app, len_padded_chunk by done. pose proof (Chunk_value_length_nonneg c').
    pose proof (get_padding_size_bounds (Chunk_value_length c')).
    pose proof (len_nonneg (pad_bytes (len (Chunk_wire c)))). pose proof (len_nonneg (flat_map padded_chunk cs)).
    unfold CHUNK_HEADER_SIZE. lia.
Qed.

(** The first byte of a wire form is its type. *)
Lemma Chunk_wire_first c rest :
  (Chunk_wire c ++ rest) !! 0%nat = Some (ch_typ (Chunk_header c)).
Proof.
  pose proof (Chunk_header_uN c) as [[? ?] _]. unfold Chunk_wire, chunk_bytes. simpl.
  by rewrite Z.mod_small.
Qed.

Lemma chunks_loop_encoded fuel pre cs :
  Forall Chunk_wf cs → (length cs < fuel)%nat →
  chunks_loop fuel (pre ++ flat_map padded_chunk cs) (len pre) =
    if existsb is_heartbeat_ack cs then Err ErrUnmarshalUnknownChunkType else Ok (Chunk_view <$> cs).
Proof.
  intros Hcs. revert fuel pre; induction Hcs as [|c cs Hc Hcs IH]; intros fuel pre Hf;
    (destruct fuel; simpl in Hf; [lia|]); cbn [chunks_loop].
  - cbn [flat_map]. by rewrite app_nil_r, Z.eqb_refl.
  - cbn [flat_map]. set (raw := pre ++ padded_chunk c ++ flat_map padded_chunk cs).
    pose proof (len_padded_chunk c Hc) as Hl. unfold CHUNK_HEADER_SIZE in *.
    pose proof (Chunk_value_length_nonneg c). pose proof (get_padding_size_bounds (Chunk_value_length c)).
    pose proof (len_nonneg (flat_map padded_chunk cs)).
    assert (len raw = len pre + (4 + Chunk_value_length c + get_padding_size (Chunk_value_length c)) +
      len (flat_map padded_chunk cs)) as Hraw by (unfold raw; rewrite !len_app; lia).
    destruct (Z.eqb_spec (len pre) (len raw)); [lia|]. destruct (Z.gtb_spec (len pre + 4) (len raw)); [lia|].
    assert (raw !! Z.to_nat (len pre) = Some (ch_typ (Chunk_header c))) as ->.
    { unfold raw. rewrite lookup_app_r by (unfold len; lia).
      replace (Z.to_nat (len pre) - length pre)%nat with 0%nat by (unfold len; lia).
      unfold padded_chunk. rewrite <- app_assoc. apply Chunk_wire_first. }
    assert (slice raw (len pre) (len raw) = Ok (Chunk_wire c ++ pad_bytes (len (Chunk_wire c)) ++ flat_map padded_chunk cs)) as ->.
    { unfold raw, padded_chunk. rewrite <- app_assoc. rewrite <- (app_nil_r (Chunk_wire c ++ _)) at 1.
      apply slice_mid; lens. }
    cbn [mbind Outcome_bind existsb]. destruct (is_heartbeat_ack c) eqn:Ek; [by destruct c|].
    rewrite unmarshal_chunk_wire by (done || (by destruct c) || by apply rest_ok_padded). cbn [mbind Outcome_bind orb].
    assert (Chunk_value_length (Chunk_view c) = Chunk_value_length c) as -> by (by destruct c).
    pose proof (IH fuel (pre ++ padded_chunk c) ltac:(lia)) as IH'.
    rewrite <- app_assoc, len_app, Hl in IH'. fold raw in IH'. rewrite IH'. by destruct (existsb _ cs).
Qed.

Lemma chunks_loop_wire fuel pre cs :
  Forall (λ c, Chunk_wf c ∧ match c with CHeartbeatAck _ => False | _ => True end) cs →
  (length cs < fuel)%nat →
  chunks_loop fuel (pre ++ flat_map padded_chunk cs) (len pre) = Ok (Chunk_view <$> cs).
Proof. intros [Hcs Hk]%no_heartbeat_ack Hf. by rewrite chunks_loop_encoded, Hk by done. Qed.

Lemma Packet_marshal_wire p :
  Packet_encodable p →
  let hdr := be 2 (source_port (common_header p)) ++ be 2 (destination_port (common_header p)) ++
             be 4 (verification_tag (common_header p)) in
  let body := flat_map padded_chunk (chunks p) in
  Packet_marshal crc p = Ok (hdr ++ le 4 (crc (hdr ++ FOUR_ZEROES ++ body)) ++ body).
Proof.
  intros (Hs & Hd & Ht & Hcs) hdr body. unfold Packet_marshal, Packet_marshal_to.
  rewrite put_u32_law, !put_u16_law by done. rewrite app_nil_l.
  assert ((be 2 (source_port (common_header p)) ++ be 2 (destination_port (common_header p))) ++
    be 4 (verification_tag (common_header p)) = hdr) as -> by (unfold hdr; by rewrite <- app_assoc).
  rewrite marshal_chunks_wire by done. cbn [mbind Outcome_bind]. rewrite <- app_assoc. fold body FOUR_ZEROES.
  f_equal. assert (len hdr = 8) as Hh by (unfold hdr; lens).
  assert (range (hdr ++ FOUR_ZEROES ++ body) 0 (len hdr) = hdr) as ->
    by (apply (range_app_mid [] hdr); [done|lia]).
  f_equal. f_equal.
  rewrite (app_assoc hdr). rewrite <- (app_nil_r (_ ++ body)), <- app_assoc.
  apply range_app_mid; rewrite !len_app, Hh; unfold FOUR_ZEROES; lens.
Qed.

(** The wire form of a packet: header, checksum, chunks. *)
Definition header_bytes (h : CommonHeader) : Bytes :=
  be 2 (source_port h) ++ be 2 (destination_port h) ++ be 4 (verification_tag h).

Definition packet_bytes (h : CommonHeader) (body : Bytes) : Bytes :=
  header_bytes h ++ le 4 (crc (header_bytes h ++ FOUR_ZEROES ++ body)) ++ body.

Lemma len_header_bytes h : len (header_bytes h) = 8.
Proof. unfold header_bytes. lens. Qed.

Lemma len_packet_bytes h body : len (packet_bytes h body) = 12 + len body.
Proof. unfold packet_bytes. rewrite !len_app, len_header_bytes, len_le. lia. Qed.

Lemma packet_bytes_body h body : range (packet_bytes h body) 12 (12 + len body) = body.
Proof.
  unfold packet_bytes. set (ck := crc _). clearbody ck. pose proof (len_header_bytes h).
  rewrite (app_assoc (header_bytes h)). rewrite <- (app_nil_r body) at 1. apply range_app_mid; lens.
Qed.

(** Both decoders read the header and the checksum first. *)
Lemma read_header {A} h body (f : u16 → u16 → u32 → Bytes → Outcome A) :
  (∀ b, uN 32 (crc b)) → uN 16 (source_port h) → uN 16 (destination_port h) → uN 32 (verification_tag h) →
  (if len (packet_bytes h body) <? PACKET_HEADER_SIZE then Err ErrPacketRawTooSmall else
   '(source_port, reader) ← get_u16 (packet_bytes h body);
   '(destination_port, reader) ← get_u16 reader;
   '(verification_tag, reader) ← get_u32 reader;
   '(their_checksum, reader) ← get_u32_le reader;
   our_checksum ← generate_packet_checksum crc (packet_bytes h body);
   if negb (their_checksum =? our_checksum) then Err ErrChecksumMismatch else
   f source_port destination_port verification_tag reader) =
  f (source_port h) (destination_port h) (verification_tag h) body.
Proof.
  intros Hcrc Hs Hd Ht. pose proof (len_packet_bytes h body) as Hbs. pose proof (len_nonneg body).
  unfold PACKET_HEADER_SIZE. destruct (Z.ltb_spec (len (packet_bytes h body)) 12); [lia|].
  set (ck := crc (header_bytes h ++ FOUR_ZEROES ++ body)).
  assert (get_u16 (packet_bytes h body) = Ok (source_port h, be 2 (destination_port h) ++
    be 4 (verification_tag h) ++ le 4 ck ++ body)) as ->
    by (unfold packet_bytes, header_bytes; rewrite <- !app_assoc; by apply get_u16_be).
  cbn [mbind Outcome_bind]. rewrite get_u16_be by done. cbn [mbind Outcome_bind].
  rewrite get_u32_be by done. cbn [mbind Outcome_bind]. rewrite get_u32_le_le by (unfold ck; apply Hcrc).
  cbn [mbind Outcome_bind]. rewrite generate_packet_checksum_Ok by lia. cbn [mbind Outcome_bind].
  assert (range (packet_bytes h body) 0 8 = header_bytes h) as ->
    by (apply (range_app_mid [] (header_bytes h)); [done|rewrite len_header_bytes; lia]).
  rewrite Hbs, packet_bytes_body. fold ck. by rewrite Z.eqb_refl.
Qed.

Lemma Packet_marshal_encodable p :
  Packet_encodable p → Packet_marshal crc p = Ok (packet_bytes (common_header p) (flat_map padded_chunk (chunks p))).
Proof. apply Packet_marshal_wire. Qed.

Lemma Packet_marshal_bytes p :
  Packet_wf p → Packet_marshal crc p = Ok (packet_bytes (common_header p) (flat_map padded_chunk (chunks p))).
Proof. intros Hwf. by apply Packet_marshal_encodable, wf_encodable. Qed.

Lemma padded_chunks_length cs : (length cs ≤ length (flat_map padded_chunk cs))%nat.
Proof.
  apply length_flat_map_ge. intros c. unfold padded_chunk, Chunk_wire, chunk_bytes. rewrite !length_app, length_be. lia.
Qed.

Lemma Packet_encode_refuse p :
  (∀ b, uN 32 (crc b)) → Packet_encodable p →
  ∃ bs, Packet_marshal crc p = Ok bs ∧ len bs mod 4 = 0 ∧
    Packet_unmarshal crc bs =
      if existsb is_heartbeat_ack (chunks p) then Err ErrUnmarshalUnknownChunkType else Ok (Packet_view p).
Proof.
  intros Hcrc Hwf. pose proof (Packet_marshal_encodable p Hwf) as Hm. destruct Hwf as (Hs & Hd & Ht & Hcs).
  set (body := flat_map padded_chunk (chunks p)) in *.
  eexists. split; [exact Hm|]. split.
  { pose proof (padded_chunks_mod4 (chunks p) Hcs) as H4. fold body in H4.
    by rewrite len_packet_bytes, Z.add_mod, H4 by lia. }
  etransitivity; [by apply (read_header (common_header p) body)|]. unfold PACKET_HEADER_SIZE, packet_bytes.
  set (ck := crc _). assert (len (header_bytes (common_header p) ++ le 4 ck) = 12) as H12
    by (rewrite len_app, len_header_bytes; lens).
  rewrite (app_assoc (header_bytes _)), <- H12. unfold body.
  rewrite chunks_loop_encoded; [destruct (existsb _ _); unfold Packet_view; by destruct (common_header p)|done|].
  rewrite length_app. enough (length (chunks p) ≤ length (flat_map padded_chunk (chunks p)))%nat by lia.
  apply padded_chunks_length.
Qed.

Lemma Packet_encode_decode p :
  (∀ b, uN 32 (crc b)) → Packet_wf p →
  ∃ bs, Packet_marshal crc p = Ok bs ∧ len bs mod 4 = 0 ∧ Packet_unmarshal crc bs = Ok (Packet_view p).
Proof.
  intros Hcrc Hwf. destruct (Packet_encode_refuse p Hcrc (wf_encodable _ Hwf)) as (bs & ? & ? & H).
  exists bs. destruct Hwf as (_ & _ & _ & [_ Hk]%no_heartbeat_ack). by rewrite Hk in H.
Qed.

Lemma PartialDecode_finish_wire p typ tag cookie :
  Packet_wf p →
  PartialDecode_finish (mkPartialDecode (common_header p) (flat_map padded_chunk (chunks p)) typ tag cookie) =
    Ok (Packet_view p).
Proof.
  intros (_ & _ & _ & Hcs). unfold PartialDecode_finish. cbn [pd_remaining pd_common_header].
  rewrite (chunks_loop_wire _ [] (chunks p)); [done|done|].
  enough (length (chunks p) ≤ length (flat_map padded_chunk (chunks p)))%nat by lia. apply padded_chunks_length.
Qed.

(** What the endpoint reads of the first chunk. *)
Definition first_tag (c : Chunk) : option u32 := match c with CInit i => Some (initiate_tag i) | _ => None end.
Definition first_cookie (c : Chunk) : option Bytes := match c with CCookieEcho k => Some k | _ => None end.

Lemma Chunk_wf_tag i : Chunk_wf (CInit i) → uN 32 (initiate_tag i) ∧ 4 <= len (Chunk_body (CInit i)).
Proof.
  intros Hwf. rewrite len_Chunk_body by done. split; [apply Hwf|]. cbn. unfold ChunkInit_value_length.
  pose proof (padded_params_length_nonneg (params i)). lia.
Qed.

Lemma Chunk_wire_value c rest : drop (Z.to_nat 4) (Chunk_wire c ++ rest) = Chunk_body c ++ rest.
Proof. unfold Chunk_wire, chunk_bytes. by rewrite <- !app_assoc. Qed.

(** The first step of the endpoint on an encoded packet. *)
Lemma PartialDecode_wire p c cs :
  (∀ b, uN 32 (crc b)) → Packet_wf p → chunks p = c :: cs →
  PartialDecode_unmarshal crc (packet_bytes (common_header p) (flat_map padded_chunk (chunks p))) =
    Ok (mkPartialDecode (common_header p) (flat_map padded_chunk (chunks p)) (ch_typ (Chunk_header c))
          (first_tag c) (first_cookie c)).
Proof.
  intros Hcrc (Hs & Hd & Ht & Hcs) Ec. set (body := flat_map padded_chunk (chunks p)).
  assert (Forall Chunk_wf (chunks p)) as Hcs' by (eapply Forall_impl; [done|by intros ? []]).
  rewrite Ec in Hcs'. inversion_clear Hcs' as [|? ? Hc Hcs2].
  set (rest := pad_bytes (len (Chunk_wire c)) ++ flat_map padded_chunk cs).
  assert (body = Chunk_wire c ++ rest) as Eb
    by (unfold body, rest; rewrite Ec; cbn [flat_map]; unfold padded_chunk; by rewrite <- app_assoc).
  pose proof (len_Chunk_body c Hc) as Hl. pose proof (Chunk_value_length_nonneg c). pose proof (len_nonneg rest).
  assert (len body = 4 + len (Chunk_body c) + len rest) as Hb by (rewrite Eb, len_app, len_Chunk_wire by done; lia).
  etransitivity; [by apply (read_header (common_header p) body)|].
  unfold PACKET_HEADER_SIZE, CHUNK_HEADER_SIZE. rewrite len_packet_bytes.
  destruct (Z.ltb_spec (len body) 4); [lia|].
  replace (ChunkHeader_unmarshal body) with
    (Ok (mkChunkHeader (ch_typ (Chunk_header c)) (ch_flags (Chunk_header c)) (len (Chunk_body c)))) by
    (rewrite Eb; symmetry; apply Chunk_wire_header; [done|by apply rest_ok_padded]).
  cbn [mbind Outcome_bind]. rewrite advance_Ok by lia.
  rewrite (slice_Ok _ 12) by (rewrite ?len_packet_bytes; lia).
  rewrite packet_bytes_body. cbn [mbind Outcome_bind ch_typ ch_value_length].
  match goal with |- ?m ≫= _ = _ => assert (m = Ok (first_tag c, first_cookie c)) as -> end;
    [|by destruct (common_header p)].
  destruct c; try done.
  - (* INIT and INIT ACK: the initiate tag *)
    destruct (Chunk_wf_tag c Hc) as [Htag H4].
    replace (_ || _) with true by (cbn [Chunk_header]; unfold ChunkInit_header; by destruct (is_ack c)).
    unfold INITIATE_TAG_LENGTH. destruct (Z.ltb_spec (len (Chunk_body (CInit c))) 4); [lia|].
    rewrite Eb, Chunk_wire_value. cbn [Chunk_body]. rewrite <- app_assoc, get_u32_be by done. done.
  - (* COOKIE ECHO: the cookie *)
    cbn [Chunk_header ChunkCookieEcho_header ch_typ]. cbn [Z.eqb Pos.eqb orb CT_INIT CT_INIT_ACK CT_COOKIE_ECHO].
    destruct (Z.gtb_spec (12 + 4 + len (Chunk_body (CCookieEcho cookie))) (12 + len body)); [lia|].
    rewrite slice_Ok by (rewrite ?len_packet_bytes; lia). cbn [mbind Outcome_bind]. unfold first_cookie. do 3 f_equal.
    pose proof (range_range (packet_bytes (common_header p) body) 12 (12 + len body) 4 (4 + len cookie)) as Hr.
    cbn [Chunk_body] in *. rewrite packet_bytes_body in Hr. rewrite <- !Z.add_assoc in *. rewrite <- Hr by lia.
    rewrite Eb. unfold Chunk_wire, chunk_bytes. cbn [Chunk_body Chunk_header].
    rewrite !(app_assoc _ _ cookie), <- app_assoc. apply range_app_mid; lens.
Qed.

(** Claim C37.  What the endpoint routes on survives the wire: encoding any packet with at least one chunk and
    applying the endpoint's first decoding step recovers the header, the kind of the first chunk,
    the initiate tag of an INIT or INIT ACK and the cookie of a COOKIE ECHO (and reports none
    for other chunks), and the association's second step recovers every chunk. *)
Theorem partial_decode_roundtrip p c cs :
  (∀ b, uN 32 (crc b)) → Packet_wf p → chunks p = c :: cs →
  ∃ bs pd, Packet_marshal crc p = Ok bs ∧ PartialDecode_unmarshal crc bs = Ok pd ∧
    pd_common_header pd = common_header p ∧ pd_first_chunk_type pd = ch_typ (Chunk_header c) ∧
    pd_initiate_tag pd = first_tag c ∧ pd_cookie pd = first_cookie c ∧
    PartialDecode_finish pd = Ok (Packet_view p).
Proof.
  intros Hcrc Hwf Ec. do 2 eexists.
  split; [by apply Packet_marshal_bytes|]. split; [by apply (PartialDecode_wire p c cs)|]. split_and!; try done.
  by apply PartialDecode_finish_wire.
Qed.

(** Claim C16.  Every packet whose fields and chunks fit the wire encodes to a multiple of four bytes.
    Decoding the encoding gives the packet back, header, chunk order and chunk contents, except for
    the sender-only fields of DATA chunks, which never travel, if no chunk is a HEARTBEAT ACK.  A
    packet with a HEARTBEAT ACK, which the association sends in answer to a HEARTBEAT, is refused whole
    by the decoder as one of an unknown chunk type. *)
Theorem packet_roundtrip p :
  (∀ b, uN 32 (crc b)) → Packet_encodable p →
  ∃ bs, Packet_marshal crc p = Ok bs ∧ len bs mod 4 = 0 ∧
    Packet_unmarshal crc bs =
      if existsb is_heartbeat_ack (chunks p) then Err ErrUnmarshalUnknownChunkType else Ok (Packet_view p).
Proof. apply Packet_encode_refuse. Qed.
End Roundtrip.

(** ** The packet-level checks *)

Lemma check_init_chunks_spec p cs :
  check_init_chunks p cs = Ok tt ↔
  ∀ c, c ∈ cs → is_init_chunk c = true → length (chunks p) = 1%nat ∧ verification_tag (common_header p) = 0.
Proof.
  induction cs as [|c cs IH]; cbn [check_init_chunks]; [set_solver|].
  rewrite bind_Ok. setoid_rewrite elem_of_cons. split.
  - intros ([] & H1 & H2) c' [->|Hc] Hi; [|by apply (proj1 IH H2 c')].
    rewrite Hi, bind_Ok in H1. destruct H1 as ([] & H1%guard_err_Ok & H3%guard_err_Ok).
    unfold len in *. lia.
  - intros H. exists tt. split; [|apply IH; eauto]. destruct (is_init_chunk c) eqn:Hi; [|done].
    destruct (H c) as [H1 H2]; [by left|done|]. unfold len. rewrite H1, H2. done.
Qed.

(** A packet passes the receiver's checks exactly when both ports are non-zero and an
    INIT chunk, if there is one, is the only chunk of a packet with verification tag zero. *)
Theorem check_packet_spec p :
  check_packet p = Ok tt ↔
  source_port (common_header p) ≠ 0 ∧ destination_port (common_header p) ≠ 0 ∧
  ∀ c, c ∈ chunks p → is_init_chunk c = true → chunks p = [c] ∧ verification_tag (common_header p) = 0.
Proof.
  unfold check_packet.
  destruct (Z.eqb_spec (source_port (common_header p)) 0); [split; [done|naive_solver]|].
  destruct (Z.eqb_spec (destination_port (common_header p)) 0); [split; [done|naive_solver]|].
  cbn [guard_err mbind Outcome_bind]. rewrite check_init_chunks_spec. split.
  - intros H. split_and!; [done..|]. intros c Hc Hi.
    destruct (H c Hc Hi) as [Hl ?]. split; [|done]. destruct (chunks p) as [|c' [|]]; try done.
    apply list_elem_of_singleton in Hc. by subst.
  - intros (_ & _ & H) c Hc Hi. destruct (H c Hc Hi) as [-> ?]. done.
Qed.

(** ** The parameters instantiated

    The bitwise CRC-32C (reflected polynomial 0x82F63B78), with which the
    decoder accepts the header-only packet of the repository's tests. *)

Fixpoint crc32c_bits (n : nat) (r : Z) : Z :=
  match n with
  | O => r
  | S n' => crc32c_bits n' (if Z.odd r then Z.lxor (Z.shiftr r 1) 0x82F63B78 else Z.shiftr r 1)
  end.

Definition crc32c (b : Bytes) : Z :=
  wrap 32 (Z.lxor (fold_left (λ r x, crc32c_bits 8 (Z.lxor r x)) b 0xFFFFFFFF) 0xFFFFFFFF).

Lemma crc32c_uN b : uN 32 (crc32c b).
Proof. apply wrap_uN. lia. Qed.

Definition header_only : Bytes := [0x13; 0x88; 0x13; 0x88; 0; 0; 0; 0; 0x06; 0xa9; 0x00; 0xe1].

Example header_only_unmarshal :
  @Packet_unmarshal list_buf crc32c header_only = Ok (mkPacket (mkCommonHeader 5000 5000 0) []).
Proof. vm_compute. reflexivity. Qed.

Definition init_datagram : Bytes :=
  [0x13; 0x88; 0x13; 0x88; 0x00; 0x00; 0x00; 0x00; 0x92; 0x57; 0x55; 0xc7; 0x01; 0x00;
   0x00; 0x20; 0x12; 0x34; 0x56; 0x78; 0x00; 0x02; 0x00; 0x00; 0x04; 0x00; 0x04; 0x00;
   0x00; 0x00; 0x00; 0x01; 0x80; 0x08; 0x00; 0x08; 0x82; 0xc0; 0x40; 0xc2; 0xc0; 0x00;
   0x00; 0x04].

Definition init_decoded : PartialDecode :=
  mkPartialDecode (mkCommonHeader 5000 5000 0) (drop 12 init_datagram) CT_INIT (Some 0x12345678) None.

Example init_datagram_decodes : @PartialDecode_unmarshal list_buf crc32c init_datagram = Ok init_decoded.
Proof. vm_compute. reflexivity. Qed.

(** The INIT the datagram carries: its last parameter has no value. *)
Example init_datagram_finish :
  ∃ ci, @PartialDecode_finish list_buf init_decoded = Ok (mkPacket (mkCommonHeader 5000 5000 0) [CInit ci]).
Proof. eexists. vm_compute. reflexivity. Qed.

Lemma init_datagram_ok : bytes_ok init_datagram.
Proof. apply (bool_decide_unpack _). vm_compute. exact I. Qed.

Lemma packet_unmarshal_returns_witness :
  bytes_ok init_datagram ∧ returns (@Packet_unmarshal list_buf crc32c init_datagram).
Proof.
  split; [apply init_datagram_ok|].
  apply (@packet_unmarshal_returns list_buf list_buf_laws crc32c), init_datagram_ok.
Defined.

Lemma partial_decode_returns_witness :
  returns (@PartialDecode_unmarshal list_buf crc32c init_datagram) ∧
  ∀ pd, @PartialDecode_unmarshal list_buf crc32c init_datagram = Ok pd → returns (@PartialDecode_finish list_buf pd).
Proof. apply (@partial_decode_returns list_buf list_buf_laws crc32c), init_datagram_ok. Defined.

Lemma partial_decode_finish_equiv_witness :
  @PartialDecode_finish list_buf init_decoded = @Packet_unmarshal list_buf crc32c init_datagram.
Proof.
  apply (@partial_decode_finish_equiv list_buf list_buf_laws crc32c). vm_compute. reflexivity.
Defined.

(** A SACK bundled with a DATA chunk whose sender-only fields are set. *)
Definition sample_data : ChunkPayloadData :=
  mkChunkPayloadData false true false true 4294967295 7 65535 PpString [1; 2; 3] true 2 9 false None None None 4 true.

Definition sample_packet : Packet :=
  mkPacket (mkCommonHeader 5000 5001 77)
    [CSelectiveAck (mkChunkSelectiveAck 5 1500 [mkGapAckBlock 2 3] [4]); CPayloadData sample_data].

(** A SACK bundled with a HEARTBEAT ACK. *)
Definition sample_refused : Packet :=
  mkPacket (mkCommonHeader 5000 5001 77)
    [CSelectiveAck (mkChunkSelectiveAck 5 1500 [mkGapAckBlock 2 3] [4]); CHeartbeatAck [PHeartbeatInfo [1; 2; 3]]].

Lemma packet_roundtrip_witness :
  (∃ bs, @Packet_marshal list_buf crc32c sample_packet = Ok bs ∧ len bs mod 4 = 0 ∧
    @Packet_unmarshal list_buf crc32c bs = Ok (Packet_view sample_packet)) ∧
  ∃ bs, @Packet_marshal list_buf crc32c sample_refused = Ok bs ∧ len bs mod 4 = 0 ∧
    @Packet_unmarshal list_buf crc32c bs = Err ErrUnmarshalUnknownChunkType.
Proof.
  split.
  - apply (@packet_roundtrip list_buf list_buf_laws crc32c sample_packet crc32c_uN).
    apply (bool_decide_unpack _). vm_compute. exact I.
  - apply (@packet_roundtrip list_buf list_buf_laws crc32c sample_refused crc32c_uN).
    apply (bool_decide_unpack _). vm_compute. exact I.
Defined.

Lemma partial_decode_roundtrip_witness :
  ∃ bs pd, @Packet_marshal list_buf crc32c sample_packet = Ok bs ∧
    @PartialDecode_unmarshal list_buf crc32c bs = Ok pd ∧
    pd_common_header pd = common_header sample_packet ∧ pd_first_chunk_type pd = CT_SACK ∧
    pd_initiate_tag pd = None ∧ pd_cookie pd = None ∧
    @PartialDecode_finish list_buf pd = Ok (Packet_view sample_packet).
Proof.
  refine (@partial_decode_roundtrip list_buf list_buf_laws crc32c sample_packet _ _ crc32c_uN _ eq_refl).
  apply (bool_decide_unpack _). vm_compute. exact I.
Defined.
