(* ===== verification/CodecTyped.v ===== *)
(** * What decoding produces

    The decoders of [src/param], [src/chunk] and [src/packet.rs] turn octets
    into Rust values, whose types bound every field.  The model keeps
    integers as [Z], so the same bounds are theorems here: whatever octets
    come in, a decoder that succeeds yields a value every field of which is
    at its width, whose announced lengths fit the wire, and which therefore
    can be encoded again ([Param_wf], [Chunk_wf], [Packet_wf]).  The proofs
    follow the decoders' own structure through the postcondition [yields]. *)

From stdpp Require Import base list numbers sets.
From Stdlib Require Import ZArith Lia ZifyBool.
From S2P Require Import Prelude Bytes Util Params Chunks ChunksRoundtrip Packet.

(** Whatever a call that succeeds produces satisfies [P]. *)
Definition yields {A} (P : A → Prop) (m : Outcome A) : Prop := ∀ a, m = Ok a → P a.

Section Yields.
Context {A C : Type}.

Lemma yields_Ok (P : A → Prop) a : P a → yields P (Ok a).
Proof. by intros ? ? [= <-]. Qed.

Lemma yields_Err (P : A → Prop) e : yields P (Err e).
Proof. done. Qed.

Lemma yields_bind (Q : A → Prop) (P : C → Prop) (m : Outcome A) (f : A → Outcome C) :
  yields Q m → (∀ a, Q a → yields P (f a)) → yields P (m ≫= f).
Proof. intros Hm Hf c (a & Ha & Hc)%bind_Ok. exact (Hf a (Hm a Ha) c Hc). Qed.

Lemma yields_guard (P : A → Prop) c e (f : unit → Outcome A) :
  (c = false → yields P (f tt)) → yields P (guard_err c e ≫= f).
Proof. destruct c; [done|]. auto. Qed.

Lemma yields_if (P : A → Prop) (c : bool) (m n : Outcome A) :
  (c = true → yields P m) → (c = false → yields P n) → yields P (if c then m else n).
Proof. destruct c; auto. Qed.

Lemma yields_weaken (Q P : A → Prop) m : yields Q m → (∀ a, Q a → P a) → yields P m.
Proof. intros Hm HQ a Ha. exact (HQ a (Hm a Ha)). Qed.
End Yields.

(** ** Reads *)

(** A read takes [k] octets off a reader and yields a value in [Q]. *)
Definition reads {A} (k : Z) (Q : A → Prop) (get : Bytes → Outcome (A * Bytes)) : Prop :=
  ∀ b, bytes_ok b → yields (λ x, Q x.1 ∧ bytes_ok x.2 ∧ len x.2 = len b - k) (get b).

Section Reads.
Context {B : BufApi} {BL : BufLaws B}.

Lemma read_n_reads n val :
  (∀ b, bytes_ok b → 0 <= val b < 256 ^ len b) → reads (Z.of_nat n) (uN (8 * Z.of_nat n)) (read_n n val).
Proof.
  intros Hval b Hb [v r] (Hn & -> & ->)%read_n_Ok. simpl.
  split_and!; [|auto with bytes|rewrite len_drop; lia].
  specialize (Hval (take n b) (Forall_take _ _ _ Hb)). unfold len in Hval, Hn.
  rewrite length_take_le in Hval by lia. unfold uN. rewrite Z.pow_mul_r by lia. exact Hval.
Qed.

Lemma le_val_bounds b : bytes_ok b → 0 <= le_val b < 256 ^ len b.
Proof.
  intros Hb. unfold le_val, len. rewrite <- (length_rev b). by apply be_val_bounds, List.Forall_rev.
Qed.

Lemma get_u8_reads : reads 1 (uN 8) get_u8.
Proof. intros b Hb. rewrite get_u8_law. exact (read_n_reads 1 be_val be_val_bounds b Hb). Qed.
Lemma get_u16_reads : reads 2 (uN 16) get_u16.
Proof. intros b Hb. rewrite get_u16_law. exact (read_n_reads 2 be_val be_val_bounds b Hb). Qed.
Lemma get_u32_reads : reads 4 (uN 32) get_u32.
Proof. intros b Hb. rewrite get_u32_law. exact (read_n_reads 4 be_val be_val_bounds b Hb). Qed.

Lemma get_u32_le_reads : reads 4 (uN 32) get_u32_le.
Proof. intros b Hb. rewrite get_u32_le_law. exact (read_n_reads 4 le_val le_val_bounds b Hb). Qed.

Lemma yields_read {A C} k (Q : A → Prop) get (P : C → Prop) b f :
  reads k Q get → bytes_ok b →
  (∀ v r, Q v → bytes_ok r → len r = len b - k → yields P (f (v, r))) → yields P (get b ≫= f).
Proof. intros Hg Hb Hf. eapply yields_bind; [exact (Hg b Hb)|]. intros [v r] (? & ? & ?). auto. Qed.

Lemma slice_yields b i j :
  0 <= i → bytes_ok b → yields (λ s, bytes_ok s ∧ i <= j <= len b ∧ len s = j - i) (slice b i j).
Proof.
  intros Hi Hb s. rewrite slice_law by done.
  destruct (i <=? j) eqn:?, (j <=? len b) eqn:?; try done. simpl. intros [= <-].
  split_and!; [auto with bytes|lia|lia|]. apply len_range; lia.
Qed.

(** The two reading loops. *)
Lemma read_rest_yields {A} k (Q : A → Prop) get fuel r :
  reads k Q get → bytes_ok r →
  yields (λ l, Forall Q l ∧ k * len l <= len r) (read_rest get fuel r).
Proof.
  intros Hg. revert r; induction fuel as [|fuel IH]; intros r Hr; [done|]. cbn [read_rest].
  apply yields_if; intros _; [|apply yields_Ok; split; [done|pose proof (len_nonneg r); rewrite len_nil; lia]].
  eapply yields_read; [done..|]. intros v r' Hv Hr' Hl.
  eapply yields_bind; [by apply IH|]. intros l [Hall Hlen]. apply yields_Ok.
  split; [by constructor|]. rewrite len_cons. lia.
Qed.

Lemma read_times_yields {A} k (Q : A → Prop) get n r :
  reads k Q get → bytes_ok r →
  yields (λ x, Forall Q x.1 ∧ bytes_ok x.2 ∧ len x.1 = Z.of_nat n ∧ k * Z.of_nat n <= len r)
    (read_times get n r).
Proof.
  intros Hg. revert r; induction n as [|n IH]; intros r Hr; cbn [read_times].
  - apply yields_Ok. simpl. split_and!; [done..|]. pose proof (len_nonneg r). lia.
  - eapply yields_read; [done..|]. intros v r' Hv Hr' Hl.
    eapply yields_bind; [by apply IH|]. intros [l r''] (Hall & Hok & Hlen & Hk). apply yields_Ok. simpl in *.
    split_and!; [by constructor|done|rewrite len_cons; lia|lia].
Qed.
End Reads.

Create HintDb typed.
#[export] Hint Resolve get_u8_reads get_u16_reads get_u32_reads get_u32_le_reads : typed.

(** One step of a decoder: a guard, a branch, a read, a slice or a result. *)
Ltac decode_step :=
  match goal with
  | |- yields _ (guard_err _ _ ≫= _) => apply yields_guard; intros ?
  | |- yields _ (if _ then _ else _) => apply yields_if; intros ?
  | |- yields _ (Err _) => apply yields_Err
  | |- yields _ (slice _ _ _ ≫= _) =>
      eapply yields_bind; [apply slice_yields; [lia|assumption]|intros ? (? & ? & ?)]
  | |- yields _ (_ ≫= _) =>
      eapply yields_read; [solve [auto with typed]|assumption|intros ? ? ? ? ?; cbv beta iota]
  end.
Ltac decode := repeat decode_step.

(** ** Parameters *)

Section Params.
Context {B : BufApi} {BL : BufLaws B}.

(** The first two octets: the wire code of a parameter. *)
Definition leading_code (raw : Bytes) : u16 := be_val (take 2 raw).

Lemma get_u16_leading raw : bytes_ok raw →
  yields (λ x, x.1 = leading_code raw ∧ uN 16 x.1 ∧ bytes_ok x.2 ∧ len x.2 = len raw - 2) (get_u16 raw).
Proof.
  intros Hraw x Hx. split; [|exact (get_u16_reads raw Hraw x Hx)].
  rewrite get_u16_law in Hx. destruct x as [v r]. by apply read_n_Ok in Hx as (_ & -> & _).
Qed.

Lemma ParamHeader_unmarshal_yields raw : bytes_ok raw →
  yields (λ h, ph_typ h = ParamType_from_u16 (leading_code raw) ∧ uN 16 (leading_code raw) ∧
               0 <= ph_value_length h ∧ ph_value_length h + 4 <= len raw ∧ ph_value_length h + 4 < 2 ^ 16)
    (ParamHeader_unmarshal raw).
Proof.
  intros Hraw. unfold ParamHeader_unmarshal, PARAM_HEADER_LENGTH. decode_step; [decode|].
  eapply yields_bind; [by apply get_u16_leading|]. intros [t r]. simpl. intros (-> & Ht & Hr & _).
  decode. apply yields_Ok. simpl. unfold uN in *. rewrite wrap_small by (unfold uN; lia). split_and!; try done; lia.
Qed.

(** Every parameter decoder but the first reads the header, checks it and
    takes the value. *)
Lemma yields_param_value {A} (P : A → Prop) raw h f :
  bytes_ok raw → 0 <= ph_value_length h →
  (∀ v, bytes_ok v → len v = ph_value_length h → yields P (f v)) → yields P (param_value raw h ≫= f).
Proof.
  intros Hraw Hh Hf. eapply yields_bind; [apply slice_yields; [done|done]|].
  intros v (Hv & ? & Hl). apply Hf; [done|]. unfold PARAM_HEADER_LENGTH in *. lia.
Qed.

Lemma param_value_yields raw h :
  bytes_ok raw → yields (λ v, bytes_ok v ∧ len v = ph_value_length h) (param_value raw h).
Proof.
  intros Hraw. eapply yields_weaken; [apply slice_yields; done|].
  intros v (Hv & _ & Hl). split; [done|]. unfold PARAM_HEADER_LENGTH in *. lia.
Qed.

Lemma hmac_loop_yields fuel offset vl r : bytes_ok r → offset <= vl →
  yields (λ l, Forall (λ a, a = HmacSha128 ∨ a = HmacSha256) l ∧ 2 * len l <= vl - offset)
    (hmac_loop fuel offset vl r).
Proof.
  revert offset r; induction fuel as [|fuel IH]; intros offset r Hr Ho; [done|]. cbn [hmac_loop].
  decode_step; [|apply yields_Ok; split; [done|lens]]. decode_step.
  destruct (HmacAlgorithm_from_u16 v); try apply yields_Err;
    (eapply yields_bind; [apply IH; [done|lia]|]); intros l [Hl Hn]; apply yields_Ok;
    (split; [constructor; auto|rewrite len_cons; lia]).
Qed.

(** The value a parameter of [raw] carries is no longer than [raw] says. *)
Definition fits (raw : Bytes) (p : Param) : Prop :=
  Param_wf p ∧ Param_value_length p + PARAM_HEADER_LENGTH <= len raw.

(** The header, then the parameter itself under the header's bounds. *)
Lemma yields_param {A} (g : A → Param) raw f :
  bytes_ok raw →
  (∀ h, ph_typ h = ParamType_from_u16 (leading_code raw) → uN 16 (leading_code raw) → 0 <= ph_value_length h →
        yields (λ a, Param_value_length (g a) <= ph_value_length h ∧
                     (Param_value_length (g a) + PARAM_HEADER_LENGTH < 2 ^ 16 → Param_wf (g a))) (f h)) →
  yields (λ a, fits raw (g a)) (ParamHeader_unmarshal raw ≫= f).
Proof.
  intros Hraw Hf. eapply yields_bind; [by apply ParamHeader_unmarshal_yields|].
  intros h (Ht & Hc & H0 & Hl & H16). eapply yields_weaken; [by apply Hf|].
  intros a [Hp Hwf]. unfold fits, PARAM_HEADER_LENGTH in *. split; [apply Hwf|]; lia.
Qed.

(** Parameters whose value is a byte string. *)
Lemma byte_param_yields (g : Bytes → Param) raw :
  (∀ d, Param_value_length (g d) = len d) →
  (∀ d, bytes_ok d → Param_value_length (g d) + PARAM_HEADER_LENGTH < 2 ^ 16 → Param_wf (g d)) →
  bytes_ok raw → yields (λ d, fits raw (g d)) (h ← ParamHeader_unmarshal raw; param_value raw h).
Proof.
  intros Hlen Hwf Hraw. apply yields_param; [done|]. intros h _ _ _.
  eapply yields_weaken; [by apply param_value_yields|]. intros d [Hd Hl]. rewrite Hlen. split; [lia|].
  intros Hs. apply Hwf; [done|by rewrite Hlen].
Qed.

Lemma ParamSupportedExtensions_yields raw :
  bytes_ok raw → yields (λ l, fits raw (PSupportedExtensions l)) (ParamSupportedExtensions_unmarshal raw).
Proof.
  intros Hraw. apply yields_param; [done|]. intros h _ _ Hh. apply yields_param_value; [done..|].
  intros v Hv Hl. eapply yields_weaken; [apply (read_rest_yields 1 (uN 8)); [auto with typed|exact Hv]|].
  intros l [Hall Hle]. split; [cbn; unfold ParamSupportedExtensions_value_length; lia|done].
Qed.

Lemma ParamChunkList_yields raw :
  bytes_ok raw → yields (λ l, fits raw (PChunkList l)) (ParamChunkList_unmarshal raw).
Proof.
  intros Hraw. apply yields_param; [done|]. intros h _ _ Hh. decode_step. apply yields_param_value; [done..|].
  intros v Hv Hl. eapply yields_weaken; [apply (read_rest_yields 1 (uN 8)); [auto with typed|exact Hv]|].
  intros l [Hall Hle]. split; [cbn; unfold ParamChunkList_value_length; lia|done].
Qed.

Lemma ParamRequestedHmacAlgorithm_yields raw :
  bytes_ok raw → yields (λ l, fits raw (PRequestedHmacAlgorithm l)) (ParamRequestedHmacAlgorithm_unmarshal raw).
Proof.
  intros Hraw. apply yields_param; [done|]. intros h _ _ Hh. apply yields_param_value; [done..|].
  intros v Hv Hl. eapply yields_weaken; [by apply hmac_loop_yields|].
  intros l [Hall Hle]. split; [cbn; unfold ParamRequestedHmacAlgorithm_value_length; lia|done].
Qed.

Lemma ParamSupportedAddressTypes_yields raw :
  bytes_ok raw → yields (λ l, fits raw (PSupportedAddressTypes l)) (ParamSupportedAddressTypes_unmarshal raw).
Proof.
  intros Hraw. apply yields_param; [done|]. intros h _ _ Hh. decode_step. apply yields_param_value; [done..|].
  intros v Hv Hl. eapply yields_bind; [apply (read_rest_yields 2 (uN 16)); [auto with typed|exact Hv]|].
  intros l [Hall Hle]. apply yields_Ok.
  split; [cbn; unfold ParamSupportedAddressTypes_value_length, len in *; rewrite length_map; lia|].
  intros Hs. split; [done|]. apply Forall_map. refine (List.Forall_impl _ _ Hall). intros t Ht. cbn.
  by rewrite ParamType_into_from.
Qed.

Lemma ParamOutgoingResetRequest_yields raw :
  bytes_ok raw → yields (λ p, fits raw (POutgoingResetRequest p)) (ParamOutgoingResetRequest_unmarshal raw).
Proof.
  intros Hraw. apply yields_param; [done|]. intros h _ _ Hh. cbv zeta.
  unfold PARAM_OUTGOING_RESET_REQUEST_STREAM_IDENTIFIERS_OFFSET. do 2 decode_step.
  apply yields_param_value; [done..|]. intros v Hv Hl. do 3 decode_step.
  eapply yields_bind; [apply (read_times_yields 2 (uN 16)); [auto with typed|done]|].
  intros [ids rest] (Hids & _ & Hn & _). apply yields_Ok. simpl in *.
  pose proof (Z.mul_div_le (ph_value_length h - 12) 2).
  assert (0 <= (ph_value_length h - 12) / 2) by (apply Z.div_pos; lia).
  split; [|by intros ?].
  cbn. unfold ParamOutgoingResetRequest_value_length, PARAM_OUTGOING_RESET_REQUEST_STREAM_IDENTIFIERS_OFFSET.
  cbn. lia.
Qed.

Lemma ParamReconfigResponse_yields raw :
  bytes_ok raw → yields (λ p, fits raw (PReconfigResponse p)) (ParamReconfigResponse_unmarshal raw).
Proof.
  intros Hraw. apply yields_param; [done|]. intros h _ _ Hh. decode_step.
  apply yields_param_value; [done..|]. intros v Hv Hl. do 2 decode_step. apply yields_Ok.
  split; [cbn; unfold ParamReconfigResponse_value_length; lia|done].
Qed.

Lemma ParamUnknown_yields raw :
  Z.land (Z.shiftr (leading_code raw) 15) 1 = 1 →
  ParamType_from_u16 (leading_code raw) ∉ [ForwardTsnSupp; SupportedExt; Random; ReqHmacAlgo; ChunkList] →
  bytes_ok raw → yields (λ x, fits raw (PUnknown x.1 x.2)) (ParamUnknown_unmarshal raw).
Proof.
  intros Hbit Htyp Hraw. apply (yields_param (λ x, PUnknown x.1 x.2)); [done|]. intros h Eh Hc Hh.
  apply yields_param_value; [done..|]. intros v Hv Hl. apply yields_Ok. simpl.
  rewrite Eh, ParamType_into_from. split; [unfold ParamUnknown_value_length; lia|done].
Qed.

Lemma ParamRandom_yields raw : bytes_ok raw → yields (λ d, fits raw (PRandom d)) (ParamRandom_unmarshal raw).
Proof. by apply byte_param_yields. Qed.

Lemma ParamStateCookie_yields raw :
  bytes_ok raw → yields (λ d, fits raw (PStateCookie d)) (ParamStateCookie_unmarshal raw).
Proof. by apply byte_param_yields. Qed.

Lemma ParamHeartbeatInfo_yields raw :
  bytes_ok raw → yields (λ d, fits raw (PHeartbeatInfo d)) (ParamHeartbeatInfo_unmarshal raw).
Proof. by apply byte_param_yields. Qed.

Lemma ParamForwardTsnSupported_yields raw :
  bytes_ok raw → yields (λ _, fits raw PForwardTsnSupported) (ParamForwardTsnSupported_unmarshal raw).
Proof.
  intros Hraw. apply (yields_param (λ _, PForwardTsnSupported)); [done|]. intros h _ _ Hh.
  apply yields_Ok. by split.
Qed.

(** The last arm of [build_param]: a type it does not know. *)
Lemma unhandled_yields raw :
  ParamType_from_u16 (leading_code raw) ∉ [ForwardTsnSupp; SupportedExt; Random; ReqHmacAlgo; ChunkList] →
  bytes_ok raw →
  yields (fits raw)
    (if Z.land (Z.shiftr (leading_code raw) 15) 1 =? 0 then Err (ErrParamTypeUnhandled (leading_code raw))
     else '(typ, value) ← ParamUnknown_unmarshal raw; Ok (PUnknown typ value)).
Proof.
  intros Ht Hraw. decode_step; [decode|]. eapply yields_bind; [apply ParamUnknown_yields; [|done..]|].
  - assert (∀ z, Z.land z 1 = z mod 2) as Hm by (intros z; by apply (Z.land_ones z 1)).
    rewrite Hm in *. pose proof (Z.mod_pos_bound (Z.shiftr (leading_code raw) 15) 2). lia.
  - intros [typ value] Hfits. by apply yields_Ok.
Qed.

#[local] Hint Resolve ParamRandom_yields ParamStateCookie_yields ParamHeartbeatInfo_yields
  ParamForwardTsnSupported_yields ParamSupportedExtensions_yields ParamChunkList_yields
  ParamRequestedHmacAlgorithm_yields ParamSupportedAddressTypes_yields
  ParamOutgoingResetRequest_yields ParamReconfigResponse_yields : typed.

(** Whatever octets [build_param] accepts, the parameter fits them and can be encoded again. *)
Lemma build_param_yields raw : bytes_ok raw → yields (fits raw) (build_param raw).
Proof.
  intros Hraw. unfold build_param, PARAM_HEADER_LENGTH. decode_step; [decode|]. rewrite slice_Ok by lia.
  cbn [mbind Outcome_bind].
  eapply yields_bind; [apply get_u16_leading; auto with bytes|].
  intros [t r] (Et & Ht & _). cbn [fst] in Et, Ht. cbv beta iota.
  replace (leading_code (range raw 0 2)) with (leading_code raw) in Et by
    (unfold leading_code, range; simpl; by rewrite drop_0, take_take). subst t.
  destruct (ParamType_from_u16 (leading_code raw)) eqn:Et;
    first [ apply unhandled_yields; [rewrite Et; set_solver|exact Hraw]
          | eapply yields_bind; [solve [auto with typed]|]; intros a Ha; by apply yields_Ok ].
Qed.
End Params.

(** ** Chunks *)

Section Chunks.
Context {B : BufApi} {BL : BufLaws B}.

(** What the decoding loops accept: a chunk that encodes again, that is not
    a HEARTBEAT ACK, and that has no sender-only field set. *)
Definition decoded (c : Chunk) : Prop :=
  (Chunk_wf c ∧ match c with CHeartbeatAck _ => False | _ => True end) ∧ Chunk_view c = c.

Lemma ChunkHeader_unmarshal_yields raw : bytes_ok raw →
  yields (λ h, uN 8 (ch_typ h) ∧ uN 8 (ch_flags h) ∧ 0 <= ch_value_length h ∧
               ch_value_length h + 4 <= len raw ∧ ch_value_length h + 4 < 2 ^ 16)
    (ChunkHeader_unmarshal raw).
Proof.
  intros Hraw. unfold ChunkHeader_unmarshal, CHUNK_HEADER_SIZE. decode.
  eapply (yields_bind (λ _, True)); [done|]. intros _ _. apply yields_Ok. simpl.
  unfold uN in *. lia.
Qed.

Lemma yields_chunk {A} (P : A → Prop) raw f :
  bytes_ok raw →
  (∀ h, uN 8 (ch_typ h) → uN 8 (ch_flags h) → 0 <= ch_value_length h → ch_value_length h + 4 <= len raw →
        ch_value_length h + 4 < 2 ^ 16 → yields P (f h)) →
  yields P (ChunkHeader_unmarshal raw ≫= f).
Proof.
  intros Hraw Hf. eapply yields_bind; [by apply ChunkHeader_unmarshal_yields|].
  intros h (? & ? & ? & ? & ?). by apply Hf.
Qed.

Lemma yields_chunk_value {A} (P : A → Prop) raw h f :
  bytes_ok raw →
  (∀ v, bytes_ok v → len v = ch_value_length h → yields P (f v)) → yields P (chunk_value raw h ≫= f).
Proof.
  intros Hraw Hf. eapply yields_bind; [apply slice_yields; [done|done]|].
  intros v (Hv & ? & Hl). apply Hf; [done|]. unfold CHUNK_HEADER_SIZE in *. lia.
Qed.

(** *** Error causes *)

Lemma ErrorCause_unmarshal_yields buf : bytes_ok buf →
  yields (λ e, (uN 16 (ec_code e) ∧ bytes_ok (ec_raw e) ∧ len (ec_raw e) + 4 < 2 ^ 16) ∧
               ErrorCause_length e <= len buf) (ErrorCause_unmarshal buf).
Proof.
  intros Hbuf. unfold ErrorCause_unmarshal, ErrorCause_length, ERROR_CAUSE_HEADER_LENGTH.
  decode. apply yields_Ok. simpl. unfold uN in *. split_and!; try done; lia.
Qed.

Lemma error_causes_value_length_cons e l :
  error_causes_value_length (e :: l) = ErrorCause_length e + error_causes_value_length l.
Proof. unfold error_causes_value_length. cbn [fold_left]. rewrite !fold_add_sum. lia. Qed.

Lemma error_causes_loop_yields fuel raw offset vend :
  bytes_ok raw → 0 <= offset <= vend →
  yields (λ l, Forall (λ e, uN 16 (ec_code e) ∧ bytes_ok (ec_raw e) ∧ len (ec_raw e) + 4 < 2 ^ 16) l ∧
               error_causes_value_length l <= vend - offset) (error_causes_loop fuel raw offset vend).
Proof.
  intros Hraw. revert offset; induction fuel as [|fuel IH]; intros offset Ho; [done|]. cbn [error_causes_loop].
  decode_step; [|apply yields_Ok; split; [done|cbn; lia]]. decode_step.
  eapply yields_bind; [by apply ErrorCause_unmarshal_yields|]. intros e [He Hlen].
  assert (0 <= ErrorCause_length e) by
    (pose proof (len_nonneg (ec_raw e)); unfold ErrorCause_length, ERROR_CAUSE_HEADER_LENGTH; lia).
  eapply yields_bind; [apply IH; lia|]. intros l [Hl Hsum]. apply yields_Ok.
  split; [by constructor|]. rewrite error_causes_value_length_cons. lia.
Qed.

Lemma ChunkAbort_yields raw : bytes_ok raw → yields (λ l, decoded (CAbort l)) (ChunkAbort_unmarshal raw).
Proof.
  intros Hraw. apply yields_chunk; [done|]. intros h _ _ Hh Hl H16. decode_step. unfold CHUNK_HEADER_SIZE.
  eapply yields_weaken; [apply error_causes_loop_yields; [done|lia]|]. intros l [Hall Hsum].
  do 2 (split; [|done]). split; [cbn; unfold CHUNK_HEADER_SIZE; lia|done].
Qed.

Lemma ChunkError_yields raw : bytes_ok raw → yields (λ l, decoded (CError l)) (ChunkError_unmarshal raw).
Proof.
  intros Hraw. apply yields_chunk; [done|]. intros h _ _ Hh Hl H16. decode_step. unfold CHUNK_HEADER_SIZE.
  eapply yields_weaken; [apply error_causes_loop_yields; [done|lia]|]. intros l [Hall Hsum].
  do 2 (split; [|done]). split; [cbn; unfold CHUNK_HEADER_SIZE; lia|done].
Qed.

(** *** Fixed-size chunks *)

Lemma ChunkCookieEcho_yields raw :
  bytes_ok raw → yields (λ c, decoded (CCookieEcho c)) (ChunkCookieEcho_unmarshal raw).
Proof.
  intros Hraw. apply yields_chunk; [done|]. intros h _ _ Hh Hl H16. decode_step.
  eapply yields_weaken; [by apply slice_yields|]. intros c (Hc & _ & Hlen). unfold CHUNK_HEADER_SIZE in *.
  do 2 (split; [|done]). split; [cbn; unfold CHUNK_HEADER_SIZE; lia|done].
Qed.

Lemma ChunkShutdown_yields raw :
  bytes_ok raw → yields (λ t, decoded (CShutdown t)) (ChunkShutdown_unmarshal raw).
Proof.
  intros Hraw. apply yields_chunk; [done|]. intros h _ _ Hh Hl H16. do 2 decode_step.
  apply yields_chunk_value; [done|]. intros v Hv Hlen. decode_step. apply yields_Ok. by split_and!.
Qed.

Lemma ChunkPayloadData_yields raw :
  bytes_ok raw → yields (λ d, decoded (CPayloadData d)) (ChunkPayloadData_unmarshal raw).
Proof.
  intros Hraw. apply yields_chunk; [done|]. intros h _ _ Hh Hl H16. cbv zeta. do 2 decode_step.
  apply yields_chunk_value; [done|]. intros v Hv Hlen. do 4 decode_step.
  unfold CHUNK_HEADER_SIZE, PAYLOAD_DATA_HEADER_SIZE in *. decode_step. apply yields_Ok.
  do 2 (split; [|done]). split; [|done]. cbn.
  unfold ChunkPayloadData_value_length, CHUNK_HEADER_SIZE, PAYLOAD_DATA_HEADER_SIZE. cbn. lia.
Qed.

(** *** Chunks with a list *)

Lemma get_gap_ack_block_reads : reads 4 (λ g, uN 16 (gab_start g) ∧ uN 16 (gab_end g)) get_gap_ack_block.
Proof. intros b Hb. unfold get_gap_ack_block. decode. apply yields_Ok. simpl. split_and!; try done. lia. Qed.
#[local] Hint Resolve get_gap_ack_block_reads : typed.

Lemma ChunkSelectiveAck_yields raw :
  bytes_ok raw → yields (λ c, decoded (CSelectiveAck c)) (ChunkSelectiveAck_unmarshal raw).
Proof.
  intros Hraw. apply yields_chunk; [done|]. intros h _ _ Hh Hl H16. do 2 decode_step.
  apply yields_chunk_value; [done|]. intros v Hv Hlen. do 4 decode_step.
  unfold SELECTIVE_ACK_HEADER_SIZE in *. decode_step.
  eapply yields_bind; [apply (read_times_yields 4); [apply get_gap_ack_block_reads|done]|].
  intros [gaps r'] (Hg & Hr' & Eg & _). simpl in *.
  eapply yields_bind; [apply (read_times_yields 4 (uN 32)); [auto with typed|done]|].
  intros [dups r''] (Hd & _ & Ed & _). apply yields_Ok. simpl in *.
  do 2 (split; [|done]). split; [|by split_and!]. cbn. unfold uN in *.
  unfold ChunkSelectiveAck_value_length, SELECTIVE_ACK_HEADER_SIZE, CHUNK_HEADER_SIZE. cbn. lia.
Qed.

Lemma forward_tsn_loop_yields fuel buf offset vend remaining :
  bytes_ok buf → 0 <= offset → 0 <= remaining →
  yields (λ l, Forall (λ s, uN 16 (fs_identifier s) ∧ uN 16 (fs_sequence s)) l ∧ 4 * len l <= remaining)
    (forward_tsn_loop fuel buf offset vend remaining).
Proof.
  intros Hbuf. revert offset remaining; induction fuel as [|fuel IH]; intros offset remaining Ho Hr; [done|].
  cbn [forward_tsn_loop]. decode_step; [|apply yields_Ok; split; [done|lens]]. decode_step.
  eapply yields_bind with (Q := λ s, uN 16 (fs_identifier s) ∧ uN 16 (fs_sequence s)).
  { unfold ChunkForwardTsnStream_unmarshal. decode. by apply yields_Ok. }
  intros s Hs. unfold checked_sub, ChunkForwardTsnStream_value_length, FORWARD_TSN_STREAM_LENGTH.
  destruct (Z.leb_spec 4 remaining); [|done]. cbn [mbind Outcome_bind].
  eapply yields_bind; [apply IH; lia|]. intros l [Hl Hlen]. apply yields_Ok.
  split; [by constructor|]. rewrite len_cons. lia.
Qed.

Lemma ChunkForwardTsn_yields buf :
  bytes_ok buf → yields (λ c, decoded (CForwardTsn c)) (ChunkForwardTsn_unmarshal buf).
Proof.
  intros Hbuf. apply yields_chunk; [done|]. intros h _ _ Hh Hl H16. cbv zeta. do 2 decode_step.
  apply yields_chunk_value; [done|]. intros v Hv Hlen. decode_step.
  unfold checked_sub, CHUNK_HEADER_SIZE, NEW_CUMULATIVE_TSN_LENGTH in *.
  destruct (Z.leb_spec (4 + 4) (4 + ch_value_length h)); [|lia]. cbn [mbind Outcome_bind].
  eapply yields_bind; [apply forward_tsn_loop_yields; [done|lia..]|]. intros l [Hall Hn]. apply yields_Ok.
  do 2 (split; [|done]). split; [|done].
  cbn. unfold ChunkForwardTsn_value_length, NEW_CUMULATIVE_TSN_LENGTH, FORWARD_TSN_STREAM_LENGTH, CHUNK_HEADER_SIZE.
  cbn. lia.
Qed.

Lemma i_forward_tsn_loop_yields fuel buf offset vend :
  bytes_ok buf → 0 <= offset <= vend →
  yields (λ l, Forall (λ s, uN 16 (ifs_identifier s) ∧ uN 32 (ifs_mid s)) l ∧ 8 * len l <= vend - offset)
    (i_forward_tsn_loop fuel buf offset vend).
Proof.
  intros Hbuf. revert offset; induction fuel as [|fuel IH]; intros offset Ho; [done|].
  cbn [i_forward_tsn_loop]. unfold I_FORWARD_TSN_STREAM_ENTRY_LENGTH.
  decode_step; [|apply yields_Ok; split; [done|lens]]. do 5 decode_step.
  eapply yields_bind; [apply IH; lia|]. intros l [Hl Hlen]. apply yields_Ok.
  split; [by constructor|]. rewrite len_cons. lia.
Qed.

Lemma ChunkIForwardTsn_yields buf :
  bytes_ok buf → yields (λ c, decoded (CIForwardTsn c)) (ChunkIForwardTsn_unmarshal buf).
Proof.
  intros Hbuf. apply yields_chunk; [done|]. intros h _ _ Hh Hl H16. cbv zeta.
  unfold CHUNK_HEADER_SIZE, NEW_CUMULATIVE_TSN_LENGTH in *. do 4 decode_step.
  eapply yields_bind; [apply i_forward_tsn_loop_yields; [done|lia]|]. intros l [Hall Hn]. apply yields_Ok.
  do 2 (split; [|done]). split; [|done].
  cbn. unfold ChunkIForwardTsn_value_length, I_FORWARD_TSN_STREAM_ENTRY_LENGTH, CHUNK_HEADER_SIZE. cbn. lia.
Qed.

(** *** Chunks with parameters *)

Lemma padded_params_length_cons p ps n :
  Param_value_length p + 4 <= n →
  padded_params_length ps <= Z.max 0 (n - (4 + Param_value_length p + get_padding_size (4 + Param_value_length p))) →
  padded_params_length (p :: ps) <= n.
Proof.
  intros Hp Hps. destruct ps as [|p' ps]; [cbn; unfold PARAM_HEADER_LENGTH; lia|].
  assert (0 < padded_params_length (p' :: ps)).
  { cbn [padded_params_length]. unfold PARAM_HEADER_LENGTH.
    pose proof (Param_value_length_nonneg p'). pose proof (padded_params_length_nonneg ps).
    pose proof (get_padding_size_bounds (4 + Param_value_length p')). destruct ps; lia. }
  change (padded_params_length (p :: p' :: ps)) with
    (4 + Param_value_length p + get_padding_size (4 + Param_value_length p) + padded_params_length (p' :: ps)). lia.
Qed.

Lemma init_params_loop_yields fuel raw offset vend remaining :
  bytes_ok raw → 0 <= offset → remaining = vend - offset →
  yields (λ ps, Forall Param_wf ps ∧ padded_params_length ps <= Z.max 0 remaining)
    (init_params_loop fuel raw offset vend remaining).
Proof.
  intros Hraw. revert offset remaining; induction fuel as [|fuel IH]; intros offset remaining Ho ->; [done|].
  cbn [init_params_loop]. decode_step; [|apply yields_Ok; split; [done|cbn; lia]]. decode_step.
  eapply yields_bind; [by apply build_param_yields|]. intros p [Hp Hlen].
  cbv zeta. unfold PARAM_HEADER_LENGTH, INIT_OPTIONAL_VAR_HEADER_LENGTH in *.
  pose proof (get_padding_size_bounds (4 + Param_value_length p)). pose proof (Param_value_length_nonneg p).
  eapply yields_bind; [apply IH; lia|]. intros ps [Hps Hn]. apply yields_Ok.
  split; [by constructor|]. rewrite Z.max_r by lia. apply padded_params_length_cons; lia.
Qed.

Lemma ChunkInit_yields raw : bytes_ok raw → yields (λ c, decoded (CInit c)) (ChunkInit_unmarshal raw).
Proof.
  intros Hraw. apply yields_chunk; [done|]. intros h _ _ Hh Hl H16. do 3 decode_step.
  apply yields_chunk_value; [done|]. intros v Hv Hlen. do 5 decode_step. cbv zeta.
  unfold CHUNK_HEADER_SIZE, INIT_CHUNK_MIN_LENGTH in *.
  eapply yields_bind; [apply init_params_loop_yields; [done|lia|reflexivity]|]. intros ps [Hps Hn]. apply yields_Ok.
  do 2 (split; [|done]). split; [|by split_and!].
  cbn. unfold ChunkInit_value_length, CHUNK_HEADER_SIZE. cbn [params]. lia.
Qed.

Lemma ChunkHeartbeat_yields raw : bytes_ok raw → yields (λ ps, decoded (CHeartbeat ps)) (ChunkHeartbeat_unmarshal raw).
Proof.
  intros Hraw. apply yields_chunk; [done|]. intros h _ _ Hh Hl H16. do 2 decode_step.
  apply yields_chunk_value; [done|]. intros v Hv Hlen.
  eapply yields_bind; [by apply build_param_yields|]. intros p [Hp Hn].
  apply yields_guard. intros Hty%negb_false_iff%bool_decide_eq_true. apply yields_Ok.
  do 2 (split; [|done]). split.
  - cbn. unfold ChunkHeartbeat_value_length, CHUNK_HEADER_SIZE, PARAM_HEADER_LENGTH in *. cbn. lia.
  - by split.
Qed.

Lemma ChunkReconfig_yields raw : bytes_ok raw → yields (λ c, decoded (CReconfig c)) (ChunkReconfig_unmarshal raw).
Proof.
  intros Hraw. apply yields_chunk; [done|]. intros h _ _ Hh Hl H16. do 2 decode_step.
  apply yields_chunk_value; [done|]. intros v Hv Hlen.
  eapply yields_bind; [by apply build_param_yields|]. intros a [Ha Hn]. cbv zeta.
  unfold CHUNK_HEADER_SIZE, PARAM_HEADER_LENGTH in *.
  pose proof (get_padding_size_bounds (4 + Param_value_length a)). pose proof (Param_value_length_nonneg a).
  decode_step.
  - decode_step. eapply yields_bind; [by apply build_param_yields|]. intros b [Hb Hnb]. apply yields_Ok.
    do 2 (split; [|done]). split; [|done].
    cbn. unfold ChunkReconfig_value_length, CHUNK_HEADER_SIZE, PARAM_HEADER_LENGTH in *. cbn. lia.
  - apply yields_Ok. do 2 (split; [|done]). split; [|done].
    cbn. unfold ChunkReconfig_value_length, CHUNK_HEADER_SIZE, PARAM_HEADER_LENGTH in *. cbn. lia.
Qed.
End Chunks.

(** ** Packets *)

#[export] Hint Resolve ChunkAbort_yields ChunkError_yields ChunkCookieEcho_yields ChunkShutdown_yields
  ChunkPayloadData_yields ChunkSelectiveAck_yields ChunkForwardTsn_yields ChunkIForwardTsn_yields
  ChunkInit_yields ChunkHeartbeat_yields ChunkReconfig_yields : typed.

Section Packets.
Context {B : BufApi} {BL : BufLaws B} (crc : Bytes → u32).

Lemma unmarshal_chunk_yields ct raw : bytes_ok raw → yields decoded (unmarshal_chunk ct raw).
Proof.
  intros Hraw. unfold unmarshal_chunk.
  repeat (apply yields_if; intros _;
          [first [eapply yields_bind; [solve [auto with typed]|]; intros c Hc; by apply yields_Ok
                 |eapply (yields_bind (λ _, True)); [done|]; intros _ _; apply yields_Ok; by split_and!]|]).
  done.
Qed.

Lemma chunks_loop_yields fuel raw offset :
  bytes_ok raw → 0 <= offset → yields (Forall decoded) (chunks_loop fuel raw offset).
Proof.
  intros Hraw. revert offset; induction fuel as [|fuel IH]; intros offset Ho; [done|]. cbn [chunks_loop].
  decode_step; [by apply yields_Ok|]. decode_step; [decode|].
  destruct (raw !! Z.to_nat offset) as [ct|]; [|done]. decode_step.
  eapply yields_bind; [by apply unmarshal_chunk_yields|]. intros c Hc.
  pose proof (Chunk_value_length_nonneg c). pose proof (get_padding_size_bounds (Chunk_value_length c)).
  eapply yields_bind; [apply IH; unfold CHUNK_HEADER_SIZE; lia|]. intros l Hl. apply yields_Ok. by constructor.
Qed.

Definition header_typed (h : CommonHeader) : Prop :=
  uN 16 (source_port h) ∧ uN 16 (destination_port h) ∧ uN 32 (verification_tag h).

Definition PartialDecode_typed (pd : PartialDecode) : Prop :=
  header_typed (pd_common_header pd) ∧ bytes_ok (pd_remaining pd) ∧ uN 8 (pd_first_chunk_type pd) ∧
  match pd_initiate_tag pd with Some t => uN 32 t | None => True end ∧
  match pd_cookie pd with Some c => bytes_ok c | None => True end.

(** A packet every chunk of which was decoded encodes again, to itself. *)
Lemma decoded_packet_wf p :
  header_typed (common_header p) → Forall decoded (chunks p) → Packet_wf p ∧ Packet_view p = p.
Proof.
  intros (? & ? & ?) Hcs. split.
  - split_and!; [done..|]. refine (List.Forall_impl _ _ Hcs). by intros c [Hc _].
  - destruct p as [h cs]. unfold Packet_view. simpl in *. f_equal.
    induction Hcs as [|c cs [_ Hc] _ IH]; [done|]. by rewrite fmap_cons, Hc, IH.
Qed.

Lemma PartialDecode_yields raw : bytes_ok raw → yields PartialDecode_typed (PartialDecode_unmarshal crc raw).
Proof.
  intros Hraw. unfold PartialDecode_unmarshal, PACKET_HEADER_SIZE, CHUNK_HEADER_SIZE.
  decode_step; [decode|]. do 4 decode_step. eapply (yields_bind (λ _, True)); [done|]. intros ck _.
  do 2 (decode_step; [decode|]). apply yields_chunk; [done|]. intros h Htyp _ Hh Hl H16.
  rewrite advance_Ok by lia. cbn [mbind Outcome_bind].
  eapply yields_bind with (Q := λ x, match x.1 with Some t => uN 32 t | None => True end ∧
    match x.2 with Some c => bytes_ok c | None => True end).
  - decode_step.
    + decode_step; [decode|]. eapply yields_read; [solve [auto with typed]|auto with bytes|].
      intros. by apply yields_Ok.
    + decode_step; [|by apply yields_Ok]. cbv zeta. decode_step; [decode|]. decode_step. by apply yields_Ok.
  - intros [tag cookie] [Ht Hc]. decode_step. apply yields_Ok. by split_and!.
Qed.

Lemma PartialDecode_finish_yields pd :
  PartialDecode_typed pd → yields (λ p, Packet_wf p ∧ Packet_view p = p) (PartialDecode_finish pd).
Proof.
  intros (Hh & Hr & _). eapply yields_bind; [by apply chunks_loop_yields|]. intros cs Hcs.
  apply yields_Ok. by apply decoded_packet_wf.
Qed.

Lemma Packet_unmarshal_yields raw :
  bytes_ok raw → yields (λ p, Packet_wf p ∧ Packet_view p = p) (Packet_unmarshal crc raw).
Proof.
  intros Hraw. unfold Packet_unmarshal. decode_step; [decode|]. do 4 decode_step.
  eapply (yields_bind (λ _, True)); [done|]. intros ck _. decode_step; [decode|].
  eapply yields_bind; [by apply chunks_loop_yields|]. intros cs Hcs. apply yields_Ok.
  by apply decoded_packet_wf.
Qed.

(** Claim C17.  Decoding is type-sound: from octets, whatever they are, a decoder that accepts
    them yields only values at their Rust types and encodable as they stand.  The one-step
    decoder and both halves of the two-step decoder are covered: the ports, tags, TSNs,
    stream numbers, gap blocks, error causes and parameters of every kind of chunk are
    within their widths, byte strings hold octets, and every length a chunk or a parameter
    will announce when it is encoded fits its 16-bit field. *)
Theorem decoding_is_type_sound raw :
  bytes_ok raw →
  (∀ p, Packet_unmarshal crc raw = Ok p → Packet_wf p) ∧
  (∀ pd, PartialDecode_unmarshal crc raw = Ok pd →
         PartialDecode_typed pd ∧ ∀ p, PartialDecode_finish pd = Ok p → Packet_wf p).
Proof.
  intros Hraw. split; [intros p Hp; by apply (Packet_unmarshal_yields raw)|].
  intros pd Hpd. pose proof (PartialDecode_yields raw Hraw pd Hpd) as Hty. split; [done|].
  intros p Hp. by apply (PartialDecode_finish_yields pd).
Qed.

(** Claim C18.  Re-encoding what was decoded loses nothing: a packet obtained from any
    octets encodes without error, and decoding the new octets gives the same packet,
    sender-only fields included.  (The octets themselves may differ: padding, reserved
    bits and unread tails are normalised.) *)
Theorem decode_encode_decode raw p :
  (∀ b, uN 32 (crc b)) → bytes_ok raw → Packet_unmarshal crc raw = Ok p →
  ∃ bs, Packet_marshal crc p = Ok bs ∧ Packet_unmarshal crc bs = Ok p.
Proof.
  intros Hcrc Hraw Hp. destruct (Packet_unmarshal_yields raw Hraw p Hp) as [Hwf Hview].
  destruct (Packet_encode_decode crc p Hcrc Hwf) as (bs & Hm & _ & Hu). exists bs. by rewrite Hview in Hu.
Qed.
End Packets.

(** ** Concrete datagrams *)

Lemma decoding_is_type_sound_witness :
  bytes_ok init_datagram ∧ PartialDecode_typed init_decoded ∧
  ∀ p, @PartialDecode_finish list_buf init_decoded = Ok p → Packet_wf p.
Proof.
  split; [apply init_datagram_ok|].
  apply (@decoding_is_type_sound list_buf list_buf_laws crc32c init_datagram init_datagram_ok).
  vm_compute. reflexivity.
Defined.

(** The INIT datagram ends in a parameter without a value and carries a
    list of four extensions; re-encoding keeps all of it. *)
Lemma decode_encode_decode_witness :
  ∃ p bs, @Packet_unmarshal list_buf crc32c init_datagram = Ok p ∧ length (chunks p) = 1%nat ∧
    @Packet_marshal list_buf crc32c p = Ok bs ∧ @Packet_unmarshal list_buf crc32c bs = Ok p.
Proof.
  destruct (@Packet_unmarshal list_buf crc32c init_datagram) as [p| | |] eqn:E; [|vm_compute in E; discriminate..].
  destruct (@decode_encode_decode list_buf list_buf_laws crc32c init_datagram p crc32c_uN init_datagram_ok E)
    as (bs & Hm & Hu).
  exists p, bs. split_and!; [done| |done..]. vm_compute in E. injection E as <-. reflexivity.
Defined.
