(* ===== verification/PayloadQueue.v ===== *)
(** * The TSN-indexed queue ([src/queue/payload_queue.rs])

    [PayloadQueue] holds DATA chunks by TSN: the receiver's out-of-order
    chunks and the sender's chunks in flight.  The hash map is a [gmap]; its
    iterations only sum over the values or update every value, so the
    unspecified order does not matter.  [n_bytes] counts bytes held in memory
    and cannot reach the width of [usize]; its subtractions are checked. *)

From stdpp Require Import base list gmap numbers sets sorting.
From Stdlib Require Import ZArith Lia ZifyBool.
From S2P Require Import Prelude Bytes Util Params Chunks.

Record PayloadQueue := mkPayloadQueue {
  chunk_map : gmap Z ChunkPayloadData;
  sorted : list u32;
  dup_tsn : list u32;
  pq_n_bytes : usize;
}.

#[export] Instance PayloadQueue_eta : Eta PayloadQueue := λ q,
  mkPayloadQueue (chunk_map q) (sorted q) (dup_tsn q) (pq_n_bytes q).
#[export] Instance upd_chunk_map : Update chunk_map. Proof. solve_update. Defined.
#[export] Instance upd_sorted : Update sorted. Proof. solve_update. Defined.
#[export] Instance upd_dup_tsn : Update dup_tsn. Proof. solve_update. Defined.
#[export] Instance upd_pq_n_bytes : Update pq_n_bytes. Proof. solve_update. Defined.

Definition PayloadQueue_new : PayloadQueue := mkPayloadQueue ∅ [] [] 0.

Definition data_len (c : ChunkPayloadData) : usize := len (user_data c).

(** One message cut into fragments: only the first begins it and only the last ends it. *)
Definition fragmented (u : bool) (cs : list ChunkPayloadData) : Prop :=
  Forall (λ c, unordered c = u) cs ∧
  ∀ (i : nat) c, cs !! i = Some c →
    beginning_fragment c = bool_decide (i = 0%nat) ∧ ending_fragment c = bool_decide (S i = length cs).

(** ** Operations *)

Definition update_sorted_keys (q : PayloadQueue) : PayloadQueue :=
  q <| sorted ::= sort_by sna32lt |>.

Definition contains_key (q : PayloadQueue) (t : u32) : bool := bool_decide (is_Some (chunk_map q !! t)).

Definition can_push (q : PayloadQueue) (p : ChunkPayloadData) (cumulative_tsn : u32) : bool :=
  negb (contains_key q (tsn p) || sna32lte (tsn p) cumulative_tsn).

Definition push_no_check (q : PayloadQueue) (p : ChunkPayloadData) : PayloadQueue :=
  update_sorted_keys
    (q <| pq_n_bytes ::= λ n, n + data_len p |>
       <| sorted ::= λ l, l ++ [tsn p] |>
       <| chunk_map ::= <[tsn p := p]> |>).

Definition pq_push (q : PayloadQueue) (p : ChunkPayloadData) (cumulative_tsn : u32) : bool * PayloadQueue :=
  let ok := contains_key q (tsn p) in
  if ok || sna32lte (tsn p) cumulative_tsn
  then (false, q <| dup_tsn ::= λ l, l ++ [tsn p] |>)
  else (true, update_sorted_keys
                (q <| pq_n_bytes ::= λ n, n + data_len p |>
                   <| sorted ::= λ l, l ++ [tsn p] |>
                   <| chunk_map ::= <[tsn p := p]> |>)).

Definition pq_pop (q : PayloadQueue) (t : u32) : option ChunkPayloadData * PayloadQueue :=
  match sorted q with
  | t0 :: rest =>
      if t =? t0 then
        let q := q <| sorted := rest |> in
        match chunk_map q !! t with
        | Some c => (Some c, q <| chunk_map ::= delete t |>
                              <| pq_n_bytes ::= λ n, saturating_sub n (data_len c) |>)
        | None => (None, q)
        end
      else (None, q)
  | [] => (None, q)
  end.

(** The [retain] closure: it removes the entry and its bytes as a side effect. *)
Fixpoint pop_up_to_retain (cumulative_tsn : u32) (l : list u32) (m : gmap Z ChunkPayloadData) (n : usize)
    : list u32 * gmap Z ChunkPayloadData * usize :=
  match l with
  | [] => ([], m, n)
  | t :: l' =>
      if sna32lte t cumulative_tsn then
        match m !! t with
        | Some c => pop_up_to_retain cumulative_tsn l' (delete t m) (saturating_sub n (data_len c))
        | None => pop_up_to_retain cumulative_tsn l' m n
        end
      else
        let '(r, m', n') := pop_up_to_retain cumulative_tsn l' m n in (t :: r, m', n')
  end.

Definition pop_up_to (q : PayloadQueue) (cumulative_tsn : u32) : PayloadQueue :=
  let '(l, m, n) := pop_up_to_retain cumulative_tsn (sorted q) (chunk_map q) (pq_n_bytes q) in
  mkPayloadQueue m l (dup_tsn q) n.

Definition pq_get (q : PayloadQueue) (t : u32) : option ChunkPayloadData := chunk_map q !! t.

(** A write through [get_mut]: [f] is what the caller does to the chunk. *)
Definition pq_get_mut (q : PayloadQueue) (t : u32) (f : ChunkPayloadData → ChunkPayloadData) : PayloadQueue :=
  q <| chunk_map ::= alter f t |>.

(** Sum over [values()] of the chunks satisfying [P]. *)
Definition bytes_where (P : ChunkPayloadData → bool) (m : gmap Z ChunkPayloadData) : usize :=
  map_sum (λ c, if P c then data_len c else 0) m.

Definition abandon_chunk (c : ChunkPayloadData) : ChunkPayloadData :=
  c <| user_data := [] |> <| abandoned := true |> <| retransmit := false |>.

Definition pq_abandon_message (q : PayloadQueue) (id : u64) : Outcome (usize * PayloadQueue) :=
  let released := bytes_where (λ c, message_id c =? id) (chunk_map q) in
  n ← checked_sub (pq_n_bytes q) released;
  Ok (released,
      q <| chunk_map ::= fmap (λ c, if message_id c =? id then abandon_chunk c else c) |>
        <| pq_n_bytes := n |>).

Definition pq_mark_all_to_retransmit (q : PayloadQueue) : PayloadQueue :=
  q <| chunk_map ::= fmap (λ c, if negb (acked c) && negb (abandoned c) then c <| retransmit := true |> else c) |>.

Definition pop_duplicates (q : PayloadQueue) : list u32 * PayloadQueue := (dup_tsn q, q <| dup_tsn := [] |>).

(** One iteration of the [for tsn in &self.sorted] loop; the blocks found so
    far are kept last block first. *)
Definition gap_step (cumulative_tsn : u32) (rev_blocks : list GapAckBlock) (t : u32) : list GapAckBlock :=
  let offset := wrapping_sub 32 t cumulative_tsn in
  if (offset >=? 2 ^ 16) || (offset =? 0) then rev_blocks
  else match rev_blocks with
       | b :: bs => if gab_end b + 1 =? offset then mkGapAckBlock (gab_start b) offset :: bs
                    else mkGapAckBlock offset offset :: rev_blocks
       | [] => [mkGapAckBlock offset offset]
       end.

Definition get_gap_ack_blocks (q : PayloadQueue) (cumulative_tsn : u32) : list GapAckBlock :=
  rev (fold_left (gap_step cumulative_tsn) (sorted q) []).

Definition pq_mark_as_acked (q : PayloadQueue) (t : u32) : Outcome (usize * PayloadQueue) :=
  match chunk_map q !! t with
  | Some c =>
      let n := data_len c in
      nb ← checked_sub (pq_n_bytes q) n;
      Ok (n, q <| chunk_map ::= <[t := c <| acked := true |> <| retransmit := false |> <| user_data := [] |>]> |>
               <| pq_n_bytes := nb |>)
  | None => Ok (0, q)
  end.

Definition get_last_tsn_received (q : PayloadQueue) : option u32 := last (sorted q).

Definition pq_get_num_bytes (q : PayloadQueue) : usize := pq_n_bytes q.

Definition pq_len (q : PayloadQueue) : usize := Z.of_nat (size (chunk_map q)).

(** [values().any(..)] *)
Definition pq_contains_stream (q : PayloadQueue) (sid : u16) : bool :=
  map_fold (λ _ c b, (stream_identifier c =? sid) || b) false (chunk_map q).

Definition pq_is_empty (q : PayloadQueue) : bool := pq_len q =? 0.

(** ** Invariant

    [pq_inv base q]: keys, order and byte count agree, and every queued TSN is
    less than half the circle ahead of [base], so that serial comparison
    orders the queue.  The receiver keeps [base] at its cumulative TSN, the
    sender at its cumulative acknowledgement. *)

Record pq_inv (base : u32) (q : PayloadQueue) : Prop := mk_pq_inv {
  inv_base : uN 32 base;
  inv_dom : ∀ t, t ∈ sorted q ↔ is_Some (chunk_map q !! t);
  inv_key : ∀ t c, chunk_map q !! t = Some c → tsn c = t;
  inv_u32 : ∀ t, t ∈ sorted q → uN 32 t;
  inv_window : ∀ t, t ∈ sorted q → dist32 base t < 2 ^ 31;
  inv_sorted : StronglySorted (λ a b, dist32 base a < dist32 base b) (sorted q);
  inv_bytes : pq_n_bytes q = map_sum data_len (chunk_map q);
}.

Lemma data_len_nonneg c : 0 <= data_len c.
Proof. apply len_nonneg. Qed.
#[export] Hint Resolve data_len_nonneg : machine.

Lemma pq_inv_NoDup base q : pq_inv base q → NoDup (sorted q).
Proof. intros H. eapply StronglySorted_NoDup; [|apply (inv_sorted _ _ H)]. simpl. lia. Qed.

Lemma inv_size base q : pq_inv base q → length (sorted q) = size (chunk_map q).
Proof.
  intros H. assert (dom (chunk_map q) = list_to_set (sorted q)) as Hd.
  { apply set_eq. intros t. by rewrite elem_of_dom, elem_of_list_to_set, (inv_dom _ _ H). }
  rewrite <- size_dom, Hd, size_list_to_set; [done|]. by apply (pq_inv_NoDup base).
Qed.

Lemma pq_inv_new base : uN 32 base → pq_inv base PayloadQueue_new.
Proof.
  intros. constructor; simpl; try done; try set_solver.
  - intros t. rewrite lookup_empty. split; [set_solver|by intros []].
  - constructor.
Qed.

(** Serial comparison is the order of the distances from [base]. *)
Lemma sna32lt_measured base l :
  uN 32 base → (∀ t, t ∈ l → uN 32 t ∧ dist32 base t < 2 ^ 31) → measured_by sna32lt (dist32 base) l.
Proof. intros Hb Hl a b [??]%Hl [??]%Hl. by apply sna32lt_window. Qed.

Lemma push_no_check_inv base q p :
  pq_inv base q → chunk_map q !! tsn p = None → uN 32 (tsn p) → dist32 base (tsn p) < 2 ^ 31 →
  pq_inv base (push_no_check q p).
Proof.
  intros [Hb Hdom Hkey Hu Hw Hs Hn] Hfresh Hp Hwp.
  assert (sort_by sna32lt (sorted q ++ [tsn p]) ≡ₚ tsn p :: sorted q) as HP
    by (rewrite sort_by_Permutation; by rewrite Permutation_app_comm).
  assert (∀ t, t ∈ sort_by sna32lt (sorted q ++ [tsn p]) ↔ t = tsn p ∨ t ∈ sorted q) as Hin
    by (intros t; rewrite HP; set_solver).
  assert (tsn p ∉ sorted q) as Hnp by (intros Hin0%Hdom; rewrite Hfresh in Hin0; by destruct Hin0).
  constructor; cbn -[sort_by]; try done.
  - intros t. rewrite Hin, lookup_insert_is_Some, Hdom. destruct (decide (tsn p = t)); naive_solver.
  - intros t c. rewrite lookup_insert_Some. naive_solver.
  - intros t [->|?]%Hin; auto.
  - intros t [->|?]%Hin; auto.
  - apply StronglySorted_strict.
    + intros x y Hx%Hin Hy%Hin. apply dist32_inj; naive_solver.
    + rewrite HP. constructor; [done|]. by apply (pq_inv_NoDup base).
    + apply sort_by_sorted, sna32lt_measured; [done|]. intros t.
      rewrite elem_of_app, list_elem_of_singleton. naive_solver.
  - rewrite map_sum_insert by done. lia.
Qed.

(** The receiver's [push] is the unchecked one after the duplicate test. *)
Lemma pq_push_true q p cum q' : pq_push q p cum = (true, q') → q' = push_no_check q p.
Proof. unfold pq_push. destruct (_ || _); intros [=]; by subst. Qed.

Lemma contains_key_spec q t : contains_key q t = true ↔ is_Some (chunk_map q !! t).
Proof. apply bool_decide_eq_true. Qed.

Lemma contains_key_false q t : contains_key q t = false ↔ chunk_map q !! t = None.
Proof. unfold contains_key. rewrite bool_decide_eq_false. symmetry. apply eq_None_not_Some. Qed.

(** A TSN that is not at or before [cum] is within the half circle ahead of it. *)
Lemma not_lte_window cum t : uN 32 cum → uN 32 t → t ≠ wrapping_add 32 cum (2 ^ 31) →
  sna32lte t cum = false → 0 < dist32 cum t < 2 ^ 31.
Proof. intros. sna. Qed.

Lemma pq_pop_inv base q t : pq_inv base q → pq_inv base (pq_pop q t).2.
Proof.
  intros Hq. unfold pq_pop. destruct (sorted q) as [|t0 rest] eqn:Es; [done|].
  destruct (Z.eqb_spec t t0) as [->|]; [|done].
  pose proof Hq as [Hb Hdom Hkey Hu Hw Hs Hn]. pose proof (pq_inv_NoDup _ _ Hq) as Hnd.
  rewrite Es in *. destruct (proj1 (Hdom t0) ltac:(left)) as [c Hc]. cbn. rewrite Hc.
  apply NoDup_cons in Hnd as [Hnt Hnd]. constructor; cbn; try done.
  - intros t. rewrite lookup_delete_is_Some, <- Hdom, elem_of_cons. set_solver.
  - intros t c' [_ ?]%lookup_delete_Some. auto.
  - intros. apply Hu. by right.
  - intros. apply Hw. by right.
  - by inversion Hs.
  - rewrite Hn, (map_sum_delete _ _ _ _ Hc). unfold saturating_sub.
    pose proof (map_sum_nonneg data_len (delete t0 (chunk_map q)) data_len_nonneg). lia.
Qed.

(** The oldest chunk is the one [pop] gives. *)
Lemma pq_pop_head base q t c q' :
  pq_inv base q → pq_pop q t = (Some c, q') →
  head (sorted q) = Some t ∧ chunk_map q !! t = Some c ∧ sorted q' = tail (sorted q) ∧
  chunk_map q' = delete t (chunk_map q).
Proof.
  intros Hq. unfold pq_pop. destruct (sorted q) as [|t0 rest]; [done|].
  destruct (Z.eqb_spec t t0) as [->|]; [|done]. cbn.
  destruct (chunk_map q !! t0) eqn:E; [|done]. intros [= <- <-]. done.
Qed.

Lemma pop_up_to_retain_spec cum l m n :
  NoDup l → (∀ t, t ∈ l → is_Some (m !! t)) → n = map_sum data_len m →
  ∃ m', pop_up_to_retain cum l m n = (filter (λ t, sna32lte t cum = false) l, m', map_sum data_len m') ∧
    (∀ t, m' !! t = if decide (t ∈ l ∧ sna32lte t cum = true) then None else m !! t).
Proof.
  revert m n; induction l as [|t l IH]; intros m n Hnd Hm ->; cbn [pop_up_to_retain].
  { exists m. split; [done|]. intros t. rewrite decide_False; [done|set_solver]. }
  apply NoDup_cons in Hnd as [Ht Hnd].
  destruct (sna32lte t cum) eqn:Et.
  - destruct (Hm t) as [c Hc]; [left|]. rewrite Hc. rewrite filter_cons_False by congruence.
    destruct (IH (delete t m) (saturating_sub (map_sum data_len m) (data_len c))) as (m' & -> & Hm').
    + done.
    + intros t' Ht'. rewrite lookup_delete_ne by congruence. apply Hm. by right.
    + rewrite (map_sum_delete _ _ _ _ Hc). unfold saturating_sub.
      pose proof (map_sum_nonneg data_len (delete t m) data_len_nonneg). lia.
    + exists m'. split; [done|]. intros t'. rewrite Hm'. destruct (decide (t = t')) as [<-|Hne].
      * rewrite (decide_True (P := t ∈ t :: l ∧ _)) by (split; [left|done]). rewrite lookup_delete_eq. by case_decide.
      * rewrite lookup_delete_ne by done. repeat case_decide; rewrite ?elem_of_cons in *; naive_solver.
  - rewrite filter_cons_True by done.
    destruct (IH m (map_sum data_len m)) as (m' & -> & Hm'); [done|set_solver|done|].
    exists m'. split; [done|]. intros t'. rewrite Hm'.
    repeat case_decide; rewrite ?elem_of_cons in *; naive_solver congruence.
Qed.

Lemma pop_up_to_inv base q cum : pq_inv base q → pq_inv base (pop_up_to q cum).
Proof.
  intros Hq. pose proof Hq as [Hb Hdom Hkey Hu Hw Hs Hn]. unfold pop_up_to.
  destruct (pop_up_to_retain_spec cum (sorted q) (chunk_map q) (pq_n_bytes q)) as (m' & -> & Hm');
    [by apply (pq_inv_NoDup base)|intros; by apply Hdom|done|].
  constructor; cbn; try done.
  - intros t. rewrite list_elem_of_filter, Hm'. case_decide as Hd.
    + split; [naive_solver congruence|by intros []].
    + rewrite <- Hdom. destruct (sna32lte t cum); naive_solver.
  - intros t c. rewrite Hm'. case_decide; [done|]. auto.
  - intros t [??]%list_elem_of_filter. auto.
  - intros t [??]%list_elem_of_filter. auto.
  - by apply StronglySorted_filter.
Qed.

(** Rewriting every chunk in place keeps the invariant when the keys stay and
    the byte counter follows. *)
Lemma pq_inv_map base q (g : ChunkPayloadData → ChunkPayloadData) n :
  pq_inv base q → (∀ c, tsn (g c) = tsn c) → n = map_sum (λ c, data_len (g c)) (chunk_map q) →
  pq_inv base (q <| chunk_map ::= fmap g |> <| pq_n_bytes := n |>).
Proof.
  intros [Hb Hdom Hkey Hu Hw Hs Hn] Hg ->. constructor; cbn; try done.
  - intros t. rewrite lookup_fmap, fmap_is_Some. apply Hdom.
  - intros t c. rewrite lookup_fmap_Some. intros (c' & <- & Hc'). rewrite Hg. auto.
  - by rewrite map_sum_fmap.
Qed.

Lemma abandoned_split (P : ChunkPayloadData → bool) m :
  map_sum data_len m =
  map_sum (λ c, data_len (if P c then abandon_chunk c else c)) m + bytes_where P m.
Proof.
  unfold bytes_where. rewrite <- map_sum_add. apply map_sum_ext. intros _ c _.
  destruct (P c); unfold data_len; simpl; [rewrite len_nil|]; lia.
Qed.

Lemma pq_abandon_message_Ok base q id :
  pq_inv base q →
  ∃ q', pq_abandon_message q id = Ok (bytes_where (λ c, message_id c =? id) (chunk_map q), q') ∧
    pq_inv base q' ∧ sorted q' = sorted q ∧
    chunk_map q' = (λ c, if message_id c =? id then abandon_chunk c else c) <$> chunk_map q ∧
    pq_n_bytes q' = pq_n_bytes q - bytes_where (λ c, message_id c =? id) (chunk_map q).
Proof.
  intros Hq. pose proof (inv_bytes _ _ Hq) as Hn.
  pose proof (abandoned_split (λ c, message_id c =? id) (chunk_map q)) as Hsplit. simpl in Hsplit.
  pose proof (map_sum_nonneg (λ c, data_len (if message_id c =? id then abandon_chunk c else c))
    (chunk_map q) ltac:(intros; apply data_len_nonneg)) as H0.
  unfold pq_abandon_message, checked_sub. destruct (Z.leb_spec (bytes_where (λ c, message_id c =? id) (chunk_map q)) (pq_n_bytes q)); [|lia].
  cbn [mbind Outcome_bind]. eexists. split; [done|]. split_and!; try done.
  apply pq_inv_map; [done|by intros c; destruct (message_id c =? id)|lia].
Qed.

Lemma pq_mark_all_inv base q : pq_inv base q → pq_inv base (pq_mark_all_to_retransmit q).
Proof.
  intros Hq. pose proof (inv_bytes _ _ Hq).
  apply (pq_inv_map base q (λ c, if negb (acked c) && negb (abandoned c) then c <| retransmit := true |> else c)
    (pq_n_bytes q)) in Hq; [done|by intros c; case_match|].
  rewrite H. apply map_sum_ext. intros _ c _. by case_match.
Qed.

Lemma pq_replace_inv base q t c c' n :
  pq_inv base q → chunk_map q !! t = Some c → tsn c' = tsn c →
  n = pq_n_bytes q - data_len c + data_len c' →
  pq_inv base (q <| chunk_map ::= <[t := c']> |> <| pq_n_bytes := n |>).
Proof.
  intros [Hb Hdom Hkey Hu Hw Hs Hn] Hc Ht ->. constructor; cbn; try done.
  - intros t'. rewrite lookup_insert_is_Some, Hdom. destruct (decide (t = t')); naive_solver.
  - intros t' c''. rewrite lookup_insert_Some. intros [[<- <-]|[? ?]]; [rewrite Ht|]; auto.
  - rewrite (map_sum_replace _ _ _ _ _ Hc). lia.
Qed.

(** A caller of [get_mut] that changes neither the TSN nor the data. *)
Lemma pq_get_mut_inv base q t f :
  pq_inv base q → (∀ c, tsn (f c) = tsn c ∧ user_data (f c) = user_data c) → pq_inv base (pq_get_mut q t f).
Proof.
  intros Hq Hf.
  change (pq_inv base (mkPayloadQueue (alter f t (chunk_map q)) (sorted q) (dup_tsn q) (pq_n_bytes q))).
  destruct (chunk_map q !! t) as [c|] eqn:Hc.
  - destruct (Hf c) as [Ht Hd].
    pose proof (pq_replace_inv base q t c (f c) (pq_n_bytes q) Hq Hc Ht) as H.
    rewrite (alter_present _ _ _ _ Hc). apply H. unfold data_len. rewrite Hd. lia.
  - rewrite alter_absent by done. by destruct q.
Qed.

Lemma pq_mark_as_acked_Ok base q t :
  pq_inv base q →
  ∃ n q', pq_mark_as_acked q t = Ok (n, q') ∧ pq_inv base q' ∧ sorted q' = sorted q ∧
    pq_n_bytes q' = pq_n_bytes q - n ∧
    (∀ c, chunk_map q !! t = Some c →
       n = data_len c ∧
       chunk_map q' = <[t := c <| acked := true |> <| retransmit := false |> <| user_data := [] |>]> (chunk_map q)) ∧
    (chunk_map q !! t = None → n = 0 ∧ q' = q).
Proof.
  intros Hq. unfold pq_mark_as_acked. destruct (chunk_map q !! t) as [c|] eqn:Hc.
  - pose proof (inv_bytes _ _ Hq) as Hn. rewrite (map_sum_delete _ _ _ _ Hc) in Hn.
    pose proof (map_sum_nonneg data_len (delete t (chunk_map q)) data_len_nonneg).
    unfold checked_sub. destruct (Z.leb_spec (data_len c) (pq_n_bytes q)); [|lia].
    cbn [mbind Outcome_bind]. eexists _, _. split; [done|]. split_and!; try done; [|by intros ? [= ->]].
    eapply pq_replace_inv; [done|done|done|]. unfold data_len, len. simpl. lia.
  - eexists _, _. split; [done|]. split_and!; (done || lia).
Qed.

(** Moving the base up to just before the oldest queued TSN. *)
Lemma pq_inv_advance base base' q :
  pq_inv base q → uN 32 base' → (∀ t, t ∈ sorted q → dist32 base base' <= dist32 base t) → pq_inv base' q.
Proof.
  intros [Hb Hdom Hkey Hu Hw Hs Hn] Hb' Hle.
  assert (∀ t, t ∈ sorted q → dist32 base' t = dist32 base t - dist32 base base') as Hd.
  { intros t Ht. specialize (Hle t Ht). specialize (Hu t Ht). clear Hdom Hkey Hw Hs Hn. sna. }
  constructor; try done.
  - intros t Ht. rewrite Hd by done. pose proof (Hw t Ht). pose proof (dist32_bounds base base'). lia.
  - eapply StronglySorted_impl_in; [|done]. intros x y Hx Hy. rewrite !Hd by done. lia.
Qed.

(** ** Reachable queues

    [pq_step] is one call of the queue's interface by its owner.  [base] is the
    TSN up to which the owner is done: the receiver's cumulative TSN, the
    sender's cumulative acknowledgement.  The receiver pushes whatever TSN
    arrives, the sender fresh TSNs from ahead of [base]. *)

Inductive pq_step : u32 * PayloadQueue → u32 * PayloadQueue → Prop :=
| pq_step_push base q p ok q' :
    uN 32 (tsn p) → pq_push q p base = (ok, q') → pq_step (base, q) (base, q')
| pq_step_send base q p :
    chunk_map q !! tsn p = None → uN 32 (tsn p) → 0 < dist32 base (tsn p) <= 2 ^ 31 →
    pq_step (base, q) (base, push_no_check q p)
| pq_step_pop base q t : pq_step (base, q) (base, (pq_pop q t).2)
| pq_step_pop_up_to base q cum :
    uN 32 cum → dist32 base cum <= 2 ^ 31 → pq_step (base, q) (cum, pop_up_to q cum)
| pq_step_advance base base' q :
    uN 32 base' → (∀ t, t ∈ sorted q → dist32 base base' < dist32 base t) → pq_step (base, q) (base', q)
| pq_step_abandon base q id n q' : pq_abandon_message q id = Ok (n, q') → pq_step (base, q) (base, q')
| pq_step_ack base q t n q' : pq_mark_as_acked q t = Ok (n, q') → pq_step (base, q) (base, q')
| pq_step_retransmit base q : pq_step (base, q) (base, pq_mark_all_to_retransmit q)
| pq_step_duplicates base q : pq_step (base, q) (base, (pop_duplicates q).2)
| pq_step_get_mut base q t f :
    (∀ c, tsn (f c) = tsn c ∧ user_data (f c) = user_data c) → pq_step (base, q) (base, pq_get_mut q t f).

Lemma pq_push_inv base q p ok q' :
  pq_inv base q → uN 32 (tsn p) → tsn p ≠ wrapping_add 32 base (2 ^ 31) →
  pq_push q p base = (ok, q') → pq_inv base q'.
Proof.
  intros Hq Hu Hne H. destruct ok.
  - pose proof (pq_push_true _ _ _ _ H) as ->. unfold pq_push in H.
    destruct (contains_key q (tsn p)) eqn:Ek; [done|]. destruct (sna32lte (tsn p) base) eqn:El; [done|].
    apply push_no_check_inv; [done|by apply contains_key_false|done|].
    apply not_lte_window; [by apply (inv_base _ q)|done..].
  - unfold pq_push in H. destruct (_ || _); [|done]. injection H as <-. by destruct Hq.
Qed.

Lemma pop_up_to_sorted base q cum : pq_inv base q →
  sorted (pop_up_to q cum) = filter (λ t, sna32lte t cum = false) (sorted q) ∧
  ∀ t, chunk_map (pop_up_to q cum) !! t = if sna32lte t cum then None else chunk_map q !! t.
Proof.
  intros Hq. unfold pop_up_to.
  destruct (pop_up_to_retain_spec cum (sorted q) (chunk_map q) (pq_n_bytes q)) as (m' & -> & Hm');
    [by apply (pq_inv_NoDup base)|intros; by apply (inv_dom _ _ Hq)|by apply (inv_bytes _ _ Hq)|].
  split; [done|]. intros t. cbn. rewrite Hm'. destruct (sna32lte t cum) eqn:E; [|by rewrite decide_False by naive_solver].
  case_decide as Hd; [done|]. destruct (chunk_map q !! t) eqn:Ht; [|done].
  destruct Hd. split; [|done]. by apply (inv_dom _ _ Hq).
Qed.

Lemma pop_up_to_advance base q cum :
  pq_inv base q → uN 32 cum → dist32 base cum < 2 ^ 31 → pq_inv cum (pop_up_to q cum).
Proof.
  intros Hq Hc Hd. pose proof (inv_base _ _ Hq). eapply pq_inv_advance; [by apply pop_up_to_inv|done|].
  intros t. destruct (pop_up_to_sorted _ _ cum Hq) as [-> _].
  intros [Hn Ht]%list_elem_of_filter. pose proof (inv_window _ _ Hq t Ht). pose proof (inv_u32 _ _ Hq t Ht).
  destruct (Z.le_gt_cases (dist32 base cum) (dist32 base t)); [done|].
  assert (sna32lte t cum = true) by (apply (sna32lte_window base); (done || lia)). congruence.
Qed.

(** A reachable queue, seen from the TSN after [base]: even a TSN half the circle ahead of [base], which
    [push] accepts, is less than half the circle ahead of that one. *)
Definition after (base : u32) : u32 := wrapping_add 32 base 1.

Lemma after_u32 base : uN 32 (after base).
Proof. by apply wrap_uN. Qed.

Lemma after_dist base t : uN 32 base → uN 32 t → 0 < dist32 base t → dist32 (after base) t = dist32 base t - 1.
Proof. intros. unfold after. sna. Qed.

Record pq_ahead (base : u32) (q : PayloadQueue) : Prop := mk_pq_ahead {
  ah_base : uN 32 base;
  ah_inv : pq_inv (after base) q;
}.

Lemma ahead_dist base q t : pq_ahead base q → t ∈ sorted q → uN 32 t ∧ 0 < dist32 base t <= 2 ^ 31.
Proof.
  intros [Hb Hq] Ht. pose proof (inv_u32 _ _ Hq t Ht) as Hu. pose proof (inv_window _ _ Hq t Ht) as Hw. split; [done|].
  clear -Hb Hu Hw. unfold after in *. sna.
Qed.

Lemma push_ahead base q p ok q' : pq_ahead base q → uN 32 (tsn p) → pq_push q p base = (ok, q') → pq_inv (after base) q'.
Proof.
  intros [Hb Hq] Hu H. destruct ok.
  - pose proof (pq_push_true _ _ _ _ H) as ->. unfold pq_push in H.
    destruct (contains_key q (tsn p)) eqn:Ek; [done|]. destruct (sna32lte (tsn p) base) eqn:El; [done|].
    apply push_no_check_inv; [done|by apply contains_key_false|done|]. clear -Hb Hu El. unfold after. sna.
  - unfold pq_push in H. destruct (_ || _); [|done]. injection H as <-. by destruct Hq.
Qed.

Lemma pop_up_to_ahead base q cum :
  pq_ahead base q → uN 32 cum → dist32 base cum <= 2 ^ 31 → pq_ahead cum (pop_up_to q cum).
Proof.
  intros Ha Hc Hd. pose proof Ha as [Hb Hq]. split; [done|].
  eapply pq_inv_advance; [by apply pop_up_to_inv|apply after_u32|]. intros t. destruct (pop_up_to_sorted _ _ cum Hq) as [-> _].
  intros [Hn Ht]%list_elem_of_filter. destruct (ahead_dist _ _ _ Ha Ht) as [Hu Hw]. clear -Hb Hc Hd Hn Hu Hw. unfold after. sna.
Qed.

Lemma pq_step_ahead s s' : pq_step s s' → pq_ahead s.1 s.2 → pq_ahead s'.1 s'.2.
Proof.
  destruct 1 as [base q p ok q' ? H|base q p Hf Hu Hd| |base q cum Hc Hd|base base' q Hb' Hd|base q id n q' H|base q t n q' H| | |];
    cbn [fst snd]; intros Ha; pose proof Ha as [Hb Hq]; try (split; [exact Hb|]).
  - by eapply push_ahead.
  - apply push_no_check_inv; [done..|]. rewrite after_dist by (done || lia). lia.
  - by apply pq_pop_inv.
  - by apply (pop_up_to_ahead base).
  - split; [done|]. eapply pq_inv_advance; [done|apply after_u32|]. intros t Ht. destruct (ahead_dist _ _ _ Ha Ht) as [Hu Hw].
    specialize (Hd t Ht). clear -Hb Hb' Hd Hu Hw. unfold after. sna.
  - destruct (pq_abandon_message_Ok _ _ id Hq) as (q'' & H' & ? & _). congruence.
  - destruct (pq_mark_as_acked_Ok _ _ t Hq) as (n' & q'' & H' & ? & _). congruence.
  - by apply pq_mark_all_inv.
  - by destruct Hq.
  - by apply pq_get_mut_inv.
Qed.

(** Claim C25.  Whatever TSNs its owner pushes and whatever it calls, in any order, the TSN queue keeps its
    keys, its sorted key list and its byte counter in agreement, and stays sorted in serial order
    from the TSN after the owner's base on (a TSN half the circle ahead of the base included); nothing
    at or before the base is queued, and neither abandoning a message nor acknowledging a chunk
    ever underflows the counter. *)
Theorem payload_queue_reachable_inv base0 base q :
  uN 32 base0 → rtc pq_step (base0, PayloadQueue_new) (base, q) →
  pq_inv (after base) q ∧ (∀ t, is_Some (chunk_map q !! t) → sna32lte t base = false) ∧
  (∀ id, ∃ r, pq_abandon_message q id = Ok r) ∧ (∀ t, ∃ r, pq_mark_as_acked q t = Ok r).
Proof.
  intros H0 Hr. assert (pq_ahead base q) as Ha.
  { change (pq_ahead (base, q).1 (base, q).2).
    revert Hr. apply (rtc_ind_r (λ s, pq_ahead s.1 s.2)); [split; [done|]; apply pq_inv_new, after_u32|].
    intros s s' _ Hs. by apply pq_step_ahead. }
  pose proof Ha as [Hb Hq]. split; [done|]. split_and!.
  - intros t Ht%(inv_dom _ _ Hq). destruct (ahead_dist _ _ _ Ha Ht) as [Hu Hw]. clear -Hb Hu Hw. apply not_true_iff_false. sna.
  - intros id. destruct (pq_abandon_message_Ok _ _ id Hq) as (? & -> & _). eauto.
  - intros t. destruct (pq_mark_as_acked_Ok _ _ t Hq) as (? & ? & -> & _). eauto.
Qed.

(** When a FORWARD TSN moves the cumulative point, exactly the chunks at or before it are
    dropped: the others stay, in order, and the byte counter is what they hold. *)
Theorem pop_up_to_spec base q cum :
  pq_inv base q →
  sorted (pop_up_to q cum) = filter (λ t, sna32lte t cum = false) (sorted q) ∧
  (∀ t, pq_get (pop_up_to q cum) t = if sna32lte t cum then None else pq_get q t) ∧
  pq_get_num_bytes (pop_up_to q cum) = map_sum data_len (chunk_map (pop_up_to q cum)).
Proof.
  intros Hq. destruct (pop_up_to_sorted _ _ cum Hq) as [H1 H2]. split_and!; [done|done|].
  apply (inv_bytes base). by apply pop_up_to_inv.
Qed.

(** ** Gap acknowledgement blocks *)

Definition covers (bs : list GapAckBlock) (o : Z) : Prop :=
  ∃ b, b ∈ bs ∧ gab_start b <= o <= gab_end b.

(** The blocks found after the TSNs [l], last block first. *)
Record gaps_inv (cum : u32) (l : list u32) (bs : list GapAckBlock) : Prop := mk_gaps_inv {
  gi_covers : ∀ o, covers bs o ↔ 0 < o < 2 ^ 16 ∧ ∃ t, t ∈ l ∧ dist32 cum t = o;
  gi_wf : Forall (λ b, gab_start b <= gab_end b) bs;
  gi_sorted : StronglySorted (λ b b', gab_end b' + 1 < gab_start b) bs;
}.

Lemma covers_cons b bs o : covers (b :: bs) o ↔ gab_start b <= o <= gab_end b ∨ covers bs o.
Proof. unfold covers. setoid_rewrite elem_of_cons. naive_solver. Qed.

Lemma gap_step_inv cum l bs t :
  gaps_inv cum l bs → (∀ t', t' ∈ l → dist32 cum t' < dist32 cum t) →
  gaps_inv cum (l ++ [t]) (gap_step cum bs t).
Proof.
  intros [Hc Hw Hs] Hlt. unfold gap_step. change (wrapping_sub 32 t cum) with (dist32 cum t).
  pose proof (dist32_bounds cum t). set (d := dist32 cum t) in *.
  assert (∀ o, (∃ t', t' ∈ l ++ [t] ∧ dist32 cum t' = o) ↔ o = d ∨ ∃ t', t' ∈ l ∧ dist32 cum t' = o) as Hsn.
  { intros o. setoid_rewrite elem_of_app. setoid_rewrite list_elem_of_singleton. naive_solver. }
  destruct ((d >=? 2 ^ 16) || (d =? 0)) eqn:Ed.
  { constructor; try done. intros o. rewrite Hc, Hsn. split; [naive_solver|]. intros [? [->|?]]; [lia|done]. }
  destruct bs as [|b bs].
  { constructor; [|repeat constructor; simpl; lia..].
    intros o. rewrite covers_cons, Hc, Hsn. simpl. split; [|naive_solver lia].
    intros [?|?]; [|naive_solver]. split; [lia|]. left. lia. }
  inversion Hw as [|?? Hb Hw']; subst. inversion Hs as [|?? Hs' Hb']; subst.
  assert (gab_end b < d).
  { destruct (proj1 (Hc (gab_end b))) as (_ & t' & Ht' & <-); [apply covers_cons; left; lia|]. by apply Hlt. }
  assert (0 < gab_start b) by (destruct (proj1 (Hc (gab_start b))) as [? _]; [apply covers_cons; left|]; lia).
  destruct (Z.eqb_spec (gab_end b + 1) d) as [E|E].
  - constructor; [|constructor; simpl; [lia|done]|by constructor].
    intros o. rewrite Hsn. transitivity (o = d ∨ covers (b :: bs) o); [|rewrite Hc; naive_solver lia].
    rewrite !covers_cons. simpl. split; [intros [?|?]|intros [?|[?|?]]]; try tauto; lia.
  - constructor.
    + intros o. rewrite covers_cons, Hc, Hsn. simpl. split; [|naive_solver lia].
      intros [?|?]; [|naive_solver]. split; [lia|]. left. lia.
    + constructor; simpl; [lia|done].
    + constructor; [done|]. constructor; simpl; [lia|]. eapply Forall_impl; [done|]. simpl. intros. lia.
Qed.

Lemma gap_fold_inv cum l l0 bs :
  gaps_inv cum l0 bs → StronglySorted (λ a b, dist32 cum a < dist32 cum b) (l0 ++ l) →
  gaps_inv cum (l0 ++ l) (fold_left (gap_step cum) l bs).
Proof.
  revert l0 bs; induction l as [|t l IH]; intros l0 bs Hi Hs; simpl; [by rewrite app_nil_r|].
  rewrite cons_middle, app_assoc in Hs |- *. apply IH; [|done]. apply gap_step_inv; [done|].
  intros t' Ht'. apply StronglySorted_app_1_l in Hs. apply StronglySorted_app_1_elem_of with (x1 := t') (x2 := t) in Hs;
    [done|done|by left].
Qed.

Lemma gap_blocks_exact cum q :
  pq_inv cum q →
  let bs := get_gap_ack_blocks q cum in
  (∀ o, covers bs o ↔ 0 < o < 2 ^ 16 ∧ ∃ c, pq_get q (wrapping_add 32 cum o) = Some c) ∧
  Forall (λ b, gab_start b <= gab_end b) bs ∧
  StronglySorted (λ b b', gab_end b + 1 < gab_start b') bs.
Proof.
  intros Hq. pose proof (gap_fold_inv cum (sorted q) [] []) as [Hc Hw Hs].
  { constructor; [|constructor..]. intros o. split; [by intros (? & ?%not_elem_of_nil & _)|].
    by intros (_ & ? & ?%not_elem_of_nil & _). }
  { apply (inv_sorted _ _ Hq). }
  cbv zeta. unfold get_gap_ack_blocks. split_and!.
  - intros o. transitivity (covers (fold_left (gap_step cum) (sorted q) []) o).
    + unfold covers. by setoid_rewrite elem_of_rev.
    + rewrite Hc. split; intros [Ho H]; (split; [done|]).
      * destruct H as (t & Ht & Hd). pose proof (inv_u32 _ _ Hq t Ht) as Hu. pose proof (inv_base _ _ Hq) as Hb.
        assert (wrapping_add 32 cum o = t) as -> by (clear -Ho Hd Hu Hb; sna). by apply (inv_dom _ _ Hq).
      * destruct H as [c H]. exists (wrapping_add 32 cum o). split; [apply (inv_dom _ _ Hq); eauto|].
        pose proof (inv_base _ _ Hq) as Hb. clear -Ho Hb. sna.
  - by apply Forall_rev.
  - by apply StronglySorted_rev.
Qed.

(** Claim C24.  The gap blocks of a SACK are exact: a 16-bit offset lies in a block iff the chunk that far
    past the cumulative TSN is queued; the blocks are non-empty, ascending and separated by
    a missing TSN, so they are the fewest possible. *)
Theorem get_gap_ack_blocks_exact cum q :
  pq_inv cum q →
  let bs := get_gap_ack_blocks q cum in
  (∀ o, covers bs o ↔ 0 < o < 2 ^ 16 ∧ ∃ c, pq_get q (wrapping_add 32 cum o) = Some c) ∧
  Forall (λ b, gab_start b <= gab_end b) bs ∧
  StronglySorted (λ b b', gab_end b + 1 < gab_start b') bs.
Proof. apply gap_blocks_exact. Qed.

(** ** Sample queue: three chunks received out of order across the wrap of the TSN. *)

Definition sample_chunk (t : u32) : ChunkPayloadData :=
  ChunkPayloadData_default <| tsn := t |> <| user_data := [t; t] |>.

Definition sample_base : u32 := 4294967294.

Definition sample_queue : PayloadQueue :=
  push_no_check (push_no_check (push_no_check PayloadQueue_new (sample_chunk 3)) (sample_chunk 0)) (sample_chunk 1).

Lemma sample_queue_inv : pq_inv sample_base sample_queue.
Proof.
  repeat (apply push_no_check_inv; [|reflexivity|by vm_compute|by vm_compute]). apply pq_inv_new. by vm_compute.
Qed.

Example sample_queue_gaps :
  sorted sample_queue = [0; 1; 3] ∧
  get_gap_ack_blocks sample_queue sample_base = [mkGapAckBlock 2 3; mkGapAckBlock 5 5].
Proof. vm_compute. done. Qed.

Lemma get_gap_ack_blocks_exact_witness :
  pq_inv sample_base sample_queue ∧
  (∀ o, covers (get_gap_ack_blocks sample_queue sample_base) o ↔
     0 < o < 2 ^ 16 ∧ ∃ c, pq_get sample_queue (wrapping_add 32 sample_base o) = Some c).
Proof.
  split; [exact sample_queue_inv|]. exact (proj1 (get_gap_ack_blocks_exact sample_base sample_queue sample_queue_inv)).
Defined.

Lemma pop_up_to_spec_witness :
  sorted (pop_up_to sample_queue 1) = filter (λ t, sna32lte t 1 = false) (sorted sample_queue) ∧
  sorted (pop_up_to sample_queue 1) = [3].
Proof.
  split; [exact (proj1 (pop_up_to_spec sample_base sample_queue 1 sample_queue_inv))|vm_compute; reflexivity].
Defined.

(** The TSN half the circle ahead of the base, then one from before it. *)
Definition sample_far : u32 := 2147483646.

Definition sample_push (q : PayloadQueue) (t : u32) : PayloadQueue := (pq_push q (sample_chunk t) sample_base).2.

Lemma sample_push_step q t : uN 32 t → pq_step (sample_base, q) (sample_base, sample_push q t).
Proof.
  intros Ht. unfold sample_push. destruct (pq_push q (sample_chunk t) sample_base) as [ok q'] eqn:E.
  by apply (pq_step_push _ _ (sample_chunk t) ok).
Qed.

Lemma payload_queue_reachable_inv_witness :
  dist32 sample_base sample_far = 2 ^ 31 ∧
  sorted (sample_push (sample_push PayloadQueue_new sample_far) 3) = [3; sample_far] ∧
  pq_inv (after sample_base) (sample_push (sample_push PayloadQueue_new sample_far) 3).
Proof.
  split; [vm_compute; reflexivity|]. split; [vm_compute; reflexivity|].
  assert (uN 32 sample_base ∧ uN 32 sample_far ∧ uN 32 3) as (Hb & Hf & H3) by (vm_compute; done).
  exact (proj1 (payload_queue_reachable_inv sample_base sample_base _ Hb
    (rtc_l _ _ _ _ (sample_push_step _ _ Hf) (rtc_once _ _ (sample_push_step _ _ H3))))).
Defined.
