(* ===== verification/PayloadRun.v ===== *)
(** * Popping a run of consecutive TSNs

    The receiver takes the TSNs that follow its cumulative TSN off the queue of
    received TSNs, and the sender takes those a SACK covers off its flight; both
    pop one TSN after the other, and both are one relation between queues. *)

From stdpp Require Import base list gmap numbers sets.
From Stdlib Require Import ZArith Lia ZifyBool.
From S2P Require Import Prelude Bytes Util Chunks PayloadQueue.

(** [q'] is [q] after the TSNs past [base], up to [p], were popped one by one. *)
Record popped (base : u32) (q : PayloadQueue) (p : u32) (q' : PayloadQueue) : Prop := mk_popped {
  po_inv : pq_inv p q';
  po_ahead : dist32 base p < 2 ^ 31;
  po_taken t : uN 32 t → 0 < dist32 base t <= dist32 base p → is_Some (chunk_map q !! t);
  po_left t : chunk_map q' !! t = if decide (0 < dist32 base t <= dist32 base p) then None else chunk_map q !! t;
}.

Definition next_tsn (base : u32) : u32 := wrapping_add 32 base 1.

Lemma next_tsn_dist base t :
  uN 32 base → uN 32 t → t ≠ base → dist32 (next_tsn base) t = dist32 base t - 1 ∧ (t = next_tsn base ↔ dist32 base t = 1).
Proof. intros. unfold next_tsn. sna. Qed.

Lemma next_tsn_u32 base : uN 32 (next_tsn base).
Proof. unfold next_tsn. sna. Qed.

Lemma pop_next base q :
  pq_inv base q → chunk_map q !! base = None →
  match pq_pop q (next_tsn base) with
  | (Some c, q') => chunk_map q !! next_tsn base = Some c ∧ chunk_map q' = delete (next_tsn base) (chunk_map q) ∧
      pq_inv (next_tsn base) q' ∧ length (sorted q) = S (length (sorted q'))
  | (None, q') => q' = q ∧ chunk_map q !! next_tsn base = None
  end.
Proof.
  intros Hq Hbase. pose proof (pq_pop_inv _ _ (next_tsn base) Hq) as Hq'.
  assert (∀ t, t ∈ sorted q → t ≠ base) as Hne.
  { intros t Ht ->. apply (inv_dom _ _ Hq) in Ht. rewrite Hbase in Ht. by destruct Ht. }
  destruct (pq_pop q (next_tsn base)) as [[c|] q'] eqn:Ep; cbn [snd] in Hq'.
  - destruct (pq_pop_head _ _ _ _ _ Hq Ep) as (Hh & Hc & Hs & Hm). split_and!; [done..| |].
    + apply (pq_inv_advance base); [done|apply next_tsn_u32|]. intros t Ht.
      assert (t ∈ sorted q) as Ht' by (rewrite Hs in Ht; destruct (sorted q); [done|by right]).
      pose proof (inv_u32 _ _ Hq t Ht') as Hu. pose proof (Hne t Ht') as Hn. pose proof (inv_base _ _ Hq) as Hb.
      clear -Hu Hn Hb. unfold next_tsn. sna.
    + rewrite Hs. by destruct (sorted q).
  - unfold pq_pop in Ep. destruct (sorted q) as [|t0 rest] eqn:Es.
    { injection Ep as <-. split; [done|]. apply eq_None_not_Some. intros H%(inv_dom _ _ Hq). rewrite Es in H. by apply elem_of_nil in H. }
    destruct (Z.eqb_spec (next_tsn base) t0) as [E|E].
    { exfalso. assert (is_Some (chunk_map q !! t0)) as [c Hc] by (apply (inv_dom _ _ Hq); rewrite Es; left).
      cbn in Ep. rewrite E, Hc in Ep. done. }
    injection Ep as <-. split; [done|]. apply eq_None_not_Some. intros H%(inv_dom _ _ Hq).
    pose proof (inv_sorted _ _ Hq) as Hs. pose proof (Hne t0) as Hn0. pose proof (inv_u32 _ _ Hq t0) as Hu0.
    rewrite Es in *. specialize (Hn0 ltac:(left)). specialize (Hu0 ltac:(left)).
    apply elem_of_cons in H as [H|H]; [done|]. inversion Hs as [|?? _ Hall]; subst.
    pose proof (proj1 (Forall_forall _ _) Hall _ H) as Hlt. pose proof (inv_base _ _ Hq) as Hb.
    clear -Hlt Hn0 Hu0 Hb. unfold next_tsn in *. sna.
Qed.

Lemma popped_refl base q : pq_inv base q → popped base q base q.
Proof.
  intros Hq. pose proof (dist32_self base) as E.
  constructor; [done|lia|intros; lia|]. intros t. by rewrite decide_False by lia.
Qed.

Lemma popped_step base q q1 p q' c :
  pq_inv base q → chunk_map q !! base = None → chunk_map q !! next_tsn base = Some c →
  chunk_map q1 = delete (next_tsn base) (chunk_map q) → popped (next_tsn base) q1 p q' → popped base q p q'.
Proof.
  intros Hq Hbase Hc Hm [Hinv Hah Htk Hl]. pose proof (inv_base _ _ Hq) as Hb. pose proof (inv_base _ _ Hinv) as Hp.
  assert (next_tsn base ∈ sorted q) as Hin by (apply (inv_dom _ _ Hq); eauto).
  assert (dist32 base p = dist32 (next_tsn base) p + 1) as Hd.
  { clear -Hb Hp Hah. unfold next_tsn in *. sna. }
  assert (∀ t, is_Some (chunk_map q' !! t) → dist32 base t < 2 ^ 31) as Hwin.
  { intros t [c' Ht]. apply (inv_window _ _ Hq), (inv_dom _ _ Hq). rewrite Hl in Ht. case_decide; [done|].
    rewrite Hm in Ht. apply lookup_delete_Some in Ht as [_ ?]. eauto. }
  assert (∀ t, uN 32 t → t ≠ next_tsn base →
    (0 < dist32 (next_tsn base) t <= dist32 (next_tsn base) p ↔ 0 < dist32 base t <= dist32 base p)) as Hiff.
  { intros t Ht Hne. clear -Hb Hp Hah Hd Ht Hne. unfold next_tsn in *. sna. }
  assert (dist32 base (next_tsn base) = 1) as H1 by (clear -Hb; unfold next_tsn; sna).
  pose proof (dist32_bounds (next_tsn base) p).
  split; [done| | |].
  - destruct (decide (dist32 base p < 2 ^ 31)) as [|Hge]; [done|]. exfalso.
    assert (dist32 (next_tsn base) p = 2 ^ 31 - 1) as Hmax by lia.
    destruct (Htk p Hp) as [c' Hc']; [lia|]. rewrite Hm in Hc'. apply lookup_delete_Some in Hc' as [_ Hc'].
    assert (p ∈ sorted q) as Hps by (apply (inv_dom _ _ Hq); eauto). apply (inv_window _ _ Hq) in Hps. lia.
  - intros t Ht Hr. destruct (decide (t = next_tsn base)) as [->|Hne]; [by rewrite Hc|].
    apply Hiff in Hr; [|done..]. destruct (Htk t Ht Hr) as [c' Hc']. rewrite Hm in Hc'.
    apply lookup_delete_Some in Hc' as [_ ->]. eauto.
  - intros t. rewrite Hl, Hm. destruct (decide (t = next_tsn base)) as [->|Hne].
    { rewrite lookup_delete_eq. rewrite (decide_True (P := 0 < dist32 base (next_tsn base) <= dist32 base p)) by lia.
      by case_decide. }
    rewrite lookup_delete_ne by done. destruct (decide (uN 32 t)) as [Ht|Ht].
    { destruct (decide (0 < dist32 base t <= dist32 base p)) as [Hr|Hr].
      - rewrite decide_True by (by apply Hiff). done.
      - rewrite decide_False by (by rewrite Hiff). done. }
    assert (chunk_map q !! t = None) as ->; [|by repeat case_decide].
    apply eq_None_not_Some. intros Hs'%(inv_dom _ _ Hq). by apply (inv_u32 _ _ Hq) in Hs'.
Qed.

(** ** Queues without gaps *)

(** The TSNs of [q] are those past [base] and before [next]. *)
Definition contiguous (base next : u32) (q : PayloadQueue) : Prop :=
  ∀ t, uN 32 t → is_Some (chunk_map q !! t) ↔ 0 < dist32 base t < dist32 base next.

Lemma contiguous_window base next q : pq_inv base q → contiguous base next q → dist32 base next <= 2 ^ 31.
Proof.
  intros Hq Hc. pose proof (inv_base _ _ Hq) as Hb. destruct (Z.le_gt_cases (dist32 base next) (2 ^ 31)) as [|Hgt]; [done|]. exfalso.
  set (t := wrapping_add 32 base (2 ^ 31)). assert (dist32 base t = 2 ^ 31) as Hd by (subst t; clear -Hb; sna).
  assert (t ∈ sorted q) as Ht by (apply (inv_dom _ _ Hq), Hc; [by apply wrap_uN|lia]).
  pose proof (inv_window _ _ Hq t Ht). lia.
Qed.

(** Their number follows from the ends. *)
Lemma contiguous_len base next q :
  pq_inv base q → contiguous base next q → pq_len q = Z.max 0 (dist32 base next - 1).
Proof.
  intros Hq Hc. pose proof (inv_base _ _ Hq) as Hb. pose proof (dist32_bounds base next) as Hn. unfold pq_len.
  set (ts := wrapping_add 32 base <$> seqZ 1 (dist32 base next - 1)).
  assert (NoDup ts) as Hnd.
  { apply NoDup_fmap_2_strong; [|apply NoDup_seqZ]. intros i j Hi%elem_of_seqZ Hj%elem_of_seqZ E.
    assert (dist32 base (wrapping_add 32 base i) = i ∧ dist32 base (wrapping_add 32 base j) = j) as [<- <-]; [|by rewrite E].
    clear -Hb Hi Hj Hn. split; sna. }
  assert (dom (chunk_map q) = list_to_set ts) as Hdom.
  { apply set_eq. intros t. rewrite elem_of_dom, elem_of_list_to_set. unfold ts. rewrite list_elem_of_fmap. split.
    - intros Ht. assert (uN 32 t) as Hu by (by apply (inv_u32 _ _ Hq), (inv_dom _ _ Hq)). apply Hc in Ht; [|done].
      exists (dist32 base t). rewrite elem_of_seqZ. split; [clear -Hu Hb; sna|lia].
    - intros (i & -> & Hi%elem_of_seqZ). apply Hc; [by apply wrap_uN|].
      assert (dist32 base (wrapping_add 32 base i) = i) as ->; [clear -Hb Hi Hn; sna|lia]. }
  rewrite <- size_dom, Hdom, size_list_to_set by done. unfold ts. rewrite length_fmap, length_seqZ. lia.
Qed.

(** How many TSNs are left from [x] on: what bounds a walk over consecutive TSNs. *)
Definition left_from (base x : u32) (q : PayloadQueue) : nat :=
  length (filter (λ t, dist32 base x <= dist32 base t) (sorted q)).

Lemma left_from_next base x q :
  pq_inv base q → is_Some (chunk_map q !! x) → (left_from base (next_tsn x) q < left_from base x q)%nat.
Proof.
  intros Hq Hx%(inv_dom _ _ Hq). pose proof (inv_window _ _ Hq _ Hx). pose proof (inv_u32 _ _ Hq _ Hx). pose proof (inv_base _ _ Hq).
  assert (dist32 base (next_tsn x) = dist32 base x + 1) as E by (unfold next_tsn; sna).
  unfold left_from. apply (filter_shorter _ _ _ x); [|done|done|lia]. intros y _. lia.
Qed.

Lemma left_from_len base x q : (left_from base x q <= length (sorted q))%nat.
Proof. apply length_filter. Qed.

(** ** Queues that differ in their chunks only *)

Definition chunkwise (R : ChunkPayloadData → ChunkPayloadData → Prop) (q q' : PayloadQueue) : Prop :=
  ∀ t, match chunk_map q !! t, chunk_map q' !! t with
       | Some c, Some c' => R c c'
       | None, None => True
       | _, _ => False
       end.

Section Chunkwise.
Context (R : ChunkPayloadData → ChunkPayloadData → Prop).

#[export] Instance chunkwise_refl `{!Reflexive R} : Reflexive (chunkwise R).
Proof. intros q t. by destruct (chunk_map q !! t). Qed.

#[export] Instance chunkwise_trans `{!Transitive R} : Transitive (chunkwise R).
Proof.
  intros q q1 q2 H1 H2 t. specialize (H1 t). specialize (H2 t).
  destruct (chunk_map q !! t), (chunk_map q1 !! t), (chunk_map q2 !! t); try done. by etrans.
Qed.

Lemma chunkwise_Some q q' t : chunkwise R q q' → is_Some (chunk_map q' !! t) ↔ is_Some (chunk_map q !! t).
Proof. intros H. specialize (H t). unfold is_Some. destruct (chunk_map q !! t), (chunk_map q' !! t); naive_solver. Qed.

Lemma chunkwise_lookup q q' t c' :
  chunkwise R q q' → chunk_map q' !! t = Some c' → ∃ c, chunk_map q !! t = Some c ∧ R c c'.
Proof. intros H Hc. specialize (H t). rewrite Hc in H. destruct (chunk_map q !! t); naive_solver. Qed.

Lemma chunkwise_contiguous base next q q' : chunkwise R q q' → contiguous base next q → contiguous base next q'.
Proof. intros Hm Hc t Ht. rewrite (chunkwise_Some _ _ _ Hm). by apply Hc. Qed.

(** One chunk is replaced by a related one. *)
Lemma chunkwise_alter `{!Reflexive R} q t f :
  (∀ c, chunk_map q !! t = Some c → R c (f c)) → chunkwise R q (pq_get_mut q t f).
Proof.
  intros Hf t'. unfold pq_get_mut. cbn. destruct (decide (t' = t)) as [->|Hne].
  - rewrite lookup_alter_eq. destruct (chunk_map q !! t) as [c|]; cbn; auto.
  - rewrite lookup_alter_ne by done. by destruct (chunk_map q !! t').
Qed.

(** A sum that [R] does not change. *)
Lemma chunkwise_sum (f : ChunkPayloadData → Z) q q' :
  (∀ c, 0 <= f c) → (∀ c c', R c c' → f c' = f c) → chunkwise R q q' → map_sum f (chunk_map q') = map_sum f (chunk_map q).
Proof.
  intros H0 Hf Hm. apply Z.le_antisymm; apply map_sum_sub; try done; intros t c Hc; specialize (Hm t); rewrite Hc in Hm.
  - destruct (chunk_map q !! t) as [c0|]; [|done]. exists c0. by rewrite (Hf _ _ Hm).
  - destruct (chunk_map q' !! t) as [c0|]; [|done]. exists c0. by rewrite (Hf _ _ Hm).
Qed.
End Chunkwise.
