(* ===== verification/PendingQueue.v ===== *)
(** * The queue of unsent chunks ([src/queue/pending_queue.rs])

    Two FIFO queues, one for ordered and one for unordered messages, and a
    selection that keeps the fragments of one message together: once the first
    fragment of a message has been popped, [pop] stays on its queue until the
    last one. *)

From stdpp Require Import base list gmap numbers sets.
From Stdlib Require Import ZArith Lia ZifyBool.
From S2P Require Import Prelude Bytes Util Params Chunks PayloadQueue.

Record PendingQueue := mkPendingQueue {
  unordered_queue : list ChunkPayloadData;
  ordered_queue : list ChunkPayloadData;
  queue_len : usize;
  pn_n_bytes : usize;
  selected : bool;
  unordered_is_selected : bool;
}.

#[export] Instance PendingQueue_eta : Eta PendingQueue := λ q,
  mkPendingQueue (unordered_queue q) (ordered_queue q) (queue_len q) (pn_n_bytes q) (selected q)
    (unordered_is_selected q).
#[export] Instance upd_unordered_queue : Update unordered_queue. Proof. solve_update. Defined.
#[export] Instance upd_ordered_queue : Update ordered_queue. Proof. solve_update. Defined.
#[export] Instance upd_queue_len : Update queue_len. Proof. solve_update. Defined.
#[export] Instance upd_pn_n_bytes : Update pn_n_bytes. Proof. solve_update. Defined.
#[export] Instance upd_selected : Update selected. Proof. solve_update. Defined.
#[export] Instance upd_unordered_is_selected : Update unordered_is_selected. Proof. solve_update. Defined.

Definition PendingQueue_new : PendingQueue := mkPendingQueue [] [] 0 0 false false.

(** ** Operations *)

Definition pn_push (q : PendingQueue) (c : ChunkPayloadData) : PendingQueue :=
  let q := q <| pn_n_bytes ::= λ n, n + data_len c |> in
  let q := if unordered c then q <| unordered_queue ::= λ l, l ++ [c] |>
           else q <| ordered_queue ::= λ l, l ++ [c] |> in
  q <| queue_len ::= λ n, n + 1 |>.

(** The body of the loop of [start_timed_messages]. *)
Definition start_timed (now : Instant) (c : ChunkPayloadData) : ChunkPayloadData :=
  if bool_decide (is_Some (deadline c)) || bool_decide (payload_type c = Dcep) then c
  else match reliability c with
       | Some (Timed, lifetime) => c <| deadline := Instant_checked_add now lifetime |>
       | _ => c
       end.

(** [iter_mut().rev().take_while(..)]: the longest suffix of new messages. *)
Fixpoint map_while {A} (p : A → bool) (f : A → A) (l : list A) : list A :=
  match l with
  | [] => []
  | x :: l' => if p x then f x :: map_while p f l' else l
  end.

Definition start_suffix (first_message_id : u64) (now : Instant) (l : list ChunkPayloadData) : list ChunkPayloadData :=
  rev (map_while (λ c, message_id c >=? first_message_id) (start_timed now) (rev l)).

Definition pn_start_timed_messages (q : PendingQueue) (first_message_id : u64) (now : Instant) : PendingQueue :=
  q <| ordered_queue ::= start_suffix first_message_id now |>
    <| unordered_queue ::= start_suffix first_message_id now |>.

Definition pn_peek (q : PendingQueue) : option ChunkPayloadData :=
  if selected q then
    if unordered_is_selected q then head (unordered_queue q) else head (ordered_queue q)
  else match head (unordered_queue q) with
       | Some c => Some c
       | None => head (ordered_queue q)
       end.

(** [pop_front] of one of the two queues. *)
Definition pop_front (un : bool) (q : PendingQueue) : option ChunkPayloadData * PendingQueue :=
  if un then (head (unordered_queue q), q <| unordered_queue ::= tail |>)
  else (head (ordered_queue q), q <| ordered_queue ::= tail |>).

Definition pn_pop (q : PendingQueue) (beginning un : bool) : Outcome (option ChunkPayloadData * PendingQueue) :=
  if negb (selected q) && negb beginning then Ok (None, q) else
  let '(popped, q) :=
    if selected q then
      let '(popped, q) := pop_front (unordered_is_selected q) q in
      match popped with
      | Some p => (popped, if ending_fragment p then q <| selected := false |> else q)
      | None => (popped, q)
      end
    else
      let '(popped, q) := pop_front un q in
      match popped with
      | Some p => (popped, if negb (ending_fragment p)
                           then q <| selected := true |> <| unordered_is_selected := un |> else q)
      | None => (popped, q)
      end in
  match popped with
  | Some p =>
      n ← checked_sub (pn_n_bytes q) (data_len p);
      k ← checked_sub (queue_len q) 1;
      Ok (popped, q <| pn_n_bytes := n |> <| queue_len := k |>)
  | None => Ok (popped, q)
  end.

Definition compact_ordered_ssns (q : PendingQueue) (sid : u16) : PendingQueue :=
  q <| ordered_queue ::= fmap (λ c, if stream_identifier c =? sid
                                   then c <| stream_sequence_number ::= λ n, wrapping_sub 16 n 1 |> else c) |>.

Definition has_id (id : u64) (c : ChunkPayloadData) : bool := message_id c =? id.

(** The bytes removed and the chunks handed to [on_remove], in order. *)
Definition remove_message (q : PendingQueue) (id : u64) : Outcome (usize * list ChunkPayloadData * PendingQueue) :=
  let q := if selected q && match pn_peek q with Some c => has_id id c | None => false end
           then q <| selected := false |> else q in
  let removed := filter (λ c, has_id id c = true) (ordered_queue q) ++
                 filter (λ c, has_id id c = true) (unordered_queue q) in
  let removed_bytes := sum_with data_len removed in
  let q := q <| ordered_queue ::= filter (λ c, has_id id c = false) |>
             <| unordered_queue ::= filter (λ c, has_id id c = false) |> in
  n ← checked_sub (pn_n_bytes q) removed_bytes;
  k ← checked_sub (queue_len q) (len removed);
  Ok (removed_bytes, removed, q <| pn_n_bytes := n |> <| queue_len := k |>).

Definition pn_len (q : PendingQueue) : usize := queue_len q.
Definition pn_get_num_bytes (q : PendingQueue) : usize := pn_n_bytes q.
Definition pn_is_empty (q : PendingQueue) : bool := pn_len q =? 0.

Definition contains_message (q : PendingQueue) (id : u64) : bool :=
  existsb (has_id id) (unordered_queue q ++ ordered_queue q).

Definition pn_contains_stream (q : PendingQueue) (sid : u16) : bool :=
  existsb (λ c, stream_identifier c =? sid) (unordered_queue q ++ ordered_queue q).

(** ** Framing

    [frame_next st c]: after the fragments sent so far, with [st] the message
    in progress if there is one, [c] is a fragment that may follow. *)

Definition frame_next (st : option u64) (c : ChunkPayloadData) : option (option u64) :=
  let after := if ending_fragment c then None else Some (message_id c) in
  match st with
  | None => if beginning_fragment c then Some after else None
  | Some id => if negb (beginning_fragment c) && (message_id c =? id) then Some after else None
  end.

Fixpoint frames (st : option u64) (l : list ChunkPayloadData) : option (option u64) :=
  match l with
  | [] => Some st
  | c :: l' => match frame_next st c with Some st' => frames st' l' | None => None end
  end.

(** Whole messages only: no fragment is missing. *)
Definition framed (st : option u64) (l : list ChunkPayloadData) : Prop := frames st l = Some None.

(** The message whose first fragments have been popped already. *)
Definition open_in (q : PendingQueue) (st : option u64) : Prop :=
  if selected q then st ≠ None ∧ framed (if unordered_is_selected q then st else None) (unordered_queue q)
                     ∧ framed (if unordered_is_selected q then None else st) (ordered_queue q)
  else st = None ∧ framed None (unordered_queue q) ∧ framed None (ordered_queue q).

Record pn_inv (q : PendingQueue) (st : option u64) : Prop := mk_pn_inv {
  pi_len : queue_len q = len (unordered_queue q) + len (ordered_queue q);
  pi_bytes : pn_n_bytes q = sum_with data_len (unordered_queue q) + sum_with data_len (ordered_queue q);
  pi_unordered : Forall (λ c, unordered c = true) (unordered_queue q);
  pi_ordered : Forall (λ c, unordered c = false) (ordered_queue q);
  pi_open : open_in q st;
}.

Lemma pn_inv_new : pn_inv PendingQueue_new None.
Proof. constructor; done || constructor. Qed.

Lemma frames_app st l1 l2 :
  frames st (l1 ++ l2) = match frames st l1 with Some st' => frames st' l2 | None => None end.
Proof. revert st; induction l1 as [|c l1 IH]; intros st; simpl; [done|]. destruct (frame_next st c); [apply IH|done]. Qed.

Definition forget (id : u64) (st : option u64) : option u64 :=
  if bool_decide (st = Some id) then None else st.

(** What [frame_next] says about the flags. *)
Lemma frame_next_Some st c st' : frame_next st c = Some st' ↔
  beginning_fragment c = bool_decide (st = None) ∧ (∀ id, st = Some id → message_id c = id) ∧
  st' = (if ending_fragment c then None else Some (message_id c)).
Proof.
  unfold frame_next. destruct st as [id|].
  - rewrite bool_decide_false by done.
    destruct (beginning_fragment c), (Z.eqb_spec (message_id c) id); simpl; split; naive_solver.
  - rewrite bool_decide_true by done. destruct (beginning_fragment c); naive_solver.
Qed.

Lemma forget_same id : forget id (Some id) = None.
Proof. unfold forget. by rewrite bool_decide_true. Qed.

Lemma forget_ne id st : st ≠ Some id → forget id st = st.
Proof. unfold forget. intros. by rewrite bool_decide_false. Qed.

(** Dropping every fragment of a message leaves the other messages whole. *)
Lemma frames_filter id st l st' :
  frames st l = Some st' →
  frames (forget id st) (filter (λ c, has_id id c = false) l) = Some (forget id st').
Proof.
  revert st; induction l as [|c l IH]; intros st; cbn [frames]; [by intros [= ->]|].
  destruct (frame_next st c) as [st1|] eqn:E; [|done]. intros H%IH. rewrite filter_cons.
  pose proof E as (_ & Hid & ->)%frame_next_Some. unfold has_id.
  assert (∀ id', st = Some id' → id' = message_id c) as Hst by (intros id' ->; symmetry; by apply Hid).
  destruct (Z.eqb_spec (message_id c) id) as [He|He].
  - rewrite decide_False by done. rewrite <- H. f_equal. unfold forget.
    destruct st as [id'|]; [rewrite (Hst id') by done|];
      destruct (ending_fragment c); repeat case_bool_decide; congruence.
  - rewrite decide_True by done. cbn [frames]. rewrite <- H.
    assert (forget id st = st) as -> by (unfold forget; case_bool_decide as Hs; [apply Hst in Hs; congruence|done]).
    rewrite E. f_equal. unfold forget. destruct (ending_fragment c); case_bool_decide; congruence.
Qed.

(** A non-empty message follows the one in progress. *)
Lemma framed_open_nonempty id l : framed (Some id) l → ∃ c l', l = c :: l'.
Proof. destruct l; [done|]. eauto. Qed.

Lemma framed_cons st c l : framed st (c :: l) ↔ ∃ st', frame_next st c = Some st' ∧ framed st' l.
Proof. unfold framed. simpl. destruct (frame_next st c); naive_solver. Qed.

Lemma sum_with_data_nonneg l : 0 <= sum_with data_len l.
Proof. apply sum_with_nonneg. intros. apply data_len_nonneg. Qed.

Lemma pn_peek_nonempty q st : pn_inv q st → 0 < pn_len q → is_Some (pn_peek q).
Proof.
  intros [Hl _ _ _ Ho] Hq. unfold pn_peek, open_in, pn_len in *.
  destruct (selected q).
  - destruct st as [id|]; [|naive_solver]. destruct Ho as (_ & Hu & Hor).
    destruct (unordered_is_selected q).
    + destruct (framed_open_nonempty _ _ Hu) as (c & l' & ->). by exists c.
    + destruct (framed_open_nonempty _ _ Hor) as (c & l' & ->). by exists c.
  - destruct (unordered_queue q); [|by eexists]. destruct (ordered_queue q); [|by eexists].
    unfold len in *. simpl in *. lia.
Qed.

(** [pop] after [peek] pops the peeked chunk. *)
Lemma pn_pop_peek q st c :
  pn_inv q st → pn_peek q = Some c →
  ∃ q' st', pn_pop q (beginning_fragment c) (unordered c) = Ok (Some c, q') ∧
    frame_next st c = Some st' ∧ pn_inv q' st' ∧
    unordered_queue q = (if unordered c then [c] else []) ++ unordered_queue q' ∧
    ordered_queue q = (if unordered c then [] else [c]) ++ ordered_queue q'.
Proof.
  intros [Hl Hb Hu Hor Ho] Hp.
  assert (∃ (un : bool) l, (if un then unordered_queue q else ordered_queue q) = c :: l ∧ unordered c = un ∧
    (selected q = true → unordered_is_selected q = un) ∧ (selected q = false → beginning_fragment c = true) ∧
    ∃ st', frame_next st c = Some st' ∧ framed st' l ∧ framed None (if un then ordered_queue q else unordered_queue q))
    as (un & l & Hq & Hun & Hsel & Hbeg & st' & Hst & Hfl & Hfo).
  { unfold pn_peek, open_in in *. destruct (selected q).
    - destruct Ho as (_ & Hfu & Hfo). destruct (unordered_is_selected q).
      + destruct (unordered_queue q) as [|c' l]; [done|]. injection Hp as ->. exists true, l.
        apply framed_cons in Hfu as (st' & ? & ?). apply Forall_cons in Hu as [? _]. split_and!; eauto; done.
      + destruct (ordered_queue q) as [|c' l]; [done|]. injection Hp as ->. exists false, l.
        apply framed_cons in Hfo as (st' & ? & ?). apply Forall_cons in Hor as [? _]. split_and!; eauto; done.
    - destruct Ho as (-> & Hfu & Hfo). destruct (unordered_queue q) as [|c' l].
      + destruct (ordered_queue q) as [|c' l]; [done|]. injection Hp as ->. exists false, l.
        apply framed_cons in Hfo as (st' & Hst & ?). apply Forall_cons in Hor as [? _].
        split_and!; try done; [|by eauto]. by apply frame_next_Some in Hst as [-> _].
      + injection Hp as ->. exists true, l.
        apply framed_cons in Hfu as (st' & Hst & ?). apply Forall_cons in Hu as [? _].
        split_and!; try done; [|by eauto]. by apply frame_next_Some in Hst as [-> _]. }
  pose proof (sum_with_data_nonneg l). pose proof (data_len_nonneg c). pose proof (len_nonneg l).
  pose proof (sum_with_data_nonneg (unordered_queue q)). pose proof (sum_with_data_nonneg (ordered_queue q)).
  pose proof (len_nonneg (unordered_queue q)). pose proof (len_nonneg (ordered_queue q)).
  assert (data_len c <= pn_n_bytes q ∧ 1 <= queue_len q) as [Hbc Hlc].
  { destruct un; rewrite Hq, ?len_cons in *; unfold sum_with in *; simpl in *; lia. }
  pose proof Hst as (Hbf & _ & Hst')%frame_next_Some.
  unfold pn_pop, pop_front, checked_sub.
  assert (negb (selected q) && negb (beginning_fragment c) = false) as -> by (destruct (selected q); [done|by rewrite Hbeg]).
  rewrite Hun. clear Hp Ho. destruct q as [uq oq ql nb sel uis]; cbn in *.
  destruct sel; [rewrite Hsel by done|]; destruct un; rewrite Hq in *; cbn;
    destruct (ending_fragment c); cbn;
    (destruct (Z.leb_spec (data_len c) nb); [|lia]); (destruct (Z.leb_spec 1 ql); [|lia]); cbn;
    (eexists _, _; split; [reflexivity|]; split; [exact Hst|]; split; [|done]);
    (constructor; cbn; [rewrite len_cons in Hl; lia|unfold sum_with in *; simpl in *; lia|..]);
    try (by inversion Hu); try (by inversion Hor); try done; subst st'; unfold open_in; cbn;
    rewrite ?Hsel by done; cbn; done.
Qed.

(** ** The other operations keep the invariant *)

Lemma pn_push_all u cs q :
  Forall (λ c, unordered c = u) cs →
  fold_left pn_push cs q =
  mkPendingQueue (unordered_queue q ++ if u then cs else []) (ordered_queue q ++ if u then [] else cs)
    (queue_len q + len cs) (pn_n_bytes q + sum_with data_len cs) (selected q) (unordered_is_selected q).
Proof.
  intros Hu. revert q; induction Hu as [|c cs Hc Hcs IH]; intros q; simpl.
  - destruct q; cbn. unfold len, sum_with; simpl. destruct u; rewrite !app_nil_r; f_equal; lia.
  - rewrite IH. unfold pn_push. rewrite Hc. destruct u; cbn; rewrite <- ?app_assoc, ?app_nil_r; cbn;
      rewrite len_cons; f_equal; unfold sum_with; simpl; lia.
Qed.

Lemma framed_app st l cs : framed st l → framed None cs → framed st (l ++ cs).
Proof. unfold framed. intros Hl ?. by rewrite frames_app, Hl. Qed.

(** Queueing the fragments of a whole message. *)
Lemma pn_push_message_inv u cs q st :
  pn_inv q st → Forall (λ c, unordered c = u) cs → framed None cs → pn_inv (fold_left pn_push cs q) st.
Proof.
  intros [Hl Hb Hu Hor Ho] Hcs Hf. rewrite (pn_push_all u) by done. unfold open_in in Ho.
  destruct u; constructor; cbn -[sum_with len]; rewrite ?app_nil_r, ?len_app, ?sum_with_app; try lia; try done;
    try (by apply Forall_app); unfold open_in; cbn; (destruct (selected q);
      [destruct (unordered_is_selected q)|]); destruct Ho as (? & ? & ?); (split; [done|]); (split; first [done|by apply framed_app]).
Qed.

(** Two chunks with the same place in the framing. *)
Definition same_frame (c c' : ChunkPayloadData) : Prop :=
  beginning_fragment c' = beginning_fragment c ∧ ending_fragment c' = ending_fragment c ∧
  message_id c' = message_id c ∧ unordered c' = unordered c ∧ user_data c' = user_data c.

Lemma same_frame_frames st l l' : Forall2 same_frame l l' → frames st l' = frames st l.
Proof.
  intros H. revert st; induction H as [|c c' l l' (E1 & E2 & E3 & _) _ IH]; intros st; simpl; [done|].
  unfold frame_next. rewrite E1, E2, E3. destruct st; case_match; done.
Qed.

Lemma same_frame_sum l l' : Forall2 same_frame l l' → sum_with data_len l' = sum_with data_len l.
Proof.
  induction 1 as [|c c' l l' (_ & _ & _ & _ & E) _ IH]; [done|]. unfold sum_with, data_len in *. simpl.
  rewrite E. lia.
Qed.

Lemma same_frame_unordered u l l' : Forall2 same_frame l l' → Forall (λ c, unordered c = u) l → Forall (λ c, unordered c = u) l'.
Proof.
  induction 1 as [|c c' l l' (_ & _ & _ & E & _) _ IH]; intros H; constructor; inversion H; subst; [congruence|auto].
Qed.

Lemma pn_inv_same q q' st :
  pn_inv q st → Forall2 same_frame (unordered_queue q) (unordered_queue q') →
  Forall2 same_frame (ordered_queue q) (ordered_queue q') → queue_len q' = queue_len q →
  pn_n_bytes q' = pn_n_bytes q → selected q' = selected q → unordered_is_selected q' = unordered_is_selected q →
  pn_inv q' st.
Proof.
  intros [Hl Hb Hu Hor Ho] H1 H2 E1 E2 E3 E4. constructor.
  - rewrite E1, Hl. unfold len. by rewrite (Forall2_length _ _ _ H1), (Forall2_length _ _ _ H2).
  - by rewrite E2, Hb, (same_frame_sum _ _ H1), (same_frame_sum _ _ H2).
  - by eapply same_frame_unordered.
  - by eapply same_frame_unordered.
  - unfold open_in, framed in *. by rewrite E3, E4, !(same_frame_frames _ _ _ H1), !(same_frame_frames _ _ _ H2).
Qed.

Lemma same_frame_refl_chunk c : same_frame c c.
Proof. done. Qed.

Lemma same_frame_refl l : Forall2 same_frame l l.
Proof. apply Forall2_same_length_lookup_2; [done|]. intros i x y ??. simplify_eq. done. Qed.

Lemma Forall2_rev {A B} (R : A → B → Prop) l k : Forall2 R l k → Forall2 R (rev l) (rev k).
Proof. induction 1; simpl; [constructor|]. apply Forall2_app; [done|by repeat constructor]. Qed.

Lemma start_suffix_same id now l : Forall2 same_frame l (start_suffix id now l).
Proof.
  unfold start_suffix. rewrite <- (rev_involutive l) at 1. apply Forall2_rev. generalize (rev l). clear l.
  induction l as [|c l IH]; simpl; [constructor|]. case_match; [|apply same_frame_refl].
  constructor; [|done]. unfold start_timed. repeat case_match; done.
Qed.

Lemma pn_start_timed_messages_inv q st id now : pn_inv q st → pn_inv (pn_start_timed_messages q id now) st.
Proof. intros H. eapply pn_inv_same; [done|cbn; apply start_suffix_same..|done|done|done|done]. Qed.

Lemma compact_ordered_ssns_inv q st sid : pn_inv q st → pn_inv (compact_ordered_ssns q sid) st.
Proof.
  intros H. eapply pn_inv_same; [done|cbn; apply same_frame_refl|cbn|done|done|done|done].
  apply Forall2_fmap_r, Forall2_same_length_lookup_2; [done|]. intros i x y Hx Hy. assert (y = x) as -> by congruence. unfold same_frame. cbn. destruct (stream_identifier x =? sid); done.
Qed.

Lemma filter_id_sum id l :
  sum_with data_len l = sum_with data_len (filter (λ c, has_id id c = true) l) +
                        sum_with data_len (filter (λ c, has_id id c = false) l) ∧
  len l = len (filter (λ c, has_id id c = true) l) + len (filter (λ c, has_id id c = false) l).
Proof.
  induction l as [|c l IH]; [done|]. rewrite !filter_cons.
  destruct (has_id id c); rewrite ?decide_True, ?decide_False by done;
    unfold sum_with, len in *; simpl; lia.
Qed.

(** The chunks [remove_message] hands to its callback. *)
Definition message_chunks (q : PendingQueue) (id : u64) : list ChunkPayloadData :=
  filter (λ c, has_id id c = true) (ordered_queue q) ++ filter (λ c, has_id id c = true) (unordered_queue q).

Lemma remove_message_eq q id :
  remove_message q id =
  (n ← checked_sub (pn_n_bytes q) (sum_with data_len (message_chunks q id));
   k ← checked_sub (queue_len q) (len (message_chunks q id));
   Ok (sum_with data_len (message_chunks q id), message_chunks q id,
       mkPendingQueue (filter (λ c, has_id id c = false) (unordered_queue q))
         (filter (λ c, has_id id c = false) (ordered_queue q)) k n
         (if selected q && match pn_peek q with Some c => has_id id c | None => false end then false else selected q)
         (unordered_is_selected q))).
Proof. unfold remove_message, message_chunks. destruct (selected q && _); reflexivity. Qed.

Lemma open_message_head q st id :
  open_in q st →
  selected q && match pn_peek q with Some c => has_id id c | None => false end = bool_decide (st = Some id).
Proof.
  unfold open_in, pn_peek. intros Ho. destruct (selected q); cbn; [|by destruct Ho as [-> _]].
  destruct Ho as (Hst & Hfu & Hfo). destruct st as [id'|]; [|done].
  assert (∀ l, framed (Some id') l → match head l with Some c => has_id id c | None => false end
    = bool_decide (Some id' = Some id)) as Hh.
  { intros l Hf. destruct (framed_open_nonempty _ _ Hf) as (c & l' & ->). simpl.
    apply framed_cons in Hf as (? & (_ & Hid & _)%frame_next_Some & _).
    unfold has_id. rewrite (Hid id') by done. apply eq_true_iff_eq.
    rewrite bool_decide_eq_true, Z.eqb_eq. split; congruence. }
  destruct (unordered_is_selected q); by apply Hh.
Qed.

Lemma remove_open q q' st id :
  open_in q st → selected q' = (if bool_decide (st = Some id) then false else selected q) →
  unordered_is_selected q' = unordered_is_selected q →
  unordered_queue q' = filter (λ c, has_id id c = false) (unordered_queue q) →
  ordered_queue q' = filter (λ c, has_id id c = false) (ordered_queue q) →
  open_in q' (forget id st).
Proof.
  unfold open_in, framed. intros Ho -> -> -> ->.
  assert (∀ st0 l, frames st0 l = Some None → frames (forget id st0) (filter (λ c, has_id id c = false) l) = Some None)
    as Hf by (intros ?? H%(frames_filter id); done).
  destruct (selected q).
  - destruct Ho as (Hst & Hu%Hf & Hor%Hf). destruct (decide (st = Some id)) as [->|Hne].
    + rewrite bool_decide_true by done. destruct (unordered_is_selected q); rewrite forget_same in *; done.
    + rewrite bool_decide_false, (forget_ne id st) in * by done.
      destruct (unordered_is_selected q); rewrite ?(forget_ne id st) in * by done; done.
  - destruct Ho as (-> & Hu%Hf & Hor%Hf). done.
Qed.

Lemma Forall_filter_keep {A} (P Q : A → Prop) `{!∀ x, Decision (Q x)} l : Forall P l → Forall P (filter Q l).
Proof. rewrite !Forall_forall. intros Hl x [_ ?]%list_elem_of_filter. auto. Qed.

Lemma remove_message_Ok q st id :
  pn_inv q st →
  ∃ q', remove_message q id = Ok (sum_with data_len (message_chunks q id), message_chunks q id, q') ∧
    pn_inv q' (forget id st) ∧
    unordered_queue q' = filter (λ c, has_id id c = false) (unordered_queue q) ∧
    ordered_queue q' = filter (λ c, has_id id c = false) (ordered_queue q) ∧
    pn_n_bytes q' = pn_n_bytes q - sum_with data_len (message_chunks q id).
Proof.
  intros [Hl Hb Hu Hor Ho]. rewrite remove_message_eq, (open_message_head q st) by done.
  destruct (filter_id_sum id (unordered_queue q)) as [Hsu Hlu].
  destruct (filter_id_sum id (ordered_queue q)) as [Hso Hlo].
  pose proof (sum_with_data_nonneg (filter (λ c, has_id id c = false) (unordered_queue q))).
  pose proof (sum_with_data_nonneg (filter (λ c, has_id id c = false) (ordered_queue q))).
  pose proof (len_nonneg (filter (λ c, has_id id c = false) (unordered_queue q))).
  pose proof (len_nonneg (filter (λ c, has_id id c = false) (ordered_queue q))).
  assert (sum_with data_len (message_chunks q id) = pn_n_bytes q -
    sum_with data_len (filter (λ c, has_id id c = false) (unordered_queue q)) -
    sum_with data_len (filter (λ c, has_id id c = false) (ordered_queue q))) as Es
    by (unfold message_chunks; rewrite sum_with_app; lia).
  assert (len (message_chunks q id) = queue_len q -
    len (filter (λ c, has_id id c = false) (unordered_queue q)) -
    len (filter (λ c, has_id id c = false) (ordered_queue q))) as El
    by (unfold message_chunks; rewrite len_app; lia).
  unfold checked_sub. destruct (Z.leb_spec (sum_with data_len (message_chunks q id)) (pn_n_bytes q)); [|lia].
  destruct (Z.leb_spec (len (message_chunks q id)) (queue_len q)); [|lia]. cbn [mbind Outcome_bind].
  eexists. split; [done|]. split; [|done]. constructor; cbn [queue_len pn_n_bytes unordered_queue ordered_queue].
  - lia.
  - lia.
  - by apply Forall_filter_keep.
  - by apply Forall_filter_keep.
  - by eapply remove_open.
Qed.

(** ** Runs of the queue

    The owner queues whole messages, pops what it peeked, and removes
    messages; [pn_run evs q] says that [q] is reached while the events [evs]
    were observed, oldest first. *)

Inductive pn_event : Type := Popped (c : ChunkPayloadData) | Removed (id : u64).

Inductive pn_run : list pn_event → PendingQueue → Prop :=
| run_new : pn_run [] PendingQueue_new
| run_push evs q u cs :
    pn_run evs q → Forall (λ c, unordered c = u) cs → framed None cs → pn_run evs (fold_left pn_push cs q)
| run_pop evs q c q' :
    pn_run evs q → pn_peek q = Some c → pn_pop q (beginning_fragment c) (unordered c) = Ok (Some c, q') →
    pn_run (evs ++ [Popped c]) q'
| run_remove evs q id n removed q' :
    pn_run evs q → remove_message q id = Ok (n, removed, q') → pn_run (evs ++ [Removed id]) q'
| run_start evs q id now : pn_run evs q → pn_run evs (pn_start_timed_messages q id now)
| run_compact evs q sid : pn_run evs q → pn_run evs (compact_ordered_ssns q sid).

(** A stream of fragments in which no message is interrupted, unless it is removed. *)
Fixpoint uninterrupted (st : option u64) (evs : list pn_event) : option (option u64) :=
  match evs with
  | [] => Some st
  | Popped c :: evs' => match frame_next st c with Some st' => uninterrupted st' evs' | None => None end
  | Removed id :: evs' => uninterrupted (forget id st) evs'
  end.

Lemma uninterrupted_snoc st evs e :
  uninterrupted st (evs ++ [e]) =
  match uninterrupted st evs with Some st' => uninterrupted st' [e] | None => None end.
Proof.
  revert st; induction evs as [|[c|id] evs IH]; intros st; cbn [app uninterrupted]; [done| |apply IH].
  destruct (frame_next st c); [apply IH|done].
Qed.

Lemma pn_run_inv evs q : pn_run evs q → ∃ st, uninterrupted None evs = Some st ∧ pn_inv q st.
Proof.
  induction 1 as [|evs q u cs _ (st & He & Hi) Hu Hf|evs q c q' _ (st & He & Hi) Hp Hpop
    |evs q id n r q' _ (st & He & Hi) Hr|evs q id now _ (st & He & Hi)|evs q sid _ (st & He & Hi)].
  - exists None. split; [done|apply pn_inv_new].
  - exists st. split; [done|]. by eapply pn_push_message_inv.
  - destruct (pn_pop_peek _ _ _ Hi Hp) as (q'' & st' & Hq & Hst & Hi' & _).
    exists st'. rewrite uninterrupted_snoc, He. cbn. rewrite Hst. split; [done|]. assert (q'' = q') as <- by congruence. done.
  - destruct (remove_message_Ok _ _ id Hi) as (q'' & Hq & Hi' & _).
    exists (forget id st). rewrite uninterrupted_snoc, He. split; [done|]. assert (q'' = q') as <- by congruence. done.
  - exists st. split; [done|]. by apply pn_start_timed_messages_inv.
  - exists st. split; [done|]. by apply compact_ordered_ssns_inv.
Qed.

(** Claim C26.  The chunks handed to the sender never interleave two messages: from its first fragment
    on, a message is continued to its last fragment whatever is queued meanwhile, unless it
    is removed.  A non-empty queue always has a next chunk, and no counter underflows. *)
Theorem pending_queue_uninterrupted evs q :
  pn_run evs q →
  (∃ st, uninterrupted None evs = Some st) ∧
  pn_get_num_bytes q = sum_with data_len (unordered_queue q) + sum_with data_len (ordered_queue q) ∧
  (0 < pn_len q → ∃ c q', pn_peek q = Some c ∧ pn_pop q (beginning_fragment c) (unordered c) = Ok (Some c, q')) ∧
  (∀ id, ∃ r, remove_message q id = Ok r).
Proof.
  intros (st & He & Hi)%pn_run_inv. split_and!; [by eauto|by apply (pi_bytes _ _ Hi)|..].
  - intros H. destruct (pn_peek_nonempty _ _ Hi H) as [c Hc]. exists c.
    destruct (pn_pop_peek _ _ _ Hi Hc) as (q' & _ & Hq & _). eauto.
  - intros id. destruct (remove_message_Ok _ _ id Hi) as (q' & Hq & _). eauto.
Qed.

Definition sample_fragment (b e u : bool) (id : u64) (data : Bytes) : ChunkPayloadData :=
  ChunkPayloadData_default <| beginning_fragment := b |> <| ending_fragment := e |> <| unordered := u |>
    <| message_id := id |> <| user_data := data |>.

(** An unordered message queued while an ordered one is half sent. *)
Definition sample_ordered : list ChunkPayloadData :=
  [sample_fragment true false false 0 [1]; sample_fragment false true false 0 [2]].
Definition sample_unordered : list ChunkPayloadData := [sample_fragment true true true 1 [3]].

Definition sample_half_sent : PendingQueue :=
  mkPendingQueue [] [sample_fragment false true false 0 [2]] 1 1 true false.

Lemma sample_run :
  pn_run [Popped (sample_fragment true false false 0 [1])] (fold_left pn_push sample_unordered sample_half_sent).
Proof.
  eapply (run_push _ _ true); [|repeat constructor|vm_compute; reflexivity].
  eapply (run_pop []); [eapply (run_push _ _ false sample_ordered);
    [constructor|repeat constructor|vm_compute; reflexivity]|vm_compute; reflexivity|vm_compute; reflexivity].
Qed.

(** The ordered message is continued before the unordered one starts. *)
Example sample_peek :
  pn_peek (fold_left pn_push sample_unordered sample_half_sent) = Some (sample_fragment false true false 0 [2]).
Proof. vm_compute. reflexivity. Qed.

Lemma pending_queue_uninterrupted_witness :
  ∃ st, uninterrupted None [Popped (sample_fragment true false false 0 [1])] = Some st.
Proof. exact (proj1 (pending_queue_uninterrupted _ _ sample_run)). Defined.
