(* ===== verification/OutboundQueue.v ===== *)
(** * The sender's queue ([src/queue/outbound_queue.rs])

    [OutboundQueue] moves chunks from the pending queue to the chunks in
    flight, giving each the next TSN, and abandons messages under partial
    reliability: all fragments of the message, sent or not, are released, and
    an unsent tail reserves one terminal TSN. *)

From stdpp Require Import base list gmap numbers sets.
From Stdlib Require Import ZArith Lia ZifyBool.
From S2P Require Import Prelude Bytes Util Params Chunks PayloadQueue PendingQueue.

Record OutboundQueue := mkOutboundQueue {
  pending : PendingQueue;
  inflight : PayloadQueue;
  next_message_id : u64;
  next_unstarted_message_id : u64;
}.

#[export] Instance OutboundQueue_eta : Eta OutboundQueue := λ q,
  mkOutboundQueue (pending q) (inflight q) (next_message_id q) (next_unstarted_message_id q).
#[export] Instance upd_pending : Update pending. Proof. solve_update. Defined.
#[export] Instance upd_inflight : Update inflight. Proof. solve_update. Defined.
#[export] Instance upd_next_message_id : Update next_message_id. Proof. solve_update. Defined.
#[export] Instance upd_next_unstarted_message_id : Update next_unstarted_message_id. Proof. solve_update. Defined.

Definition OutboundQueue_default : OutboundQueue := mkOutboundQueue PendingQueue_new PayloadQueue_new 0 0.

(** ** Operations *)

(** [expect("message ID exhausted")] *)
Definition oq_push (q : OutboundQueue) (chunks : list ChunkPayloadData) : Outcome OutboundQueue :=
  match chunks with
  | [] => Ok q
  | _ =>
      let id := next_message_id q in
      next ← checked_add 64 id 1;
      Ok (q <| next_message_id := next |>
            <| pending ::= fold_left pn_push ((λ c, c <| message_id := id |>) <$> chunks) |>)
  end.

Definition peek_pending (q : OutboundQueue) : option ChunkPayloadData := pn_peek (pending q).

Definition start_timed_messages (q : OutboundQueue) (now : Instant) : OutboundQueue :=
  if negb (next_unstarted_message_id q =? next_message_id q)
  then q <| pending ::= λ p, pn_start_timed_messages p (next_unstarted_message_id q) now |>
         <| next_unstarted_message_id := next_message_id q |>
  else q.

(** [deadline.is_some_and(|deadline| now >= deadline)] *)
Definition past_deadline (now : Instant) (c : ChunkPayloadData) : bool :=
  match deadline c with Some d => now >=? d | None => false end.

Definition is_dcep (c : ChunkPayloadData) : bool := bool_decide (payload_type c = Dcep).

Definition expire_pending (q : OutboundQueue) (now : Instant) : Outcome (option (u16 * bool * usize) * OutboundQueue) :=
  match pn_peek (pending q) with
  | None => Ok (None, q)
  | Some chunk =>
      if negb (beginning_fragment chunk) || (len (user_data chunk) =? 0) || is_dcep chunk
         || negb (past_deadline now chunk)
      then Ok (None, q)
      else
        '(bytes, _, p) ← remove_message (pending q) (message_id chunk);
        let p := if negb (unordered chunk) then compact_ordered_ssns p (stream_identifier chunk) else p in
        Ok (Some (stream_identifier chunk, unordered chunk, bytes), q <| pending := p |>)
  end.

(** The TSN counter is the caller's [&mut u32]. *)
Definition send_next (q : OutboundQueue) (next_tsn : u32) (now : Instant)
    : Outcome (option ChunkPayloadData * u32 * OutboundQueue) :=
  let q := start_timed_messages q now in
  match pn_peek (pending q) with
  | None => Ok (None, next_tsn, q)
  | Some c =>
      '(popped, p) ← pn_pop (pending q) (beginning_fragment c) (unordered c);
      let q := q <| pending := p |> in
      match popped with
      | None => Ok (None, next_tsn, q)
      | Some chunk =>
          let chunk := chunk <| tsn := next_tsn |> <| since := Some now |> <| nsent := 1 |> in
          Ok (Some chunk, wrapping_add 32 next_tsn 1, q <| inflight ::= λ i, push_no_check i chunk |>)
      end
  end.

Definition oq_get (q : OutboundQueue) (t : u32) : option ChunkPayloadData := pq_get (inflight q) t.

Definition oq_get_mut (q : OutboundQueue) (t : u32) (f : ChunkPayloadData → ChunkPayloadData) : OutboundQueue :=
  q <| inflight ::= λ i, pq_get_mut i t f |>.

Definition oq_pop (q : OutboundQueue) (t : u32) : option ChunkPayloadData * OutboundQueue :=
  let '(c, i) := pq_pop (inflight q) t in (c, q <| inflight := i |>).

Definition oq_mark_as_acked (q : OutboundQueue) (t : u32) : Outcome (usize * OutboundQueue) :=
  '(n, i) ← pq_mark_as_acked (inflight q) t; Ok (n, q <| inflight := i |>).

Definition is_abandoned (q : OutboundQueue) (t : u32) : bool :=
  match pq_get (inflight q) t with Some c => abandoned c | None => false end.

(** The empty marker that stands for the unsent tail of an abandoned message. *)
Definition terminal_marker (next_tsn : u32) (c : ChunkPayloadData) : ChunkPayloadData :=
  c <| user_data := [] |> <| tsn := next_tsn |> <| beginning_fragment := false |> <| ending_fragment := true |>
    <| abandoned := true |> <| retransmit := false |>.

Definition oq_abandon_message (q : OutboundQueue) (id : u64) (stream : u16) (next_tsn : u32)
    : Outcome (option (u16 * usize) * u32 * OutboundQueue) :=
  '(inflight_bytes, i) ← pq_abandon_message (inflight q) id;
  '(bytes, removed, p) ← remove_message (pending q) id;
  let q := q <| inflight := i |> <| pending := p |> in
  match last removed with
  | Some chunk =>
      Ok (Some (stream, bytes + inflight_bytes), wrapping_add 32 next_tsn 1,
          q <| inflight ::= λ i, push_no_check i (terminal_marker next_tsn chunk) |>)
  | None => Ok (Some (stream, bytes + inflight_bytes), next_tsn, q)
  end.

Definition oq_abandon (q : OutboundQueue) (t next_tsn : u32) : Outcome (option (u16 * usize) * u32 * OutboundQueue) :=
  match pq_get (inflight q) t with
  | None => Ok (None, next_tsn, q)
  | Some chunk =>
      if abandoned chunk then Ok (Some (stream_identifier chunk, 0), next_tsn, q)
      else oq_abandon_message q (message_id chunk) (stream_identifier chunk) next_tsn
  end.

Definition expire_pending_tail (q : OutboundQueue) (now : Instant) (next_tsn : u32)
    : Outcome (option (u16 * u64 * usize) * u32 * OutboundQueue) :=
  match pn_peek (pending q) with
  | None => Ok (None, next_tsn, q)
  | Some chunk =>
      if beginning_fragment chunk || is_dcep chunk || negb (past_deadline now chunk)
      then Ok (None, next_tsn, q)
      else
        '(r, next_tsn, q) ← oq_abandon_message q (message_id chunk) (stream_identifier chunk) next_tsn;
        Ok (option_map (λ '(id, bytes), (id, message_id chunk, bytes)) r, next_tsn, q)
  end.

Definition expired_inflight (q : OutboundQueue) (now : Instant) : list u32 :=
  filter (λ t, match pq_get (inflight q) t with
               | Some c => negb (abandoned c) && past_deadline now c &&
                           (negb (acked c) || contains_message (pending q) (message_id c))
               | None => false
               end = true) (sorted (inflight q)).

Definition oq_mark_all_to_retransmit (q : OutboundQueue) : OutboundQueue :=
  q <| inflight ::= pq_mark_all_to_retransmit |>.

Definition pending_contains_stream (q : OutboundQueue) (sid : u16) : bool := pn_contains_stream (pending q) sid.
Definition oq_contains_stream (q : OutboundQueue) (sid : u16) : bool :=
  pending_contains_stream q sid || pq_contains_stream (inflight q) sid.
Definition pending_len (q : OutboundQueue) : usize := pn_len (pending q).
Definition pending_bytes (q : OutboundQueue) : usize := pn_get_num_bytes (pending q).

Definition earliest_outstanding_tsn (q : OutboundQueue) : option u32 :=
  head (filter (λ t, match pq_get (inflight q) t with
                     | Some c => negb (acked c) && negb (abandoned c)
                     | None => false
                     end = true) (sorted (inflight q))).

Definition inflight_len (q : OutboundQueue) : usize := pq_len (inflight q).
Definition inflight_bytes (q : OutboundQueue) : usize := pq_get_num_bytes (inflight q).

(** ** Invariant

    [base] is the sender's cumulative acknowledgement point; the TSNs in
    flight lie between it and the next TSN, less than half the circle ahead. *)

Record oq_inv (base next_tsn : u32) (q : OutboundQueue) : Prop := mk_oq_inv {
  oi_inflight : pq_inv base (inflight q);
  oi_pending : ∃ st, pn_inv (pending q) st;
  oi_next : uN 32 next_tsn;
  oi_sent : ∀ t, t ∈ sorted (inflight q) → dist32 base t < dist32 base next_tsn;
}.

Lemma oq_inv_default base : uN 32 base → oq_inv base (wrapping_add 32 base 1) OutboundQueue_default.
Proof.
  intros. constructor; cbn; [by apply pq_inv_new|exists None; apply pn_inv_new|by apply wrap_uN|].
  intros t Ht. by apply not_elem_of_nil in Ht.
Qed.

Lemma start_timed_messages_inv base nt q now : oq_inv base nt q → oq_inv base nt (start_timed_messages q now).
Proof.
  intros [H1 [st H2] H3 H4]. unfold start_timed_messages. destruct (negb _); constructor; cbn; try done; [|by exists st].
  exists st. by apply pn_start_timed_messages_inv.
Qed.

(** A fresh TSN enters the flight. *)
Lemma inflight_push_inv base nt i c :
  pq_inv base i → uN 32 nt → (∀ t, t ∈ sorted i → dist32 base t < dist32 base nt) →
  dist32 base nt < 2 ^ 31 → tsn c = nt →
  pq_inv base (push_no_check i c) ∧
  (∀ t, t ∈ sorted (push_no_check i c) → dist32 base t < dist32 base (wrapping_add 32 nt 1)) ∧
  chunk_map i !! nt = None.
Proof.
  intros Hi Hu Hs Hw <-. pose proof (inv_base _ _ Hi) as Hb.
  assert (chunk_map i !! tsn c = None) as Hnone.
  { destruct (chunk_map i !! tsn c) eqn:E; [|done]. assert (tsn c ∈ sorted i) as Hin by (apply (inv_dom _ _ Hi); eauto).
    specialize (Hs _ Hin). lia. }
  assert (dist32 base (wrapping_add 32 (tsn c) 1) = dist32 base (tsn c) + 1) as Hd by (clear -Hb Hu Hw; sna).
  split_and!; [by apply push_no_check_inv| |done]. intros t Ht. rewrite Hd. cbn -[sort_by] in Ht.
  rewrite sort_by_Permutation in Ht. apply elem_of_app in Ht as [Ht| ->%list_elem_of_singleton]; [|lia].
  specialize (Hs t Ht). lia.
Qed.

(** The chunk [send_next] makes of a pending one. *)
Definition as_sent (nt : u32) (now : Instant) (c : ChunkPayloadData) : ChunkPayloadData :=
  c <| tsn := nt |> <| since := Some now |> <| nsent := 1 |>.

Lemma send_next_Ok base nt q now :
  oq_inv base nt q → dist32 base nt < 2 ^ 31 → 0 < pending_len q →
  ∃ c q', send_next q nt now = Ok (Some (as_sent nt now c), wrapping_add 32 nt 1, q') ∧
    peek_pending (start_timed_messages q now) = Some c ∧
    oq_inv base (wrapping_add 32 nt 1) q' ∧
    oq_get q nt = None ∧
    (∀ t, oq_get q' t = if t =? nt then Some (as_sent nt now c) else oq_get q t) ∧
    pending_bytes q = pending_bytes q' + data_len c ∧ inflight_bytes q' = inflight_bytes q + data_len c ∧
    pending_len q = pending_len q' + 1.
Proof.
  intros Hq Hw Hl. pose proof (start_timed_messages_inv _ _ _ now Hq) as Hq'.
  assert (pending_bytes (start_timed_messages q now) = pending_bytes q ∧
    pending_len (start_timed_messages q now) = pending_len q ∧
    inflight (start_timed_messages q now) = inflight q) as (E1 & E2 & E3)
    by (unfold start_timed_messages; destruct (negb _); done).
  rewrite <- E2 in Hl. unfold send_next. set (q1 := start_timed_messages q now) in *.
  destruct Hq' as [Hi [st Hp] Hn Hs]. destruct (pn_peek_nonempty _ _ Hp Hl) as [c Hc]. rewrite Hc.
  destruct (pn_pop_peek _ _ _ Hp Hc) as (p & st' & -> & _ & Hp' & Hu & Ho). cbn [mbind Outcome_bind].
  destruct (inflight_push_inv base nt (inflight q1) (as_sent nt now c)) as (Hpi & Hps & Hnone); try done.
  exists c. eexists. split; [done|]. split; [exact Hc|]. split.
  { constructor; cbn; [done|by exists st'|by apply wrap_uN|done]. }
  rewrite <- E1, <- E2. unfold pending_bytes, pending_len, pn_get_num_bytes, pn_len, inflight_bytes, oq_get, pq_get.
  rewrite <- E3. split_and!; [done|..].
  - intros t. cbn. destruct (Z.eqb_spec t nt) as [->|]; [by rewrite lookup_insert_eq|by rewrite lookup_insert_ne by congruence].
  - cbn. rewrite (pi_bytes _ _ Hp), (pi_bytes _ _ Hp'), Hu, Ho. rewrite !sum_with_app.
    destruct (unordered c); unfold sum_with; simpl; lia.
  - done.
  - cbn. rewrite (pi_len _ _ Hp), (pi_len _ _ Hp'), Hu, Ho. rewrite !len_app. destruct (unordered c); unfold len; simpl; lia.
Qed.

(** Claim C31.  Sending moves the chunk the pending queue offers into the flight under the next TSN: it is
    found there, the TSN counter advances by one, and its bytes move from the pending to the
    in-flight count.  With pending data a chunk is always sent. *)
Theorem send_next_spec base nt q now :
  oq_inv base nt q → dist32 base nt < 2 ^ 31 → 0 < pending_len q →
  ∃ c q', send_next q nt now = Ok (Some (as_sent nt now c), wrapping_add 32 nt 1, q') ∧
    peek_pending (start_timed_messages q now) = Some c ∧
    oq_inv base (wrapping_add 32 nt 1) q' ∧
    oq_get q nt = None ∧
    (∀ t, oq_get q' t = if t =? nt then Some (as_sent nt now c) else oq_get q t) ∧
    pending_bytes q = pending_bytes q' + data_len c ∧ inflight_bytes q' = inflight_bytes q + data_len c ∧
    pending_len q = pending_len q' + 1.
Proof. apply send_next_Ok. Qed.

(** ** Abandonment *)

Lemma contains_message_spec p id : contains_message p id = true ↔ message_chunks p id ≠ [].
Proof.
  unfold contains_message, message_chunks. rewrite existsb_exists. split.
  - intros (c & Hc & Hid) He. apply list_elem_of_In, elem_of_app in Hc.
    assert (c ∈ @nil ChunkPayloadData) as Hn; [|by apply not_elem_of_nil in Hn].
    rewrite <- He, elem_of_app, !list_elem_of_filter. tauto.
  - destruct (filter _ (ordered_queue p) ++ _) as [|c l] eqn:E; [done|]. intros _.
    assert (c ∈ c :: l) as Hc by left. rewrite <- E, elem_of_app, !list_elem_of_filter in Hc.
    exists c. split; [apply list_elem_of_In, elem_of_app; tauto|tauto].
Qed.

(** What the sender still holds of a message, sent or not. *)
Definition message_bytes (q : OutboundQueue) (id : u64) : Z :=
  sum_with data_len (message_chunks (pending q) id) + bytes_where (has_id id) (chunk_map (inflight q)).

Definition released_chunk (c : ChunkPayloadData) : Prop :=
  abandoned c = true ∧ user_data c = [] ∧ retransmit c = false.

(** The effect of giving up message [id]. *)
Record abandoned_from (q q' : OutboundQueue) (id : u64) (nt nt' : u32) : Prop := mk_abandoned_from {
  ab_pending : contains_message (pending q') id = false;
  ab_inflight : ∀ t c, oq_get q' t = Some c → message_id c = id → released_chunk c;
  ab_others : ∀ t c, oq_get q t = Some c → message_id c ≠ id → oq_get q' t = Some c;
  ab_bytes : pending_bytes q + inflight_bytes q = pending_bytes q' + inflight_bytes q' + message_bytes q id;
  ab_tail : contains_message (pending q) id = true → nt' = wrapping_add 32 nt 1 ∧
    ∃ c, oq_get q' nt = Some c ∧ message_id c = id ∧ ending_fragment c = true ∧ released_chunk c;
  ab_no_tail : contains_message (pending q) id = false → nt' = nt;
}.

Lemma contains_removed p p' id :
  unordered_queue p' = filter (λ c, has_id id c = false) (unordered_queue p) →
  ordered_queue p' = filter (λ c, has_id id c = false) (ordered_queue p) → contains_message p' id = false.
Proof.
  intros Hu Ho. apply not_true_iff_false. unfold contains_message. rewrite existsb_exists, Hu, Ho.
  intros (c & Hc & Hid). apply list_elem_of_In, elem_of_app in Hc. rewrite !list_elem_of_filter in Hc.
  destruct Hc as [[? _]|[? _]]; congruence.
Qed.

Lemma message_chunks_id p id c : c ∈ message_chunks p id → message_id c = id.
Proof. unfold message_chunks, has_id. rewrite elem_of_app, !list_elem_of_filter. lia. Qed.

Lemma oq_abandon_message_spec base nt q id sid :
  oq_inv base nt q → dist32 base nt < 2 ^ 31 →
  ∃ nt' q', oq_abandon_message q id sid nt = Ok (Some (sid, message_bytes q id), nt', q') ∧
    oq_inv base nt' q' ∧ abandoned_from q q' id nt nt'.
Proof.
  intros [Hi [st Hp] Hn Hs] Hw. unfold oq_abandon_message.
  destruct (pq_abandon_message_Ok _ _ id Hi) as (i & -> & Hi' & Hsort & Hmap & Hib). cbn [mbind Outcome_bind].
  destruct (remove_message_Ok _ _ id Hp) as (p & -> & Hp' & Hu & Ho & Hpb). cbn [mbind Outcome_bind].
  change (λ c, message_id c =? id) with (has_id id) in *. rewrite <- Hsort in Hs.
  assert (∀ t c, chunk_map i !! t = Some c → message_id c = id → released_chunk c) as Hrel.
  { intros t c. rewrite Hmap, lookup_fmap_Some. intros (c' & <- & _). destruct (Z.eqb_spec (message_id c') id); done. }
  assert (∀ t c, chunk_map (inflight q) !! t = Some c → message_id c ≠ id → chunk_map i !! t = Some c) as Hoth.
  { intros t c Hc Hne. rewrite Hmap, lookup_fmap, Hc. cbn. by destruct (Z.eqb_spec (message_id c) id). }
  pose proof (contains_removed _ _ _ Hu Ho) as Hcr.
  destruct (last (message_chunks (pending q) id)) as [c|] eqn:El.
  - assert (message_id c = id) as Hid by (apply (message_chunks_id (pending q)), last_Some_elem_of; done).
    assert (contains_message (pending q) id = true) as Hct
      by (apply contains_message_spec; intros E; by rewrite E in El).
    destruct (inflight_push_inv base nt i (terminal_marker nt c)) as (Hpi & Hps & Hnone); try done.
    eexists _, _. split; [done|]. split; [constructor; cbn; [done|by eauto|by apply wrap_uN|done]|].
    constructor; cbn; try done.
    + intros t c' Hc'. unfold oq_get, pq_get in Hc'. cbn in Hc'.
      apply lookup_insert_Some in Hc' as [[<- <-]|[? ?]]; [done|by eauto].
    + intros t c' Hc' Hne. unfold oq_get, pq_get. cbn. specialize (Hoth _ _ Hc' Hne).
      rewrite lookup_insert_ne; [done|]. intros <-. congruence.
    + unfold pending_bytes, inflight_bytes, pn_get_num_bytes, pq_get_num_bytes, message_bytes. cbn -[sum_with data_len terminal_marker].
      assert (data_len (terminal_marker nt c) = 0) as -> by done. lia.
    + intros _. split; [done|]. exists (terminal_marker nt c). split; [|done].
      unfold oq_get, pq_get. cbn. apply lookup_insert_eq.
    + congruence.
  - assert (contains_message (pending q) id = false) as Hct.
    { apply not_true_iff_false. rewrite contains_message_spec. intros H. by apply last_None in El. }
    eexists _, _. split; [done|]. split; [constructor; cbn; [done|by eauto|done|done]|].
    constructor; cbn; try done; try congruence.
    unfold pending_bytes, inflight_bytes, pn_get_num_bytes, pq_get_num_bytes, message_bytes. cbn -[sum_with]. lia.
Qed.

(** Claim C30.  Abandoning the message of an outstanding TSN gives up all of it at once: no fragment stays
    pending, every fragment in flight is released and excluded from retransmission, other
    messages are untouched, the bytes returned are exactly what the queues give back, and an
    unsent tail is replaced by one empty terminal chunk under the next TSN.  An unknown TSN or
    an already abandoned message changes nothing. *)
Theorem outbound_abandon_spec base nt q t :
  oq_inv base nt q → dist32 base nt < 2 ^ 31 →
  match oq_get q t with
  | Some c =>
      if abandoned c then oq_abandon q t nt = Ok (Some (stream_identifier c, 0), nt, q)
      else ∃ nt' q',
        oq_abandon q t nt = Ok (Some (stream_identifier c, message_bytes q (message_id c)), nt', q') ∧
        oq_inv base nt' q' ∧ abandoned_from q q' (message_id c) nt nt'
  | None => oq_abandon q t nt = Ok (None, nt, q)
  end.
Proof.
  intros Hq Hw. unfold oq_abandon, oq_get. destruct (pq_get (inflight q) t) as [c|]; [|done].
  destruct (abandoned c); [done|]. by apply oq_abandon_message_spec.
Qed.

(** ** Expiry before the first transmission *)

(** The first fragments of the ordered messages waiting on a stream. *)
Definition waiting (q : OutboundQueue) (sid : u16) : list ChunkPayloadData :=
  filter (λ c, beginning_fragment c = true ∧ stream_identifier c = sid) (ordered_queue (pending q)).

(** Their sequence numbers follow each other from [s0], modulo 2^16. *)
Definition consecutive_ssns (s0 : u16) (l : list ChunkPayloadData) : Prop :=
  ∀ (i : nat) c, l !! i = Some c → stream_sequence_number c = wrap 16 (s0 + Z.of_nat i).

Definition unique_ids (q : OutboundQueue) : Prop :=
  NoDup (message_id <$> filter (λ c, beginning_fragment c = true) (ordered_queue (pending q))).

Lemma filter_keep_all {A} (P Q : A → Prop) `{!∀ x, Decision (P x), !∀ x, Decision (Q x)} (l : list A) :
  (∀ x, x ∈ l → P x → Q x) → filter P (filter Q l) = filter P l.
Proof.
  induction l as [|x l IH]; intros Hl; [done|]. rewrite !filter_cons.
  assert (filter P (filter Q l) = filter P l) as IH' by (apply IH; intros; apply Hl; [by right|done]).
  destruct (decide (Q x)) as [HQ|HQ]; rewrite ?filter_cons, IH'; [done|].
  destruct (decide (P x)) as [HP|]; [|done]. destruct HQ. apply Hl; [left|done].
Qed.

Lemma filter_fmap_keep {A} (P : A → Prop) `{!∀ x, Decision (P x)} (f : A → A) (l : list A) :
  (∀ x, P (f x) ↔ P x) → filter P (f <$> l) = f <$> filter P l.
Proof.
  intros Hf. induction l as [|x l IH]; [done|]. rewrite fmap_cons, !filter_cons, IH.
  destruct (decide (P x)), (decide (P (f x))); naive_solver.
Qed.

Definition compact (sid : u16) (c : ChunkPayloadData) : ChunkPayloadData :=
  if stream_identifier c =? sid then c <| stream_sequence_number ::= λ n, wrapping_sub 16 n 1 |> else c.

(** The head of the ordered queue, when it is what [peek] gives and starts a message. *)
Lemma peek_ordered_head p st c :
  pn_inv p st → pn_peek p = Some c → unordered c = false → ∃ l, ordered_queue p = c :: l.
Proof.
  intros [_ _ Hu _ _] Hp Hc. unfold pn_peek in Hp.
  assert (head (unordered_queue p) ≠ Some c) as Hne.
  { destruct (unordered_queue p) as [|c' l]; [done|]. intros [= ->]. apply Forall_cons in Hu as [? _]. congruence. }
  destruct (ordered_queue p) as [|c' l] eqn:Eo; cbn in Hp.
  - destruct (selected p), (unordered_is_selected p), (head (unordered_queue p)); congruence.
  - exists l. destruct (selected p), (unordered_is_selected p), (head (unordered_queue p)); congruence.
Qed.

Lemma waiting_after_expiry q st p c l sid :
  pn_inv (pending q) st → unique_ids q → ordered_queue (pending q) = c :: l → beginning_fragment c = true →
  ordered_queue p = filter (λ x, has_id (message_id c) x = false) (ordered_queue (pending q)) →
  waiting (q <| pending := compact_ordered_ssns p (stream_identifier c) |>) sid =
  compact (stream_identifier c) <$> (if stream_identifier c =? sid then tail (waiting q sid) else waiting q sid).
Proof.
  intros Hp Hid Hq Hb Ho. unfold waiting, unique_ids in *. cbn. rewrite Ho, Hq in *.
  rewrite filter_cons_True in Hid by done. cbn in Hid. apply NoDup_cons in Hid as [Hid _].
  rewrite (filter_fmap_keep _ (compact (stream_identifier c)))
    by (intros x; unfold compact; destruct (stream_identifier x =? _); done).
  f_equal. rewrite (filter_cons_False _ c) by (unfold has_id; lia).
  rewrite filter_keep_all.
  - rewrite filter_cons. destruct (Z.eqb_spec (stream_identifier c) sid).
    + by rewrite decide_True.
    + rewrite decide_False; [done|]. intros [_ ?]. done.
  - intros x Hx [Hbx _]. unfold has_id. apply Z.eqb_neq. intros E. apply Hid. rewrite <- E.
    apply list_elem_of_fmap_2, list_elem_of_filter. done.
Qed.

(** Claim C32.  When an ordered message expires before any of it was sent, its sequence number is reused:
    the messages waiting on its stream close up from the same number without a gap, the
    other streams keep theirs, and exactly the message's bytes are released. *)
Theorem expire_pending_no_ssn_gap base nt q now sid bytes q' s0 :
  oq_inv base nt q → unique_ids q → consecutive_ssns s0 (waiting q sid) →
  expire_pending q now = Ok (Some (sid, false, bytes), q') →
  oq_inv base nt q' ∧ consecutive_ssns s0 (waiting q' sid) ∧
  length (waiting q sid) = S (length (waiting q' sid)) ∧
  (∀ sid', sid' ≠ sid → waiting q' sid' = waiting q sid') ∧
  pending_bytes q = pending_bytes q' + bytes.
Proof.
  intros [Hi [st Hp] Hn Hs] Hid Hssn. unfold expire_pending.
  destruct (pn_peek (pending q)) as [c|] eqn:Ec; [|done].
  destruct (negb (beginning_fragment c) || _ || _ || _) eqn:Eg; [done|].
  destruct (remove_message_Ok _ _ (message_id c) Hp) as (p & -> & Hp' & Hu & Ho & Hb). cbn [mbind Outcome_bind].
  intros [= Hsid Hun <- <-]. rewrite Hun, Hsid. cbn [negb].
  assert (beginning_fragment c = true) as Hbeg by (destruct (beginning_fragment c); done).
  destruct (peek_ordered_head _ _ _ Hp Ec Hun) as [l Hl].
  pose proof (waiting_after_expiry q st p c l) as Hw. rewrite Hsid in Hw.
  split; [constructor; cbn; [done|eexists; by apply compact_ordered_ssns_inv|done|done]|].
  assert (waiting q sid = c :: tail (waiting q sid)) as Hc.
  { unfold waiting. rewrite Hl, filter_cons_True by done. done. }
  split_and!.
  - rewrite Hw, Z.eqb_refl by done. intros i x. rewrite list_lookup_fmap_Some. intros (y & -> & Hy).
    specialize (Hssn (S i) y). rewrite Hc in Hssn. specialize (Hssn Hy).
    assert (stream_identifier y = sid) as Hys.
    { assert (y ∈ waiting q sid) as Hin by (rewrite Hc; right; by eapply list_elem_of_lookup_2).
      unfold waiting in Hin. apply list_elem_of_filter in Hin. tauto. }
    unfold compact. rewrite Hys, Z.eqb_refl. cbn. rewrite Hssn. unfold wrapping_sub, wrap.
    rewrite Zminus_mod_idemp_l. f_equal. lia.
  - rewrite Hw, Z.eqb_refl, length_fmap by done. rewrite Hc at 1. done.
  - intros sid' Hne. rewrite Hw by done. destruct (Z.eqb_spec sid sid'); [congruence|].
    rewrite <- (list_fmap_id (waiting q sid')) at 2. apply list_fmap_ext. intros i x Hx.
    apply list_elem_of_lookup_2 in Hx. unfold waiting in Hx. apply list_elem_of_filter in Hx as [[_ Hx] _].
    unfold compact. destruct (Z.eqb_spec (stream_identifier x) sid); [congruence|done].
  - unfold pending_bytes, pn_get_num_bytes. cbn -[sum_with]. lia.
Qed.

(** ** Queueing a message *)

Lemma head_Forall2 {A} (R : A → A → Prop) l l' x : Forall2 R l l' → head l = Some x → ∃ y, head l' = Some y ∧ R x y.
Proof. destruct 1; [done|]. intros [= <-]. eauto. Qed.

(** Stamping deadlines does not change which chunk is next. *)
Lemma peek_start_timed q now c :
  peek_pending q = Some c → ∃ c', peek_pending (start_timed_messages q now) = Some c' ∧ same_frame c c'.
Proof.
  unfold start_timed_messages, peek_pending. destruct (negb _); [|by eauto using same_frame_refl_chunk]. unfold pn_peek. cbn -[start_suffix].
  pose proof (start_suffix_same (next_unstarted_message_id q) now) as H.
  assert (∀ l, head l = None → head (start_suffix (next_unstarted_message_id q) now l) = None) as Hnil by (by intros []).
  destruct (selected (pending q)); [destruct (unordered_is_selected (pending q)); by apply head_Forall2|].
  destruct (head (unordered_queue (pending q))) as [x|] eqn:E.
  - intros [= ->]. destruct (head_Forall2 _ _ _ _ (H _) E) as (y & -> & ?). eauto.
  - rewrite (Hnil _ E). by apply head_Forall2.
Qed.

Lemma pn_peek_elem p c : pn_peek p = Some c → c ∈ unordered_queue p ++ ordered_queue p.
Proof.
  assert (∀ l, head l = Some c → c ∈ l) as H by (intros [|x l]; [done|intros [= ->]; left]).
  unfold pn_peek. rewrite elem_of_app. destruct (selected p); [destruct (unordered_is_selected p); auto|].
  destruct (head (unordered_queue p)) eqn:E; [intros [= <-]|]; auto.
Qed.

Lemma filter_id_shorter id c l :
  c ∈ l → message_id c = id → (length (filter (λ c, has_id id c = false) l) < length l)%nat.
Proof.
  intros Hc Hid. induction l as [|x l IH]; [by apply not_elem_of_nil in Hc|]. rewrite filter_cons.
  pose proof (length_filter (λ c, has_id id c = false) l).
  apply elem_of_cons in Hc as [<-|Hc]; [rewrite decide_False by (unfold has_id; lia); cbn; lia|].
  specialize (IH Hc). case_decide; cbn; lia.
Qed.

Definition pending_count (q : OutboundQueue) : nat :=
  length (unordered_queue (pending q) ++ ordered_queue (pending q)).

Lemma pending_count_len base nt q : oq_inv base nt q → pending_len q = Z.of_nat (pending_count q).
Proof.
  intros [_ [st Hp] _ _]. unfold pending_len, pn_len, pending_count. rewrite (pi_len _ _ Hp), length_app. unfold len. lia.
Qed.

(** Looking for an expired message always succeeds and drops at least one chunk when it finds one. *)
Lemma expire_pending_Ok base nt q now :
  oq_inv base nt q →
  ∃ r q', expire_pending q now = Ok (r, q') ∧ oq_inv base nt q' ∧ inflight q' = inflight q ∧
    match r with Some _ => (pending_count q' < pending_count q)%nat | None => q' = q end.
Proof.
  intros Hq. pose proof Hq as [Hi [st Hp] Hn Hs]. unfold expire_pending.
  destruct (pn_peek (pending q)) as [c|] eqn:Ec; [|by eauto 10].
  destruct (negb (beginning_fragment c) || _ || _ || _); [by eauto 10|].
  destruct (remove_message_Ok _ _ (message_id c) Hp) as (p & -> & Hp' & Hu & Ho & _). cbn [mbind Outcome_bind].
  eexists _, _. split; [done|]. split; [|split; [by destruct (negb _)|]].
  - constructor; cbn; [done| |done|done]. eexists. destruct (negb _); [by apply compact_ordered_ssns_inv|done].
  - assert (pending_count (q <| pending := if negb (unordered c) then compact_ordered_ssns p (stream_identifier c) else p |>)
            = length (unordered_queue p ++ ordered_queue p)) as ->.
    { unfold pending_count. cbn. destruct (negb _); [|done]. cbn. by rewrite !length_app, length_fmap. }
    unfold pending_count. rewrite Hu, Ho, <- filter_app. eapply filter_id_shorter; [by apply pn_peek_elem|done].
Qed.

Lemma frames_tail id cs :
  (∀ (i : nat) c, cs !! i = Some c → message_id c = id ∧ beginning_fragment c = false ∧
                        ending_fragment c = bool_decide (S i = length cs)) →
  cs ≠ [] → framed (Some id) cs.
Proof.
  induction cs as [|c cs IH]; [done|]. intros H _. destruct (H 0%nat c) as (Hid & Hb & He); [done|].
  apply framed_cons. eexists. split; [apply frame_next_Some; split_and!; [done|congruence|done]|].
  rewrite He, Hid. destruct cs as [|c' cs]; [done|]. apply IH; [|done]. intros i x Hx.
  destruct (H (S i) x Hx) as (? & ? & ->). split_and!; [done..|]. apply bool_decide_ext. simpl. lia.
Qed.

Lemma fragmented_framed u id cs :
  fragmented u cs → framed None ((λ c, c <| message_id := id |>) <$> cs).
Proof.
  intros [_ H]. destruct cs as [|c cs]; [done|]. rewrite fmap_cons.
  destruct (H 0%nat c) as (Hb & He); [done|].
  apply framed_cons. eexists. split; [apply frame_next_Some; split_and!; [done|done|done]|].
  cbn -[framed]. rewrite He. destruct cs as [|c' cs]; [done|]. apply frames_tail; [|done].
  intros i x. rewrite list_lookup_fmap_Some. intros (y & -> & Hy). destruct (H (S i) y Hy) as (? & E).
  cbn. rewrite E. split_and!; [done..|]. apply bool_decide_ext. rewrite length_fmap. simpl. lia.
Qed.

Lemma oq_push_Ok base nt q u cs :
  oq_inv base nt q → fragmented u cs → next_message_id q + 1 < 2 ^ 64 →
  ∃ q', oq_push q cs = Ok q' ∧ oq_inv base nt q' ∧ pending_bytes q' = pending_bytes q + sum_with data_len cs ∧
    pending_len q' = pending_len q + len cs ∧ inflight q' = inflight q.
Proof.
  intros [Hi [st Hp] Hn Hs] Hf Hid. unfold oq_push. destruct cs as [|c cs].
  { exists q. unfold sum_with, len. cbn. split_and!; try done; try lia. by constructor; eauto. }
  unfold checked_add. destruct (Z.ltb_spec (next_message_id q + 1) (2 ^ 64)); [|lia]. cbn [mbind Outcome_bind].
  set (cs' := _ <$> c :: cs).
  assert (Forall (λ c, unordered c = u) cs') as Hu by (apply Forall_fmap; apply (proj1 Hf)).
  pose proof (fragmented_framed u (next_message_id q) (c :: cs) Hf) as Hfr. fold cs' in Hfr.
  assert (∀ l, sum_with data_len ((λ c : ChunkPayloadData, c <| message_id := next_message_id q |>) <$> l)
    = sum_with data_len l) as Hsum by (induction l as [|a l IH]; [done|]; unfold sum_with in *; cbn -[data_len] in *; by rewrite IH).
  eexists. split; [done|]. split.
  { constructor; cbn -[fold_left]; try done. exists st. by eapply pn_push_message_inv. }
  unfold pending_bytes, pending_len, pn_get_num_bytes, pn_len. cbn -[fold_left sum_with len].
  rewrite (pn_push_all u) by done. cbn -[sum_with len].
  split_and!; [f_equal; apply (Hsum (c :: cs))|f_equal; exact (f_equal Z.of_nat (length_fmap _ (c :: cs)))|done].
Qed.

(** ** Sample: one message in flight, two waiting on stream 7. *)

Definition sample_message (ssn : u16) (data : Bytes) : list ChunkPayloadData :=
  [ChunkPayloadData_default <| beginning_fragment := true |> <| ending_fragment := true |>
     <| stream_identifier := 7 |> <| stream_sequence_number := ssn |> <| user_data := data |>
     <| reliability := Some (Timed, 10) |>].

Definition sample_half (ssn : u16) : list ChunkPayloadData :=
  [ChunkPayloadData_default <| beginning_fragment := true |> <| stream_identifier := 7 |>
     <| stream_sequence_number := ssn |> <| user_data := [1; 2] |>;
   ChunkPayloadData_default <| ending_fragment := true |> <| stream_identifier := 7 |>
     <| stream_sequence_number := ssn |> <| user_data := [3] |>].

Lemma sample_half_fragmented ssn : fragmented false (sample_half ssn).
Proof. split; [by repeat constructor|]. by intros [|[|[|]]] c [= <-]. Qed.

Lemma sample_pushed : ∃ q, oq_push OutboundQueue_default (sample_half 65535) = Ok q ∧ oq_inv 9 10 q ∧ 0 < pending_len q.
Proof.
  destruct (oq_push_Ok 9 10 OutboundQueue_default false (sample_half 65535)) as (q & E & Hq & _ & Hl & _).
  - apply (oq_inv_default 9). done.
  - apply sample_half_fragmented.
  - done.
  - exists q. split; [done|]. split; [done|]. by rewrite Hl.
Qed.

Lemma send_next_spec_witness :
  ∃ q c q', oq_push OutboundQueue_default (sample_half 65535) = Ok q ∧
    send_next q 10 0 = Ok (Some (as_sent 10 0 c), wrapping_add 32 10 1, q') ∧ oq_inv 9 (wrapping_add 32 10 1) q'.
Proof.
  destruct sample_pushed as (q & E & Hq & Hl).
  destruct (send_next_spec 9 10 q 0 Hq) as (c & q' & H1 & _ & H2 & _); [by vm_compute|exact Hl|].
  exists q, c, q'. done.
Defined.

(** The first fragment of message 0 is in flight under TSN 10, the second one is pending. *)
Definition sample_sent : OutboundQueue :=
  mkOutboundQueue (mkPendingQueue [] (tail (sample_half 65535)) 1 1 true false)
    (push_no_check PayloadQueue_new
      (ChunkPayloadData_default <| tsn := 10 |> <| beginning_fragment := true |> <| stream_identifier := 7 |>
         <| user_data := [1; 2] |>)) 1 1.

Lemma sample_sent_inv : oq_inv 9 11 sample_sent.
Proof.
  constructor.
  - apply push_no_check_inv; [by apply pq_inv_new|done..].
  - exists (Some 0). constructor; [done|done|constructor|by repeat constructor|done].
  - done.
  - intros t. cbn. intros ->%list_elem_of_singleton. by vm_compute.
Qed.

Lemma outbound_abandon_spec_witness :
  ∃ nt' q', oq_abandon sample_sent 10 11 = Ok (Some (7, 3), nt', q') ∧ oq_inv 9 nt' q' ∧
    abandoned_from sample_sent q' 0 11 nt'.
Proof.
  assert (dist32 9 11 < 2 ^ 31) as Hd by (by vm_compute).
  exact (outbound_abandon_spec 9 11 sample_sent 10 sample_sent_inv Hd).
Defined.

(** Two timed messages of stream 7 past their deadline, none of them sent. *)
Definition sample_waiting : OutboundQueue :=
  mkOutboundQueue (mkPendingQueue []
    ((λ c, c <| deadline := Some 5 |>) <$> sample_message 65535 [1] ++ ((λ c, c <| message_id := 1 |>) <$> sample_message 0 [2; 3]))
    2 3 false false) PayloadQueue_new 2 2.

Lemma sample_waiting_inv : oq_inv 9 10 sample_waiting.
Proof.
  constructor.
  - by apply pq_inv_new.
  - exists None. constructor; [done|done|constructor|by repeat constructor|done].
  - done.
  - intros t Ht. by apply not_elem_of_nil in Ht.
Qed.

Lemma expire_pending_no_ssn_gap_witness :
  ∃ q', expire_pending sample_waiting 6 = Ok (Some (7, false, 1), q') ∧
    oq_inv 9 10 q' ∧ consecutive_ssns 65535 (waiting q' 7).
Proof.
  eexists. split; [vm_compute; reflexivity|].
  match goal with |- oq_inv _ _ ?q ∧ _ =>
    assert (expire_pending sample_waiting 6 = Ok (Some (7, false, 1), q)) as E by (vm_compute; reflexivity);
    assert (unique_ids sample_waiting) as Hu
      by (apply (bool_decide_unpack _); vm_compute; exact I);
    assert (consecutive_ssns 65535 (waiting sample_waiting 7)) as Hc
      by (intros [|[|]] c Hx; vm_compute in Hx; [by injection Hx as <-..|done]);
    destruct (expire_pending_no_ssn_gap 9 10 sample_waiting 6 7 1 q 65535 sample_waiting_inv Hu Hc E)
      as (H1 & H2 & _); exact (conj H1 H2)
  end.
Defined.
