(* ===== verification/ReassemblyQueue.v ===== *)
(** * Reassembly ([src/queue/reassembly_queue.rs])

    [Chunks] collects the fragments of one message and is what the
    application reads; [ReassemblyQueue] is the inbound side of one stream:
    ordered messages by sequence number, complete unordered messages, and the
    fragments of unordered messages still incomplete. *)

From stdpp Require Import base list gmap numbers sets sorting.
From Stdlib Require Import ZArith Lia ZifyBool.
From S2P Require Import Prelude Bytes Util Params Chunks PayloadQueue.

Definition sort_chunks_by_tsn (c : list ChunkPayloadData) : list ChunkPayloadData :=
  sort_by (λ a b, sna32lt (tsn a) (tsn b)) c.

Record Chunks := mkChunks {
  ssn : u16;
  ppi : PayloadProtocolIdentifier;
  cs_chunks : list ChunkPayloadData;
  cs_offset : usize;
  cs_index : usize;
}.

Definition sort_chunks_by_ssn (c : list Chunks) : list Chunks := sort_by (λ a b, sna16lt (ssn a) (ssn b)) c.

#[export] Instance Chunks_eta : Eta Chunks := λ c, mkChunks (ssn c) (ppi c) (cs_chunks c) (cs_offset c) (cs_index c).
#[export] Instance upd_cs_chunks : Update cs_chunks. Proof. solve_update. Defined.
#[export] Instance upd_cs_offset : Update cs_offset. Proof. solve_update. Defined.
#[export] Instance upd_cs_index : Update cs_index. Proof. solve_update. Defined.

(** ** One message *)

Definition Chunks_len (s : Chunks) : usize := fold_left (λ l c, l + data_len c) (cs_chunks s) 0.
Definition Chunks_is_empty (s : Chunks) : bool := Chunks_len s =? 0.

(** [buf[i..i + data.len()].copy_from_slice(data)] *)
Definition copy_at (buf : Bytes) (i : usize) (data : Bytes) : Bytes :=
  range buf 0 i ++ data ++ range buf (i + len data) (len buf).

(** The buffer is the caller's: it is returned as the call leaves it. *)
Fixpoint read_loop (l : list ChunkPayloadData) (buf : Bytes) (n_written : usize) : Outcome usize * Bytes :=
  match l with
  | [] => (Ok n_written, buf)
  | c :: l' =>
      let to_copy := data_len c in
      let n := Z.min to_copy (len buf - n_written) in
      let buf := copy_at buf n_written (range (user_data c) 0 n) in
      if n <? to_copy then (Err ErrShortBuffer, buf) else read_loop l' buf (n_written + n)
  end.

Definition Chunks_read (s : Chunks) (buf : Bytes) : Outcome usize * Bytes := read_loop (cs_chunks s) buf 0.

(** The [while self.index < self.chunks.len()] of [next]: one iteration per chunk left. *)
Fixpoint next_loop (fuel : nat) (s : Chunks) (max_length : usize) (buf : Bytes) (n_written : usize)
    : Outcome (option Bytes * Chunks) :=
  match fuel with
  | O => Stuck
  | S fuel' =>
      if cs_index s <? len (cs_chunks s) then
        match cs_chunks s !! Z.to_nat (cs_index s) with
        | None => Panic
        | Some c =>
            rest ← index_range (user_data c) (cs_offset s) (data_len c);
            let to_copy := len rest in
            room ← checked_sub max_length n_written;
            let n := Z.min to_copy room in
            piece ← index_range (user_data c) (cs_offset s) (cs_offset s + n);
            let buf := buf ++ piece in
            if n <? to_copy then Ok (Some buf, s <| cs_offset ::= λ o, o + n |>)
            else next_loop fuel' (s <| cs_index ::= λ i, i + 1 |> <| cs_offset := 0 |>) max_length buf (n_written + n)
        end
      else Ok (Some buf, s)
  end.

Definition Chunks_next (s : Chunks) (max_length : usize) : Outcome (option Bytes * Chunks) :=
  if cs_index s >=? len (cs_chunks s) then Ok (None, s)
  else next_loop (S (length (cs_chunks s))) s max_length [] 0.

Definition Chunks_new (ssn : u16) (ppi : PayloadProtocolIdentifier) (chunks : list ChunkPayloadData) : Chunks :=
  mkChunks ssn ppi chunks 0 0.

(** The [for (i, c)] loop of [is_complete]. *)
Fixpoint contiguous_from (last_tsn : u32) (l : list ChunkPayloadData) : bool :=
  match l with
  | [] => true
  | c :: l' => if negb (tsn c =? wrapping_add 32 last_tsn 1) then false else contiguous_from (tsn c) l'
  end.

Definition is_complete (s : Chunks) : bool :=
  match cs_chunks s with
  | [] => false
  | c :: l =>
      if negb (beginning_fragment c) then false
      else match last (c :: l) with
           | Some e => if negb (ending_fragment e) then false else contiguous_from (tsn c) l
           | None => false
           end
  end.

Definition Chunks_push (s : Chunks) (chunk : ChunkPayloadData) : bool * Chunks :=
  if existsb (λ c, tsn c =? tsn chunk) (cs_chunks s) then (false, s)
  else
    let s := s <| cs_chunks ::= λ l, sort_chunks_by_tsn (l ++ [chunk]) |> in
    (is_complete s, s).

(** [windows(2).any(f)] *)
Fixpoint windows2_any {A} (f : A → A → bool) (l : list A) : bool :=
  match l with
  | a :: (b :: _) as l' => f a b || windows2_any f l'
  | _ => false
  end.

Definition is_missing_tsn_at_or_before (s : Chunks) (cumulative_tsn : u32) : bool :=
  match head (cs_chunks s), last (cs_chunks s) with
  | Some first, Some last =>
      if negb (beginning_fragment first) && sna32lte (wrapping_sub 32 (tsn first) 1) cumulative_tsn then true
      else if windows2_any (λ a b, let missing_tsn := wrapping_add 32 (tsn a) 1 in
                                   negb (missing_tsn =? tsn b) && sna32lte missing_tsn cumulative_tsn) (cs_chunks s)
      then true
      else negb (ending_fragment last) && sna32lte (wrapping_add 32 (tsn last) 1) cumulative_tsn
  | _, _ => false
  end.

(** ** The queue of a stream *)

Record ReassemblyQueue := mkReassemblyQueue {
  si : u16;
  next_ssn : u16;
  rq_ordered : list Chunks;
  rq_unordered : list Chunks;
  unordered_chunks : list ChunkPayloadData;
  rq_n_bytes : usize;
  rq_max_message_size : u32;
}.

#[export] Instance ReassemblyQueue_eta : Eta ReassemblyQueue := λ q,
  mkReassemblyQueue (si q) (next_ssn q) (rq_ordered q) (rq_unordered q) (unordered_chunks q) (rq_n_bytes q)
    (rq_max_message_size q).
#[export] Instance upd_next_ssn : Update next_ssn. Proof. solve_update. Defined.
#[export] Instance upd_rq_ordered : Update rq_ordered. Proof. solve_update. Defined.
#[export] Instance upd_rq_unordered : Update rq_unordered. Proof. solve_update. Defined.
#[export] Instance upd_unordered_chunks : Update unordered_chunks. Proof. solve_update. Defined.
#[export] Instance upd_rq_n_bytes : Update rq_n_bytes. Proof. solve_update. Defined.

Definition ReassemblyQueue_new (si : u16) (max_message_size : u32) : ReassemblyQueue :=
  mkReassemblyQueue si 0 [] [] [] 0 max_message_size.

(** [iter().find(|s| s.ssn == n)] *)
Definition find_ssn (n : u16) (l : list Chunks) : option Chunks := List.find (λ s, ssn s =? n) l.

Definition calculate_ordered_message_size (q : ReassemblyQueue) (new_chunk : ChunkPayloadData) : usize :=
  match find_ssn (stream_sequence_number new_chunk) (rq_ordered q) with
  | Some s => Chunks_len s + data_len new_chunk
  | None => 0 + data_len new_chunk
  end.

(** [iter().rposition(f)] *)
Fixpoint rposition {A} (f : A → bool) (l : list A) : option nat :=
  match l with
  | [] => None
  | x :: l' => match rposition f l' with
               | Some i => Some (S i)
               | None => if f x then Some 0%nat else None
               end
  end.

(** The [loop] over the preceding fragments, from index [p] down. *)
Fixpoint prefix_size (l : list ChunkPayloadData) (p : nat) (t : u32) (cnt : usize) : Outcome usize :=
  match l !! p with
  | None => Panic
  | Some c =>
      if tsn c =? wrapping_sub 32 t 1 then
        let cnt := cnt + data_len c in
        if beginning_fragment c then Ok cnt
        else match p with O => Ok cnt | S p' => prefix_size l p' (tsn c) cnt end
      else Ok cnt
  end.

(** The [while] over the following fragments: [l] is the list from index [p] on. *)
Fixpoint suffix_size (l : list ChunkPayloadData) (t : u32) (cnt : usize) : usize :=
  match l with
  | [] => cnt
  | c :: l' =>
      if tsn c =? wrapping_add 32 t 1 then
        let cnt := cnt + data_len c in
        if ending_fragment c then cnt else suffix_size l' (tsn c) cnt
      else cnt
  end.

Definition calculate_unordered_message_size (q : ReassemblyQueue) (new_chunk : ChunkPayloadData) : Outcome usize :=
  prefix ← (if beginning_fragment new_chunk then Ok 0
            else match rposition (λ f, tsn f =? wrapping_sub 32 (tsn new_chunk) 1) (unordered_chunks q) with
                 | Some p => prefix_size (unordered_chunks q) p (tsn new_chunk) 0
                 | None => Ok 0
                 end);
  let suffix :=
    if ending_fragment new_chunk then 0
    else match rposition (λ f, tsn f =? wrapping_add 32 (tsn new_chunk) 1) (unordered_chunks q) with
         | Some p => suffix_size (drop p (unordered_chunks q)) (tsn new_chunk) 0
         | None => 0
         end in
  Ok (prefix + data_len new_chunk + suffix).

(** The scan of [find_complete_unordered_chunk_set]: [start_idx] and the number of
    chunks, when a complete message is found. *)
Fixpoint find_set (l : list ChunkPayloadData) (i : isize) (start_idx : isize) (n_chunks : usize) (last_tsn : u32)
    : option (isize * usize) :=
  match l with
  | [] => None
  | c :: l' =>
      if beginning_fragment c then
        if ending_fragment c then Some (i, 1) else find_set l' (i + 1) i 1 (tsn c)
      else if start_idx <? 0 then find_set l' (i + 1) start_idx n_chunks last_tsn
      else if negb (tsn c =? wrapping_add 32 last_tsn 1) then find_set l' (i + 1) (-1) n_chunks last_tsn
      else if ending_fragment c then Some (start_idx, n_chunks + 1)
      else find_set l' (i + 1) start_idx (n_chunks + 1) (tsn c)
  end.

Definition find_complete_unordered_chunk_set (q : ReassemblyQueue) : Outcome (option Chunks * ReassemblyQueue) :=
  match find_set (unordered_chunks q) 0 (-1) 0 0 with
  | None => Ok (None, q)
  | Some (start, n) =>
      let l := unordered_chunks q in
      if (0 <=? start) && (start + n <=? len l) then
        let chunks := take (Z.to_nat n) (drop (Z.to_nat start) l) in
        let rest := take (Z.to_nat start) l ++ drop (Z.to_nat (start + n)) l in
        match chunks with
        | c :: _ => Ok (Some (Chunks_new 0 (payload_type c) chunks), q <| unordered_chunks := rest |>)
        | [] => Panic
        end
      else Panic
  end.

(** [for s in &mut self.ordered { if s.ssn == n { return Ok(s.push(chunk)) } }] *)
Fixpoint push_existing (l : list Chunks) (chunk : ChunkPayloadData) : option (bool * list Chunks) :=
  match l with
  | [] => None
  | s :: l' =>
      if ssn s =? stream_sequence_number chunk then
        let '(ok, s') := Chunks_push s chunk in Some (ok, s' :: l')
      else option_map (λ '(ok, l''), (ok, s :: l'')) (push_existing l' chunk)
  end.

Definition rq_push (q : ReassemblyQueue) (chunk : ChunkPayloadData) : Outcome (bool * ReassemblyQueue) :=
  if negb (stream_identifier chunk =? si q) then Ok (false, q)
  else if unordered chunk then
    projected_size ← calculate_unordered_message_size q chunk;
    if projected_size >? rq_max_message_size q then Err ErrInboundPacketTooLarge else
    let q := q <| rq_n_bytes ::= λ n, n + data_len chunk |>
               <| unordered_chunks ::= λ l, sort_chunks_by_tsn (l ++ [chunk]) |> in
    '(found, q) ← find_complete_unordered_chunk_set q;
    match found with
    | Some cset => Ok (true, q <| rq_unordered ::= λ l, l ++ [cset] |>)
    | None => Ok (false, q)
    end
  else
    if calculate_ordered_message_size q chunk >? rq_max_message_size q then Err ErrInboundPacketTooLarge
    else if sna16lt (stream_sequence_number chunk) (next_ssn q) then Ok (false, q)
    else
      let q := q <| rq_n_bytes ::= λ n, n + data_len chunk |> in
      match push_existing (rq_ordered q) chunk with
      | Some (ok, l) => Ok (ok, q <| rq_ordered := l |>)
      | None =>
          let '(ok, cset) := Chunks_push (Chunks_new (stream_sequence_number chunk) (payload_type chunk) []) chunk in
          Ok (ok, q <| rq_ordered ::= λ l, sort_chunks_by_ssn (l ++ [cset]) |>)
      end.

Definition is_readable (q : ReassemblyQueue) : bool :=
  match rq_unordered q, rq_ordered q with
  | _ :: _, _ => true
  | [], cset :: _ => is_complete cset && sna16lte (ssn cset) (next_ssn q)
  | [], [] => false
  end.

Definition subtract_num_bytes (q : ReassemblyQueue) (n : usize) : ReassemblyQueue :=
  q <| rq_n_bytes ::= λ m, if m >=? n then m - n else 0 |>.

Definition rq_read (q : ReassemblyQueue) : option Chunks * ReassemblyQueue :=
  match rq_unordered q, rq_ordered q with
  | c :: l, _ => (Some c, subtract_num_bytes (q <| rq_unordered := l |>) (Chunks_len c))
  | [], c :: l =>
      if negb (is_complete c) then (None, q)
      else if sna16gt (ssn c) (next_ssn q) then (None, q)
      else
        let q := if ssn c =? next_ssn q then q <| next_ssn ::= λ n, wrapping_add 16 n 1 |> else q in
        (Some c, subtract_num_bytes (q <| rq_ordered := l |>) (Chunks_len c))
  | [], [] => (None, q)
  end.

Definition rq_get_num_bytes (q : ReassemblyQueue) : usize := rq_n_bytes q.

(** ** FORWARD TSN *)

Definition sets_bytes (l : list Chunks) : usize :=
  fold_left (λ n s, n + fold_left (λ acc c, acc + data_len c) (cs_chunks s) 0) l 0.

Definition forward_tsn_for_ordered (q : ReassemblyQueue) (last_ssn : u16) : ReassemblyQueue :=
  let num_bytes := sets_bytes (filter (λ s, sna16lte (ssn s) last_ssn && negb (is_complete s) = true) (rq_ordered q)) in
  let q := subtract_num_bytes q num_bytes in
  let q := q <| rq_ordered ::= filter (λ s, negb (sna16lte (ssn s) last_ssn) || is_complete s = true) |> in
  if sna16lte (next_ssn q) last_ssn then q <| next_ssn := wrapping_add 16 last_ssn 1 |> else q.

(** [Iterator::reduce] *)
Definition reduce {A} (f : A → A → A) (l : list A) : option A :=
  match l with [] => None | x :: l' => Some (fold_left f l' x) end.

Definition forward_tsn_for_ordered_bounded (q : ReassemblyQueue) (last_ssn : u16) (new_cumulative_tsn : u32)
    : ReassemblyQueue :=
  let first_unaffected_ssn :=
    reduce (λ first candidate, if sna16lt candidate first then candidate else first)
      (ssn <$> filter (λ s, sna16lte (ssn s) last_ssn &&
                 (if is_complete s then existsb (λ c, sna32gt (tsn c) new_cumulative_tsn) (cs_chunks s)
                  else negb (is_missing_tsn_at_or_before s new_cumulative_tsn)) = true) (rq_ordered q)) in
  let is_abandoned_partial s :=
    sna16lte (ssn s) last_ssn && negb (is_complete s) && is_missing_tsn_at_or_before s new_cumulative_tsn in
  let num_bytes :=
    sum_with data_len (flat_map cs_chunks (filter (λ s, is_abandoned_partial s = true) (rq_ordered q))) in
  let q := subtract_num_bytes q num_bytes in
  let q := q <| rq_ordered ::= filter (λ s, negb (sna16lte (ssn s) last_ssn) || is_complete s
                                          || negb (is_missing_tsn_at_or_before s new_cumulative_tsn) = true) |> in
  let next := match first_unaffected_ssn with Some n => n | None => wrapping_add 16 last_ssn 1 end in
  if sna16lt (next_ssn q) next then q <| next_ssn := next |> else q.

Definition is_covered (new_cumulative_tsn : u32) (s : Chunks) : bool :=
  if is_complete s then forallb (λ c, sna32lte (tsn c) new_cumulative_tsn) (cs_chunks s)
  else is_missing_tsn_at_or_before s new_cumulative_tsn.

Definition applicable_forward_tsn_for_ordered_bounded (q : ReassemblyQueue) (last_ssn : u16)
    (new_cumulative_tsn peer_last_tsn : u32) : option u16 :=
  if sna16gt (next_ssn q) last_ssn then Some last_ssn
  else if existsb (λ s, (ssn s =? last_ssn) && ((ssn s =? next_ssn q) || is_covered new_cumulative_tsn s)) (rq_ordered q)
  then Some last_ssn
  else
    let has_resolved_later_tsn :=
      match reduce (λ first candidate, if sna32lt candidate first then candidate else first)
              (tsn <$> flat_map cs_chunks
                 (filter (λ s, (ssn s =? last_ssn) || sna16gt (ssn s) last_ssn = true) (rq_ordered q))) with
      | Some first_tsn => sna32lte first_tsn peer_last_tsn
      | None => false
      end in
    if has_resolved_later_tsn then Some last_ssn
    else
      reduce (λ last candidate, if sna16gt candidate last then candidate else last)
        (ssn <$> filter (λ s,
           ((ssn s =? next_ssn q) || sna16gt (ssn s) (next_ssn q)) && sna16lt (ssn s) last_ssn &&
           (is_covered new_cumulative_tsn s ||
            match head (cs_chunks s) with Some c => sna32lte (tsn c) peer_last_tsn | None => false end) = true)
           (rq_ordered q)).

(** The number of leading chunks at or before the point: [last_idx + 1]. *)
Fixpoint leading_at_or_before (t : u32) (l : list ChunkPayloadData) : nat :=
  match l with
  | [] => 0
  | c :: l' => if sna32gt (tsn c) t then 0 else S (leading_at_or_before t l')
  end.

Definition forward_tsn_for_unordered (q : ReassemblyQueue) (new_cumulative_tsn : u32) : ReassemblyQueue :=
  let n := leading_at_or_before new_cumulative_tsn (unordered_chunks q) in
  let q' := fold_left (λ q c, subtract_num_bytes q (data_len c)) (take n (unordered_chunks q)) q in
  q' <| unordered_chunks ::= drop n |>.

(** ** Reading a message *)

(** The data of a message. *)
Definition message_data (l : list ChunkPayloadData) : Bytes := flat_map user_data l.

Lemma len_message_data l : len (message_data l) = sum_with data_len l.
Proof. induction l as [|c l IH]; [done|]. unfold message_data in *. cbn [flat_map]. rewrite len_app, IH. done. Qed.

Lemma Chunks_len_sum s : Chunks_len s = sum_with data_len (cs_chunks s).
Proof. unfold Chunks_len. by rewrite fold_left_sum. Qed.

Lemma copy_at_end pre buf data :
  copy_at (pre ++ buf) (len pre) data = (pre ++ data) ++ drop (length data) buf.
Proof.
  unfold copy_at. rewrite <- app_assoc. f_equal.
  - apply (range_app_mid [] pre buf); [done|lia].
  - f_equal. rewrite range_to_end by (pose proof (len_nonneg pre); pose proof (len_nonneg data); lia).
    rewrite drop_app_ge by (unfold len; lia). f_equal. unfold len. lia.
Qed.

Lemma range_0_all (l : Bytes) : range l 0 (len l) = l.
Proof. rewrite range_to_end by lia. done. Qed.

Lemma read_loop_cons c l pre buf :
  read_loop (c :: l) (pre ++ buf) (len pre) =
  if len buf <? data_len c
  then (Err ErrShortBuffer, pre ++ range (user_data c) 0 (len buf))
  else read_loop l ((pre ++ user_data c) ++ drop (length (user_data c)) buf) (len (pre ++ user_data c)).
Proof.
  cbn [read_loop]. rewrite len_app. replace (len pre + len buf - len pre) with (len buf) by lia.
  pose proof (len_nonneg buf). rewrite copy_at_end. unfold data_len in *. destruct (Z.ltb_spec (len buf) (len (user_data c))).
  - rewrite Z.min_r by lia. destruct (Z.ltb_spec (len buf) (len (user_data c))); [|lia].
    f_equal. rewrite drop_ge, app_nil_r; [done|]. unfold range. rewrite length_take, length_drop. unfold len in *. lia.
  - rewrite Z.min_l by lia. rewrite Z.ltb_irrefl, range_0_all, len_app. done.
Qed.

Lemma read_loop_spec l pre buf :
  if len buf <? sum_with data_len l then (read_loop l (pre ++ buf) (len pre)).1 = Err ErrShortBuffer
  else read_loop l (pre ++ buf) (len pre) =
    (Ok (len pre + sum_with data_len l), pre ++ message_data l ++ drop (length (message_data l)) buf).
Proof.
  revert pre buf; induction l as [|c l IH]; intros pre buf.
  { cbn. pose proof (len_nonneg buf). destruct (Z.ltb_spec (len buf) 0); [lia|]. by rewrite Z.add_0_r. }
  pose proof (sum_with_nonneg data_len l ltac:(intros; apply data_len_nonneg)).
  rewrite read_loop_cons, sum_with_cons. specialize (IH (pre ++ user_data c) (drop (length (user_data c)) buf)).
  rewrite len_drop in IH. change (Z.of_nat (length (user_data c))) with (data_len c) in IH.
  pose proof (data_len_nonneg c).
  destruct (Z.ltb_spec (len buf) (data_len c)).
  { destruct (Z.ltb_spec (len buf) (data_len c + sum_with data_len l)); [done|lia]. }
  destruct (Z.ltb_spec (len buf) (data_len c + sum_with data_len l)) as [Hlt|Hge].
  - destruct (Z.ltb_spec (Z.max 0 (len buf - data_len c)) (sum_with data_len l)); [done|lia].
  - destruct (Z.ltb_spec (Z.max 0 (len buf - data_len c)) (sum_with data_len l)); [lia|].
    rewrite IH. unfold message_data. cbn [flat_map]. rewrite len_app, drop_drop, length_app, <- !app_assoc.
    change (len (user_data c)) with (data_len c). f_equal. f_equal. lia.
Qed.

(** Reading a message into a buffer that can hold it writes its fragments in order at the
    front, leaves the rest of the buffer alone and returns the length; a shorter buffer is
    an error. *)
Theorem Chunks_read_spec s buf :
  if len buf <? Chunks_len s then (Chunks_read s buf).1 = Err ErrShortBuffer
  else Chunks_read s buf =
    (Ok (Chunks_len s), message_data (cs_chunks s) ++ drop (length (message_data (cs_chunks s))) buf).
Proof. rewrite Chunks_len_sum. exact (read_loop_spec (cs_chunks s) [] buf). Qed.

(** What [next] has not handed out yet. *)
Definition unread (s : Chunks) : Bytes :=
  match drop (Z.to_nat (cs_index s)) (cs_chunks s) with
  | [] => []
  | c :: l => drop (Z.to_nat (cs_offset s)) (user_data c) ++ message_data l
  end.

Definition cursor_ok (s : Chunks) : Prop :=
  0 <= cs_index s <= len (cs_chunks s) ∧ 0 <= cs_offset s ∧
  ∀ c, cs_chunks s !! Z.to_nat (cs_index s) = Some c → cs_offset s <= data_len c.

Lemma unread_next s :
  0 <= cs_index s →
  unread (s <| cs_index ::= λ i, i + 1 |> <| cs_offset := 0 |>) =
  message_data (drop (S (Z.to_nat (cs_index s))) (cs_chunks s)).
Proof.
  intros. unfold unread. cbn. replace (Z.to_nat (cs_index s + 1)) with (S (Z.to_nat (cs_index s))) by lia.
  by destruct (drop _ (cs_chunks s)).
Qed.

Lemma take_drop_middle_bytes (d : Bytes) i n : 0 <= i → 0 <= n → range d i (i + n) = take (Z.to_nat n) (drop (Z.to_nat i) d).
Proof. intros. unfold range. f_equal. lia. Qed.

Lemma next_loop_spec fuel s max buf nw :
  cursor_ok s → 0 <= nw <= max → len (cs_chunks s) - cs_index s < Z.of_nat fuel →
  ∃ s', next_loop fuel s max buf nw = Ok (Some (buf ++ take (Z.to_nat (max - nw)) (unread s)), s') ∧
    cursor_ok s' ∧ cs_chunks s' = cs_chunks s ∧ unread s' = drop (Z.to_nat (max - nw)) (unread s) ∧
    (unread s' = [] → cs_index s' = len (cs_chunks s)).
Proof.
  revert s buf nw; induction fuel as [|fuel IH]; intros s buf nw (Hi & Ho & Hc) Hn Hf; [lia|]. cbn [next_loop].
  destruct (Z.ltb_spec (cs_index s) (len (cs_chunks s))) as [Hlt|Hge].
  2: { exists s. assert (unread s = []) as Hu
         by (unfold unread; rewrite drop_ge by (unfold len in *; lia); done).
       rewrite Hu, take_nil, app_nil_r, drop_nil. repeat split; try done; lia. }
  destruct (lookup_lt_is_Some_2 (cs_chunks s) (Z.to_nat (cs_index s))) as [c Hlk]; [unfold len in *; lia|].
  rewrite Hlk. specialize (Hc c Hlk). unfold data_len in *.
  assert (unread s = drop (Z.to_nat (cs_offset s)) (user_data c) ++ message_data (drop (S (Z.to_nat (cs_index s))) (cs_chunks s)))
    as Hun by (unfold unread; by erewrite drop_S).
  assert (∀ j, cs_offset s <= j <= len (user_data c) → index_range (user_data c) (cs_offset s) j = Ok (range (user_data c) (cs_offset s) j)) as Hir
    by (intros j ?; unfold index_range; destruct ((cs_offset s <=? j) && (j <=? len (user_data c))) eqn:E; [done|lia]).
  rewrite Hir by lia. cbn [mbind Outcome_bind]. unfold checked_sub.
  destruct (Z.leb_spec nw max); [|lia]. cbn [mbind Outcome_bind]. rewrite range_to_end by lia.
  set (d := drop (Z.to_nat (cs_offset s)) (user_data c)) in *.
  assert (len d = len (user_data c) - cs_offset s) as Hd by (unfold d; rewrite len_drop; lia).
  pose proof (len_nonneg d). rewrite Hir by lia. cbn [mbind Outcome_bind].
  rewrite take_drop_middle_bytes by lia. fold d.
  destruct (Z.ltb_spec (Z.min (len d) (max - nw)) (len d)) as [Hs|Hs].
  - rewrite Z.min_r by lia. set (s1 := s <| cs_offset ::= _ |>).
    assert (unread s1 = drop (Z.to_nat (max - nw)) (unread s)) as Hu1.
    { rewrite Hun, drop_app_le by (unfold len in *; lia). unfold unread, s1. cbn. erewrite drop_S by done.
      f_equal. unfold d. rewrite drop_drop. f_equal. lia. }
    exists s1. split; [|split; [|split; [done|split; [done|]]]].
    + rewrite Hun, take_app_le by (unfold len in *; lia). done.
    + unfold cursor_ok, s1. cbn. split; [lia|]. split; [lia|]. intros c' Hc'. rewrite Hlk in Hc'.
      injection Hc' as <-. unfold data_len. lia.
    + rewrite Hu1, Hun. intros E%(f_equal length). rewrite length_drop, length_app in E. unfold len in *. simpl in E. lia.
  - rewrite Z.min_l by lia. rewrite take_ge by (unfold len; lia).
    set (s1 := s <| cs_index ::= _ |> <| cs_offset := _ |>).
    assert (unread s1 = message_data (drop (S (Z.to_nat (cs_index s))) (cs_chunks s))) as Hu1
      by (apply unread_next; lia).
    destruct (IH s1 (buf ++ d) (nw + len d)) as (s' & -> & Hok & Hch & Hu' & He).
    + unfold s1, cursor_ok. cbn. split; [lia|]. split; [lia|]. intros. apply data_len_nonneg.
    + lia.
    + unfold s1. cbn. lia.
    + exists s'. rewrite Hun. rewrite Hu1 in *. split_and!; try done.
      * rewrite take_app_ge by (unfold len in *; lia). rewrite <- app_assoc.
        by replace (Z.to_nat (max - nw) - length d)%nat with (Z.to_nat (max - (nw + len d))) by (unfold len; lia).
      * rewrite drop_app_ge by (unfold len in *; lia). rewrite Hu'. f_equal. unfold len. lia.
Qed.

(** Each call of [next] returns the next [max_length] bytes of the message, or all that are
    left, and [None] once the cursor is past the last fragment; handing out the last byte
    moves it there, so a reader that asks for at least one byte at a time sees every byte of
    the message exactly once and then [None]. *)
Theorem Chunks_next_spec s max :
  cursor_ok s → 0 <= max →
  if cs_index s >=? len (cs_chunks s) then Chunks_next s max = Ok (None, s) ∧ unread s = []
  else ∃ s', Chunks_next s max = Ok (Some (take (Z.to_nat max) (unread s)), s') ∧
    cursor_ok s' ∧ unread s' = drop (Z.to_nat max) (unread s) ∧
    (unread s' = [] → Chunks_next s' max = Ok (None, s')).
Proof.
  intros Hok Hm. unfold Chunks_next at 1 2. destruct (Z.geb_spec (cs_index s) (len (cs_chunks s))).
  { split; [done|]. unfold unread. rewrite drop_ge; [done|]. unfold len in *. lia. }
  destruct (next_loop_spec (S (length (cs_chunks s))) s max [] 0 Hok) as (s' & -> & Hok' & Hch & Hu & He);
    [lia|destruct Hok; unfold len in *; lia|].
  rewrite Z.sub_0_r in *. exists s'. split_and!; try done. intros E%He. unfold Chunks_next. rewrite E, Hch.
  destruct (Z.geb_spec (len (cs_chunks s)) (len (cs_chunks s))); [done|lia].
Qed.

(** ** Complete messages *)

Lemma contiguous_from_spec t l :
  contiguous_from t l = true ↔ ∀ (i : nat) c, l !! i = Some c → tsn c = wrap 32 (t + 1 + Z.of_nat i).
Proof.
  revert t; induction l as [|c l IH]; intros t; cbn [contiguous_from]; [split; [|done]; intros _ i c Hc; by rewrite lookup_nil in Hc|].
  unfold wrapping_add. destruct (Z.eqb_spec (tsn c) (wrap 32 (t + 1))) as [E|E]; cbn [negb].
  - rewrite IH, E. split.
    + intros H [|i] x Hx; [injection Hx as <-; rewrite E; f_equal; lia|]. rewrite (H i x Hx).
      unfold wrap. rewrite <- Z.add_assoc, Zplus_mod_idemp_l. f_equal. lia.
    + intros H i x Hx. rewrite (H (S i) x Hx). symmetry. unfold wrap. rewrite <- Z.add_assoc, Zplus_mod_idemp_l. f_equal. lia.
  - split; [done|]. intros H. destruct E. rewrite (H 0%nat c) by done. f_equal. lia.
Qed.

Lemma is_complete_chunks s s' : cs_chunks s = cs_chunks s' → is_complete s = is_complete s'.
Proof. unfold is_complete. by intros ->. Qed.

(** A message whose fragments carry consecutive TSNs from [t0] on. *)
Definition consecutive_tsns (t0 : u32) (l : list ChunkPayloadData) : Prop :=
  ∀ (i : nat) c, l !! i = Some c → tsn c = wrap 32 (t0 + Z.of_nat i).

Lemma is_complete_spec s :
  is_complete s = true ↔
  ∃ c l e, cs_chunks s = c :: l ∧ last (c :: l) = Some e ∧ beginning_fragment c = true ∧ ending_fragment e = true ∧
    ∀ (i : nat) x, l !! i = Some x → tsn x = wrap 32 (tsn c + 1 + Z.of_nat i).
Proof.
  unfold is_complete. destruct (cs_chunks s) as [|c l]; [split; [done|naive_solver]|].
  destruct (last (c :: l)) as [e|] eqn:El; [|by apply last_None in El].
  destruct (beginning_fragment c) eqn:Eb; cbn [negb]; [|split; [done|naive_solver congruence]].
  destruct (ending_fragment e) eqn:Ee; cbn [negb]; [|split; [done|naive_solver congruence]].
  rewrite contiguous_from_spec. naive_solver.
Qed.

(** ** Reassembly of an ordered message, fragments arriving in any order *)

(** The fragments [cs] of message [n] of stream [sid], as its sender made them. *)
Record message_of (sid n : u16) (t0 : u32) (cs : list ChunkPayloadData) : Prop := mk_message_of {
  mo_fragments : fragmented false cs;
  mo_tsns : consecutive_tsns t0 cs;
  mo_stream : Forall (λ c, stream_identifier c = sid ∧ stream_sequence_number c = n) cs;
  mo_t0 : uN 32 t0;
  mo_short : len cs < 2 ^ 31;
}.

Section Reassembly.
Context (sid n : u16) (t0 : u32) (cs : list ChunkPayloadData) (Hmsg : message_of sid n t0 cs).

(** Position of a fragment in its message. *)
Definition place (c : ChunkPayloadData) : Z := dist32 t0 (tsn c).

Lemma place_lookup (i : nat) c : cs !! i = Some c → place c = Z.of_nat i ∧ uN 32 (tsn c).
Proof.
  intros Hc. destruct Hmsg as [_ Ht _ H0 Hs]. unfold place. rewrite (Ht i c Hc).
  apply lookup_lt_Some in Hc. unfold len in Hs. split; [|by apply wrap_uN]. unfold dist32, wrap.
  rewrite Zminus_mod_idemp_l. replace (t0 + Z.of_nat i - t0) with (Z.of_nat i) by lia.
  apply Z.mod_small. lia.
Qed.

Lemma place_in c : c ∈ cs → 0 <= place c < len cs ∧ uN 32 (tsn c).
Proof.
  intros [i Hi]%list_elem_of_lookup. destruct (place_lookup i c Hi) as [-> ?].
  apply lookup_lt_Some in Hi. unfold len. split; [lia|done].
Qed.

Lemma place_inj c c' : c ∈ cs → c' ∈ cs → place c = place c' → c = c'.
Proof.
  intros [i Hi]%list_elem_of_lookup [j Hj]%list_elem_of_lookup. destruct (place_lookup i c Hi) as [-> _].
  destruct (place_lookup j c' Hj) as [-> _]. intros E. replace i with j in Hi by lia. congruence.
Qed.

Lemma tsn_inj c c' : c ∈ cs → c' ∈ cs → tsn c = tsn c' → c = c'.
Proof. intros ?? E. apply place_inj; [done..|]. unfold place. by rewrite E. Qed.

Lemma message_sorted : StronglySorted (λ a b, place a < place b) cs.
Proof.
  assert (∀ (k : nat) l, (∀ (i : nat) c, l !! i = Some c → place c = Z.of_nat (k + i)) →
    StronglySorted (λ a b, place a < place b) l) as H.
  { intros k l; revert k; induction l as [|c l IH]; intros k Hl; constructor.
    - apply (IH (S k)). intros i x Hx. rewrite (Hl (S i) x Hx). lia.
    - apply Forall_forall. intros x [i Hx]%list_elem_of_lookup.
      rewrite (Hl (S i) x Hx), (Hl 0%nat c) by done. lia. }
  apply (H 0%nat). intros i c Hc. by apply place_lookup.
Qed.

Lemma measured l : (∀ c, c ∈ l → c ∈ cs) → measured_by (λ a b, sna32lt (tsn a) (tsn b)) place l.
Proof.
  intros Hl a b Ha Hb. destruct (place_in a (Hl a Ha)) as [[? ?] ?], (place_in b (Hl b Hb)) as [[? ?] ?].
  destruct Hmsg as [_ _ _ ? ?]. apply sna32lt_window; (done || unfold place in *; lia).
Qed.

(** Sorting fragments of the message puts them in order. *)
Lemma sort_fragments l :
  (∀ c, c ∈ l → c ∈ cs) → NoDup l → StronglySorted (λ a b, place a < place b) (sort_chunks_by_tsn l).
Proof.
  intros Hl Hnd. unfold sort_chunks_by_tsn. apply StronglySorted_strict.
  - intros x y Hx Hy. rewrite sort_by_Permutation in Hx, Hy. apply place_inj; auto.
  - by rewrite sort_by_Permutation.
  - apply sort_by_sorted, measured. done.
Qed.

Lemma sorted_unique l : StronglySorted (λ a b, place a < place b) l → l ≡ₚ cs → l = cs.
Proof.
  intros Hs HP. apply (StronglySorted_unique_strong (λ a b, place a < place b)); [|done|apply message_sorted|done].
  intros x1 x2 _ _ H1 H2. lia.
Qed.

(** Fewer fragments than the message has are not taken for it. *)
Lemma incomplete l m p :
  (∀ c, c ∈ l → c ∈ cs) → (length l < length cs)%nat → is_complete (mkChunks m p l 0 0) = false.
Proof.
  intros Hl Hlen. apply not_true_iff_false. rewrite is_complete_spec. cbn [cs_chunks].
  intros (c & l' & e & -> & He & Hb & Hend & Ht). destruct Hmsg as [[_ Hf] _ _ H0 Hs].
  assert (c ∈ cs) as [i Hi]%list_elem_of_lookup by (apply Hl; left).
  assert (e ∈ cs) as [j Hj]%list_elem_of_lookup by (apply Hl; by apply last_Some_elem_of).
  destruct (place_lookup i c Hi) as [Hpc Huc], (place_lookup j e Hj) as [Hpe Hue].
  assert (i = 0%nat) as -> by (destruct (Hf i c Hi) as [Hbi _]; rewrite Hb in Hbi; by case_bool_decide).
  assert (S j = length cs) as Hj' by (destruct (Hf j e Hj) as [_ Hej]; rewrite Hend in Hej; by case_bool_decide).
  assert (tsn e = wrap 32 (tsn c + Z.of_nat (length l'))) as Hte.
  { rewrite last_lookup in He. cbn [length pred] in He. destruct (length l') as [|k] eqn:El.
    - cbn in He. injection He as <-. rewrite Z.add_0_r. by rewrite wrap_small.
    - cbn in He. rewrite (Ht k e He). f_equal. lia. }
  cbn [length] in Hlen. unfold len in Hs. unfold place in *. clear -Hte Hpc Hpe Hue Huc H0 Hlen Hj' Hs. sna.
Qed.

Lemma complete m p : cs ≠ [] → is_complete (mkChunks m p cs 0 0) = true.
Proof.
  intros Hne. apply is_complete_spec. cbn [cs_chunks]. destruct Hmsg as [[_ Hf] Ht _ _ _].
  destruct cs as [|c l]; [done|]. destruct (last (c :: l)) as [e|] eqn:El; [|by apply last_None in El].
  exists c, l, e. split_and!; try done.
  - destruct (Hf 0%nat c) as [-> _]; done.
  - rewrite last_lookup in El. destruct (Hf _ _ El) as [_ ->]. by apply bool_decide_eq_true.
  - intros i x Hx. rewrite (Ht (S i) x Hx), (Ht 0%nat c) by done. unfold wrap.
    rewrite <- (Z.add_assoc (_ mod _)), Zplus_mod_idemp_l. f_equal. lia.
Qed.

(** Collecting one more fragment [c], with [R] still missing: the set reports the
    message complete exactly when nothing is missing. *)
Lemma Chunks_push_fragment P c R s :
  cs_chunks s ≡ₚ P → P ++ c :: R ≡ₚ cs →
  Chunks_push s c = (bool_decide (R = []), s <| cs_chunks := sort_chunks_by_tsn (cs_chunks s ++ [c]) |>) ∧
  StronglySorted (λ a b, place a < place b) (sort_chunks_by_tsn (cs_chunks s ++ [c])).
Proof.
  intros Hset HP.
  assert (∀ x, x ∈ P ++ [c] → x ∈ cs) as Hin
    by (intros x Hx; rewrite <- HP; apply elem_of_app in Hx as [?|?%list_elem_of_singleton]; set_solver).
  assert (NoDup (P ++ [c])) as HndP.
  { assert (NoDup cs) as Hndc by (eapply StronglySorted_NoDup; [|apply message_sorted]; simpl; lia).
    rewrite <- HP, cons_middle, app_assoc in Hndc. by apply NoDup_app in Hndc as [? _]. }
  assert (StronglySorted (λ a b, place a < place b) (sort_chunks_by_tsn (cs_chunks s ++ [c]))) as Hsrt.
  { apply sort_fragments; [|by rewrite Hset]. intros x Hx. rewrite Hset in Hx. by apply Hin. }
  split; [|done]. unfold Chunks_push.
  assert (existsb (λ x, tsn x =? tsn c) (cs_chunks s) = false) as ->.
  { apply not_true_iff_false. rewrite existsb_exists. intros (x & Hx & E). apply list_elem_of_In in Hx.
    rewrite Hset in Hx. apply NoDup_app in HndP as (_ & Hd & _). apply (Hd x Hx).
    apply list_elem_of_singleton. apply tsn_inj; [apply Hin; set_solver..|lia]. }
  change (s <| cs_chunks ::= λ l, sort_chunks_by_tsn (l ++ [c]) |>)
    with (s <| cs_chunks := sort_chunks_by_tsn (cs_chunks s ++ [c]) |>).
  f_equal. assert (sort_chunks_by_tsn (cs_chunks s ++ [c]) ≡ₚ P ++ [c]) as Hperm
    by (unfold sort_chunks_by_tsn; by rewrite sort_by_Permutation, Hset).
  assert (length (P ++ c :: R) = length cs) as Hlen by (by rewrite HP).
  rewrite (is_complete_chunks _ (mkChunks 0 PpUnknown (sort_chunks_by_tsn (cs_chunks s ++ [c])) 0 0)) by done.
  case_bool_decide as HR.
  - subst R. rewrite (sorted_unique _ Hsrt) by (by rewrite Hperm). apply complete.
    intros E. rewrite E in HP. symmetry in HP. apply Permutation_nil in HP. by destruct P.
  - apply incomplete; [intros x Hx; rewrite Hperm in Hx; by apply Hin|].
    rewrite Hperm, <- Hlen, !length_app. destruct R; [done|]. simpl. lia.
Qed.
End Reassembly.

(** *** The sets by sequence number *)

Lemma find_ssn_Some m l s : find_ssn m l = Some s → s ∈ l ∧ ssn s = m.
Proof. unfold find_ssn. intros [H1 H2]%find_some. split; [by apply list_elem_of_In|lia]. Qed.

Lemma find_ssn_None m l : find_ssn m l = None ↔ m ∉ ssn <$> l.
Proof.
  unfold find_ssn. induction l as [|s l IH]; cbn [List.find]; [set_solver|].
  destruct (Z.eqb_spec (ssn s) m); rewrite ?IH; set_solver.
Qed.

Lemma find_ssn_unique m l s : NoDup (ssn <$> l) → s ∈ l → ssn s = m → find_ssn m l = Some s.
Proof.
  induction l as [|s' l IH]; intros Hnd Hin Hm; [set_solver|]. apply NoDup_cons in Hnd as [Hn Hnd].
  unfold find_ssn. cbn [List.find]. apply elem_of_cons in Hin as [->|Hin]; [by rewrite Hm, Z.eqb_refl|].
  destruct (Z.eqb_spec (ssn s') m); [|by apply IH]. destruct Hn. apply list_elem_of_fmap. exists s. split; [congruence|done].
Qed.

Lemma find_ssn_Permutation m l l' : NoDup (ssn <$> l) → l ≡ₚ l' → find_ssn m l' = find_ssn m l.
Proof.
  intros Hnd HP. destruct (find_ssn m l) as [s|] eqn:E.
  - apply find_ssn_Some in E as [Hin Hm]. apply find_ssn_unique; [by rewrite <- HP|by rewrite <- HP|done].
  - apply find_ssn_None. apply find_ssn_None in E. by rewrite <- HP.
Qed.

Lemma find_ssn_snoc m l s :
  m ∉ ssn <$> l ∨ ssn s ≠ m → find_ssn m (l ++ [s]) = if ssn s =? m then Some s else find_ssn m l.
Proof.
  unfold find_ssn. induction l as [|s' l IH]; cbn [app List.find]; [done|]. intros H.
  destruct (Z.eqb_spec (ssn s') m); [|apply IH; set_solver]. destruct (Z.eqb_spec (ssn s) m); [set_solver|done].
Qed.

Lemma push_existing_None l c : find_ssn (stream_sequence_number c) l = None → push_existing l c = None.
Proof.
  unfold find_ssn. induction l as [|s l IH]; cbn [List.find push_existing]; [done|].
  destruct (ssn s =? stream_sequence_number c); [done|]. intros H%IH. by rewrite H.
Qed.

Lemma Chunks_push_ssn s c : ssn (Chunks_push s c).2 = ssn s.
Proof. unfold Chunks_push. by destruct (existsb _ _). Qed.

Lemma push_existing_Some l c s :
  find_ssn (stream_sequence_number c) l = Some s →
  ∃ l', push_existing l c = Some ((Chunks_push s c).1, l') ∧ ssn <$> l' = ssn <$> l ∧
    ∀ m, find_ssn m l' = if m =? stream_sequence_number c then Some (Chunks_push s c).2 else find_ssn m l.
Proof.
  unfold find_ssn. induction l as [|s' l IH]; cbn [List.find push_existing]; [done|].
  destruct (Z.eqb_spec (ssn s') (stream_sequence_number c)) as [E|E].
  - intros [= ->]. pose proof (Chunks_push_ssn s c) as Hssn. destruct (Chunks_push s c) as [ok s''].
    cbn [fst snd] in *. eexists. split; [done|]. rewrite !fmap_cons, Hssn. split; [done|]. intros m.
    cbn [List.find]. rewrite Hssn, E, Z.eqb_sym. by destruct (m =? stream_sequence_number c) eqn:?; rewrite ?Z.eqb_sym.
  - intros (l' & -> & Hl & Hf)%IH. eexists. split; [done|]. rewrite !fmap_cons, Hl. split; [done|]. intros m.
    cbn [List.find]. destruct (Z.eqb_spec (ssn s') m); [|apply Hf].
    destruct (Z.eqb_spec m (stream_sequence_number c)); [congruence|done].
Qed.

(** One ordered fragment of message [n]: only the set of [n] changes. *)
Lemma rq_push_ordered q c :
  stream_identifier c = si q → unordered c = false →
  calculate_ordered_message_size q c <= rq_max_message_size q →
  sna16lt (stream_sequence_number c) (next_ssn q) = false → NoDup (ssn <$> rq_ordered q) →
  let s0 := default (Chunks_new (stream_sequence_number c) (payload_type c) [])
                    (find_ssn (stream_sequence_number c) (rq_ordered q)) in
  ∃ q', rq_push q c = Ok ((Chunks_push s0 c).1, q') ∧
    (∀ m, find_ssn m (rq_ordered q') =
       if m =? stream_sequence_number c then Some (Chunks_push s0 c).2 else find_ssn m (rq_ordered q)) ∧
    NoDup (ssn <$> rq_ordered q') ∧ rq_n_bytes q' = rq_n_bytes q + data_len c ∧
    si q' = si q ∧ next_ssn q' = next_ssn q ∧ rq_unordered q' = rq_unordered q ∧
    rq_max_message_size q' = rq_max_message_size q.
Proof.
  intros Hsi Hu Hsz Hssn Hnd s0. unfold rq_push. rewrite Hsi, Z.eqb_refl, Hu, Hssn. cbn [negb].
  destruct (Z.gtb_spec (calculate_ordered_message_size q c) (rq_max_message_size q)); [lia|].
  cbn [rq_ordered update upd_rq_n_bytes]. unfold s0. destruct (find_ssn (stream_sequence_number c) (rq_ordered q)) as [s|] eqn:Ef.
  - destruct (push_existing_Some _ _ _ Ef) as (l' & -> & Hl & Hf). eexists. split; [done|]. cbn.
    split_and!; try done. by rewrite Hl.
  - rewrite push_existing_None by done. cbn [default].
    pose proof (Chunks_push_ssn (Chunks_new (stream_sequence_number c) (payload_type c) []) c) as Hs.
    destruct (Chunks_push _ c) as [ok s']. cbn [fst snd] in *. eexists. split; [done|].
    cbn -[sort_chunks_by_ssn find_ssn]. unfold sort_chunks_by_ssn.
    assert (NoDup (ssn <$> rq_ordered q ++ [s'])) as Hnd'.
    { rewrite fmap_app. apply NoDup_app. split; [done|]. split; [|apply NoDup_singleton].
      intros x Hx. apply find_ssn_None in Ef. cbn. rewrite list_elem_of_singleton, Hs. cbn. congruence. }
    split_and!; try done; [|by rewrite sort_by_Permutation].
    intros m. rewrite (find_ssn_Permutation m (rq_ordered q ++ [s'])) by (done || by rewrite sort_by_Permutation).
    apply find_ssn_None in Ef. rewrite find_ssn_snoc.
    + rewrite Hs. cbn -[find_ssn]. by rewrite Z.eqb_sym.
    + destruct (decide (stream_sequence_number c = m)) as [<-|]; [by left|]. right. by rewrite Hs.
Qed.

(** Pushing a sequence of chunks: the results and the queue afterwards. *)
Fixpoint rq_push_all (q : ReassemblyQueue) (l : list ChunkPayloadData) : Outcome (list bool * ReassemblyQueue) :=
  match l with
  | [] => Ok ([], q)
  | c :: l' =>
      '(ok, q) ← rq_push q c;
      '(oks, q) ← rq_push_all q l';
      Ok (ok :: oks, q)
  end.

Definition set_chunks (n : u16) (q : ReassemblyQueue) : list ChunkPayloadData :=
  match find_ssn n (rq_ordered q) with Some s => cs_chunks s | None => [] end.

(** The queue after some fragments of the message came in, in whatever order. *)
Record collecting (sid n : u16) (t0 : u32) (cs P : list ChunkPayloadData) (q0 q : ReassemblyQueue) : Prop := mk_collecting {
  co_set : set_chunks n q ≡ₚ P;
  co_sorted : StronglySorted (λ a b, place t0 a < place t0 b) (set_chunks n q);
  co_others : ∀ m, m ≠ n → find_ssn m (rq_ordered q) = find_ssn m (rq_ordered q0);
  co_nodup : NoDup (ssn <$> rq_ordered q);
  co_bytes : rq_n_bytes q = rq_n_bytes q0 + sum_with data_len P;
  co_si : si q = si q0;
  co_next : next_ssn q = next_ssn q0;
  co_unordered : rq_unordered q = rq_unordered q0;
  co_max : rq_max_message_size q = rq_max_message_size q0;
}.

Lemma collecting_all sid n t0 cs P q0 q : P ≡ₚ cs → collecting sid n t0 cs P q0 q → collecting sid n t0 cs cs q0 q.
Proof. intros HP [Hset ? ? ? Hb]. constructor; try done; [by rewrite Hset, HP|]. by rewrite Hb, (sum_with_Permutation _ _ _ HP). Qed.

Section PushAll.
Context (n : u16) (t0 : u32) (cs : list ChunkPayloadData) (q0 : ReassemblyQueue).
Context (Hmsg : message_of (si q0) n t0 cs) (Hssn : sna16lt n (next_ssn q0) = false)
  (Hsize : sum_with data_len cs <= rq_max_message_size q0).

Lemma push_fragment P c R q :
  collecting (si q0) n t0 cs P q0 q → P ++ c :: R ≡ₚ cs →
  ∃ q', rq_push q c = Ok (bool_decide (R = []), q') ∧ collecting (si q0) n t0 cs (P ++ [c]) q0 q'.
Proof.
  intros [Hset Hsort Hoth Hnd Hb Hsi Hnx Hun Hmx] HP.
  assert (∀ x, x ∈ P ++ [c] → x ∈ cs) as Hin.
  { intros x Hx. rewrite <- HP. apply elem_of_app in Hx as [?|?%list_elem_of_singleton]; set_solver. }
  assert (c ∈ cs) as Hc by (apply Hin; set_solver).
  assert (stream_identifier c = si q0 ∧ stream_sequence_number c = n) as [Hcs Hcn]
    by (pose proof (mo_stream _ _ _ _ Hmsg) as H; rewrite Forall_forall in H; by apply H).
  assert (unordered c = false) as Hcu
    by (pose proof (proj1 (mo_fragments _ _ _ _ Hmsg)) as H; rewrite Forall_forall in H; by apply H).
  assert (sum_with data_len P + data_len c <= sum_with data_len cs) as Hsum.
  { rewrite <- (sum_with_Permutation _ _ _ HP), sum_with_app, sum_with_cons.
    pose proof (sum_with_nonneg data_len R ltac:(intros; apply data_len_nonneg)). lia. }
  assert (calculate_ordered_message_size q c <= rq_max_message_size q) as Hcalc.
  { rewrite Hmx. unfold calculate_ordered_message_size, set_chunks in *. rewrite Hcn.
    rewrite <- (sum_with_Permutation _ _ _ Hset) in Hsum.
    destruct (find_ssn n (rq_ordered q)); rewrite ?Chunks_len_sum; [lia|]. change (sum_with data_len []) with 0 in Hsum. lia. }
  destruct (rq_push_ordered q c) as (q' & Hpush & Hf & Hnd' & Hb' & Hsi' & Hnx' & Hun' & Hmx');
    [congruence|done|done|by rewrite Hcn, Hnx|done|].
  rewrite Hcn in *. set (s0 := default _ _) in *.
  assert (cs_chunks s0 = set_chunks n q) as Hs0 by (unfold s0, set_chunks; by destruct (find_ssn n (rq_ordered q))).
  clearbody s0. destruct (Chunks_push_fragment _ _ _ _ Hmsg P c R s0) as [Hp Hsrt]; [by rewrite Hs0|done|].
  rewrite Hs0 in *.
  rewrite Hp in *. cbn [fst snd] in *. exists q'. split; [done|].
  assert (set_chunks n q' = sort_chunks_by_tsn (set_chunks n q ++ [c])) as Hs'
    by (unfold set_chunks at 1; by rewrite Hf, Z.eqb_refl).
  constructor; try congruence.
  - rewrite Hs'. unfold sort_chunks_by_tsn. by rewrite sort_by_Permutation, Hset.
  - intros m Hm. rewrite Hf. destruct (Z.eqb_spec m n); [done|]. by apply Hoth.
  - rewrite sum_with_app, sum_with_cons. change (sum_with data_len []) with 0. lia.
Qed.

Lemma push_fragments R P q :
  collecting (si q0) n t0 cs P q0 q → P ++ R ≡ₚ cs → R ≠ [] →
  ∃ q', rq_push_all q R = Ok (replicate (length R - 1) false ++ [true], q') ∧
    collecting (si q0) n t0 cs cs q0 q'.
Proof.
  revert P q; induction R as [|c R IH]; intros P q Hq HP Hne; [done|]. cbn [rq_push_all].
  destruct (push_fragment P c R q Hq HP) as (q1 & -> & Hq1). cbn [mbind Outcome_bind].
  destruct R as [|c' R].
  - exists q1. split; [done|]. by apply (collecting_all _ _ _ _ (P ++ [c])).
  - destruct (IH (P ++ [c]) q1 Hq1) as (q' & -> & Hq'); [by rewrite <- app_assoc|done|].
    exists q'. cbn [mbind Outcome_bind length]. split; [|done]. rewrite bool_decide_false by done. simpl. by rewrite Nat.sub_0_r.
Qed.

(** All fragments of the message, pushed into a queue that has none of it. *)
Lemma push_message l :
  find_ssn n (rq_ordered q0) = None → NoDup (ssn <$> rq_ordered q0) → l ≡ₚ cs → l ≠ [] →
  ∃ q', rq_push_all q0 l = Ok (replicate (length l - 1) false ++ [true], q') ∧ collecting (si q0) n t0 cs cs q0 q'.
Proof.
  intros Hf Hnd HP Hne. apply (push_fragments l [] q0); [|done|done].
  constructor; try done; unfold set_chunks; rewrite ?Hf; [done|constructor|]. unfold sum_with. simpl. lia.
Qed.

Lemma collected_complete q :
  collecting (si q0) n t0 cs cs q0 q → cs ≠ [] →
  ∃ s, find_ssn n (rq_ordered q) = Some s ∧ cs_chunks s = cs ∧ is_complete s = true.
Proof.
  intros [Hset Hsort _ _ _ _ _ _ _] Hcs. pose proof (sorted_unique _ _ _ _ Hmsg _ Hsort Hset) as E.
  unfold set_chunks in E. destruct (find_ssn n (rq_ordered q)) as [s|]; [|done]. exists s. split_and!; try done.
  rewrite (is_complete_chunks s (mkChunks 0 PpUnknown cs 0 0)) by done. by eapply complete.
Qed.
End PushAll.

(** Claim C20.  The fragments of an ordered message, arriving in any order, are put back together: no
    push but the last reports a readable message, the last one does, the set of the message
    then holds its fragments in order and is complete, and no other message is touched. *)
Theorem reassemble_any_order n t0 cs l q :
  message_of (si q) n t0 cs → sna16lt n (next_ssn q) = false → sum_with data_len cs <= rq_max_message_size q →
  find_ssn n (rq_ordered q) = None → NoDup (ssn <$> rq_ordered q) → l ≡ₚ cs → l ≠ [] →
  ∃ q', rq_push_all q l = Ok (replicate (length l - 1) false ++ [true], q') ∧
    (∃ s, find_ssn n (rq_ordered q') = Some s ∧ cs_chunks s = cs ∧ is_complete s = true) ∧
    (∀ m, m ≠ n → find_ssn m (rq_ordered q') = find_ssn m (rq_ordered q)) ∧
    rq_get_num_bytes q' = rq_get_num_bytes q + sum_with data_len cs.
Proof.
  intros Hmsg Hssn Hsz Hf Hnd HP Hne.
  destruct (push_message n t0 cs q Hmsg Hssn Hsz l Hf Hnd HP Hne) as (q' & Hpush & Hq').
  exists q'. split; [done|]. split; [|by destruct Hq'].
  apply (collected_complete _ _ _ _ Hmsg _ Hq'). intros ->. symmetry in HP. by apply Permutation_nil in HP.
Qed.

(** Claim C35.  [read] hands out complete messages only: queued unordered ones first, otherwise the first
    ordered one if its sequence number has been reached; reading the expected one advances
    the expected number by one.  [is_readable] says exactly when there is something to read. *)
Theorem rq_read_spec q :
  Forall (λ s, is_complete s = true) (rq_unordered q) →
  is_readable q = bool_decide (is_Some (rq_read q).1) ∧
  ∀ s q', rq_read q = (Some s, q') →
    is_complete s = true ∧
    (∀ n, rq_get_num_bytes q = Chunks_len s + n → 0 <= n → rq_get_num_bytes q' = n) ∧
    ((rq_unordered q = s :: rq_unordered q' ∧ rq_ordered q' = rq_ordered q ∧ next_ssn q' = next_ssn q) ∨
     (rq_unordered q = [] ∧ rq_ordered q = s :: rq_ordered q' ∧ sna16lte (ssn s) (next_ssn q) = true ∧
      next_ssn q' = if ssn s =? next_ssn q then wrapping_add 16 (next_ssn q) 1 else next_ssn q)).
Proof.
  intros Hu. unfold is_readable, rq_read, rq_get_num_bytes. destruct (rq_unordered q) as [|u ul] eqn:Eu.
  - destruct (rq_ordered q) as [|c l] eqn:Eo; [done|].
    rewrite sna16gt_negb_lte. destruct (is_complete c) eqn:Ec; [|done]. cbn [negb andb].
    destruct (sna16lte (ssn c) (next_ssn q)) eqn:El; [|done]. cbn [negb fst]. split; [done|].
    intros s q' [= <- <-]. split; [done|]. split.
    + intros n Hn H0. destruct (ssn c =? next_ssn q); cbn; destruct (Z.geb_spec (rq_n_bytes q) (Chunks_len c)); lia.
    + right. split; [done|]. destruct (ssn c =? next_ssn q); done.
  - cbn [fst]. split; [done|]. intros s q' [= <- <-]. apply Forall_cons in Hu as [Hu _].
    split; [done|]. split; [|by left].
    intros n Hn H0. cbn. destruct (Z.geb_spec (rq_n_bytes q) (Chunks_len u)); lia.
Qed.

(** ** Unordered messages *)

Definition last_tsn_of (t : u32) (l : list ChunkPayloadData) : u32 :=
  match last l with Some c => tsn c | None => t end.

Lemma contiguous_from_snoc t l x :
  contiguous_from t (l ++ [x]) = contiguous_from t l && (tsn x =? wrapping_add 32 (last_tsn_of t l) 1).
Proof.
  revert t; induction l as [|c l IH]; intros t; cbn [app contiguous_from].
  - change (last_tsn_of t []) with t. by destruct (tsn x =? wrapping_add 32 t 1).
  - destruct (tsn c =? wrapping_add 32 t 1); [|done]. cbn [negb]. rewrite IH. do 2 f_equal.
    unfold last_tsn_of. destruct l as [|c' l]; [done|]. rewrite last_cons_cons. by destruct (last (c' :: l)) eqn:E; [|apply last_None in E].
Qed.

(** A run of fragments from a first one on, ending at [t]. *)
Definition run_to (t : u32) (r : list ChunkPayloadData) : Prop :=
  ∃ c l, r = c :: l ∧ beginning_fragment c = true ∧ contiguous_from (tsn c) l = true ∧ t = last_tsn_of (tsn c) l.

Lemma run_to_snoc t r x : run_to t r → tsn x = wrapping_add 32 t 1 → run_to (tsn x) (r ++ [x]).
Proof.
  intros (c & l & -> & Hb & Hc & ->) Hx. exists c, (l ++ [x]). split_and!; [done|done| |].
  - rewrite contiguous_from_snoc, Hc, Hx. by rewrite Z.eqb_refl.
  - unfold last_tsn_of. by rewrite last_snoc.
Qed.

Lemma run_to_complete t r x m p :
  run_to t (r ++ [x]) → ending_fragment x = true → is_complete (mkChunks m p (r ++ [x]) 0 0) = true.
Proof.
  intros (c & l & E & Hb & Hc & _) He. unfold is_complete. cbn [cs_chunks]. rewrite E, Hb. cbn [negb].
  rewrite <- E, last_snoc, He. done.
Qed.

Lemma find_set_sound l pre start k t st m :
  (start < 0 ∨ ∃ p r, pre = p ++ r ∧ len p = start ∧ len r = k ∧ run_to t r) →
  find_set l (len pre) start k t = Some (st, m) →
  ∃ p r suf, pre ++ l = p ++ r ++ suf ∧ len p = st ∧ len r = m ∧ ∀ n pp, is_complete (mkChunks n pp r 0 0) = true.
Proof.
  revert pre start k t; induction l as [|c l IH]; intros pre start k t Hs; cbn [find_set]; [done|].
  assert (len (pre ++ [c]) = len pre + 1) as Hl by (rewrite len_app, len_cons, len_nil; lia).
  rewrite (cons_middle c pre l), (app_assoc pre). rewrite <- Hl.
  assert (run_to (tsn c) [c] ↔ beginning_fragment c = true) as Hone.
  { split; [intros (? & ? & [= -> <-] & ? & _); done|]. intros. by exists c, []. }
  destruct (beginning_fragment c) eqn:Eb.
  - destruct (ending_fragment c) eqn:Ee.
    + intros [= <- <-]. exists pre, [c], l. split_and!; [by rewrite <- app_assoc|done|done|].
      intros n pp. apply (run_to_complete (tsn c) []); [by apply Hone|done].
    + apply IH. right. exists pre, [c]. split_and!; try done. by apply Hone.
  - destruct (Z.ltb_spec start 0); [apply IH; by left|]. destruct Hs as [?|(p & r & -> & Hp & Hr & Hrun)]; [lia|].
    destruct (Z.eqb_spec (tsn c) (wrapping_add 32 t 1)) as [Et|Et]; cbn [negb]; [|apply IH; by left].
    pose proof (run_to_snoc _ _ _ Hrun Et) as Hrun'.
    assert (len (r ++ [c]) = k + 1) as Hr' by (rewrite len_app, len_cons, len_nil; lia).
    destruct (ending_fragment c) eqn:Ee.
    + intros [= <- <-]. exists p, (r ++ [c]), l. split_and!; [by rewrite <- !app_assoc|done|done|].
      intros n pp. by eapply run_to_complete.
    + apply IH. right. exists p, (r ++ [c]). by rewrite <- app_assoc.
Qed.

(** What is taken out of the unordered fragments is a complete message, and the rest stays. *)
Lemma find_complete_sound q :
  ∃ r, find_complete_unordered_chunk_set q = Ok r ∧
  match r with
  | (Some s, q') => is_complete s = true ∧ unordered_chunks q ≡ₚ cs_chunks s ++ unordered_chunks q' ∧
      q' = q <| unordered_chunks := unordered_chunks q' |>
  | (None, q') => q' = q
  end.
Proof.
  unfold find_complete_unordered_chunk_set. destruct (find_set (unordered_chunks q) 0 (-1) 0 0) as [[st m]|] eqn:E; [|by eexists].
  destruct (find_set_sound _ [] (-1) 0 0 _ _ (or_introl eq_refl) E) as (p & r & suf & Hl & Hp & Hr & Hc).
  cbn [app] in Hl. rewrite Hl. pose proof (len_nonneg p). pose proof (len_nonneg r). pose proof (len_nonneg suf).
  destruct ((0 <=? st) && (st + m <=? len (p ++ r ++ suf))) eqn:Eg; [|rewrite !len_app in Eg; lia].
  assert (Z.to_nat st = length p ∧ Z.to_nat m = length r ∧ Z.to_nat (st + m) = (length p + length r)%nat) as (E1 & E2 & E3)
    by (unfold len in *; lia).
  rewrite E1, E2, E3, drop_app_length, take_app_length, take_app_length.
  rewrite drop_app_add, drop_app_length. destruct r as [|c r]; [by specialize (Hc 0 PpUnknown)|].
  eexists. split; [done|]. cbn -[is_complete]. rewrite (is_complete_chunks _ (mkChunks 0 PpUnknown (c :: r) 0 0)) by done.
  split; [apply Hc|]. split; [|done]. rewrite (app_assoc r p suf), (Permutation_app_comm r p), <- app_assoc.
  by rewrite <- Permutation_middle.
Qed.

(** ** Byte accounting over the life of a queue *)

Definition set_bytes (s : Chunks) : Z := sum_with data_len (cs_chunks s).

Definition rq_total (q : ReassemblyQueue) : Z :=
  sum_with set_bytes (rq_ordered q) + sum_with set_bytes (rq_unordered q) + sum_with data_len (unordered_chunks q).

Record rq_inv (q : ReassemblyQueue) : Prop := mk_rq_inv {
  ri_nodup : NoDup (ssn <$> rq_ordered q);
  ri_unordered : Forall (λ s, is_complete s = true) (rq_unordered q);
  ri_bytes : rq_n_bytes q = rq_total q;
}.

(** The same, with [excess] bytes counted that are not buffered. *)
Record rq_keeps (excess : Z) (q : ReassemblyQueue) : Prop := mk_rq_keeps {
  rk_nodup : NoDup (ssn <$> rq_ordered q);
  rk_unordered : Forall (λ s, is_complete s = true) (rq_unordered q);
  rk_bytes : rq_n_bytes q = rq_total q + excess;
  rk_excess : 0 <= excess;
}.

Lemma rq_inv_keeps q : rq_inv q ↔ rq_keeps 0 q.
Proof. split; intros []; constructor; (done || lia). Qed.

Definition has_tsn (s : Chunks) (c : ChunkPayloadData) : bool := existsb (λ x, tsn x =? tsn c) (cs_chunks s).

(** The bytes a push counts although it keeps no chunk: those of an ordered fragment that its message
    has already. *)
Definition repeated (q : ReassemblyQueue) (c : ChunkPayloadData) : Z :=
  if negb (stream_identifier c =? si q) || unordered c || sna16lt (stream_sequence_number c) (next_ssn q) then 0
  else match find_ssn (stream_sequence_number c) (rq_ordered q) with
       | Some s => if has_tsn s c then data_len c else 0
       | None => 0
       end.

Lemma sum_bytes_nonneg l : 0 <= sum_with data_len l.
Proof. apply sum_with_nonneg. intros. apply data_len_nonneg. Qed.

Lemma sum_sets_nonneg l : 0 <= sum_with set_bytes l.
Proof. apply sum_with_nonneg. intros. apply sum_bytes_nonneg. Qed.

Lemma sum_sorted_tsn f l : sum_with f (sort_chunks_by_tsn l) = sum_with f l.
Proof. apply sum_with_Permutation, sort_by_Permutation. Qed.

Lemma sum_sorted_ssn f l : sum_with f (sort_chunks_by_ssn l) = sum_with f l.
Proof. apply sum_with_Permutation, sort_by_Permutation. Qed.

Lemma sum_with_snoc {A} (f : A → Z) l x : sum_with f (l ++ [x]) = sum_with f l + f x.
Proof. rewrite sum_with_app, sum_with_cons. change (sum_with f []) with 0. lia. Qed.

Lemma Chunks_push_bytes s c :
  set_bytes (Chunks_push s c).2 + (if has_tsn s c then data_len c else 0) = set_bytes s + data_len c.
Proof.
  unfold Chunks_push, has_tsn. destruct (existsb _ _); [done|].
  unfold set_bytes. cbn -[sort_chunks_by_tsn sum_with]. rewrite sum_sorted_tsn, sum_with_snoc. lia.
Qed.

Lemma push_existing_bytes l c ok l' :
  push_existing l c = Some (ok, l') →
  ∃ s, find_ssn (stream_sequence_number c) l = Some s ∧ ssn <$> l' = ssn <$> l ∧
    sum_with set_bytes l' + (if has_tsn s c then data_len c else 0) = sum_with set_bytes l + data_len c.
Proof.
  unfold find_ssn. revert ok l'; induction l as [|s l IH]; intros ok l'; cbn [push_existing List.find]; [done|].
  destruct (ssn s =? stream_sequence_number c).
  - pose proof (Chunks_push_bytes s c) as Hb. pose proof (Chunks_push_ssn s c) as Hs. destruct (Chunks_push s c) as [ok' s']. cbn [snd] in *.
    intros [= <- <-]. exists s. rewrite !sum_with_cons, !fmap_cons, Hs. split_and!; [done..|lia].
  - destruct (push_existing l c) as [[ok' l'']|] eqn:E; [|done]. intros [= <- <-].
    destruct (IH ok' l'' eq_refl) as (s1 & Hs1 & Hl & Hb). exists s1. rewrite !sum_with_cons, !fmap_cons, Hl. split_and!; [done..|lia].
Qed.

Lemma subtract_num_bytes_exact q n : n <= rq_n_bytes q → rq_n_bytes (subtract_num_bytes q n) = rq_n_bytes q - n.
Proof. intros. cbn. destruct (Z.geb_spec (rq_n_bytes q) n); lia. Qed.

Lemma rq_push_unordered_keeps e q c b q' :
  rq_keeps e q → unordered c = true → stream_identifier c = si q → rq_push q c = Ok (b, q') → rq_keeps e q'.
Proof.
  intros [Hnd Hu Hb He] Hcu Hsi. unfold rq_push. rewrite Hsi, Z.eqb_refl, Hcu. cbn [negb].
  destruct (calculate_unordered_message_size q c) as [sz| | |]; try done. cbn [mbind Outcome_bind].
  destruct (sz >? rq_max_message_size q); [done|].
  set (q1 := _ <| unordered_chunks ::= _ |>).
  assert (rq_total q1 = rq_total q + data_len c) as Ht.
  { unfold rq_total, q1. cbn -[sort_chunks_by_tsn sum_with]. rewrite sum_sorted_tsn, sum_with_snoc. lia. }
  assert (rq_n_bytes q1 = rq_n_bytes q + data_len c) as Hb1 by done.
  assert (rq_ordered q1 = rq_ordered q ∧ rq_unordered q1 = rq_unordered q) as [Ho1 Hu1] by done. clearbody q1.
  destruct (find_complete_sound q1) as ([[s|] q2] & -> & Hf); cbn [mbind Outcome_bind].
  - destruct Hf as (Hc & HP & E). intros [= <- <-]. rewrite E. unfold rq_total in *.
    constructor; cbn -[sum_with]; rewrite ?Ho1, ?Hu1 in *; [done|by apply Forall_app; repeat constructor| |done].
    unfold rq_total. cbn -[sum_with]. rewrite sum_with_snoc.
    rewrite (sum_with_Permutation _ _ _ HP), sum_with_app in Ht. change (set_bytes s) with (sum_with data_len (cs_chunks s)).
    rewrite Ho1, Hu1. lia.
  - intros [= <- <-]. subst q2. constructor; [by rewrite Ho1|by rewrite Hu1|lia|done].
Qed.

Lemma new_set_NoDup l c s :
  NoDup (ssn <$> l) → push_existing l c = None → ssn s = stream_sequence_number c → NoDup (ssn <$> l ++ [s]).
Proof.
  intros Hnd Hn Hs. rewrite fmap_app. apply NoDup_app. split; [done|]. split; [|apply NoDup_singleton].
  intros x Hx Hxs. apply list_elem_of_singleton in Hxs as ->. rewrite Hs in Hx.
  destruct (find_ssn (stream_sequence_number c) l) as [s'|] eqn:E; [|by apply find_ssn_None in E].
  destruct (push_existing_Some _ _ _ E) as (l' & ? & _). congruence.
Qed.

Lemma rq_push_keeps e q c b q' : rq_keeps e q → rq_push q c = Ok (b, q') → rq_keeps (e + repeated q c) q'.
Proof.
  intros Hq Hp. unfold repeated. destruct (Z.eqb_spec (stream_identifier c) (si q)) as [Hsi|Hsi]; cbn [negb orb].
  2:{ unfold rq_push in Hp. rewrite (proj2 (Z.eqb_neq _ _) Hsi) in Hp. cbn in Hp. simplify_eq. by rewrite Z.add_0_r. }
  destruct (unordered c) eqn:Hcu; [rewrite Z.add_0_r; by eapply rq_push_unordered_keeps|]. cbn [orb].
  pose proof Hq as [Hnd Hu Hb He]. unfold rq_push in Hp. rewrite Hsi, Z.eqb_refl, Hcu in Hp. cbn [negb] in Hp.
  destruct (calculate_ordered_message_size q c >? rq_max_message_size q); [done|].
  destruct (sna16lt (stream_sequence_number c) (next_ssn q)); [simplify_eq; by rewrite Z.add_0_r|].
  pose proof (data_len_nonneg c). cbn [rq_ordered update upd_rq_n_bytes] in Hp. destruct (push_existing (rq_ordered q) c) as [[ok l]|] eqn:E.
  - destruct (push_existing_bytes _ _ _ _ E) as (s & -> & Hl & Hs). injection Hp as <- <-.
    constructor; cbn -[sum_with]; [by rewrite Hl|done| |destruct (has_tsn s c); lia]. unfold rq_total in *. cbn -[sum_with]. lia.
  - pose proof (Chunks_push_bytes (Chunks_new (stream_sequence_number c) (payload_type c) []) c) as Hcb.
    change (has_tsn _ c) with false in Hcb. change (set_bytes (Chunks_new _ _ [])) with 0 in Hcb.
    pose proof (Chunks_push_ssn (Chunks_new (stream_sequence_number c) (payload_type c) []) c) as Hs.
    destruct (find_ssn _ _) as [s0|] eqn:E0; [by destruct (push_existing_Some _ _ _ E0) as (? & ? & _); congruence|]. rewrite Z.add_0_r.
    destruct (Chunks_push _ c) as [ok s]. cbn [snd] in *. injection Hp as <- <-.
    assert (set_bytes s = data_len c) as Hsb by lia.
    constructor; cbn -[sum_with sort_chunks_by_ssn]; [|done| |done].
    + unfold sort_chunks_by_ssn. rewrite sort_by_Permutation. by apply (new_set_NoDup _ c).
    + unfold rq_total in *. cbn -[sum_with sort_chunks_by_ssn]. rewrite sum_sorted_ssn, sum_with_snoc. lia.
Qed.

Lemma rq_read_keeps e q s q' : rq_keeps e q → rq_read q = (s, q') → rq_keeps e q'.
Proof.
  intros Hq. pose proof Hq as [Hnd Hu Hb He]. unfold rq_read. unfold rq_total in Hb.
  pose proof (sum_bytes_nonneg (unordered_chunks q)).
  destruct (rq_unordered q) as [|u ul] eqn:Eu; [destruct (rq_ordered q) as [|c l] eqn:Eo|].
  - intros [= <- <-]. done.
  - destruct (negb (is_complete c)); [by intros [= <- <-]|].
    destruct (sna16gt (ssn c) (next_ssn q)); [by intros [= <- <-]|]. intros [= <- <-].
    rewrite sum_with_cons in Hb. rewrite Chunks_len_sum. fold (set_bytes c).
    pose proof (sum_sets_nonneg l). apply NoDup_cons in Hnd as [_ Hnd].
    set (q1 := upd_rq_ordered _ _).
    assert (rq_n_bytes q1 = rq_n_bytes q ∧ rq_ordered q1 = l ∧ rq_unordered q1 = [] ∧
      unordered_chunks q1 = unordered_chunks q) as (E1 & E2 & E3 & E4)
      by (unfold q1; destruct (ssn c =? next_ssn q); done). clearbody q1.
    change (sum_with set_bytes []) with 0 in Hb.
    constructor; [change (NoDup (ssn <$> rq_ordered q1)); by rewrite E2
      |change (Forall (λ s, is_complete s = true) (rq_unordered q1)); by rewrite E3| |done]. rewrite subtract_num_bytes_exact by lia.
    unfold rq_total. cbn -[sum_with]. rewrite E2, E3, E4. change (sum_with set_bytes []) with 0. lia.
  - intros [= <- <-]. rewrite sum_with_cons in Hb. rewrite Chunks_len_sum. fold (set_bytes u).
    pose proof (sum_sets_nonneg ul). pose proof (sum_sets_nonneg (rq_ordered q)). apply Forall_cons in Hu as [_ Hu].
    constructor; [done|done| |done]. rewrite subtract_num_bytes_exact by (cbn -[sum_with]; lia).
    unfold rq_total. cbn -[sum_with]. lia.
Qed.

(** Dropping some sets and subtracting exactly what they hold. *)
Lemma drop_sets_keeps e q (P : Chunks → bool) nx :
  rq_keeps e q →
  let q1 := subtract_num_bytes q (sum_with set_bytes (filter (λ s, P s = true) (rq_ordered q))) in
  let q2 := q1 <| rq_ordered := filter (λ s, P s = false) (rq_ordered q) |> <| next_ssn := nx |> in
  rq_keeps e q2 ∧ rq_n_bytes q2 = rq_n_bytes q - sum_with set_bytes (filter (λ s, P s = true) (rq_ordered q)).
Proof.
  intros [Hnd Hu Hb He]. cbv zeta.
  assert (sum_with set_bytes (rq_ordered q) = sum_with set_bytes (filter (λ s, P s = true) (rq_ordered q)) +
    sum_with set_bytes (filter (λ s, P s = false) (rq_ordered q))) as Hsplit.
  { clear. induction (rq_ordered q) as [|s l IH]; [done|]. rewrite !filter_cons.
    destruct (P s); cbn [decide bool_eq_dec]; rewrite !sum_with_cons; repeat case_decide; rewrite ?sum_with_cons; done || lia. }
  unfold rq_total in Hb. pose proof (sum_sets_nonneg (filter (λ s, P s = false) (rq_ordered q))).
  pose proof (sum_sets_nonneg (rq_unordered q)). pose proof (sum_bytes_nonneg (unordered_chunks q)).
  assert (rq_n_bytes (subtract_num_bytes q (sum_with set_bytes (filter (λ s, P s = true) (rq_ordered q)))) =
    rq_n_bytes q - sum_with set_bytes (filter (λ s, P s = true) (rq_ordered q))) as Hn
    by (apply subtract_num_bytes_exact; lia).
  cbn -[sum_with] in *. split; [|done]. constructor; cbn -[sum_with].
  - eapply sublist_NoDup; [done|]. apply (fmap_sublist ssn), sublist_filter.
  - done.
  - rewrite Hn. unfold rq_total. cbn -[sum_with]. lia.
  - done.
Qed.

Lemma sets_bytes_sum l : sets_bytes l = sum_with set_bytes l.
Proof.
  unfold sets_bytes. rewrite (fold_left_sum (λ s, fold_left (λ acc c, acc + data_len c) (cs_chunks s) 0)).
  rewrite Z.add_0_l. induction l as [|s l IH]; [done|]. rewrite !sum_with_cons, IH. f_equal.
  by rewrite fold_left_sum.
Qed.

Lemma sum_flat_map l : sum_with data_len (flat_map cs_chunks l) = sum_with set_bytes l.
Proof. induction l as [|s l IH]; [done|]. cbn [flat_map]. by rewrite sum_with_app, sum_with_cons, IH. Qed.

(** The partial messages FORWARD TSN gives up. *)
Definition given_up (last_ssn : u16) (s : Chunks) : bool := sna16lte (ssn s) last_ssn && negb (is_complete s).

Definition given_up_bounded (last_ssn : u16) (cum : u32) (s : Chunks) : bool :=
  sna16lte (ssn s) last_ssn && negb (is_complete s) && is_missing_tsn_at_or_before s cum.

Lemma keep_given_up last_ssn (l : list Chunks) :
  filter (λ s, negb (sna16lte (ssn s) last_ssn) || is_complete s = true) l = filter (λ s, given_up last_ssn s = false) l.
Proof.
  apply list_filter_iff. intros s. unfold given_up. destruct (sna16lte _ _), (is_complete s); done.
Qed.

Lemma keep_given_up_bounded last_ssn cum (l : list Chunks) :
  filter (λ s, negb (sna16lte (ssn s) last_ssn) || is_complete s || negb (is_missing_tsn_at_or_before s cum) = true) l =
  filter (λ s, given_up_bounded last_ssn cum s = false) l.
Proof.
  apply list_filter_iff. intros s. unfold given_up_bounded.
  destruct (sna16lte _ _), (is_complete s), (is_missing_tsn_at_or_before s cum); done.
Qed.

Lemma forward_ordered_eq q last_ssn :
  forward_tsn_for_ordered q last_ssn =
  subtract_num_bytes q (sum_with set_bytes (filter (λ s, given_up last_ssn s = true) (rq_ordered q)))
    <| rq_ordered := filter (λ s, given_up last_ssn s = false) (rq_ordered q) |>
    <| next_ssn := if sna16lte (next_ssn q) last_ssn then wrapping_add 16 last_ssn 1 else next_ssn q |>.
Proof.
  unfold forward_tsn_for_ordered. rewrite sets_bytes_sum. destruct q; cbn -[sum_with filter].
  unfold upd_next_ssn, upd_rq_ordered. destruct (sna16lte next_ssn0 last_ssn); cbn -[sum_with filter];
    rewrite keep_given_up; reflexivity.
Qed.

Lemma forward_bounded_eq q last_ssn cum :
  ∃ nx, forward_tsn_for_ordered_bounded q last_ssn cum =
  subtract_num_bytes q (sum_with set_bytes (filter (λ s, given_up_bounded last_ssn cum s = true) (rq_ordered q)))
    <| rq_ordered := filter (λ s, given_up_bounded last_ssn cum s = false) (rq_ordered q) |>
    <| next_ssn := nx |>.
Proof.
  unfold forward_tsn_for_ordered_bounded. rewrite sum_flat_map. destruct q; cbn -[sum_with filter reduce].
  unfold upd_next_ssn, upd_rq_ordered. destruct (sna16lt next_ssn0 _); cbn -[sum_with filter reduce];
    rewrite keep_given_up_bounded; eexists; reflexivity.
Qed.

Lemma fold_subtract l q :
  sum_with data_len l <= rq_n_bytes q →
  fold_left (λ q c, subtract_num_bytes q (data_len c)) l q = q <| rq_n_bytes := rq_n_bytes q - sum_with data_len l |>.
Proof.
  revert q; induction l as [|c l IH]; intros q Hl; cbn [fold_left].
  { change (sum_with data_len []) with 0. rewrite Z.sub_0_r. by destruct q. }
  rewrite sum_with_cons in *. pose proof (sum_bytes_nonneg l).
  assert (rq_n_bytes (subtract_num_bytes q (data_len c)) = rq_n_bytes q - data_len c) as Hn
    by (apply subtract_num_bytes_exact; lia).
  rewrite IH by (rewrite Hn; lia). rewrite Hn.
  by replace (rq_n_bytes q - data_len c - sum_with data_len l) with (rq_n_bytes q - (data_len c + sum_with data_len l)) by lia.
Qed.

Lemma forward_unordered_keeps e q cum : rq_keeps e q → rq_keeps e (forward_tsn_for_unordered q cum).
Proof.
  intros [Hnd Hu Hb He]. unfold forward_tsn_for_unordered, rq_total in *.
  set (k := leading_at_or_before cum (unordered_chunks q)).
  pose proof (sum_with_app data_len (take k (unordered_chunks q)) (drop k (unordered_chunks q))) as Hs.
  rewrite take_drop in Hs. pose proof (sum_bytes_nonneg (drop k (unordered_chunks q))).
  pose proof (sum_sets_nonneg (rq_ordered q)). pose proof (sum_sets_nonneg (rq_unordered q)).
  rewrite fold_subtract by lia. constructor; cbn -[sum_with drop take]; [done|done| |done].
  unfold rq_total. cbn -[sum_with drop take]. lia.
Qed.

(** Claim C34.  A FORWARD TSN on an ordered stream drops exactly the incomplete messages up to the given
    sequence number, keeps complete ones for delivery, returns exactly the dropped bytes to
    the receive window, and leaves the stream expecting a later number. *)
Theorem forward_tsn_for_ordered_spec q last_ssn :
  rq_inv q → uN 16 last_ssn → uN 16 (next_ssn q) →
  let q' := forward_tsn_for_ordered q last_ssn in
  rq_inv q' ∧
  rq_ordered q' = filter (λ s, given_up last_ssn s = false) (rq_ordered q) ∧
  rq_get_num_bytes q' =
    rq_get_num_bytes q - sum_with set_bytes (filter (λ s, given_up last_ssn s = true) (rq_ordered q)) ∧
  sna16gt (next_ssn q') last_ssn = true ∧ (sna16gt (next_ssn q) last_ssn = true → next_ssn q' = next_ssn q).
Proof.
  intros Hq%rq_inv_keeps Hl Hn. cbv zeta. rewrite rq_inv_keeps, forward_ordered_eq.
  destruct (drop_sets_keeps 0 q (given_up last_ssn) (if sna16lte (next_ssn q) last_ssn then wrapping_add 16 last_ssn 1 else next_ssn q) Hq)
    as [Hi Hb].
  split; [done|]. split; [done|]. split; [done|]. cbn -[sna16gt]. rewrite !sna16gt_negb_lte.
  destruct (sna16lte (next_ssn q) last_ssn) eqn:E; [|by rewrite E]. split; [|done].
  apply negb_true_iff. clear -Hl. apply not_true_iff_false. sna.
Qed.

(** One call on the queue of a stream, any chunk, repeated or not; the index is what it over-counts. *)
Inductive rq_step : ReassemblyQueue → Z → ReassemblyQueue → Prop :=
| rq_step_push q c b q' : rq_push q c = Ok (b, q') → rq_step q (repeated q c) q'
| rq_step_read q s q' : rq_read q = (s, q') → rq_step q 0 q'
| rq_step_forward q last_ssn : rq_step q 0 (forward_tsn_for_ordered q last_ssn)
| rq_step_bounded q last_ssn cum : rq_step q 0 (forward_tsn_for_ordered_bounded q last_ssn cum)
| rq_step_unordered q cum : rq_step q 0 (forward_tsn_for_unordered q cum).

(** A sequence of calls from a new queue on, with the over-count of all of them. *)
Inductive rq_run (q0 : ReassemblyQueue) : Z → ReassemblyQueue → Prop :=
| rq_run_start : rq_run q0 0 q0
| rq_run_step e q d q' : rq_run q0 e q → rq_step q d q' → rq_run q0 (e + d) q'.

Lemma rq_step_keeps e q d q' : rq_step q d q' → rq_keeps e q → rq_keeps (e + d) q'.
Proof.
  destruct 1 as [q c b q' Hp|q s q' Hr|q last_ssn|q last_ssn cum|q cum]; intros Hq; [by eapply rq_push_keeps|rewrite Z.add_0_r..].
  - by eapply rq_read_keeps.
  - rewrite forward_ordered_eq. by apply drop_sets_keeps.
  - destruct (forward_bounded_eq q last_ssn cum) as [nx ->]. by apply drop_sets_keeps.
  - by apply forward_unordered_keeps.
Qed.

Lemma rq_keeps_new sid size : rq_keeps 0 (ReassemblyQueue_new sid size).
Proof. constructor; cbn; [constructor|constructor|done|done]. Qed.

(** *** A push returns *)

Lemma rposition_lookup {A} (f : A → bool) l p : rposition f l = Some p → is_Some (l !! p).
Proof.
  revert p; induction l as [|x l IH]; intros p; cbn [rposition]; [done|].
  destruct (rposition f l) as [i|]; [intros [= <-]; by apply IH|]. destruct (f x); [|done]. intros [= <-]. by eexists.
Qed.

Lemma prefix_size_returns l p t cnt : is_Some (l !! p) → ∃ n, prefix_size l p t cnt = Ok n.
Proof.
  revert t cnt; induction p as [|p IH]; intros t cnt [c Hc]; cbn [prefix_size]; rewrite Hc; repeat case_match; eauto.
  apply IH. apply lookup_lt_is_Some. apply lookup_lt_Some in Hc. lia.
Qed.

Lemma rq_push_returns q c : returns (rq_push q c).
Proof.
  unfold rq_push. repeat (match goal with |- returns (if ?b then _ else _) => destruct b end; try done).
  - apply returns_bind.
    + unfold calculate_unordered_message_size. apply returns_bind; [|done].
      destruct (beginning_fragment c); [done|]. destruct (rposition _ _) as [p|] eqn:E; [|done].
      destruct (prefix_size_returns (unordered_chunks q) p (tsn c) 0) as [n ->]; [by eapply rposition_lookup|done].
    + intros sz _. destruct (sz >? rq_max_message_size q); [done|].
      match goal with |- returns (find_complete_unordered_chunk_set ?q1 ≫= _) =>
        destruct (find_complete_sound q1) as ([[s|] q2] & -> & _) end; done.
  - destruct (push_existing _ c) as [[ok l]|]; [done|]. by destruct (Chunks_push _ c).
Qed.

(** Claim C33.  Over the life of a stream, whatever chunks are pushed and however reads and FORWARD TSNs
    come in between: the bytes counted against the receive window are exactly the bytes the
    queue buffers plus those of the ordered fragments that were pushed although their message
    had them already (so with no such push, exactly the bytes it buffers); ordered messages
    have distinct sequence numbers, every unordered message offered to the reader is complete,
    and no push panics. *)
Theorem reassembly_queue_reachable_inv sid size e q :
  rq_run (ReassemblyQueue_new sid size) e q →
  rq_get_num_bytes q = rq_total q + e ∧ 0 <= e ∧ NoDup (ssn <$> rq_ordered q) ∧
  Forall (λ s, is_complete s = true) (rq_unordered q) ∧ ∀ c, returns (rq_push q c).
Proof.
  intros Hr. assert (rq_keeps e q) as [Hnd Hu Hb He]; [|split_and!; [done..|intros; apply rq_push_returns]].
  induction Hr as [|e q d q' _ IH Hs]; [apply rq_keeps_new|by eapply rq_step_keeps].
Qed.

(** ** Sample: a message of three fragments over the wrap of the TSN. *)

Definition sample_piece (b e : bool) (t : u32) (data : Bytes) : ChunkPayloadData :=
  ChunkPayloadData_default <| beginning_fragment := b |> <| ending_fragment := e |> <| tsn := t |>
    <| stream_identifier := 3 |> <| stream_sequence_number := 0 |> <| user_data := data |>.

Definition sample_pieces : list ChunkPayloadData :=
  [sample_piece true false 4294967295 [1; 2]; sample_piece false false 0 [3]; sample_piece false true 1 [4; 5]].

Lemma sample_message_of : message_of 3 0 4294967295 sample_pieces.
Proof.
  constructor; [|by intros [|[|[|[]]]] c [= <-]|by repeat constructor|done|done].
  split; [by repeat constructor|by intros [|[|[|[]]]] c [= <-]].
Qed.

Lemma reassemble_any_order_witness :
  ∃ q', rq_push_all (ReassemblyQueue_new 3 65536) (rev sample_pieces) = Ok ([false; false; true], q') ∧
    ∃ s, find_ssn 0 (rq_ordered q') = Some s ∧ cs_chunks s = sample_pieces ∧ is_complete s = true.
Proof.
  destruct (reassemble_any_order 0 4294967295 sample_pieces (rev sample_pieces) (ReassemblyQueue_new 3 65536))
    as (q' & H1 & H2 & _); [exact sample_message_of|reflexivity|by vm_compute|reflexivity|constructor
      |symmetry; apply Permutation_rev|done|].
  exists q'. split; [exact H1|exact H2].
Defined.

Definition sample_set : Chunks := Chunks_new 0 Binary sample_pieces.

Lemma Chunks_next_spec_witness :
  ∃ s', Chunks_next sample_set 3 = Ok (Some [1; 2; 3], s') ∧ unread s' = [4; 5].
Proof.
  assert (cursor_ok sample_set) as Hok
    by (unfold cursor_ok; cbn; split; [by vm_compute|]; split; [done|]; intros; apply data_len_nonneg).
  destruct (Chunks_next_spec sample_set 3 Hok ltac:(lia)) as (s' & H1 & _ & H2 & _). exists s'. exact (conj H1 H2).
Defined.

Definition sample_readable : ReassemblyQueue := mkReassemblyQueue 3 0 [sample_set] [] [] 5 65536.

Lemma rq_read_spec_witness :
  is_readable sample_readable = bool_decide (is_Some (rq_read sample_readable).1) ∧
  is_readable sample_readable = true.
Proof.
  split; [|vm_compute; reflexivity]. exact (proj1 (rq_read_spec sample_readable (Forall_nil_2 _))).
Defined.

(** The middle fragment is missing when the sender gives the message up. *)
Definition sample_partial : ReassemblyQueue :=
  mkReassemblyQueue 3 0 [Chunks_new 0 Binary [sample_piece true false 4294967295 [1; 2]; sample_piece false true 1 [4; 5]]]
    [] [] 4 65536.

Lemma forward_tsn_for_ordered_spec_witness :
  rq_get_num_bytes (forward_tsn_for_ordered sample_partial 0) = 0 ∧
  rq_inv (forward_tsn_for_ordered sample_partial 0).
Proof.
  assert (rq_inv sample_partial) as Hi
    by (constructor; [apply NoDup_singleton|constructor|vm_compute; reflexivity]).
  split; [vm_compute; reflexivity|].
  exact (proj1 (forward_tsn_for_ordered_spec sample_partial 0 Hi ltac:(by vm_compute) ltac:(by vm_compute))).
Defined.

(** The first fragment arrives twice, then the last one. *)
Definition sample_twice : list ChunkPayloadData :=
  [sample_piece true false 4294967295 [1; 2]; sample_piece true false 4294967295 [1; 2]; sample_piece false true 1 [4; 5]].

Definition sample_after (n : nat) : ReassemblyQueue :=
  match rq_push_all (ReassemblyQueue_new 3 65536) (take n sample_twice) with Ok (_, q) => q | _ => ReassemblyQueue_new 3 65536 end.

Lemma sample_twice_pushed n c : sample_twice !! n = Some c → rq_push (sample_after n) c = Ok (false, sample_after (S n)).
Proof. destruct n as [|[|[|]]]; intros [= <-]; vm_compute; reflexivity. Qed.

Lemma sample_after_run : rq_run (ReassemblyQueue_new 3 65536) 2 (sample_after 3).
Proof.
  assert (∀ n c d, sample_twice !! n = Some c → repeated (sample_after n) c = d → rq_step (sample_after n) d (sample_after (S n))) as Hstep
    by (intros n c d Hc <-; eapply rq_step_push, sample_twice_pushed, Hc).
  pose proof (Hstep 0%nat _ 0 eq_refl ltac:(vm_compute; reflexivity)) as S1.
  pose proof (Hstep 1%nat _ 2 eq_refl ltac:(vm_compute; reflexivity)) as S2.
  pose proof (Hstep 2%nat _ 0 eq_refl ltac:(vm_compute; reflexivity)) as S3.
  exact (rq_run_step _ _ _ _ _ (rq_run_step _ _ _ _ _ (rq_run_step _ _ _ _ _ (rq_run_start _) S1) S2) S3).
Qed.

(** Its two bytes are counted twice. *)
Lemma reassembly_queue_reachable_inv_witness :
  rq_get_num_bytes (sample_after 3) = rq_total (sample_after 3) + 2 ∧ rq_total (sample_after 3) = 4.
Proof.
  split; [|vm_compute; reflexivity]. exact (proj1 (reassembly_queue_reachable_inv 3 65536 2 (sample_after 3) sample_after_run)).
Defined.
