(* ===== verification/ReassemblyOrder.v ===== *)
(** * Several messages in one reassembly queue

    The fragments of consecutive ordered messages of a stream reach its
    reassembly queue in any order, those of later messages before those of
    earlier ones, while the application reads.  [holding] is what the queue
    then is; a push and a read keep it, and a read gives the next message as
    soon as all of it is there and nothing before. *)

From stdpp Require Import base list gmap numbers sets sorting.
From Stdlib Require Import ZArith Lia ZifyBool.
From S2P Require Import Prelude Bytes Util Params Chunks PayloadQueue ReassemblyQueue.

(** ** Sequence numbers *)

(** The sequence number of the [k]-th message from [n] on. *)
Definition nth_ssn (n : u16) (k : nat) : u16 := wrapping_add 16 n (Z.of_nat k).

Lemma nth_ssn_0 n : uN 16 n → nth_ssn n 0 = n.
Proof. unfold nth_ssn. intros H. sna. Qed.

Lemma nth_ssn_step n k : nth_ssn (wrapping_add 16 n 1) k = nth_ssn n (S k).
Proof. unfold nth_ssn, wrapping_add, wrap. rewrite Zplus_mod_idemp_l. f_equal. lia. Qed.

Lemma nth_ssn_next n k : wrapping_add 16 (nth_ssn n k) 1 = nth_ssn n (S k).
Proof. unfold nth_ssn, wrapping_add, wrap. rewrite Zplus_mod_idemp_l. f_equal. lia. Qed.

Lemma nth_ssn_dist n k : uN 16 n → Z.of_nat k < 2 ^ 15 → uN 16 (nth_ssn n k) ∧ dist16 n (nth_ssn n k) = Z.of_nat k.
Proof. unfold nth_ssn. intros H Hk. split; [by apply wrap_uN|sna]. Qed.

(** The sets stay in the order of their sequence numbers. *)
Definition ssn_order (n : u16) (a b : Chunks) : Prop := dist16 n (ssn a) < dist16 n (ssn b).

Lemma sort_ssn_sorted n l :
  uN 16 n → Forall (λ s, uN 16 (ssn s) ∧ dist16 n (ssn s) < 2 ^ 15) l → NoDup (ssn <$> l) → StronglySorted (ssn_order n) (sort_chunks_by_ssn l).
Proof.
  intros Hn Hl Hnd. rewrite Forall_forall in Hl. unfold sort_chunks_by_ssn. apply (StronglySorted_strict (λ s, dist16 n (ssn s))).
  - intros x y Hx Hy E. rewrite sort_by_Permutation in Hx, Hy. destruct (Hl x Hx) as [Hxu _], (Hl y Hy) as [Hyu _].
    apply dist16_inj in E; [|done..].
    pose proof (find_ssn_unique (ssn x) l x Hnd Hx eq_refl). pose proof (find_ssn_unique (ssn x) l y Hnd Hy (eq_sym E)). congruence.
  - rewrite sort_by_Permutation. by eapply NoDup_fmap_1.
  - apply sort_by_sorted. intros x y Hx Hy. destruct (Hl x Hx), (Hl y Hy). by apply sna16lt_window.
Qed.

Lemma sorted_ssn n l l' : ssn <$> l' = ssn <$> l → StronglySorted (ssn_order n) l → StronglySorted (ssn_order n) l'.
Proof.
  revert l'. induction l as [|s l IH]; intros [|s' l'] E; try done. injection E as E1 E2. intros Hs. apply StronglySorted_inv in Hs as [Hs Hf].
  constructor; [by apply IH|]. unfold ssn_order in *. rewrite E1. clear IH Hs. revert l' E2. induction Hf as [|x l Hx Hf IH]; intros [|x' l'] E; try done.
  injection E as E3 E4. constructor; [by rewrite E3|by apply IH].
Qed.

Lemma rq_push_sorted n q c ok q' :
  uN 16 n → rq_push q c = Ok (ok, q') → unordered c = false → Forall (λ s, uN 16 (ssn s) ∧ dist16 n (ssn s) < 2 ^ 15) (rq_ordered q') →
  NoDup (ssn <$> rq_ordered q') → StronglySorted (ssn_order n) (rq_ordered q) → StronglySorted (ssn_order n) (rq_ordered q').
Proof.
  intros Hn Hp Hu Hall Hnd Hs. unfold rq_push in Hp. rewrite Hu in Hp. cbv zeta in Hp.
  destruct (negb _); [by injection Hp as _ <-|]. destruct (_ >? _); [done|]. destruct (sna16lt _ _); [by injection Hp as _ <-|].
  change (rq_ordered (q <| rq_n_bytes ::= λ n, n + data_len c |>)) with (rq_ordered q) in Hp.
  destruct (find_ssn (stream_sequence_number c) (rq_ordered q)) as [s|] eqn:Ef.
  - destruct (push_existing_Some _ _ _ Ef) as (l & E & El & _). rewrite E in Hp. injection Hp as _ <-. by eapply sorted_ssn.
  - rewrite push_existing_None in Hp by done. destruct (Chunks_push _ c) as [ok' s']. injection Hp as _ <-.
    change (Forall (λ s, uN 16 (ssn s) ∧ dist16 n (ssn s) < 2 ^ 15) (sort_chunks_by_ssn (rq_ordered q ++ [s']))) in Hall.
    change (NoDup (ssn <$> sort_chunks_by_ssn (rq_ordered q ++ [s']))) in Hnd.
    change (StronglySorted (ssn_order n) (sort_chunks_by_ssn (rq_ordered q ++ [s']))). unfold sort_chunks_by_ssn in Hall, Hnd.
    rewrite sort_by_Permutation in Hall, Hnd. by apply sort_ssn_sorted.
Qed.

(** ** What is still missing *)

Lemma missing_part {A} (S M : list A) : NoDup S → (∀ x, x ∈ S → x ∈ M) → ∃ R, S ++ R ≡ₚ M.
Proof. intros Hnd Hs. destruct (submseteq_Permutation S M) as (R & HR); [by apply NoDup_submseteq|]. exists R. by symmetry. Qed.

Lemma sum_part (P M : list ChunkPayloadData) : NoDup P → (∀ x, x ∈ P → x ∈ M) → sum_with data_len P <= sum_with data_len M.
Proof.
  intros Hnd HP. destruct (missing_part P M Hnd HP) as [R HR]. rewrite <- (sum_with_Permutation _ _ _ HR), sum_with_app.
  pose proof (sum_bytes_nonneg R). lia.
Qed.

Section Order.
(** The messages, each with its first TSN. *)
Context (sid n : u16) (max : u32) (Ms : list (u32 * list ChunkPayloadData)) (bytes : Z).
Context (Hn : uN 16 n) (Hcount : Z.of_nat (length Ms) <= 2 ^ 15).
Context (Hmsgs : ∀ k t M, Ms !! k = Some (t, M) → message_of sid (nth_ssn n k) t M ∧ M ≠ [] ∧ sum_with data_len M <= max).

(** The first [r] messages are read, and the chunks [P] have come in. *)
Record holding (r : nat) (P : list ChunkPayloadData) (q : ReassemblyQueue) : Prop := mk_holding {
  ho_si : si q = sid;
  ho_next : next_ssn q = nth_ssn n r;
  ho_unordered : rq_unordered q = [];
  ho_max : rq_max_message_size q = max;
  ho_nodup : NoDup (ssn <$> rq_ordered q);
  ho_sorted : StronglySorted (ssn_order n) (rq_ordered q);
  ho_sets s : s ∈ rq_ordered q → ∃ k, ssn s = nth_ssn n k ∧ (r <= k < length Ms)%nat;
  ho_set k t M : Ms !! k = Some (t, M) → (r <= k)%nat →
    StronglySorted (λ a b, place t a < place t b) (set_chunks (nth_ssn n k) q) ∧ ∀ c, c ∈ set_chunks (nth_ssn n k) q ↔ c ∈ M ∧ c ∈ P;
  ho_read k t M : Ms !! k = Some (t, M) → (k < r)%nat → ∀ c, c ∈ M → c ∈ P;
  ho_bytes : 0 <= rq_n_bytes q <= bytes + sum_with data_len P;
}.

Lemma ssn_at k : (k < length Ms)%nat → uN 16 (nth_ssn n k) ∧ dist16 n (nth_ssn n k) = Z.of_nat k.
Proof using Hn Hcount. intros Hk. apply nth_ssn_dist; [done|lia]. Qed.

Lemma ssn_at_inj j k : (j < length Ms)%nat → (k < length Ms)%nat → nth_ssn n j = nth_ssn n k → j = k.
Proof using Hn Hcount. intros Hj Hk E. destruct (ssn_at j Hj) as [_ E1], (ssn_at k Hk) as [_ E2]. rewrite E in E1. lia. Qed.

Lemma holding_new q : si q = sid → next_ssn q = n → rq_ordered q = [] → rq_unordered q = [] → rq_max_message_size q = max →
  rq_n_bytes q = bytes → 0 <= bytes → holding 0 [] q.
Proof using Hn.
  intros E1 E2 E3 E4 E5 E6 H0. split; try done.
  - by rewrite nth_ssn_0.
  - rewrite E3. apply NoDup_nil_2.
  - rewrite E3. constructor.
  - intros s. rewrite E3. by intros ?%elem_of_nil.
  - intros k t M _ _. unfold set_chunks. rewrite E3. cbn. split; [constructor|]. intros c. rewrite !elem_of_nil. tauto.
  - lia.
  - change (sum_with data_len []) with 0. lia.
Qed.

(** A fragment that is not there yet, of any message. *)
Lemma holding_push r P q k t M c :
  holding r P q → Ms !! k = Some (t, M) → c ∈ M → c ∉ P → ∃ ok q', rq_push q c = Ok (ok, q') ∧ holding r (P ++ [c]) q'.
Proof using Hn Hcount Hmsgs.
  intros [H1 H2 H3 H4 H5 H6 H7 H8 H9 H10] HM Hc HP. destruct (Hmsgs k t M HM) as (Hmsg & Hne & Hsz). pose proof (lookup_lt_Some _ _ _ HM) as Hk.
  assert (r <= k)%nat as Hr by (destruct (decide (k < r)%nat) as [Hlt|]; [destruct HP; by apply (H9 k t M)|lia]).
  destruct (H8 k t M HM Hr) as [Hsrt Hset]. set (S := set_chunks (nth_ssn n k) q) in *.
  assert (NoDup S) as HndS by (eapply StronglySorted_NoDup; [|exact Hsrt]; simpl; lia).
  assert (c ∉ S) as HcS by (rewrite Hset; tauto).
  destruct (missing_part (S ++ [c]) M) as [R HR].
  { apply NoDup_app. split; [done|]. split; [|apply NoDup_singleton]. intros x Hx. rewrite list_elem_of_singleton. by intros ->. }
  { intros x. rewrite elem_of_app, list_elem_of_singleton, Hset. intros [[? _]| ->]; done. }
  rewrite <- app_assoc in HR. cbn [app] in HR.
  pose proof (mo_stream _ _ _ _ Hmsg) as Hst. rewrite Forall_forall in Hst. destruct (Hst c Hc) as [Hcs Hcn].
  pose proof (proj1 (mo_fragments _ _ _ _ Hmsg)) as Hfu. rewrite Forall_forall in Hfu. specialize (Hfu c Hc). simpl in Hfu.
  assert (calculate_ordered_message_size q c <= rq_max_message_size q) as Hcalc.
  { rewrite <- (sum_with_Permutation _ _ _ HR), sum_with_app, sum_with_cons in Hsz. pose proof (sum_bytes_nonneg R).
    rewrite H4. unfold calculate_ordered_message_size. unfold S, set_chunks in Hsz. rewrite Hcn.
    destruct (find_ssn _ _); rewrite ?Chunks_len_sum; [lia|]. change (sum_with data_len []) with 0 in Hsz. lia. }
  assert (sna16lt (nth_ssn n k) (next_ssn q) = false) as Hlt.
  { rewrite H2. apply not_true_iff_false. destruct (ssn_at k Hk), (ssn_at r ltac:(lia)). rewrite (sna16lt_window n) by (done || lia). lia. }
  destruct (rq_push_ordered q c) as (q' & Hpush & Hf & Hnd' & Hb' & Hsi' & Hnx' & Hun' & Hmx'); [congruence|done|done|by rewrite Hcn|done|].
  rewrite Hcn in *. set (s0 := default _ _) in *.
  assert (cs_chunks s0 = S) as Hs0 by (unfold s0, S, set_chunks; by destruct (find_ssn _ _)).
  clearbody s0. destruct (Chunks_push_fragment _ _ _ _ Hmsg S c R s0) as [Hp Hsrt']; [by rewrite Hs0|done|].
  rewrite Hs0, Hp in *. cbn [fst snd] in *. eexists _, q'. split; [exact Hpush|].
  assert (∀ j, (j < length Ms)%nat → set_chunks (nth_ssn n j) q' = if decide (j = k) then sort_chunks_by_tsn (S ++ [c]) else set_chunks (nth_ssn n j) q) as Hsets.
  { intros j Hj. unfold set_chunks at 1. rewrite Hf. destruct (decide (j = k)) as [->|Hjk]; [by rewrite Z.eqb_refl|].
    destruct (Z.eqb_spec (nth_ssn n j) (nth_ssn n k)) as [E|]; [by apply ssn_at_inj in E|done]. }
  assert (∀ s, s ∈ rq_ordered q' → ∃ k, ssn s = nth_ssn n k ∧ (r <= k < length Ms)%nat) as Hall.
  { intros s Hs. pose proof (find_ssn_unique _ _ s Hnd' Hs eq_refl) as E. rewrite Hf in E.
    destruct (Z.eqb_spec (ssn s) (nth_ssn n k)) as [Es|_]; [by exists k|]. apply H7. by eapply find_ssn_Some. }
  split; try congruence.
  - eapply rq_push_sorted; try done. apply Forall_forall. intros s (j & -> & Hj)%Hall. destruct (ssn_at j ltac:(lia)) as [? ->]. split; [done|lia].
  - done.
  - intros j t' M' HM' Hj. rewrite Hsets by (by eapply lookup_lt_Some). destruct (decide (j = k)) as [->|Hjk].
    + assert (t' = t ∧ M' = M) as [-> ->] by (split; congruence). split; [done|]. intros x. unfold sort_chunks_by_tsn.
      rewrite sort_by_Permutation, !elem_of_app, list_elem_of_singleton, Hset. split; [intros [[? ?]| ->]; auto|intros [? [?|?]]; auto].
    + destruct (H8 j t' M' HM' Hj) as [? Hset']. split; [done|]. intros x. rewrite Hset', elem_of_app, list_elem_of_singleton. split; [tauto|].
      intros [Hx [?| ->]]; [done|]. destruct Hjk. destruct (Hmsgs j t' M' HM') as [Hm' _]. pose proof (mo_stream _ _ _ _ Hm') as Hst'.
      rewrite Forall_forall in Hst'. destruct (Hst' c Hx) as [_ E]. apply ssn_at_inj; [by eapply lookup_lt_Some|done|congruence].
  - intros j t' M' HM' Hj x Hx. apply elem_of_app. left. by eapply H9.
  - rewrite Hb', sum_with_app, sum_with_cons. change (sum_with data_len []) with 0. pose proof (data_len_nonneg c). lia.
Qed.
(** All of the next message is there: its set is the first one, and holds it in order. *)
Lemma holding_first r P q t M :
  holding r P q → Ms !! r = Some (t, M) → (∀ c, c ∈ M → c ∈ P) → ∃ s l, rq_ordered q = s :: l ∧ ssn s = nth_ssn n r ∧ cs_chunks s = M.
Proof using Hn Hcount Hmsgs.
  intros Hq HM Hall. destruct (Hmsgs r t M HM) as (Hmsg & Hne & _). destruct (ho_set _ _ _ Hq r t M HM ltac:(done)) as [Hsrt Hset].
  assert (set_chunks (nth_ssn n r) q = M) as E.
  { apply (sorted_unique _ _ _ _ Hmsg); [done|]. apply NoDup_Permutation.
    - eapply StronglySorted_NoDup; [|exact Hsrt]; simpl; lia.
    - eapply StronglySorted_NoDup; [|apply (message_sorted _ _ _ _ Hmsg)]; simpl; lia.
    - intros c. rewrite Hset. split; [tauto|auto]. }
  unfold set_chunks in E. destruct (find_ssn (nth_ssn n r) (rq_ordered q)) as [s|] eqn:Ef; [|by destruct Hne].
  apply find_ssn_Some in Ef as [Hin Hs]. pose proof (ho_sorted _ _ _ Hq) as Hord. pose proof (ho_sets _ _ _ Hq) as Hsets.
  destruct (rq_ordered q) as [|x l]; [by apply elem_of_nil in Hin|]. apply StronglySorted_inv in Hord as [_ Hx]. rewrite Forall_forall in Hx.
  apply elem_of_cons in Hin as [->|Hin]; [by eauto|]. specialize (Hx s Hin). unfold ssn_order in Hx. destruct (Hsets x ltac:(left)) as (k & Ek & Hk).
  rewrite Ek, Hs in Hx. destruct (ssn_at k ltac:(lia)) as [_ E1], (ssn_at r ltac:(by eapply lookup_lt_Some)) as [_ E2]. lia.
Qed.

(** A complete set holds the whole message. *)
Lemma holding_complete r P q k t M s :
  holding r P q → s ∈ rq_ordered q → Ms !! k = Some (t, M) → (r <= k)%nat → ssn s = nth_ssn n k → is_complete s = true →
  cs_chunks s = M ∧ ∀ c, c ∈ M → c ∈ P.
Proof using Hmsgs.
  intros Hq Hin HM Hk Hs Hcomp. destruct (Hmsgs k t M HM) as (Hmsg & _). destruct (ho_set _ _ _ Hq k t M HM Hk) as [Hsrt Hset].
  pose proof (find_ssn_unique _ _ s (ho_nodup _ _ _ Hq) Hin Hs) as Ef. unfold set_chunks in Hsrt, Hset. rewrite Ef in Hsrt, Hset.
  assert (NoDup (cs_chunks s)) as Hnd by (eapply StronglySorted_NoDup; [|exact Hsrt]; simpl; lia).
  destruct (missing_part (cs_chunks s) M Hnd) as [R HR]; [intros x; rewrite Hset; tauto|]. destruct R as [|x R].
  - rewrite app_nil_r in HR. pose proof (sorted_unique _ _ _ _ Hmsg _ Hsrt HR) as E. split; [done|]. intros c Hc. rewrite <- E in Hc. by apply (Hset c) in Hc as [_ ?].
  - rewrite (is_complete_chunks s (mkChunks 0 PpUnknown (cs_chunks s) 0 0)) in Hcomp by done.
    rewrite (incomplete _ _ _ _ Hmsg) in Hcomp; [done|intros y; rewrite Hset; tauto|]. rewrite <- HR, length_app. simpl. lia.
Qed.

(** The queue without the message that was read. *)
Lemma holding_taken r P q t M s l :
  holding r P q → rq_ordered q = s :: l → ssn s = nth_ssn n r → Ms !! r = Some (t, M) → (∀ c, c ∈ M → c ∈ P) →
  let q1 := subtract_num_bytes (q <| next_ssn ::= λ n, wrapping_add 16 n 1 |> <| rq_ordered := l |>) (Chunks_len s) in
  holding (S r) P q1 ∧ rq_n_bytes q1 <= rq_n_bytes q.
Proof using Hn Hcount.
  intros Hq Eo Ek HM Hall q1. pose proof (lookup_lt_Some _ _ _ HM) as Hr.
  pose proof (ho_nodup _ _ _ Hq) as Hnd. rewrite Eo, fmap_cons in Hnd. apply NoDup_cons in Hnd as [Hns Hnd].
  pose proof (ho_sorted _ _ _ Hq) as Hord. rewrite Eo in Hord. apply StronglySorted_inv in Hord as [Hord _].
  assert (rq_ordered q1 = l) as E1 by done.
  assert (0 <= rq_n_bytes q1 <= rq_n_bytes q) as Hb.
  { pose proof (ho_bytes _ _ _ Hq). pose proof (sum_bytes_nonneg (cs_chunks s)) as Hsum. rewrite <- Chunks_len_sum in Hsum.
    change (rq_n_bytes q1) with (if rq_n_bytes q >=? Chunks_len s then rq_n_bytes q - Chunks_len s else 0).
    destruct (Z.geb_spec (rq_n_bytes q) (Chunks_len s)); lia. }
  split; [|lia]. destruct Hq as [H1 H2 H3 H4 _ _ H7 H8 H9 H10]. split; try (done || lia || by rewrite E1).
  - change (wrapping_add 16 (next_ssn q) 1 = nth_ssn n (S r)). by rewrite H2, nth_ssn_next.
  - rewrite E1. intros x Hx. destruct (H7 x ltac:(rewrite Eo; by right)) as (j & Ej & Hj). exists j. split; [done|].
    assert (j ≠ r); [|lia]. intros ->. apply Hns. rewrite Ek, <- Ej. by apply list_elem_of_fmap_2.
  - intros j t' M' HM' Hj. pose proof (lookup_lt_Some _ _ _ HM') as Hl. destruct (H8 j t' M' HM' ltac:(lia)) as [A1 A2].
    assert (set_chunks (nth_ssn n j) q1 = set_chunks (nth_ssn n j) q) as ->; [|done].
    unfold set_chunks, find_ssn. rewrite E1, Eo. cbn [List.find]. destruct (Z.eqb_spec (ssn s) (nth_ssn n j)) as [E|]; [|done].
    rewrite Ek in E. apply ssn_at_inj in E; lia.
  - intros j t' M' HM' Hj. destruct (decide (j = r)) as [->|]; [|apply (H9 j t' M' HM'); lia]. assert (M' = M) as -> by congruence. done.
Qed.

(** A read: nothing while the next message lacks a fragment, and otherwise that message. *)
Lemma holding_read r P q :
  holding r P q →
  (rq_read q = (None, q) ∧ ∀ t M, Ms !! r = Some (t, M) → ∃ c, c ∈ M ∧ c ∉ P) ∨
  ∃ t M m q', Ms !! r = Some (t, M) ∧ rq_read q = (Some m, q') ∧ cs_chunks m = M ∧ holding (S r) P q' ∧ rq_n_bytes q' <= rq_n_bytes q.
Proof using Hn Hcount Hmsgs.
  intros Hq. destruct (rq_read q) as [[m|] q1] eqn:Er; [right|left].
  - unfold rq_read in Er. rewrite (ho_unordered _ _ _ Hq) in Er. destruct (rq_ordered q) as [|s l] eqn:Eo; [done|].
    destruct (is_complete s) eqn:Ec; [|done]. cbn [negb] in Er. destruct (sna16gt (ssn s) (next_ssn q)) eqn:Eg; [done|].
    assert (s ∈ rq_ordered q) as Hin by (rewrite Eo; left).
    destruct (ho_sets _ _ _ Hq s Hin) as (k & Ek & Hk). destruct (lookup_lt_is_Some_2 Ms k ltac:(lia)) as [[t M] HM].
    assert (k = r) as ->.
    { rewrite sna16gt_negb_lte, negb_false_iff, Ek, (ho_next _ _ _ Hq) in Eg. destruct (ssn_at k ltac:(lia)) as [U1 E1], (ssn_at r ltac:(lia)) as [U2 E2].
      unfold sna16lte in Eg. apply orb_true_iff in Eg as [Eg|Eg]; [apply ssn_at_inj; [lia..|by apply Z.eqb_eq]|].
      rewrite (sna16lt_window n) in Eg by (done || lia). lia. }
    destruct (holding_complete r P q r t M s Hq Hin HM ltac:(done) Ek Ec) as [Ecs Hall].
    rewrite Ek, (ho_next _ _ _ Hq), Z.eqb_refl in Er. injection Er as <- <-.
    exists t, M, s. eexists. split; [done|]. split; [reflexivity|]. split; [done|].
    by eapply holding_taken.
  - assert (q1 = q) as ->.
    { unfold rq_read in Er. rewrite (ho_unordered _ _ _ Hq) in Er. destruct (rq_ordered q) as [|s l]; [by injection Er|].
      destruct (negb _); [by injection Er|]. by destruct (sna16gt _ _); [injection Er|]. }
    split; [done|]. intros t M HM. destruct (decide (Forall (λ c, c ∈ P) M)) as [Hall|Hno].
    + exfalso. rewrite Forall_forall in Hall. destruct (holding_first r P q t M Hq HM Hall) as (s & l & Eo & Es & Ecs).
      destruct (Hmsgs r t M HM) as (Hmsg & Hne & _). unfold rq_read in Er. rewrite (ho_unordered _ _ _ Hq), Eo, Es, (ho_next _ _ _ Hq) in Er.
      rewrite (is_complete_chunks s (mkChunks 0 PpUnknown M 0 0)) in Er by done. rewrite (complete _ _ _ _ Hmsg) in Er by done. cbn [negb] in Er.
      assert (sna16gt (nth_ssn n r) (nth_ssn n r) = false) as E by (unfold sna16gt; lia). by rewrite E in Er.
    + apply not_Forall_Exists in Hno; [|intros c; apply list_elem_of_dec]. apply Exists_exists in Hno as (c & Hc & HcP). by exists c.
Qed.
End Order.
