(* ===== verification/Shared.v ===== *)
(** * Types the crate shares ([src/lib.rs], [src/shared.rs], the id generator of [src/util.rs])

    Addresses, datagrams in transit, the events an endpoint and an association
    send each other, and the interface through which an endpoint obtains
    association ids. *)

From stdpp Require Import base list numbers strings.
From Stdlib Require Import ZArith Lia.
From S2P Require Import Prelude Bytes Util Params Chunks Packet.

(** ** Sides *)

Inductive Side : Type := Client | Server.
#[export] Instance Side_eq_dec : EqDecision Side.
Proof. solve_decision. Defined.

Definition is_client (s : Side) : bool := bool_decide (s = Client).
Definition is_server (s : Side) : bool := bool_decide (s = Server).

(** [Display] *)
Definition Side_display (s : Side) : string := match s with Client => "Client" | Server => "Server" end.

(** [impl Not for Side] *)
Definition Side_not (s : Side) : Side := match s with Client => Server | Server => Client end.

(** ** Addresses ([core::net]) *)

Inductive IpAddr : Type := IpV4 (octets : list u8) | IpV6 (octets : list u8).
Record SocketAddr := mkSocketAddr { ip : IpAddr; port : u16 }.
Definition unspecified_addr : SocketAddr := mkSocketAddr (IpV4 [0; 0; 0; 0]) 0.

(** ** Datagrams *)

Inductive EcnCodepoint : Type := Ect0 | Ect1 | Ce.

Definition EcnCodepoint_from_bits (x : u8) : option EcnCodepoint :=
  let b := Z.land x 3 in
  if b =? 2 then Some Ect0 else if b =? 1 then Some Ect1 else if b =? 3 then Some Ce else None.

Inductive Payload : Type :=
| PayloadPartialDecode (pd : PartialDecode)
| PayloadRawEncode (datagrams : list Bytes).

Record Transmit := mkTransmit {
  t_now : Instant;
  t_remote : SocketAddr;
  t_ecn : option EcnCodepoint;
  t_local_ip : option IpAddr;
  t_payload : Payload;
}.

(** ** Events between an endpoint and its associations *)

Abbreviation AssociationId := u32 (only parsing).

Inductive AssociationEventInner : Type := Datagram (t : Transmit).
Record AssociationEvent := mkAssociationEvent { ae_inner : AssociationEventInner }.

Inductive EndpointEventInner : Type := Drained.
#[export] Instance EndpointEventInner_eq_dec : EqDecision EndpointEventInner.
Proof. solve_decision. Defined.

Record EndpointEvent := mkEndpointEvent { ee_inner : EndpointEventInner }.
Definition EndpointEvent_drained : EndpointEvent := mkEndpointEvent Drained.
Definition EndpointEvent_is_drained (e : EndpointEvent) : bool := bool_decide (ee_inner e = Drained).

(** ** Association ids

    The trait [AssociationIdGenerator]: an endpoint may be given any
    implementation, so it is a class over the type [G] of the generator. *)

Abbreviation Duration := Z (only parsing).

Class AssociationIdGenerator (G : Type) := {
  generate_aid : G → AssociationId * G;
  aid_lifetime : G → option Duration;
}.

(** The default generator draws from the thread's random generator: [rng] is the state of that
    source and [random_u32] its next value. *)
Section Random.
Context {R : Type} (random_u32 : R → u32 * R).

Record RandomAssociationIdGenerator := mkRandomAssociationIdGenerator {
  lifetime : option Duration;
  rng : R;
}.

Definition RandomAssociationIdGenerator_new (source : R) : RandomAssociationIdGenerator :=
  mkRandomAssociationIdGenerator None source.

Definition set_lifetime (g : RandomAssociationIdGenerator) (d : Duration) : RandomAssociationIdGenerator :=
  mkRandomAssociationIdGenerator (Some d) (rng g).

Definition random_generate_aid (g : RandomAssociationIdGenerator) : AssociationId * RandomAssociationIdGenerator :=
  let '(v, source) := random_u32 (rng g) in (v, mkRandomAssociationIdGenerator (lifetime g) source).

#[export] Instance random_generator : AssociationIdGenerator RandomAssociationIdGenerator := {|
  generate_aid := random_generate_aid;
  aid_lifetime := lifetime;
|}.
End Random.
Arguments RandomAssociationIdGenerator R : clear implicits.
