(* ===== verification/Stream.v ===== *)
(** * Streams ([src/association/stream.rs])

    The state an association keeps per stream: the counters of a data channel,
    the reassembly queue of the incoming half, and the fragmentation and
    buffered-byte accounting of the outgoing half.  The operations of the
    [Stream] handle, which go through the association, are in the files of the
    association. *)

From stdpp Require Import base list numbers sets.
From Stdlib Require Import ZArith Lia ZifyBool.
From S2P Require Import Prelude Bytes Util Params Chunks Packet PayloadQueue ReassemblyQueue Shared.

(** ** Data channel counters *)

Definition saturating_add (w a b : Z) : Z := Z.min (2 ^ w - 1) (a + b).

Record DataChannelStats := mkDataChannelStats {
  dc_stream_identifier : u16;
  generation : u64;
  messages_sent : u64;
  dc_bytes_sent : u64;
  messages_received : u64;
  dc_bytes_received : u64;
}.

#[export] Instance DataChannelStats_eta : Eta DataChannelStats := λ s,
  mkDataChannelStats (dc_stream_identifier s) (generation s) (messages_sent s) (dc_bytes_sent s)
    (messages_received s) (dc_bytes_received s).
#[export] Instance upd_generation : Update generation. Proof. solve_update. Defined.
#[export] Instance upd_messages_sent : Update messages_sent. Proof. solve_update. Defined.
#[export] Instance upd_dc_bytes_sent : Update dc_bytes_sent. Proof. solve_update. Defined.
#[export] Instance upd_messages_received : Update messages_received. Proof. solve_update. Defined.
#[export] Instance upd_dc_bytes_received : Update dc_bytes_received. Proof. solve_update. Defined.

Definition payload_bytes (ppi : PayloadProtocolIdentifier) (n : usize) : option u64 :=
  match ppi with
  | PpString | Binary => Some n
  | StringEmpty | BinaryEmpty => Some 0
  | _ => None
  end.

Definition stats_sent (s : DataChannelStats) (ppi : PayloadProtocolIdentifier) (n : usize) : DataChannelStats :=
  match payload_bytes ppi n with
  | Some bytes => s <| messages_sent ::= λ m, saturating_add 64 m 1 |>
                    <| dc_bytes_sent ::= λ b, saturating_add 64 b bytes |>
  | None => s
  end.

Definition stats_received (s : DataChannelStats) (ppi : PayloadProtocolIdentifier) (n : usize) : DataChannelStats :=
  match payload_bytes ppi n with
  | Some bytes => s <| messages_received ::= λ m, saturating_add 64 m 1 |>
                    <| dc_bytes_received ::= λ b, saturating_add 64 b bytes |>
  | None => s
  end.

(** ** Stream events *)

Module StreamResetError.
Inductive t : Type := Denied | Failed.
End StreamResetError.
#[export] Instance StreamResetError_eq_dec : EqDecision StreamResetError.t.
Proof. solve_decision. Defined.

Module StreamEvent.
Inductive t : Type :=
| Opened (id : u16)
| Readable (id : u16)
| Writable (id : u16)
| Finished (id : u16)
| ResetComplete (id : u16)
| ResetFailed (id : u16) (reason : StreamResetError.t)
| Stopped (id : u16) (error_code : u16)
| Available
| BufferedAmountLow (id : u16)
| BufferedAmountHigh (id : u16).
End StreamEvent.
#[export] Instance StreamEvent_eq_dec : EqDecision StreamEvent.t.
Proof. solve_decision. Defined.

Definition ReliabilityType_from_u8 (v : u8) : ReliabilityType :=
  if v =? 1 then Rexmit else if v =? 2 then Timed else Reliable.

(** ** Stream state *)

Module RecvSendState.
Inductive t : Type := Closed | Readable | Writable | ReadWritable.
End RecvSendState.
#[export] Instance RecvSendState_eq_dec : EqDecision RecvSendState.t.
Proof. solve_decision. Defined.

Definition RecvSendState_from_u8 (v : u8) : RecvSendState.t :=
  if v =? 1 then RecvSendState.Readable
  else if v =? 2 then RecvSendState.Writable
  else if v =? 3 then RecvSendState.ReadWritable
  else RecvSendState.Closed.

(** [as u8] *)
Definition RecvSendState_as_u8 (s : RecvSendState.t) : u8 :=
  match s with
  | RecvSendState.Closed => 0
  | RecvSendState.Readable => 1
  | RecvSendState.Writable => 2
  | RecvSendState.ReadWritable => 3
  end.

(** [((s as u8) & mask).into()] *)
Definition mask_state (s : RecvSendState.t) (mask : u8) : RecvSendState.t :=
  RecvSendState_from_u8 (Z.land (RecvSendState_as_u8 s) mask).

Record StreamState := mkStreamState {
  ss_stats : DataChannelStats;
  first_message_id : u64;
  ss_side : Side;
  ss_max_payload_size : u32;
  ss_stream_identifier : u16;
  default_payload_type : PayloadProtocolIdentifier;
  reassembly_queue : ReassemblyQueue;
  sequence_number : u16;
  ss_state : RecvSendState.t;
  ss_unordered : bool;
  reliability_type : ReliabilityType;
  reliability_value : u32;
  buffered_amount : usize;
  buffered_amount_low : usize;
  buffered_amount_high : usize;
}.

#[export] Instance StreamState_eta : Eta StreamState := λ s,
  mkStreamState (ss_stats s) (first_message_id s) (ss_side s) (ss_max_payload_size s) (ss_stream_identifier s)
    (default_payload_type s) (reassembly_queue s) (sequence_number s) (ss_state s) (ss_unordered s)
    (reliability_type s) (reliability_value s) (buffered_amount s) (buffered_amount_low s) (buffered_amount_high s).
#[export] Instance upd_ss_stats : Update ss_stats. Proof. solve_update. Defined.
#[export] Instance upd_first_message_id : Update first_message_id. Proof. solve_update. Defined.
#[export] Instance upd_default_payload_type : Update default_payload_type. Proof. solve_update. Defined.
#[export] Instance upd_reassembly_queue : Update reassembly_queue. Proof. solve_update. Defined.
#[export] Instance upd_sequence_number : Update sequence_number. Proof. solve_update. Defined.
#[export] Instance upd_ss_state : Update ss_state. Proof. solve_update. Defined.
#[export] Instance upd_ss_unordered : Update ss_unordered. Proof. solve_update. Defined.
#[export] Instance upd_reliability_type : Update reliability_type. Proof. solve_update. Defined.
#[export] Instance upd_reliability_value : Update reliability_value. Proof. solve_update. Defined.
#[export] Instance upd_buffered_amount : Update buffered_amount. Proof. solve_update. Defined.
#[export] Instance upd_buffered_amount_low : Update buffered_amount_low. Proof. solve_update. Defined.
#[export] Instance upd_buffered_amount_high : Update buffered_amount_high. Proof. solve_update. Defined.

Definition USIZE_MAX : usize := 2 ^ 64 - 1.

Definition StreamState_new (side : Side) (stream_identifier : u16) (max_payload_size max_receive_message_size : u32)
    (default_payload_type : PayloadProtocolIdentifier) : StreamState :=
  mkStreamState (mkDataChannelStats stream_identifier 0 0 0 0 0) 0 side max_payload_size stream_identifier
    default_payload_type (ReassemblyQueue_new stream_identifier max_receive_message_size) 0
    RecvSendState.ReadWritable false Reliable 0 0 0 USIZE_MAX.

Definition handle_stream_data (s : StreamState) (pd : ChunkPayloadData) : Outcome (bool * StreamState) :=
  '(ok, q) ← rq_push (reassembly_queue s) pd; Ok (ok, s <| reassembly_queue := q |>).

Section Packetize.
Context {B : BufApi}.

(** The [ChunkPayloadData { .. }] of one fragment. *)
Definition packetize_chunk (s : StreamState) (ppi : PayloadProtocolIdentifier) (u : bool) (data : Bytes)
    (beginning ending : bool) : ChunkPayloadData :=
  ChunkPayloadData_default
    <| stream_identifier := ss_stream_identifier s |> <| user_data := data |> <| unordered := u |>
    <| beginning_fragment := beginning |> <| ending_fragment := ending |> <| immediate_sack := false |>
    <| payload_type := ppi |> <| stream_sequence_number := sequence_number s |>.

(** The [while remaining != 0] of [packetize]; [i] is the offset of the next fragment. *)
Fixpoint packetize_loop (fuel : nat) (s : StreamState) (raw : Bytes) (ppi : PayloadProtocolIdentifier)
    (u : bool) (i remaining : usize) : Outcome (list ChunkPayloadData) :=
  if remaining =? 0 then Ok []
  else match fuel with
  | O => Stuck
  | S fuel' =>
      let fragment_size := Z.min (ss_max_payload_size s) remaining in
      data ← slice raw i (i + fragment_size);
      left ← checked_sub remaining fragment_size;
      let chunk := packetize_chunk s ppi u data (i =? 0) (left =? 0) in
      l ← packetize_loop fuel' s raw ppi u (i + fragment_size) left;
      Ok (chunk :: l)
  end.

(** One fragment per iteration takes at least one byte when [max_payload_size] is not zero,
    so [len raw] iterations are enough. *)
Definition packetize (s : StreamState) (raw : Bytes) (ppi : PayloadProtocolIdentifier)
    : Outcome (bool * list ChunkPayloadData * StreamState) :=
  let u := negb (bool_decide (ppi = Dcep)) && ss_unordered s in
  chunks ← packetize_loop (length raw) s raw ppi u 0 (len raw);
  let s := if negb u then s <| sequence_number ::= λ n, wrapping_add 16 n 1 |> else s in
  let old_amount := buffered_amount s in
  let s := s <| buffered_amount ::= λ n, n + len raw |> in
  let new_amount := buffered_amount s in
  let is_buffered_amount_high :=
    (old_amount <? buffered_amount_high s) && (new_amount >=? buffered_amount_high s) in
  Ok (is_buffered_amount_high, chunks, s).
End Packetize.

(** [n_bytes_released] is an [i64]. *)
Definition on_buffer_released (s : StreamState) (n_bytes_released : Z) : bool * StreamState :=
  if n_bytes_released <=? 0 then (false, s)
  else
    let from_amount := buffered_amount s in
    let '(new_amount, s) :=
      if from_amount <? n_bytes_released then (0, s <| buffered_amount := 0 |>)
      else (from_amount - n_bytes_released, s <| buffered_amount := from_amount - n_bytes_released |>) in
    ((from_amount >? buffered_amount_low s) && (new_amount <=? buffered_amount_low s), s).

Definition get_num_bytes_in_reassembly_queue (s : StreamState) : usize := rq_get_num_bytes (reassembly_queue s).

(** ** Reading a message that is complete *)

(** The receiving half of a stream that has handed out everything it got. *)
Definition caught_up (q : ReassemblyQueue) (sid n : u16) (max : u32) : Prop :=
  si q = sid ∧ next_ssn q = n ∧ rq_ordered q = [] ∧ rq_unordered q = [] ∧ rq_max_message_size q = max.

Lemma singleton_set n l s :
  NoDup (ssn <$> l) → find_ssn n l = Some s → (∀ m, m ≠ n → find_ssn m l = None) → l = [s].
Proof.
  intros Hnd [Hin Hs]%find_ssn_Some Hoth.
  assert (∀ x, x ∈ l → ssn x = n) as Hall.
  { intros x Hx. destruct (decide (ssn x = n)) as [|Hne]; [done|]. apply Hoth, find_ssn_None in Hne.
    exfalso. apply Hne, list_elem_of_fmap_2, Hx. }
  destruct l as [|a [|b l]]; [set_solver| |].
  - apply list_elem_of_singleton in Hin as ->. done.
  - rewrite !fmap_cons in Hnd. apply NoDup_cons in Hnd as [Hna _]. exfalso. apply Hna.
    rewrite (Hall a), (Hall b) by set_solver. left.
Qed.

(** A queue that has collected the whole message it waited for: the message is read next. *)
Lemma collected_reads sid n t0 cs q q1 :
  message_of (si q) n t0 cs → caught_up q sid n (rq_max_message_size q) → collecting (si q) n t0 cs cs q q1 → cs ≠ [] →
  is_readable q1 = true ∧ ∃ m q2, rq_read q1 = (Some m, q2) ∧ cs_chunks m = cs ∧
    caught_up q2 sid (wrapping_add 16 n 1) (rq_max_message_size q) ∧ (0 <= rq_n_bytes q → rq_n_bytes q2 = rq_n_bytes q).
Proof.
  intros Hmsg (Hsi & Hnx & Ho & Hun & _) Hc Hne. destruct (collected_complete _ _ _ _ Hmsg q1 Hc Hne) as (m & Hm & Hmc & Hcomp).
  destruct Hc as [_ _ Hoth Hnd Hby Hsi1 Hnx1 Hun1 Hmx1]. rewrite Ho in Hoth.
  pose proof (singleton_set _ _ _ Hnd Hm (λ m _, ltac:(by apply Hoth))) as E. destruct (find_ssn_Some _ _ _ Hm) as [_ Hssn].
  unfold is_readable, rq_read. rewrite Hun1, Hun, E, Hcomp, Hssn, Hnx1, Hnx.
  replace (sna16gt n n) with false by (unfold sna16gt; lia). replace (sna16lte n n) with true by (unfold sna16lte, sna16eq; lia).
  cbn [negb andb]. rewrite Z.eqb_refl. split; [done|]. eexists m, _. split; [reflexivity|]. split; [done|].
  split; [unfold caught_up, subtract_num_bytes; cbn; rewrite Hnx1, Hnx, Hun1, Hmx1, Hsi1; done|]. intros H0. rewrite Chunks_len_sum, Hmc.
  change ((if rq_n_bytes q1 >=? sum_with data_len cs then rq_n_bytes q1 - sum_with data_len cs else 0) = rq_n_bytes q).
  rewrite Hby. destruct (Z.geb_spec (rq_n_bytes q + sum_with data_len cs) (sum_with data_len cs)); lia.
Qed.

(** ** Fragmentation *)

Section Fragmentation.
Context {B : BufApi} {L : BufLaws B}.

(** What every fragment carries besides its data. *)
Definition fragment_header (s : StreamState) (ppi : PayloadProtocolIdentifier) (u : bool) (c : ChunkPayloadData) : Prop :=
  stream_identifier c = ss_stream_identifier s ∧ stream_sequence_number c = sequence_number s ∧
  payload_type c = ppi ∧ unordered c = u ∧ acked c = false ∧ abandoned c = false ∧ nsent c = 0 ∧ deadline c = None.

Lemma packetize_loop_spec s raw ppi u fuel : 0 < ss_max_payload_size s → ∀ i remaining,
  0 <= i → 0 <= remaining → i + remaining = len raw → remaining <= Z.of_nat fuel →
  ∃ cs, packetize_loop fuel s raw ppi u i remaining = Ok cs ∧
    message_data cs = drop (Z.to_nat i) raw ∧
    Forall (λ c, 0 < data_len c <= ss_max_payload_size s ∧ fragment_header s ppi u c) cs ∧
    ∀ (k : nat) c, cs !! k = Some c →
      beginning_fragment c = bool_decide (i = 0 ∧ k = 0%nat) ∧ ending_fragment c = bool_decide (S k = length cs).
Proof.
  intros Hmax. induction fuel as [|fuel IH]; intros i remaining Hi Hr Hlen Hf;
    cbn [packetize_loop]; destruct (Z.eqb_spec remaining 0) as [->|Hne]; try lia.
  1,2: exists []; split_and!; [done| |constructor|done]; simpl; symmetry; apply drop_ge; unfold len in *; lia.
  set (n := Z.min _ remaining). assert (0 < n <= remaining) as Hn by lia.
  rewrite slice_Ok by lia. unfold checked_sub. destruct (Z.leb_spec n remaining); [|lia]. cbn [mbind Outcome_bind].
  destruct (IH (i + n) (remaining - n)) as (cs & -> & Hd & Hall & Hk); [lia..|]. cbn [mbind Outcome_bind].
  eexists (_ :: cs). split; [reflexivity|]. split_and!.
  - unfold message_data in *. cbn [flat_map]. rewrite Hd. cbn [user_data packetize_chunk]. unfold range.
    replace (Z.to_nat (i + n)) with (Z.to_nat i + Z.to_nat n)%nat by lia.
    replace (i + n - i) with n by lia. rewrite <- drop_drop. apply take_drop.
  - constructor; [|done]. split; [|by repeat split]. change (0 < len (range raw i (i + n)) <= ss_max_payload_size s). rewrite len_range by lia. lia.
  - intros [|k] c.
    + cbn [lookup list_lookup]. intros E%Some_inj. subst c. cbn [packetize_chunk beginning_fragment ending_fragment update].
      assert (remaining - n = 0 ↔ cs = []) as Hend.
      { assert (len (message_data cs) = remaining - n) as E by (rewrite Hd; lens).
        rewrite len_message_data in E. destruct Hall as [|c cs [? _] _]; [done|].
        pose proof (sum_with_nonneg data_len cs ltac:(intros; apply data_len_nonneg)).
        rewrite sum_with_cons in E. split; [lia|done]. }
      change ((i =? 0) = bool_decide (i = 0 ∧ 0%nat = 0%nat) ∧ (remaining - n =? 0) = bool_decide (1%nat = S (length cs))).
      split; [case_bool_decide; lia|]. destruct (Z.eqb_spec (remaining - n) 0) as [E|E]; symmetry.
      * apply bool_decide_true. by rewrite (proj1 Hend E).
      * apply bool_decide_false. destruct cs; [tauto|done].
    + intros Hc. destruct (Hk k c Hc) as [-> ->]. split; apply bool_decide_ext; simpl; lia.
Qed.

(** The effect of [packetize] on the stream, whatever the message. *)
Definition packetize_after (s : StreamState) (raw : Bytes) (u : bool) : StreamState :=
  (if u then s else s <| sequence_number ::= λ n, wrapping_add 16 n 1 |>) <| buffered_amount ::= λ n, n + len raw |>.

Definition sends_unordered (s : StreamState) (ppi : PayloadProtocolIdentifier) : bool :=
  negb (bool_decide (ppi = Dcep)) && ss_unordered s.

Lemma packetize_fragments s raw ppi :
  0 < ss_max_payload_size s →
  ∃ cs high, packetize s raw ppi = Ok (high, cs, packetize_after s raw (sends_unordered s ppi)) ∧
    (high = true ↔ buffered_amount s < buffered_amount_high s <= buffered_amount s + len raw) ∧
    message_data cs = raw ∧ fragmented (sends_unordered s ppi) cs ∧
    Forall (λ c, 0 < data_len c <= ss_max_payload_size s ∧ fragment_header s ppi (sends_unordered s ppi) c) cs.
Proof.
  intros Hmax. unfold packetize. fold (sends_unordered s ppi). set (u := sends_unordered s ppi).
  destruct (packetize_loop_spec s raw ppi u (length raw) Hmax 0 (len raw)) as (cs & -> & Hd & Hall & Hk);
    [lens..|unfold len; lia|].
  cbn [mbind Outcome_bind]. eexists cs, _. split; [by destruct u|]. split; [destruct u; cbn; lia|].
  split; [done|]. split; [|done]. split.
  - eapply Forall_impl; [done|]. intros c (_ & _ & _ & _ & ? & _). done.
  - intros k c Hc. destruct (Hk k c Hc) as [-> ->]. split; [apply bool_decide_ext; lia|done].
Qed.

(** Claim C28.  A message of any length is cut into fragments that carry it exactly: their data in order
    is the message, no fragment is empty or larger than the maximum payload, only the first is
    marked as beginning and only the last as ending, all share the stream and its current
    sequence number; an ordered message then moves the sequence number on by one, and the
    buffered amount grows by the length of the message. *)
Theorem packetize_spec s raw ppi :
  0 < ss_max_payload_size s →
  let u := sends_unordered s ppi in
  ∃ cs high s', packetize s raw ppi = Ok (high, cs, s') ∧
    message_data cs = raw ∧ fragmented u cs ∧
    Forall (λ c, 0 < data_len c <= ss_max_payload_size s ∧ fragment_header s ppi u c) cs ∧
    sequence_number s' = (if u then sequence_number s else wrapping_add 16 (sequence_number s) 1) ∧
    buffered_amount s' = buffered_amount s + len raw ∧
    (high = true ↔ buffered_amount s < buffered_amount_high s <= buffered_amount s').
Proof.
  intros Hmax u. destruct (packetize_fragments s raw ppi Hmax) as (cs & high & Hp & Hh & Hd & Hf & Hall).
  exists cs, high, (packetize_after s raw u). split_and!; try done.
  - unfold packetize_after. by destruct u.
  - by destruct u.
  - rewrite Hh. by destruct u.
Qed.

(** ** The fragments on their way *)

(** The fragments with consecutive TSNs, as [send_next] numbers them when it moves one after the
    other in flight ([AssocMessage] shows that it does). *)
Definition numbered (t0 : u32) (cs : list ChunkPayloadData) : list ChunkPayloadData :=
  imap (λ i c, c <| tsn := wrapping_add 32 t0 (Z.of_nat i) |>) cs.

Lemma message_data_numbered t0 cs : message_data (numbered t0 cs) = message_data cs.
Proof.
  assert (∀ f : nat → Z, message_data (imap (λ i c, c <| tsn := f i |>) cs) = message_data cs) as H by
    (induction cs as [|c cs IH]; intros f; [done|]; unfold message_data in *; cbn [imap flat_map];
     f_equal; exact (IH (f ∘ S))).
  apply H.
Qed.

(** A message has no more fragments than bytes. *)
Lemma packetize_count s raw ppi cs high s' :
  packetize s raw ppi = Ok (high, cs, s') → 0 < ss_max_payload_size s → len cs <= len raw.
Proof.
  intros Hp Hmax. destruct (packetize_fragments s raw ppi Hmax) as (cs' & high' & Hp' & _ & Hd & _ & Hall).
  rewrite Hp in Hp'. injection Hp' as _ <- _. rewrite <- Hd, len_message_data. clear -Hall.
  induction Hall as [|c cs [? _] _ IH]; [done|]. rewrite len_cons, sum_with_cons. lia.
Qed.

Lemma packetize_message_of s raw ppi cs high s' t0 :
  0 < ss_max_payload_size s → sends_unordered s ppi = false → uN 32 t0 → len raw < 2 ^ 31 →
  packetize s raw ppi = Ok (high, cs, s') →
  message_of (ss_stream_identifier s) (sequence_number s) t0 (numbered t0 cs).
Proof.
  intros Hmax Hu Ht0 Hshort Hp.
  destruct (packetize_fragments s raw ppi Hmax) as (cs' & high' & Hp' & _ & Hd & [_ Hf] & Hall).
  rewrite Hp in Hp'. injection Hp' as _ <- _. rewrite Hu in *. unfold numbered.
  assert (∀ (i : nat) c, imap (λ i c, c <| tsn := wrapping_add 32 t0 (Z.of_nat i) |>) cs !! i = Some c →
    ∃ c0, cs !! i = Some c0 ∧ c = c0 <| tsn := wrapping_add 32 t0 (Z.of_nat i) |>) as Hi.
  { intros i c. rewrite list_lookup_imap. destruct (cs !! i) as [c0|]; [|done]. intros [= <-]. eauto. }
  rewrite Forall_lookup in Hall. constructor; [split| | |done|].
  - apply Forall_lookup. intros i c (c0 & Hc0 & ->)%Hi. destruct (Hall i c0 Hc0) as (_ & _ & _ & _ & ? & _). done.
  - intros i c (c0 & Hc0 & ->)%Hi. rewrite length_imap. exact (Hf i c0 Hc0).
  - intros i c (c0 & Hc0 & ->)%Hi. done.
  - apply Forall_lookup. intros i c (c0 & Hc0 & ->)%Hi. cbn. destruct (Hall i c0 Hc0) as (_ & ? & ? & _). done.
  - unfold len. rewrite length_imap. fold (len cs). pose proof (packetize_count s raw ppi cs high s' Hp Hmax). lia.
Qed.

(** Claim C40.  An empty write breaks an ordered stream: it sends nothing but uses up a sequence number,
    so the peer, which still waits for that number, cannot read the next message even when all
    of it has arrived. *)
Theorem empty_write_blocks_stream s ppi raw cs1 cs2 h1 h2 s1 s2 t0 q l :
  0 < ss_max_payload_size s → sends_unordered s ppi = false → uN 32 t0 → uN 16 (sequence_number s) →
  caught_up q (ss_stream_identifier s) (sequence_number s) (rq_max_message_size q) →
  raw ≠ [] → len raw <= rq_max_message_size q → len raw < 2 ^ 31 →
  packetize s [] ppi = Ok (h1, cs1, s1) → packetize s1 raw ppi = Ok (h2, cs2, s2) → l ≡ₚ numbered t0 cs2 →
  cs1 = [] ∧ ∃ q1, rq_push_all q l = Ok (replicate (length l - 1) false ++ [true], q1) ∧
    rq_read q1 = (None, q1) ∧ is_readable q1 = false.
Proof.
  intros Hmax Hu Ht0 Hn (Hsi & Hnx & Ho & Hun & _) Hraw Hsz Hshort Hp1 Hp2 Hl.
  destruct (packetize_fragments s [] ppi Hmax) as (? & ? & Hp' & _ & Hd1 & _ & Hall1).
  rewrite Hp1, Hu in Hp'. injection Hp' as _ <- Es1.
  split; [destruct Hall1 as [|c ? [? _] _]; [done|]; apply (f_equal len) in Hd1; rewrite len_message_data, sum_with_cons in Hd1;
    pose proof (sum_with_nonneg data_len l0 ltac:(intros; apply data_len_nonneg)); change (len []) with 0 in *; lia|].
  assert (sends_unordered s1 ppi = false) as Hu1 by by rewrite Es1.
  assert (0 < ss_max_payload_size s1) as Hmax1 by by rewrite Es1.
  pose proof (packetize_message_of s1 raw ppi cs2 h2 s2 t0 Hmax1 Hu1 Ht0 Hshort Hp2) as Hmsg.
  assert (message_data (numbered t0 cs2) = raw) as Hd.
  { destruct (packetize_fragments s1 raw ppi Hmax1) as (? & ? & Hp' & _ & Hd & _).
    rewrite Hp2 in Hp'. injection Hp' as _ <- _. by rewrite message_data_numbered. }
  assert (numbered t0 cs2 ≠ []) as Hne by (intros E; rewrite E in Hd; by destruct raw).
  assert (ss_stream_identifier s1 = si q) as E1 by by rewrite Es1, Hsi. rewrite E1 in Hmsg.
  set (n := sequence_number s1) in *. assert (n = wrapping_add 16 (sequence_number s) 1) as Hn1 by by unfold n; rewrite Es1. clearbody n.
  assert (sna16gt n (sequence_number s) = true ∧ sna16lte n (sequence_number s) = false ∧ sna16lt n (sequence_number s) = false)
    as (Hgt & Hlte & Hlt) by (rewrite Hn1; unfold wrapping_add, wrap, uN in *; sna).
  destruct (push_message n t0 (numbered t0 cs2) q Hmsg) with (l := l) as (q1 & Hq1 & Hc);
    [by rewrite Hnx|by rewrite <- len_message_data, Hd|by rewrite Ho|rewrite Ho; apply NoDup_nil_2|done
    |intros ->; by apply Permutation_nil in Hl|].
  destruct (collected_complete _ _ _ _ Hmsg q1 Hc Hne) as (m & Hm & Hmc & Hcomp).
  destruct Hc as [_ _ Hoth Hnd _ Hsi1 Hnx1 Hun1 Hmx1]. rewrite Ho in Hoth.
  pose proof (singleton_set _ _ _ Hnd Hm (λ m _, ltac:(by apply Hoth))) as E.
  destruct (find_ssn_Some _ _ _ Hm) as [_ Hssn].
  exists q1. split; [done|]. unfold rq_read, is_readable. rewrite Hun1, Hun, E, Hcomp, Hssn, Hnx1, Hnx, Hgt, Hlte. done.
Qed.
End Fragmentation.

(** ** Witnesses *)

Definition sample_stream : StreamState := StreamState_new Client 5 2 65536 Binary.
Definition sample_peer : ReassemblyQueue := ReassemblyQueue_new 5 65536.

Lemma packetize_spec_witness :
  ∃ cs high s', packetize (B := list_buf) sample_stream [1; 2; 3; 4; 5] Binary = Ok (high, cs, s') ∧
    message_data cs = [1; 2; 3; 4; 5] ∧ sequence_number s' = 1.
Proof.
  destruct (packetize_spec (L := list_buf_laws) sample_stream [1; 2; 3; 4; 5] Binary)
    as (cs & high & s' & H1 & H2 & _ & _ & H3 & _); [reflexivity|]. exists cs, high, s'. auto.
Defined.

Lemma empty_write_blocks_stream_witness :
  ∃ q1, rq_push_all sample_peer [packetize_chunk (sample_stream <| sequence_number := 1 |>) Binary false [1; 2] true true]
          = Ok ([true], q1) ∧ rq_read q1 = (None, q1) ∧ is_readable q1 = false.
Proof.
  refine (proj2 (empty_write_blocks_stream (B := list_buf) (L := list_buf_laws) sample_stream Binary [1; 2] []
    [packetize_chunk (sample_stream <| sequence_number := 1 |>) Binary false [1; 2] true true]
    false false _ _ 0 sample_peer
    [packetize_chunk (sample_stream <| sequence_number := 1 |>) Binary false [1; 2] true true]
    eq_refl eq_refl _ _ _ _ _ _ eq_refl eq_refl _));
    [split; [discriminate|reflexivity]|split; [discriminate|reflexivity]|by repeat split|done|done|done|reflexivity].
Defined.
