(* ===== verification/Monad.v ===== *)
(** * Methods on mutable state

    A method with a [&mut self] receiver and a [Result] value is a function
    from the state before to what happened and the state after.  An error
    keeps what was written to the state before it was raised, as [?] does in
    the source; [Panic] and a loop that does not end have no state after.
    [holds] is the specification of a method: what is true of the state and
    the value after a normal return, after an error, and, in its first
    argument, whether a panic is tolerated. *)

From stdpp Require Import base list numbers sets.
From Stdlib Require Import ZArith Lia.
From S2P Require Import Prelude.

Inductive Res (S A : Type) : Type :=
| ROk (a : A) (s : S)
| RErr (e : Error) (s : S)
| RPanic
| RStuck.
Arguments ROk {S A} a s.
Arguments RErr {S A} e s.
Arguments RPanic {S A}.
Arguments RStuck {S A}.

Definition M (S A : Type) : Type := S → Res S A.

#[export] Instance M_ret S : MRet (M S) := λ A a s, ROk a s.
#[export] Instance M_bind S : MBind (M S) := λ A B f m s,
  match m s with
  | ROk a s => f a s
  | RErr e s => RErr e s
  | RPanic => RPanic
  | RStuck => RStuck
  end.

Section Operations.
Context {S : Type}.

Definition gets {A} (f : S → A) : M S A := λ s, ROk (f s) s.
Definition self : M S S := gets (λ s, s).
Definition modify (f : S → S) : M S unit := λ s, ROk tt (f s).
Definition throw {A} (e : Error) : M S A := λ s, RErr e s.

(** A call on a value that is not part of the state. *)
Definition lift {A} (o : Outcome A) : M S A := λ s,
  match o with Ok a => ROk a s | Err e => RErr e s | Panic => RPanic | Stuck => RStuck end.

(** [let r = self.f();], with the [Result] as a value. *)
Definition attempt {A} (m : M S A) : M S (A + Error) := λ s,
  match m s with
  | ROk a s => ROk (inl a) s
  | RErr e s => ROk (inr e) s
  | RPanic => RPanic
  | RStuck => RStuck
  end.

(** [let _ = self.f();] *)
Definition ignore {A} (m : M S A) : M S unit := attempt m ≫= λ _, mret tt.

Definition when (b : bool) (m : M S unit) : M S unit := if b then m else mret tt.

(** [for x in l { f(x)?; }] *)
Fixpoint for_each {A} (l : list A) (f : A → M S unit) : M S unit :=
  match l with
  | [] => mret tt
  | x :: l' => f x ≫= λ _, for_each l' f
  end.

(** ** Specifications *)

Definition holds {A} (panics : Prop) (m : M S A) (Q : A → S → Prop) (E : Error → S → Prop) (s : S) : Prop :=
  match m s with
  | ROk a s' => Q a s'
  | RErr e s' => E e s'
  | RPanic | RStuck => panics
  end.

Context (p : Prop).

Lemma holds_ret {A} (a : A) Q E s : Q a s → holds p (mret a) Q E s.
Proof. done. Qed.

Lemma holds_gets {A} (f : S → A) Q E s : Q (f s) s → holds p (gets f) Q E s.
Proof. done. Qed.

Lemma holds_self Q E s : Q s s → holds p self Q E s.
Proof. done. Qed.

Lemma holds_modify f Q E s : Q tt (f s) → holds p (modify f) Q E s.
Proof. done. Qed.

Lemma holds_throw {A} e (Q : A → S → Prop) (E : Error → S → Prop) s : E e s → holds p (throw e) Q E s.
Proof. done. Qed.

Lemma holds_bind {A B} (m : M S A) (f : A → M S B) Q E s :
  holds p m (λ a s', holds p (f a) Q E s') E s → holds p (m ≫= f) Q E s.
Proof. unfold holds, mbind, M_bind. by destruct (m s). Qed.

Lemma holds_mono {A} (m : M S A) (Q Q' : A → S → Prop) (E E' : Error → S → Prop) s :
  holds p m Q E s → (∀ a s', Q a s' → Q' a s') → (∀ e s', E e s' → E' e s') → holds p m Q' E' s.
Proof. unfold holds. destruct (m s); auto. Qed.

Lemma holds_and {A} (m : M S A) (Q Q' : A → S → Prop) (E E' : Error → S → Prop) s :
  holds p m Q E s → holds p m Q' E' s → holds p m (λ a s', Q a s' ∧ Q' a s') (λ e s', E e s' ∧ E' e s') s.
Proof. unfold holds. destruct (m s); auto. Qed.

(** A fact about how a method returns, if it does, and the fact that it does. *)
Lemma holds_both {A} (m : M S A) (Q Q' : A → S → Prop) (E E' : Error → S → Prop) s :
  holds p m Q E s → holds True m Q' E' s → holds p m (λ a s', Q a s' ∧ Q' a s') (λ e s', E e s' ∧ E' e s') s.
Proof. unfold holds. destruct (m s); auto. Qed.

Lemma holds_lift {A} (o : Outcome A) (Q : A → S → Prop) (E : Error → S → Prop) s :
  (∀ a, o = Ok a → Q a s) → (∀ e, o = Err e → E e s) → (¬ returns o → p) → holds p (lift o) Q E s.
Proof. unfold holds, lift. destruct o; auto. Qed.

Lemma holds_attempt {A} (m : M S A) Q E s :
  holds p m (λ a s', Q (inl a) s') (λ e s', Q (inr e) s') s → holds p (attempt m) Q E s.
Proof. unfold holds, attempt. by destruct (m s). Qed.

Lemma holds_ignore {A} (m : M S A) Q E s :
  holds p m (λ _ s', Q tt s') (λ _ s', Q tt s') s → holds p (ignore m) Q E s.
Proof. intros. unfold ignore. apply holds_bind, holds_attempt. done. Qed.

Lemma holds_when (b : bool) m Q E s :
  (b = true → holds p m Q E s) → (b = false → Q tt s) → holds p (when b m) Q E s.
Proof. destruct b; intros; [auto|apply holds_ret; auto]. Qed.

Lemma holds_for_each {A} (l : list A) f (I : S → Prop) (E : Error → S → Prop) s :
  I s → (∀ x s, x ∈ l → I s → holds p (f x) (λ _, I) E s) → holds p (for_each l f) (λ _, I) E s.
Proof.
  revert s; induction l as [|x l IH]; intros s Hs Hf; [done|]. cbn [for_each]. apply holds_bind.
  eapply holds_mono; [apply Hf; [left|done]| |done]. intros u s' Hs'. apply IH; [done|]. intros; apply Hf; [by right|done].
Qed.
End Operations.

(** ** Frames

    [preserves R m]: however [m] ends, the state before and the state after
    are related by [R], a reflexive and transitive relation such as "these
    fields are unchanged". *)

Section Preserves.
Context {S : Type} (R : S → S → Prop) `{!Reflexive R} `{!Transitive R}.

Definition preserves {A} (m : M S A) : Prop := ∀ s, holds True m (λ _ s', R s s') (λ _ s', R s s') s.

Lemma preserves_ret {A} (a : A) : preserves (mret a).
Proof. intros s. apply holds_ret. reflexivity. Qed.

Lemma preserves_gets {A} (f : S → A) : preserves (gets f).
Proof. intros s. apply holds_gets. reflexivity. Qed.

Lemma preserves_self : preserves self.
Proof. apply preserves_gets. Qed.

Lemma preserves_throw {A} e : preserves (@throw S A e).
Proof. intros s. apply holds_throw. reflexivity. Qed.

Lemma preserves_lift {A} (o : Outcome A) : preserves (lift o).
Proof. intros s. by apply holds_lift. Qed.

Lemma preserves_modify f : (∀ s, R s (f s)) → preserves (modify f).
Proof. intros H s. apply holds_modify, H. Qed.

Lemma preserves_bind {A B} (m : M S A) (f : A → M S B) :
  preserves m → (∀ a, preserves (f a)) → preserves (m ≫= f).
Proof.
  intros Hm Hf s. apply holds_bind. eapply holds_mono; [apply Hm| |done].
  intros a s' Hs. eapply holds_mono; [apply Hf|intros ???; simpl in *; by etrans..].
Qed.

Lemma preserves_attempt {A} (m : M S A) : preserves m → preserves (attempt m).
Proof. intros H s. apply holds_attempt. eapply holds_mono; [apply H|done..]. Qed.

Lemma preserves_ignore {A} (m : M S A) : preserves m → preserves (ignore m).
Proof. intros H s. apply holds_ignore. eapply holds_mono; [apply H|done..]. Qed.

Lemma preserves_when b m : preserves m → preserves (when b m).
Proof. destruct b; intros; [done|apply preserves_ret]. Qed.

Lemma preserves_for_each {A} (l : list A) f : (∀ x, preserves (f x)) → preserves (for_each l f).
Proof. intros Hf. induction l; [apply preserves_ret|]. by apply preserves_bind. Qed.
End Preserves.

(** Structural rules, case analysis on what the method branches on, and the lemmas of [quiet]. *)
Create HintDb quiet discriminated.
Ltac preserves_step :=
  lazymatch goal with
  | |- preserves _ (_ ≫= _) => apply preserves_bind; [apply _| |intros ?]
  | |- preserves _ (gets _) => apply preserves_gets; apply _
  | |- preserves _ self => apply preserves_self; apply _
  | |- preserves _ (modify _) => apply preserves_modify; intros ?
  | |- preserves _ (mret _) => apply preserves_ret; apply _
  | |- preserves _ (throw _) => apply preserves_throw; apply _
  | |- preserves _ (lift _) => apply preserves_lift; apply _
  | |- preserves _ (attempt _) => apply preserves_attempt
  | |- preserves _ (ignore _) => apply preserves_ignore
  | |- preserves _ (when _ _) => apply preserves_when; [apply _|]
  | |- preserves _ (for_each _ _) => apply preserves_for_each; [apply _..|intros ?]
  | |- preserves _ (match ?x with _ => _ end) => destruct x
  | |- preserves _ (let '(_, _) := ?x in _) => destruct x
  end.
Ltac preserves := repeat first [preserves_step | solve [auto with quiet]].

(** One step through a method in a goal [holds ..]. *)
Ltac holds_step :=
  lazymatch goal with
  | |- holds _ (_ ≫= _) _ _ _ => apply holds_bind
  | |- holds _ (gets _) _ _ _ => apply holds_gets
  | |- holds _ self _ _ _ => apply holds_self
  | |- holds _ (modify _) _ _ _ => apply holds_modify
  | |- holds _ (mret _) _ _ _ => apply holds_ret
  | |- holds _ (throw _) _ _ _ => apply holds_throw
  | |- holds _ (attempt _) _ _ _ => apply holds_attempt
  | |- holds _ (ignore _) _ _ _ => apply holds_ignore
  | |- holds _ (when _ _) _ _ _ => apply holds_when; intros ?
  | |- holds _ (lift _) _ _ _ => apply holds_lift; [intros ? ?|intros ? ?|]
  end.

(** Running a method on a state, symbolically. *)
Ltac run := cbv beta iota delta [mbind M_bind mret M_ret gets self modify throw lift attempt ignore when].
