(* ===== verification/Timer.v ===== *)
(** * Timers, RTO and small state enums ([src/association/timer.rs], [state.rs], [stats.rs])

    The table of the six association timers with its error counters and
    exponential backoff, the RTO estimator of RFC 4960 section 6.3.1, whose
    variance is an IEEE binary64 number, the association and acknowledgement
    states, and the statistics counters.  A table indexed by [timer as usize]
    is a function on the timers. *)

From stdpp Require Import base list numbers sets relations.
From Stdlib Require Import ZArith Lia ZifyBool SpecFloat.
From S2P Require Import Prelude Bytes Util Params Chunks.

(** ** States ([state.rs]) *)

Inductive AssociationState : Type :=
| Closed | CookieWait | CookieEchoed | Established
| ShutdownAckSent | ShutdownPending | ShutdownReceived | ShutdownSent.

#[export] Instance AssociationState_eq_dec : EqDecision AssociationState.
Proof. solve_decision. Defined.

Definition AssociationState_from_u8 (v : u8) : AssociationState :=
  if v =? 1 then CookieWait else if v =? 2 then CookieEchoed else if v =? 3 then Established
  else if v =? 4 then ShutdownAckSent else if v =? 5 then ShutdownPending
  else if v =? 6 then ShutdownReceived else if v =? 7 then ShutdownSent else Closed.

(** [as u8] *)
Definition AssociationState_as_u8 (s : AssociationState) : u8 :=
  match s with
  | Closed => 0 | CookieWait => 1 | CookieEchoed => 2 | Established => 3
  | ShutdownAckSent => 4 | ShutdownPending => 5 | ShutdownReceived => 6 | ShutdownSent => 7
  end.

Definition is_closing (s : AssociationState) : bool :=
  match s with ShutdownSent | ShutdownAckSent | ShutdownPending | ShutdownReceived => true | _ => false end.

Definition is_drained (s : AssociationState) : bool := is_closing s.

Inductive AckMode : Type := AckModeNormal | AckModeNoDelay | AckModeAlwaysDelay.
#[export] Instance AckMode_eq_dec : EqDecision AckMode.
Proof. solve_decision. Defined.

Inductive AckState : Type := AckIdle | AckImmediate | AckDelay.
#[export] Instance AckState_eq_dec : EqDecision AckState.
Proof. solve_decision. Defined.

(** ** Statistics ([stats.rs]) *)

Record AssociationStats := mkAssociationStats {
  n_datas : u64; n_sacks : u64; n_t3timeouts : u64; n_ack_timeouts : u64; n_fast_retrans : u64;
}.

Definition AssociationStats_default : AssociationStats := mkAssociationStats 0 0 0 0 0.

#[export] Instance AssociationStats_eta : Eta AssociationStats := λ s,
  mkAssociationStats (n_datas s) (n_sacks s) (n_t3timeouts s) (n_ack_timeouts s) (n_fast_retrans s).
#[export] Instance upd_n_datas : Update n_datas. Proof. solve_update. Defined.
#[export] Instance upd_n_sacks : Update n_sacks. Proof. solve_update. Defined.
#[export] Instance upd_n_t3timeouts : Update n_t3timeouts. Proof. solve_update. Defined.
#[export] Instance upd_n_ack_timeouts : Update n_ack_timeouts. Proof. solve_update. Defined.
#[export] Instance upd_n_fast_retrans : Update n_fast_retrans. Proof. solve_update. Defined.

Definition inc_datas (s : AssociationStats) : AssociationStats := s <| n_datas ::= λ n, n + 1 |>.
Definition inc_sacks (s : AssociationStats) : AssociationStats := s <| n_sacks ::= λ n, n + 1 |>.
Definition inc_t3timeouts (s : AssociationStats) : AssociationStats := s <| n_t3timeouts ::= λ n, n + 1 |>.
Definition inc_ack_timeouts (s : AssociationStats) : AssociationStats := s <| n_ack_timeouts ::= λ n, n + 1 |>.
Definition inc_fast_retrans (s : AssociationStats) : AssociationStats := s <| n_fast_retrans ::= λ n, n + 1 |>.
Definition stats_reset (s : AssociationStats) : AssociationStats := AssociationStats_default.

(** ** The timer table *)

Definition ACK_INTERVAL : u64 := 200.
Definition RTO_INITIAL : u64 := 3000.
Definition RTO_MIN : u64 := 1000.
Definition RTO_MAX : u64 := 60000.

Inductive Timer : Type := T1Init | T1Cookie | T2Shutdown | T3RTX | Reconfig | Ack.

#[export] Instance Timer_eq_dec : EqDecision Timer.
Proof. solve_decision. Defined.

Definition Timer_VALUES : list Timer := [T1Init; T1Cookie; T2Shutdown; T3RTX; Reconfig; Ack].

(** [a[timer as usize] = v] *)
Definition set_at {A} (t : Timer) (v : A) (a : Timer → A) : Timer → A := λ t', if decide (t' = t) then v else a t'.

Record TimerTable := mkTimerTable {
  tt_data : Timer → option Instant;
  tt_retrans : Timer → usize;
  tt_max_retrans : Timer → option usize;
  tt_no_error_count : Timer → bool;
  tt_rto_max : u64;
}.

#[export] Instance TimerTable_eta : Eta TimerTable := λ t,
  mkTimerTable (tt_data t) (tt_retrans t) (tt_max_retrans t) (tt_no_error_count t) (tt_rto_max t).
#[export] Instance upd_tt_data : Update tt_data. Proof. solve_update. Defined.
#[export] Instance upd_tt_retrans : Update tt_retrans. Proof. solve_update. Defined.
#[export] Instance upd_tt_no_error_count : Update tt_no_error_count. Proof. solve_update. Defined.

Definition TimerTable_default : TimerTable :=
  mkTimerTable (λ _, None) (λ _, 0) (λ _, None) (λ _, false) 60000.

Definition TimerTable_new (max_init_retransmits max_data_retransmits : option usize) (rto_max : u64) : TimerTable :=
  mkTimerTable (λ _, None) (λ _, 0)
    (λ t, match t with
          | T1Init | T1Cookie => max_init_retransmits
          | T2Shutdown => None
          | T3RTX => max_data_retransmits
          | Reconfig => max_init_retransmits
          | Ack => None
          end)
    (λ _, false) rto_max.

Definition timer_set (tt : TimerTable) (t : Timer) (time : option Instant) : TimerTable :=
  tt <| tt_data ::= set_at t time |>.

Definition timer_get (tt : TimerTable) (t : Timer) : option Instant := tt_data tt t.

(** [iter().filter_map(|&x| x).min()] *)
Definition next_timeout (tt : TimerTable) : option Instant :=
  match omap (tt_data tt) Timer_VALUES with
  | [] => None
  | x :: l => Some (fold_left Z.min l x)
  end.

Definition calculate_next_timeout (rto : u64) (n_rtos : usize) (rto_max : u64) : u64 :=
  if n_rtos <? 31 then Z.min (wrap 64 (Z.shiftl rto n_rtos)) rto_max else rto_max.

(** [now + Duration::from_millis(interval)] panics when it is out of range. *)
Definition Instant_add (now : Instant) (millis : u64) : Outcome Instant :=
  match Instant_checked_add now millis with Some t => Ok t | None => Panic end.

Definition timer_start (tt : TimerTable) (t : Timer) (now : Instant) (interval : u64) : Outcome TimerTable :=
  let interval := if decide (t = Ack) then interval
                  else calculate_next_timeout interval (tt_retrans tt t) (tt_rto_max tt) in
  time ← Instant_add now interval;
  Ok (tt <| tt_data ::= set_at t (Some time) |>).

Definition restart_if_stale (tt : TimerTable) (t : Timer) (now : Instant) (interval : u64) : Outcome TimerTable :=
  match tt_data tt t with
  | Some current => if current >=? now then Ok tt else timer_start tt t now interval
  | None => timer_start tt t now interval
  end.

Definition timer_stop (tt : TimerTable) (t : Timer) : TimerTable :=
  tt <| tt_data ::= set_at t None |> <| tt_retrans ::= set_at t 0 |> <| tt_no_error_count ::= set_at t false |>.

Definition reset_retrans (tt : TimerTable) (t : Timer) : TimerTable := tt <| tt_retrans ::= set_at t 0 |>.

Definition suppress_error_count (tt : TimerTable) (t : Timer) : TimerTable :=
  tt <| tt_no_error_count ::= set_at t true |>.

Definition is_expired (tt : TimerTable) (t : Timer) (after : Instant) : (bool * bool * usize) * TimerTable :=
  let expired := match tt_data tt t with Some x => x <=? after | None => false end in
  if expired then
    if tt_no_error_count tt t then
      let tt := tt <| tt_no_error_count ::= set_at t false |> in
      ((true, false, tt_retrans tt t), tt)
    else
      let tt := tt <| tt_retrans ::= λ r, set_at t (r t + 1) r |> in
      let failure := match tt_max_retrans tt t with Some max => tt_retrans tt t >? max | None => false end in
      ((true, failure, tt_retrans tt t), tt)
  else ((false, false, tt_retrans tt t), tt).

(** ** The RTO estimator *)

(** [f64] of the standard library: IEEE binary64, round to nearest even. *)
Definition f64 : Type := spec_float.
Definition f64_of_Z (z : Z) : f64 := binary_normalize 53 1024 z 0 false.
Definition f64_mul : f64 → f64 → f64 := SFmul 53 1024.
Definition f64_add : f64 → f64 → f64 := SFadd 53 1024.
Definition f64_div : f64 → f64 → f64 := SFdiv 53 1024.

(** [as u64]: truncation, saturating, 0 for NaN. *)
Definition f64_as_u64 (x : f64) : u64 :=
  match x with
  | S754_nan | S754_zero _ | S754_infinity true | S754_finite true _ _ => 0
  | S754_infinity false => 2 ^ 64 - 1
  | S754_finite false m e =>
      Z.min (2 ^ 64 - 1) (if e >=? 0 then Zpos m * 2 ^ e else Zpos m / 2 ^ (- e))
  end.

(** [as i64] of a [u64]. *)
Definition u64_as_i64 (z : u64) : Z := if z <? 2 ^ 63 then z else z - 2 ^ 64.

(** [(a - b).abs()] on [i64], overflow checked. *)
Definition i64_abs_diff (a b : Z) : Outcome Z :=
  let d := a - b in if (- 2 ^ 63 <? d) && (d <? 2 ^ 63) then Ok (Z.abs d) else Panic.

Definition checked_mul (w a b : Z) : Outcome Z := if a * b <? 2 ^ w then Ok (a * b) else Panic.

(** [Ord::clamp] panics when [min > max]. *)
Definition clamp (x min max : Z) : Outcome Z :=
  if min <=? max then Ok (if x <? min then min else if x >? max then max else x) else Panic.

Definition RTO_ALPHA : u64 := 1.
Definition RTO_BETA : u64 := 2.
Definition RTO_BASE : u64 := 8.

Record RtoManager := mkRtoManager {
  srtt : u64;
  rttvar : f64;
  rto : u64;
  no_update : bool;
  rto_initial : u64;
  rto_min : u64;
  rto_max : u64;
}.

#[export] Instance RtoManager_eta : Eta RtoManager := λ m,
  mkRtoManager (srtt m) (rttvar m) (rto m) (no_update m) (rto_initial m) (rto_min m) (rto_max m).
#[export] Instance upd_srtt : Update srtt. Proof. solve_update. Defined.
#[export] Instance upd_rttvar : Update rttvar. Proof. solve_update. Defined.
#[export] Instance upd_rto : Update rto. Proof. solve_update. Defined.
#[export] Instance upd_no_update : Update no_update. Proof. solve_update. Defined.

Definition RtoManager_new (rto_initial rto_min rto_max : u64) : RtoManager :=
  mkRtoManager 0 (f64_of_Z 0) rto_initial false rto_initial rto_min rto_max.

Definition RtoManager_default : RtoManager := RtoManager_new RTO_INITIAL RTO_MIN RTO_MAX.

Definition set_new_rtt (m : RtoManager) (rtt : u64) : Outcome (u64 * RtoManager) :=
  if no_update m then Ok (srtt m, m) else
  m ← (if srtt m =? 0 then
         Ok (m <| srtt := rtt |> <| rttvar := f64_div (f64_of_Z rtt) (f64_of_Z 2) |>)
       else
         d ← i64_abs_diff (u64_as_i64 (srtt m)) (u64_as_i64 rtt);
         let v := f64_div
                    (f64_add (f64_mul (f64_of_Z (RTO_BASE - RTO_BETA)) (rttvar m))
                             (f64_mul (f64_of_Z RTO_BETA) (f64_of_Z d)))
                    (f64_of_Z RTO_BASE) in
         a ← checked_mul 64 (RTO_BASE - RTO_ALPHA) (srtt m);
         b ← checked_mul 64 RTO_ALPHA rtt;
         s ← checked_add 64 a b;
         Ok (m <| rttvar := v |> <| srtt := s / RTO_BASE |>));
  x ← checked_add 64 (srtt m) (f64_as_u64 (f64_mul (f64_of_Z 4) (rttvar m)));
  r ← clamp x (rto_min m) (rto_max m);
  Ok (srtt m, m <| rto := r |>).

Definition get_rto (m : RtoManager) : u64 := rto m.

Definition rto_reset (m : RtoManager) : RtoManager :=
  if no_update m then m else m <| srtt := 0 |> <| rttvar := f64_of_Z 0 |> <| rto := rto_initial m |>.

Definition set_rto (m : RtoManager) (r : u64) (nu : bool) : RtoManager := m <| rto := r |> <| no_update := nu |>.

(** ** Properties *)

(** Measurements of 600, 700 and 800 ms. *)
Example rtt_samples :
  ('(s1, m1) ← set_new_rtt RtoManager_default 600;
   '(s2, m2) ← set_new_rtt m1 700;
   '(s3, m3) ← set_new_rtt m2 800;
   Ok [(s1, get_rto m1); (s2, get_rto m2); (s3, get_rto m3)]) = Ok [(600, 1800); (612, 1612); (635, 1573)].
Proof. vm_compute. reflexivity. Qed.

Lemma AssociationState_as_from s : AssociationState_from_u8 (AssociationState_as_u8 s) = s.
Proof. by destruct s. Qed.

(** The retransmission timer backs off exponentially up to its bound: after [n] expiries the
    interval is the RTO doubled [n] times, capped at the maximum, for every [n] and every
    maximum up to 2^31 ms; so it never shrinks, and no bit is lost in the shift. *)
Theorem calculate_next_timeout_spec rto n rto_max :
  0 < rto <= rto_max → rto_max <= 2 ^ 31 → 0 <= n →
  calculate_next_timeout rto n rto_max = Z.min (rto * 2 ^ n) rto_max ∧
  rto <= calculate_next_timeout rto n rto_max <= calculate_next_timeout rto (n + 1) rto_max.
Proof.
  intros Hr Hm Hn.
  assert (∀ k, 0 <= k → calculate_next_timeout rto k rto_max = Z.min (rto * 2 ^ k) rto_max) as H.
  { intros k Hk. unfold calculate_next_timeout. destruct (Z.ltb_spec k 31).
    - rewrite Z.shiftl_mul_pow2 by lia. rewrite wrap_small; [done|]. unfold uN.
      assert (2 ^ k <= 2 ^ 30) by (apply Z.pow_le_mono_r; lia). change (2 ^ 64) with (2 ^ 34 * 2 ^ 30). nia.
    - assert (2 ^ 31 <= 2 ^ k) by (apply Z.pow_le_mono_r; lia). rewrite Z.min_r; nia. }
  rewrite !H by lia. assert (1 <= 2 ^ n) by (apply (Z.pow_le_mono_r 2 0); lia).
  rewrite Z.pow_add_r by lia. split; [done|]. split; nia.
Qed.

Lemma calculate_next_timeout_witness :
  calculate_next_timeout 3000 4 60000 = Z.min (3000 * 2 ^ 4) 60000 ∧
  3000 <= calculate_next_timeout 3000 4 60000 <= calculate_next_timeout 3000 (4 + 1) 60000.
Proof. apply (calculate_next_timeout_spec 3000 4 60000); lia. Defined.

Lemma set_at_eq {A} t (v : A) a : set_at t v a t = v.
Proof. unfold set_at. by rewrite decide_True. Qed.

Lemma set_at_ne {A} t t' (v : A) a : t' ≠ t → set_at t v a t' = a t'.
Proof. intros. unfold set_at. by rewrite decide_False. Qed.

Lemma is_expired_armed tt t x now :
  tt_data tt t = Some x → x <= now → tt_no_error_count tt t = false →
  is_expired tt t now =
    ((true, match tt_max_retrans tt t with Some max => tt_retrans tt t + 1 >? max | None => false end, tt_retrans tt t + 1),
     tt <| tt_retrans ::= λ r, set_at t (r t + 1) r |>).
Proof.
  intros Hx Hn Hc. unfold is_expired. rewrite Hx, Hc. rewrite (proj2 (Z.leb_le _ _) Hn). cbn. by rewrite set_at_eq.
Qed.

(** [n] expiries of an armed timer in a row. *)
Fixpoint expire_times (n : nat) (tt : TimerTable) (t : Timer) (after : Instant) : TimerTable :=
  match n with O => tt | S n' => (is_expired (expire_times n' tt t after) t after).2 end.

Lemma expire_times_spec n tt t x after :
  tt_data tt t = Some x → x <= after → tt_no_error_count tt t = false → tt_retrans tt t = 0 →
  let tt' := expire_times n tt t after in
  tt_data tt' t = Some x ∧ tt_no_error_count tt' t = false ∧ tt_retrans tt' t = Z.of_nat n ∧
  tt_max_retrans tt' = tt_max_retrans tt.
Proof.
  intros Hx Ha Hn Hr. cbv zeta. induction n as [|n (IH1 & IH2 & IH3 & IH4)]; [done|]. cbn [expire_times].
  rewrite (is_expired_armed _ _ x) by done. cbn. rewrite set_at_eq, IH3. split_and!; (done || lia).
Qed.

(** A stopped timer that is armed again tolerates exactly its maximum number of expiries: the
    [n]-th consecutive expiry reports a failure iff [n] exceeds the maximum (never when there
    is none), the returned count is [n], and an expiry marked as exempt counts nothing. *)
Theorem is_expired_failure n tt t x after :
  tt_data tt t = Some x → x <= after → tt_no_error_count tt t = false → tt_retrans tt t = 0 →
  (is_expired (expire_times n tt t after) t after).1 =
    (true, match tt_max_retrans tt t with Some max => Z.of_nat n + 1 >? max | None => false end, Z.of_nat n + 1) ∧
  (is_expired (suppress_error_count (expire_times n tt t after) t) t after).1 = (true, false, Z.of_nat n).
Proof.
  intros Hx Ha Hn Hr. destruct (expire_times_spec n tt t x after Hx Ha Hn Hr) as (H1 & H2 & H3 & H4).
  split.
  - rewrite (is_expired_armed _ _ x) by done. cbn. by rewrite H3, H4.
  - unfold is_expired. cbn. rewrite H1, set_at_eq. destruct (Z.leb_spec x after); [|lia]. cbn. by rewrite H3.
Qed.

Lemma is_expired_failure_witness :
  (is_expired (expire_times 2 (timer_set (TimerTable_new (Some 2) None 60000) T1Init (Some 5)) T1Init 9) T1Init 9).1
    = (true, true, 3).
Proof.
  exact (proj1 (is_expired_failure 2 (timer_set (TimerTable_new (Some 2) None 60000) T1Init (Some 5)) T1Init 5 9
    eq_refl ltac:(lia) eq_refl eq_refl)).
Defined.

Lemma fold_min_spec l x : fold_left Z.min l x <= x ∧ (∀ y, y ∈ l → fold_left Z.min l x <= y) ∧
  (fold_left Z.min l x = x ∨ fold_left Z.min l x ∈ l).
Proof.
  revert x; induction l as [|y l IH]; intros x; cbn [fold_left]; [split; [lia|]; set_solver|].
  destruct (IH (Z.min x y)) as (H1 & H2 & H3). split_and!; [lia| |].
  - intros z [->|?]%elem_of_cons; [lia|auto].
  - destruct H3 as [->|H3]; [|right; by right]. destruct (Z.min_spec x y) as [[_ ->]|[_ ->]]; [by left|right; left].
Qed.

(** The next timeout reported to the application is the earliest armed timer: [None] iff no
    timer is armed, otherwise the deadline of some timer, not later than any other. *)
Theorem next_timeout_spec tt :
  match next_timeout tt with
  | None => ∀ t, timer_get tt t = None
  | Some x => (∃ t, timer_get tt t = Some x) ∧ ∀ t y, timer_get tt t = Some y → x <= y
  end.
Proof.
  assert (∀ y, y ∈ omap (tt_data tt) Timer_VALUES ↔ ∃ t, timer_get tt t = Some y) as Hin.
  { intros y. rewrite list_elem_of_omap. unfold timer_get. split; [naive_solver|]. intros [t Ht]. exists t.
    split; [|done]. destruct t; set_solver. }
  unfold next_timeout. destruct (omap (tt_data tt) Timer_VALUES) as [|x l].
  - intros t. destruct (timer_get tt t) eqn:E; [|done]. assert (z ∈ @nil Z) as Hn by (apply Hin; eauto).
    by apply not_elem_of_nil in Hn.
  - destruct (fold_min_spec l x) as (H1 & H2 & H3). split.
    + apply Hin. destruct H3 as [->|?]; [left|by right].
    + intros t y Hy. assert (y ∈ x :: l) as Hyl by (apply Hin; eauto). apply elem_of_cons in Hyl as [->|?]; auto.
Qed.

(** *** RTO *)

Inductive rto_step : RtoManager → RtoManager → Prop :=
| rto_step_rtt m rtt s m' : set_new_rtt m rtt = Ok (s, m') → rto_step m m'
| rto_step_reset m : rto_step m (rto_reset m).

Lemma set_new_rtt_inv m rtt s m' :
  set_new_rtt m rtt = Ok (s, m') →
  m' = m ∨ (rto_min m <= get_rto m' <= rto_max m ∧ rto_min m' = rto_min m ∧ rto_max m' = rto_max m ∧
            rto_initial m' = rto_initial m).
Proof.
  unfold set_new_rtt. destruct (no_update m); [intros [= _ <-]; by left|].
  intros (m1 & H1 & (x & _ & (r & Hc & [= _ <-])%bind_Ok)%bind_Ok)%bind_Ok. right.
  assert (rto_min m1 = rto_min m ∧ rto_max m1 = rto_max m ∧ rto_initial m1 = rto_initial m) as (E1 & E2 & E3).
  { destruct (srtt m =? 0); [by injection H1 as <-|].
    destruct (i64_abs_diff _ _) as [d| | |]; try done. cbn [mbind Outcome_bind] in H1.
    destruct (checked_mul 64 (RTO_BASE - RTO_ALPHA) (srtt m)); try done. cbn [mbind Outcome_bind] in H1.
    destruct (checked_mul 64 RTO_ALPHA rtt); try done. cbn [mbind Outcome_bind] in H1.
    destruct (checked_add 64 _ _); try done. by injection H1 as <-. }
  unfold clamp in Hc. destruct (Z.leb_spec (rto_min m1) (rto_max m1)); [|done]. injection Hc as <-. cbn.
  split_and!; try done; destruct (Z.ltb_spec x (rto_min m1)); destruct (Z.gtb_spec x (rto_max m1)); lia.
Qed.

Lemma bind_no_error {A B} (o : Outcome A) (f : A → Outcome B) :
  (∀ e, o ≠ Err e) → (∀ a e, f a ≠ Err e) → ∀ e, (o ≫= f) ≠ Err e.
Proof. intros Ho Hf e. destruct o; cbn; first [done|apply Hf|by destruct (Ho e0)]. Qed.

Lemma set_new_rtt_no_error m rtt e : set_new_rtt m rtt ≠ Err e.
Proof.
  assert (∀ w a b e, checked_add w a b ≠ Err e) as Ha by (intros w a b e'; unfold checked_add; by destruct (_ <? _)).
  assert (∀ w a b e, checked_mul w a b ≠ Err e) as Hm by (intros w a b e'; unfold checked_mul; by destruct (_ <? _)).
  unfold set_new_rtt. destruct (no_update m); [done|]. revert e. apply bind_no_error.
  - destruct (srtt m =? 0); [done|]. apply bind_no_error; [intros e; unfold i64_abs_diff; cbv zeta; by destruct (_ && _)|].
    intros d. do 3 (apply bind_no_error; [done|intros ?]). done.
  - intros m'. apply bind_no_error; [done|intros x]. apply bind_no_error; [|done].
    intros e. unfold clamp. by destruct (_ <=? _).
Qed.

(** Claim C38.  Whatever round-trip times are measured, the RTO is the configured initial value or lies
    between the configured minimum and maximum. *)
Theorem rto_stays_in_bounds initial min max m :
  rtc rto_step (RtoManager_new initial min max) m → get_rto m = initial ∨ min <= get_rto m <= max.
Proof.
  intros Hr. cut (rto_min m = min ∧ rto_max m = max ∧ rto_initial m = initial ∧
    (get_rto m = initial ∨ min <= get_rto m <= max)); [tauto|].
  revert Hr. apply (rtc_ind_r (λ m, rto_min m = min ∧ rto_max m = max ∧ rto_initial m = initial ∧
    (get_rto m = initial ∨ min <= get_rto m <= max))); [cbn; tauto|].
  intros m1 m2 _ Hs (E1 & E2 & E3 & Hb). destruct Hs as [m1 rtt s m' H|m1].
  - apply set_new_rtt_inv in H as [->|(Hr & ? & ? & ?)]; [done|]. split_and!; try congruence. right. by rewrite <- E1, <- E2.
  - unfold rto_reset. destruct (no_update m1); [done|]. cbn. split_and!; try done. by left.
Qed.

Lemma rto_stays_in_bounds_witness :
  ∃ m, rtc rto_step (RtoManager_new 3000 1000 60000) m ∧ get_rto m = 1800 ∧
    (get_rto m = 3000 ∨ 1000 <= get_rto m <= 60000).
Proof.
  eexists. assert (rtc rto_step (RtoManager_new 3000 1000 60000)
    (RtoManager_new 3000 1000 60000 <| srtt := 600 |> <| rttvar := f64_div (f64_of_Z 600) (f64_of_Z 2) |> <| rto := 1800 |>)) as Hr
    by (apply rtc_once, (rto_step_rtt _ 600 600); vm_compute; reflexivity).
  split; [exact Hr|]. split; [reflexivity|]. exact (rto_stays_in_bounds 3000 1000 60000 _ Hr).
Defined.

(** The configuration accepts a minimum RTO above the maximum, and then no measurement is
    survived: [clamp] panics. *)
Theorem set_new_rtt_min_above_max m rtt r :
  no_update m = false → rto_max m < rto_min m → set_new_rtt m rtt ≠ Ok r.
Proof.
  intros Hn Hlt Hr. destruct r as [s m']. apply set_new_rtt_inv in Hr as H. destruct H as [->|[? _]]; [|lia].
  unfold set_new_rtt in Hr. rewrite Hn in Hr.
  apply bind_Ok in Hr as (m1 & H1 & (x & _ & (r & Hc & [= _ E])%bind_Ok)%bind_Ok).
  unfold clamp in Hc. destruct (Z.leb_spec (rto_min m1) (rto_max m1)) as [Hle|]; [|done].
  assert (rto_min m1 = rto_min m ∧ rto_max m1 = rto_max m) as [E1 E2]; [|lia]. rewrite <- E. done.
Qed.

Lemma set_new_rtt_min_above_max_witness : set_new_rtt (RtoManager_new 3000 2000 1000) 10 ≠ Ok (10, RtoManager_default).
Proof. apply (set_new_rtt_min_above_max (RtoManager_new 3000 2000 1000) 10); [reflexivity|by vm_compute]. Defined.
