(* ===== verification/Config.v ===== *)
(** * Configuration ([src/config.rs])

    The transport configuration of an association with its builder, the
    configuration of an endpoint, of a server and of an outgoing association,
    and the SNAP token (an INIT chunk exchanged out of band). *)

From stdpp Require Import base list numbers.
From Stdlib Require Import ZArith Lia.
From S2P Require Import Prelude Bytes Util Params Chunks Packet Shared Timer.

Definition RECEIVE_MTU : usize := 8192.
Definition INITIAL_MTU : u32 := 1228.
Definition INITIAL_RECV_BUF_SIZE : u32 := 1024 * 1024.
Definition COMMON_HEADER_SIZE : u32 := 12.
Definition DATA_CHUNK_HEADER_SIZE : u32 := 16.
Definition DEFAULT_MAX_MESSAGE_SIZE : u32 := 65536.
Definition DEFAULT_MAX_INIT_RETRANS : usize := 8.
Definition DEFAULT_SCTP_PORT : u16 := 5000.
Definition MAX_SNAP_INIT_BYTES : usize := 2048.

(** ** [TransportConfig]

    Its [pub(crate)] getters are the projections. *)

Record TransportConfig := mkTransportConfig {
  tc_max_receive_buffer_size : u32;
  tc_max_num_outbound_streams : u16;
  tc_max_num_inbound_streams : u16;
  tc_max_send_message_size : u32;
  tc_max_receive_message_size : u32;
  tc_max_init_retransmits : option usize;
  tc_max_data_retransmits : option usize;
  tc_rto_initial_ms : u64;
  tc_rto_min_ms : u64;
  tc_rto_max_ms : u64;
  tc_local_port : u16;
  tc_remote_port : u16;
}.

#[export] Instance TransportConfig_eta : Eta TransportConfig := λ c,
  mkTransportConfig (tc_max_receive_buffer_size c) (tc_max_num_outbound_streams c) (tc_max_num_inbound_streams c)
    (tc_max_send_message_size c) (tc_max_receive_message_size c) (tc_max_init_retransmits c)
    (tc_max_data_retransmits c) (tc_rto_initial_ms c) (tc_rto_min_ms c) (tc_rto_max_ms c) (tc_local_port c)
    (tc_remote_port c).
#[export] Instance upd_tc_max_receive_buffer_size : Update tc_max_receive_buffer_size. Proof. solve_update. Defined.
#[export] Instance upd_tc_max_num_outbound_streams : Update tc_max_num_outbound_streams. Proof. solve_update. Defined.
#[export] Instance upd_tc_max_num_inbound_streams : Update tc_max_num_inbound_streams. Proof. solve_update. Defined.
#[export] Instance upd_tc_max_send_message_size : Update tc_max_send_message_size. Proof. solve_update. Defined.
#[export] Instance upd_tc_max_receive_message_size : Update tc_max_receive_message_size. Proof. solve_update. Defined.
#[export] Instance upd_tc_max_init_retransmits : Update tc_max_init_retransmits. Proof. solve_update. Defined.
#[export] Instance upd_tc_max_data_retransmits : Update tc_max_data_retransmits. Proof. solve_update. Defined.
#[export] Instance upd_tc_rto_initial_ms : Update tc_rto_initial_ms. Proof. solve_update. Defined.
#[export] Instance upd_tc_rto_min_ms : Update tc_rto_min_ms. Proof. solve_update. Defined.
#[export] Instance upd_tc_rto_max_ms : Update tc_rto_max_ms. Proof. solve_update. Defined.
#[export] Instance upd_tc_local_port : Update tc_local_port. Proof. solve_update. Defined.
#[export] Instance upd_tc_remote_port : Update tc_remote_port. Proof. solve_update. Defined.

Definition TransportConfig_default : TransportConfig :=
  mkTransportConfig INITIAL_RECV_BUF_SIZE 65535 65535 DEFAULT_MAX_MESSAGE_SIZE DEFAULT_MAX_MESSAGE_SIZE
    (Some DEFAULT_MAX_INIT_RETRANS) None RTO_INITIAL RTO_MIN RTO_MAX DEFAULT_SCTP_PORT DEFAULT_SCTP_PORT.

Definition with_max_receive_buffer_size (c : TransportConfig) (value : u32) : TransportConfig :=
  c <| tc_max_receive_buffer_size := value |>.
Definition with_max_num_outbound_streams (c : TransportConfig) (value : u16) : TransportConfig :=
  c <| tc_max_num_outbound_streams := value |>.
Definition with_max_num_inbound_streams (c : TransportConfig) (value : u16) : TransportConfig :=
  c <| tc_max_num_inbound_streams := value |>.
Definition with_max_send_message_size (c : TransportConfig) (value : u32) : TransportConfig :=
  c <| tc_max_send_message_size := value |>.
(** Deprecated name. *)
Definition with_max_message_size (c : TransportConfig) (value : u32) : TransportConfig :=
  with_max_send_message_size c value.
Definition with_max_receive_message_size (c : TransportConfig) (value : u32) : TransportConfig :=
  c <| tc_max_receive_message_size := value |>.
Definition with_max_init_retransmits (c : TransportConfig) (value : option usize) : TransportConfig :=
  c <| tc_max_init_retransmits := value |>.
Definition with_max_data_retransmits (c : TransportConfig) (value : option usize) : TransportConfig :=
  c <| tc_max_data_retransmits := value |>.
Definition with_rto_initial_ms (c : TransportConfig) (value : u64) : TransportConfig :=
  c <| tc_rto_initial_ms := value |>.
Definition with_rto_min_ms (c : TransportConfig) (value : u64) : TransportConfig :=
  c <| tc_rto_min_ms := value |>.
Definition with_rto_max_ms (c : TransportConfig) (value : u64) : TransportConfig :=
  c <| tc_rto_max_ms := value |>.
Definition with_local_port (c : TransportConfig) (value : u16) : TransportConfig :=
  c <| tc_local_port := value |>.
Definition with_remote_port (c : TransportConfig) (value : u16) : TransportConfig :=
  c <| tc_remote_port := value |>.

(** ** [EndpointConfig]

    [G] is the type of the generators its factory makes. *)

Definition default_max_payload_size : u32 := INITIAL_MTU - (COMMON_HEADER_SIZE + DATA_CHUNK_HEADER_SIZE).

Section EndpointConfig.
Context {G : Type}.

Record EndpointConfig := mkEndpointConfig {
  ec_max_payload_size : u32;
  aid_generator_factory : unit → G;
}.

(** [EndpointConfig::new], whose factory makes the default generator. *)
Definition EndpointConfig_new (default_factory : unit → G) : EndpointConfig :=
  mkEndpointConfig default_max_payload_size default_factory.

Definition aid_generator (c : EndpointConfig) (factory : unit → G) : EndpointConfig :=
  mkEndpointConfig (ec_max_payload_size c) factory.

Definition set_max_payload_size (c : EndpointConfig) (value : u32) : EndpointConfig :=
  mkEndpointConfig value (aid_generator_factory c).

Definition get_max_payload_size (c : EndpointConfig) : u32 := ec_max_payload_size c.
End EndpointConfig.
Arguments EndpointConfig G : clear implicits.

(** ** [ServerConfig] and [ClientConfig] *)

Record ServerConfig := mkServerConfig {
  sc_transport : TransportConfig;
  concurrent_associations : u32;
}.

Definition ServerConfig_default : ServerConfig := mkServerConfig TransportConfig_default 100000.
Definition ServerConfig_new : ServerConfig := ServerConfig_default.

Record ClientConfig := mkClientConfig {
  cc_transport : TransportConfig;
  local_sctp_init : option Bytes;
  remote_sctp_init : option Bytes;
}.

Definition ClientConfig_default : ClientConfig := mkClientConfig TransportConfig_default None None.
Definition ClientConfig_new : ClientConfig := ClientConfig_default.

Definition with_snap (c : ClientConfig) (local remote : Bytes) : ClientConfig :=
  mkClientConfig (cc_transport c) (Some local) (Some remote).

(** ** SNAP tokens *)

(** The INIT of the token; [tag] and [tsn] are the two [random::<NonZeroU32>()]. *)
Definition snap_init (config : TransportConfig) (tag tsn : u32) : ChunkInit :=
  ChunkInit_set_supported_extensions
    (mkChunkInit false tag (tc_max_receive_buffer_size config) 65535 65535 tsn []).

(** [Chunk::marshal] starts from an empty buffer. *)
Definition generate_snap_token {B : BufApi} (config : TransportConfig) (tag tsn : u32) : Outcome Bytes :=
  let init := snap_init config tag tsn in
  _ ← ChunkInit_check init;
  ChunkInit_marshal_to init [].
