(* ===== verification/Association.v ===== *)
(** * The association ([src/association/mod.rs]): state and construction

    [Association] has every field of the source's struct.  Hash maps and sets
    are [gmap] and [gset]; where the source iterates over one and the order
    shows, the order is the operation [entries] of the class [MapIter], which
    promises no more than the documentation of [HashMap]: every entry once.
    Random numbers (the initial TSN, the state cookie) are arguments.  Packet
    output is the list of packets queued, encoded when the association is
    polled.  Log statements are left out. *)

From stdpp Require Import base list gmap numbers strings pretty sets.
From Stdlib Require Import ZArith Lia ZifyBool.
From S2P Require Import Prelude Bytes Util Params Chunks Packet PayloadQueue PendingQueue OutboundQueue.
From S2P Require Import ReassemblyQueue Shared Stream Monad Timer Config.

(** ** Iteration over hash maps *)

Class MapIter := entries : ∀ {A}, gmap Z A → list (Z * A).
Class MapIterLaws (I : MapIter) : Prop :=
  entries_law : ∀ A (m : gmap Z A), entries m ≡ₚ map_to_list m.

Definition list_iter : MapIter := λ A m, map_to_list m.
Lemma list_iter_laws : MapIterLaws list_iter.
Proof. intros A m. reflexivity. Qed.

Definition keys {I : MapIter} {A} (m : gmap Z A) : list Z := (entries m).*1.
Definition values {I : MapIter} {A} (m : gmap Z A) : list A := (entries m).*2.

(** [values().any(f)], which does not depend on the order. *)
Definition any_value {A} (f : A → bool) (m : gmap Z A) : bool := existsb (λ e, f e.2) (map_to_list m).

(** [retain(|k, v| f(k, v))] *)
Definition retain {A} (f : Z → A → bool) (m : gmap Z A) : gmap Z A := filter (λ e, f e.1 e.2 = true) m.

(** ** Events *)

Module AssociationError.
Inductive t : Type :=
| HandshakeFailed (e : Error)
| TransportError
| ReceiveBufferExhausted
| AssociationClosed
| ApplicationClosed
| Reset
| TimedOut
| LocallyClosed.
End AssociationError.

Module Event.
Inductive t : Type :=
| Connected
| HandshakeFailed (reason : AssociationError.t)
| AssociationLost (reason : AssociationError.t)
| Stream (e : StreamEvent.t)
| DataChannelStatsFinal (s : DataChannelStats)
| DatagramReceived.
End Event.

(** ** Stream ids that owe a terminal reset event: a multiset *)

Definition PendingResetCompletions : Type := gmap Z usize.

Definition prc_insert (m : PendingResetCompletions) (id : u16) : PendingResetCompletions :=
  <[id := default 0 (m !! id) + 1]> m.

Definition prc_contains (m : PendingResetCompletions) (id : u16) : bool := bool_decide (is_Some (m !! id)).

Definition prc_take_one (m : PendingResetCompletions) (id : u16) : Outcome (bool * PendingResetCompletions) :=
  match m !! id with
  | Some count =>
      count ← checked_sub count 1;
      Ok (true, if count =? 0 then delete id m else <[id := count]> m)
  | None => Ok (false, m)
  end.

(** ** Forward-TSN updates that wait for a later stream generation *)

Module DeferredForwardTsnKind.
Inductive t : Type :=
| Ordered (last_ssn : u16) (new_cumulative_tsn : u32)
| Unordered (new_cumulative_tsn : u32).
End DeferredForwardTsnKind.

Record DeferredForwardTsn := mkDeferredForwardTsn {
  generation_boundary : option u32;
  df_kind : DeferredForwardTsnKind.t;
}.

(** ** The association *)

Record Association := mkAssociation {
  side : Side;
  state : AssociationState;
  handshake_completed : bool;
  max_send_message_size : u32;
  max_receive_message_size : u32;
  inflight_queue_length : usize;
  will_send_shutdown : bool;
  next_stream_generation : u64;
  bytes_received : usize;
  bytes_sent : usize;
  peer_verification_tag : u32;
  my_verification_tag : u32;
  my_next_tsn : u32;
  peer_last_tsn : u32;
  min_tsn2measure_rtt : u32;
  will_send_forward_tsn : bool;
  will_retransmit_fast : bool;
  will_retransmit_reconfig : bool;
  will_send_shutdown_ack : bool;
  will_send_shutdown_complete : bool;
  my_next_rsn : u32;
  reconfigs : gmap Z ChunkReconfig;
  reconfig_reset_streams : gmap Z (list u16);
  active_reconfig : option u32;
  pending_reset_streams : list u16;
  reconfig_requests : gmap Z ParamOutgoingResetRequest;
  deferred_reset_data : gmap Z ChunkPayloadData;
  max_completed_reconfig_rsn : option u32;
  peer_last_reconfig_rsn : u32;
  peer_reconfig_rsn_initialized : bool;
  pending_reset_completions : PendingResetCompletions;
  failed_reset_streams : gset Z;
  retiring_streams : gmap Z (list u32);
  ready_stream_finishes : PendingResetCompletions;
  delivered_stream_finishes : PendingResetCompletions;
  deferred_forward_tsns : gmap Z (list DeferredForwardTsn);
  remote_addr : SocketAddr;
  local_ip : option IpAddr;
  a_source_port : u16;
  a_destination_port : u16;
  my_max_num_inbound_streams : u16;
  my_max_num_outbound_streams : u16;
  my_cookie : option Bytes;
  payload_queue : PayloadQueue;
  outbound_queue : OutboundQueue;
  control_queue : list Packet;
  stream_queue : list u16;
  mtu : u32;
  max_payload_size : u32;
  cumulative_tsn_ack_point : u32;
  advanced_peer_tsn_ack_point : u32;
  use_forward_tsn : bool;
  rto_mgr : RtoManager;
  timers : TimerTable;
  max_receive_buffer_size : u32;
  cwnd : u32;
  rwnd : u32;
  ssthresh : u32;
  partial_bytes_acked : u32;
  in_fast_recovery : bool;
  fast_recover_exit_point : u32;
  stored_init : option ChunkInit;
  stored_cookie_echo : option Bytes;
  streams : gmap Z StreamState;
  events : list Event.t;
  endpoint_events : list EndpointEventInner;
  error : option AssociationError.t;
  delayed_ack_triggered : bool;
  immediate_ack_triggered : bool;
  stats : AssociationStats;
  ack_state : AckState;
  ack_mode : AckMode;
}.

#[export] Instance Association_eta : Eta Association := λ a,
  mkAssociation
    (side a) (state a) (handshake_completed a) (max_send_message_size a) (max_receive_message_size a)
    (inflight_queue_length a) (will_send_shutdown a) (next_stream_generation a) (bytes_received a)
    (bytes_sent a) (peer_verification_tag a) (my_verification_tag a) (my_next_tsn a) (peer_last_tsn a)
    (min_tsn2measure_rtt a) (will_send_forward_tsn a) (will_retransmit_fast a) (will_retransmit_reconfig a)
    (will_send_shutdown_ack a) (will_send_shutdown_complete a) (my_next_rsn a) (reconfigs a)
    (reconfig_reset_streams a) (active_reconfig a) (pending_reset_streams a) (reconfig_requests a)
    (deferred_reset_data a) (max_completed_reconfig_rsn a) (peer_last_reconfig_rsn a)
    (peer_reconfig_rsn_initialized a) (pending_reset_completions a) (failed_reset_streams a)
    (retiring_streams a) (ready_stream_finishes a) (delivered_stream_finishes a) (deferred_forward_tsns a)
    (remote_addr a) (local_ip a) (a_source_port a) (a_destination_port a) (my_max_num_inbound_streams a)
    (my_max_num_outbound_streams a) (my_cookie a) (payload_queue a) (outbound_queue a) (control_queue a)
    (stream_queue a) (mtu a) (max_payload_size a) (cumulative_tsn_ack_point a) (advanced_peer_tsn_ack_point a)
    (use_forward_tsn a) (rto_mgr a) (timers a) (max_receive_buffer_size a) (cwnd a) (rwnd a) (ssthresh a)
    (partial_bytes_acked a) (in_fast_recovery a) (fast_recover_exit_point a) (stored_init a)
    (stored_cookie_echo a) (streams a) (events a) (endpoint_events a) (error a) (delayed_ack_triggered a)
    (immediate_ack_triggered a) (stats a) (ack_state a) (ack_mode a).
#[export] Instance upd_side : Update side. Proof. solve_update. Defined.
#[export] Instance upd_state : Update state. Proof. solve_update. Defined.
#[export] Instance upd_handshake_completed : Update handshake_completed. Proof. solve_update. Defined.
#[export] Instance upd_max_send_message_size : Update max_send_message_size. Proof. solve_update. Defined.
#[export] Instance upd_max_receive_message_size : Update max_receive_message_size. Proof. solve_update. Defined.
#[export] Instance upd_inflight_queue_length : Update inflight_queue_length. Proof. solve_update. Defined.
#[export] Instance upd_will_send_shutdown : Update will_send_shutdown. Proof. solve_update. Defined.
#[export] Instance upd_next_stream_generation : Update next_stream_generation. Proof. solve_update. Defined.
#[export] Instance upd_bytes_received : Update bytes_received. Proof. solve_update. Defined.
#[export] Instance upd_bytes_sent : Update bytes_sent. Proof. solve_update. Defined.
#[export] Instance upd_peer_verification_tag : Update peer_verification_tag. Proof. solve_update. Defined.
#[export] Instance upd_my_verification_tag : Update my_verification_tag. Proof. solve_update. Defined.
#[export] Instance upd_my_next_tsn : Update my_next_tsn. Proof. solve_update. Defined.
#[export] Instance upd_peer_last_tsn : Update peer_last_tsn. Proof. solve_update. Defined.
#[export] Instance upd_min_tsn2measure_rtt : Update min_tsn2measure_rtt. Proof. solve_update. Defined.
#[export] Instance upd_will_send_forward_tsn : Update will_send_forward_tsn. Proof. solve_update. Defined.
#[export] Instance upd_will_retransmit_fast : Update will_retransmit_fast. Proof. solve_update. Defined.
#[export] Instance upd_will_retransmit_reconfig : Update will_retransmit_reconfig. Proof. solve_update. Defined.
#[export] Instance upd_will_send_shutdown_ack : Update will_send_shutdown_ack. Proof. solve_update. Defined.
#[export] Instance upd_will_send_shutdown_complete : Update will_send_shutdown_complete. Proof. solve_update. Defined.
#[export] Instance upd_my_next_rsn : Update my_next_rsn. Proof. solve_update. Defined.
#[export] Instance upd_reconfigs : Update reconfigs. Proof. solve_update. Defined.
#[export] Instance upd_reconfig_reset_streams : Update reconfig_reset_streams. Proof. solve_update. Defined.
#[export] Instance upd_active_reconfig : Update active_reconfig. Proof. solve_update. Defined.
#[export] Instance upd_pending_reset_streams : Update pending_reset_streams. Proof. solve_update. Defined.
#[export] Instance upd_reconfig_requests : Update reconfig_requests. Proof. solve_update. Defined.
#[export] Instance upd_deferred_reset_data : Update deferred_reset_data. Proof. solve_update. Defined.
#[export] Instance upd_max_completed_reconfig_rsn : Update max_completed_reconfig_rsn. Proof. solve_update. Defined.
#[export] Instance upd_peer_last_reconfig_rsn : Update peer_last_reconfig_rsn. Proof. solve_update. Defined.
#[export] Instance upd_peer_reconfig_rsn_initialized : Update peer_reconfig_rsn_initialized. Proof. solve_update. Defined.
#[export] Instance upd_pending_reset_completions : Update pending_reset_completions. Proof. solve_update. Defined.
#[export] Instance upd_failed_reset_streams : Update failed_reset_streams. Proof. solve_update. Defined.
#[export] Instance upd_retiring_streams : Update retiring_streams. Proof. solve_update. Defined.
#[export] Instance upd_ready_stream_finishes : Update ready_stream_finishes. Proof. solve_update. Defined.
#[export] Instance upd_delivered_stream_finishes : Update delivered_stream_finishes. Proof. solve_update. Defined.
#[export] Instance upd_deferred_forward_tsns : Update deferred_forward_tsns. Proof. solve_update. Defined.
#[export] Instance upd_remote_addr : Update remote_addr. Proof. solve_update. Defined.
#[export] Instance upd_local_ip : Update local_ip. Proof. solve_update. Defined.
#[export] Instance upd_a_source_port : Update a_source_port. Proof. solve_update. Defined.
#[export] Instance upd_a_destination_port : Update a_destination_port. Proof. solve_update. Defined.
#[export] Instance upd_my_max_num_inbound_streams : Update my_max_num_inbound_streams. Proof. solve_update. Defined.
#[export] Instance upd_my_max_num_outbound_streams : Update my_max_num_outbound_streams. Proof. solve_update. Defined.
#[export] Instance upd_my_cookie : Update my_cookie. Proof. solve_update. Defined.
#[export] Instance upd_payload_queue : Update payload_queue. Proof. solve_update. Defined.
#[export] Instance upd_outbound_queue : Update outbound_queue. Proof. solve_update. Defined.
#[export] Instance upd_control_queue : Update control_queue. Proof. solve_update. Defined.
#[export] Instance upd_stream_queue : Update stream_queue. Proof. solve_update. Defined.
#[export] Instance upd_mtu : Update mtu. Proof. solve_update. Defined.
#[export] Instance upd_max_payload_size : Update max_payload_size. Proof. solve_update. Defined.
#[export] Instance upd_cumulative_tsn_ack_point : Update cumulative_tsn_ack_point. Proof. solve_update. Defined.
#[export] Instance upd_advanced_peer_tsn_ack_point : Update advanced_peer_tsn_ack_point. Proof. solve_update. Defined.
#[export] Instance upd_use_forward_tsn : Update use_forward_tsn. Proof. solve_update. Defined.
#[export] Instance upd_rto_mgr : Update rto_mgr. Proof. solve_update. Defined.
#[export] Instance upd_timers : Update timers. Proof. solve_update. Defined.
#[export] Instance upd_max_receive_buffer_size : Update max_receive_buffer_size. Proof. solve_update. Defined.
#[export] Instance upd_cwnd : Update cwnd. Proof. solve_update. Defined.
#[export] Instance upd_rwnd : Update rwnd. Proof. solve_update. Defined.
#[export] Instance upd_ssthresh : Update ssthresh. Proof. solve_update. Defined.
#[export] Instance upd_partial_bytes_acked : Update partial_bytes_acked. Proof. solve_update. Defined.
#[export] Instance upd_in_fast_recovery : Update in_fast_recovery. Proof. solve_update. Defined.
#[export] Instance upd_fast_recover_exit_point : Update fast_recover_exit_point. Proof. solve_update. Defined.
#[export] Instance upd_stored_init : Update stored_init. Proof. solve_update. Defined.
#[export] Instance upd_stored_cookie_echo : Update stored_cookie_echo. Proof. solve_update. Defined.
#[export] Instance upd_streams : Update streams. Proof. solve_update. Defined.
#[export] Instance upd_events : Update events. Proof. solve_update. Defined.
#[export] Instance upd_endpoint_events : Update endpoint_events. Proof. solve_update. Defined.
#[export] Instance upd_error : Update error. Proof. solve_update. Defined.
#[export] Instance upd_delayed_ack_triggered : Update delayed_ack_triggered. Proof. solve_update. Defined.
#[export] Instance upd_immediate_ack_triggered : Update immediate_ack_triggered. Proof. solve_update. Defined.
#[export] Instance upd_stats : Update stats. Proof. solve_update. Defined.
#[export] Instance upd_ack_state : Update ack_state. Proof. solve_update. Defined.
#[export] Instance upd_ack_mode : Update ack_mode. Proof. solve_update. Defined.

Definition Association_default : Association :=
  mkAssociation
    Client Closed false 0 0 0 false 0 0 0 0 0 0 0 0 false false false false false 0 ∅ ∅ None [] ∅ ∅ None 0
    false ∅ ∅ ∅ ∅ ∅ ∅ unspecified_addr None 0 0 0 0 None PayloadQueue_new OutboundQueue_default [] [] 0 0 0 0
    false RtoManager_default TimerTable_default 0 0 0 0 0 false 0 None None ∅ [] [] None false false
    AssociationStats_default AckIdle AckModeNormal.

(** ** Construction *)

Definition new_common (config : TransportConfig) (max_payload_size : u32) (remote_addr : SocketAddr)
    (local_ip : option IpAddr) (side : Side) (verification_tag initial_tsn : u32) : Outcome Association :=
  m ← checked_add 32 max_payload_size COMMON_HEADER_SIZE;
  mtu ← checked_add 32 m DATA_CHUNK_HEADER_SIZE;
  mtu4 ← checked_mul 32 4 mtu;
  mtu2 ← checked_mul 32 2 mtu;
  let cwnd := Z.min mtu4 (Z.max mtu2 4380) in
  Ok (Association_default
    <| Association.side := side |>
    <| handshake_completed := false |>
    <| max_receive_buffer_size := tc_max_receive_buffer_size config |>
    <| max_send_message_size := tc_max_send_message_size config |>
    <| max_receive_message_size := tc_max_receive_message_size config |>
    <| my_max_num_outbound_streams := tc_max_num_outbound_streams config |>
    <| my_max_num_inbound_streams := tc_max_num_inbound_streams config |>
    <| Association.max_payload_size := max_payload_size |>
    <| rto_mgr := RtoManager_new (tc_rto_initial_ms config) (tc_rto_min_ms config) (tc_rto_max_ms config) |>
    <| timers := TimerTable_new (tc_max_init_retransmits config) (tc_max_data_retransmits config)
                   (tc_rto_max_ms config) |>
    <| Association.mtu := mtu |>
    <| Association.cwnd := cwnd |>
    <| Association.remote_addr := remote_addr |>
    <| Association.local_ip := local_ip |>
    <| a_source_port := tc_local_port config |>
    <| a_destination_port := tc_remote_port config |>
    <| my_verification_tag := verification_tag |>
    <| my_next_tsn := initial_tsn |>
    <| my_next_rsn := initial_tsn |>
    <| min_tsn2measure_rtt := initial_tsn |>
    <| cumulative_tsn_ack_point := wrapping_sub 32 initial_tsn 1 |>
    <| advanced_peer_tsn_ack_point := wrapping_sub 32 initial_tsn 1 |>
    <| error := None |>).

(** ** Small methods *)

Abbreviation AM := (M Association) (only parsing).

Definition set_state (new_state : AssociationState) : AM unit := modify (λ a, a <| state := new_state |>).

Definition push_event (e : Event.t) : AM unit := modify (λ a, a <| events ::= λ l, l ++ [e] |>).

Definition create_packet (a : Association) (cs : list Chunk) : Packet :=
  mkPacket (mkCommonHeader (a_source_port a) (a_destination_port a) (peer_verification_tag a)) cs.

Definition send_init : AM unit :=
  stored ← gets stored_init;
  match stored with
  | Some init => modify (λ a, a <| control_queue ::= λ q, q ++ [create_packet a [CInit init]] |>)
  | None => throw ErrInitNotStoredToSend
  end.

Definition send_cookie_echo : AM unit :=
  stored ← gets stored_cookie_echo;
  match stored with
  | Some cookie => modify (λ a, a <| control_queue ::= λ q, q ++ [create_packet a [CCookieEcho cookie]] |>)
  | None => throw ErrCookieEchoNotStoredToSend
  end.

(** A call on the timer table that can overflow the clock. *)
Definition with_timers (f : TimerTable → Outcome TimerTable) : AM unit :=
  tt ← gets timers; tt ← lift (f tt); modify (λ a, a <| timers := tt |>).

(** [self.timers.start(timer, now, self.rto_mgr.get_rto())] *)
Definition start_timer (t : Timer) (now : Instant) : AM unit :=
  r ← gets (λ a, get_rto (rto_mgr a)); with_timers (λ tt, timer_start tt t now r).

Definition restart_timer_if_stale (t : Timer) (now : Instant) : AM unit :=
  r ← gets (λ a, get_rto (rto_mgr a)); with_timers (λ tt, restart_if_stale tt t now r).

Definition stop_timer (t : Timer) : AM unit := modify (λ a, a <| timers ::= λ tt, timer_stop tt t |>).

Definition mentions_forward_tsn (p : Param) : bool :=
  match p with PSupportedExtensions types => existsb (λ t, t =? CT_FORWARD_TSN) types | _ => false end.

Definition apply_remote_init_params (initial_tsn advertised_receiver_window_credit : u32) (params : list Param)
    : AM unit :=
  modify (λ a,
    a <| peer_last_tsn := wrapping_sub 32 initial_tsn 1 |>
      <| peer_last_reconfig_rsn := wrapping_sub 32 initial_tsn 1 |>
      <| peer_reconfig_rsn_initialized := true |>
      <| rwnd := advertised_receiver_window_credit |>
      <| ssthresh := advertised_receiver_window_credit |>
      <| use_forward_tsn ::= λ u, u || existsb mentions_forward_tsn params |>).

(** A constructor runs methods on the value it is about to return. *)
Definition construct (this : Association) (m : AM unit) : Outcome Association :=
  match m this with
  | ROk _ this => Ok this
  | RErr e _ => Err e
  | RPanic => Panic
  | RStuck => Stuck
  end.

Definition Association_new (for_server : bool) (config : TransportConfig) (max_payload_size : u32)
    (local_aid : u32) (remote_addr : SocketAddr) (local_ip : option IpAddr) (tsn : u32) (now : Instant)
    : Outcome Association :=
  let side := if for_server then Server else Client in
  this ← new_common config max_payload_size remote_addr local_ip side local_aid tsn;
  if is_client side then
    let init := ChunkInit_set_supported_extensions
      (mkChunkInit false (my_verification_tag this) (max_receive_buffer_size this)
         (my_max_num_outbound_streams this) (my_max_num_inbound_streams this) (my_next_tsn this) []) in
    construct this
      (set_state CookieWait;;
       modify (λ a, a <| stored_init := Some init |>);;
       ignore send_init;;
       start_timer T1Init now)
  else Ok this.

Definition new_with_out_of_band_init (config : TransportConfig) (max_payload_size : u32) (remote_addr : SocketAddr)
    (local_ip : option IpAddr) (local_init remote_init : ChunkInit) : Outcome Association :=
  let side := if initiate_tag local_init <=? initiate_tag remote_init then Server else Client in
  this ← new_common config max_payload_size remote_addr local_ip side (initiate_tag local_init)
           (initial_tsn local_init);
  construct this
    (modify (λ a, a
       <| my_max_num_inbound_streams :=
            Z.min (tc_max_num_inbound_streams config) (num_outbound_streams remote_init) |>
       <| my_max_num_outbound_streams :=
            Z.min (tc_max_num_outbound_streams config) (num_inbound_streams remote_init) |>
       <| peer_verification_tag := initiate_tag remote_init |>
       <| handshake_completed := true |>);;
     apply_remote_init_params (initial_tsn remote_init) (advertised_receiver_window_credit remote_init)
       (params remote_init);;
     set_state Established;;
     push_event Event.Connected).

Lemma construct_Ok (Q : Association → Prop) this m a :
  holds True m (λ _, Q) (λ _ _, True) this → construct this m = Ok a → Q a.
Proof. unfold holds, construct. destruct (m this); intros H E; [|done..]. by assert (s = a) as <- by congruence. Qed.

Lemma Ok_Association_inj (a b : Association) : Ok a = Ok b → a = b.
Proof. congruence. Qed.
