(* ===== verification/AssocReset.v ===== *)
(** * Stream registration, stream reset and deferred Forward-TSN ([src/association/mod.rs])

    RFC 6525 stream reset as the association keeps it: which stream ids are
    blocked, the outgoing request in flight and its completion, the retirement
    of incoming stream generations that still hold unread data, and the DATA
    and Forward-TSN updates held back for the generation behind a reset. *)

From stdpp Require Import base list gmap numbers sets.
From Stdlib Require Import ZArith Lia ZifyBool.
From S2P Require Import Prelude Bytes Util Params Chunks Packet PayloadQueue PendingQueue OutboundQueue.
From S2P Require Import ReassemblyQueue Shared Stream Monad Timer Config Association.

Section Reset.
Context {I : MapIter}.

(** ** Outgoing reset requests *)

(** [param_a.iter().chain(param_b.iter()).find_map(downcast)] *)
Definition find_reset_request (c : ChunkReconfig) : option ParamOutgoingResetRequest :=
  match param_a c with
  | Some (POutgoingResetRequest p) => Some p
  | _ => match param_b c with Some (POutgoingResetRequest p) => Some p | _ => None end
  end.

Definition reset_request_affects_stream (request : ParamOutgoingResetRequest) (id : u16) : bool :=
  bool_decide (stream_identifiers request = []) || bool_decide (id ∈ stream_identifiers request).

Definition has_pending_reset_for_stream (a : Association) (id : u16) : bool :=
  any_value (λ c, match find_reset_request c with
                  | Some p => reset_request_affects_stream p id
                  | None => false
                  end) (reconfigs a).

Definition stream_reset_in_progress (a : Association) (id : u16) : bool :=
  bool_decide (id ∈ pending_reset_streams a) || has_pending_reset_for_stream a id.

Definition stream_reset_blocked (a : Association) (id : u16) : bool :=
  prc_contains (pending_reset_completions a) id
  || bool_decide (id ∈ failed_reset_streams a)
  || bool_decide (is_Some (retiring_streams a !! id))
  || stream_reset_in_progress a id.

Definition reconfig_stream_ids (c : ChunkReconfig) : list u16 :=
  match find_reset_request c with Some p => stream_identifiers p | None => [] end.

Definition packet_reconfig_request_rsn (p : Packet) : option u32 :=
  head (omap (λ c, match c with
                   | CReconfig r => reconfig_request_sequence_number <$> find_reset_request r
                   | _ => None
                   end) (chunks p)).

Definition with_sender_last_tsn (t : u32) (p : Param) : Param :=
  match p with
  | POutgoingResetRequest r =>
      POutgoingResetRequest (mkParamOutgoingResetRequest (reconfig_request_sequence_number r)
        (reconfig_response_sequence_number r) t (stream_identifiers r))
  | p => p
  end.

Definition reconfig_with_sender_last_tsn (c : ChunkReconfig) (t : u32) : ChunkReconfig :=
  mkChunkReconfig (with_sender_last_tsn t <$> param_a c) (with_sender_last_tsn t <$> param_b c).

Definition stream_has_unacked_data (a : Association) (id : u16) : bool := oq_contains_stream (outbound_queue a) id.

Definition reconfig_has_unacked_data (a : Association) (rsn : u32) : bool :=
  match reconfigs a !! rsn with
  | Some c =>
      let ids := reconfig_stream_ids c in
      if bool_decide (ids = [])
      then negb (pending_len (outbound_queue a) =? 0) || negb (inflight_len (outbound_queue a) =? 0)
      else existsb (stream_has_unacked_data a) ids
  | None => false
  end.

Definition refresh_unsent_reconfig (rsn : u32) : AM (option Packet) :=
  a ← self;
  let sender_last_tsn := wrapping_sub 32 (my_next_tsn a) 1 in
  match reconfigs a !! rsn with
  | Some c =>
      let c := reconfig_with_sender_last_tsn c sender_last_tsn in
      modify (λ a, a <| reconfigs ::= <[rsn := c]> |>);;
      mret (Some (create_packet a [CReconfig c]))
  | None => mret None
  end.

(** ** Registration *)

Definition queue_stream_finished (id : u16) (ready : bool) : AM unit :=
  push_event (Event.Stream (StreamEvent.Finished id));;
  modify (λ a, a <| pending_reset_completions ::= λ m, prc_insert m id |>);;
  when ready (modify (λ a, a <| ready_stream_finishes ::= λ m, prc_insert m id |>)).

(** [if let Some(s) = self.streams.remove(&id)], reporting the final counters. *)
Definition remove_stream (id : u16) : AM bool :=
  s ← gets (λ a, streams a !! id);
  match s with
  | Some s =>
      modify (λ a, a <| streams ::= delete id |>);;
      push_event (Event.DataChannelStatsFinal (ss_stats s));;
      mret true
  | None => mret false
  end.

Definition unregister_stream (id : u16) (emit_stream_finished : bool) : AM unit :=
  removed ← remove_stream id;
  when (removed && emit_stream_finished) (queue_stream_finished id true).

Definition create_stream (id : u16) (accept : bool) (ppi : PayloadProtocolIdentifier) : AM bool :=
  a ← self;
  if next_stream_generation a + 1 <? 2 ^ 64 then
    modify (λ a, a <| next_stream_generation ::= λ g, g + 1 |>);;
    let s := StreamState_new (side a) id (max_payload_size a) (max_receive_message_size a) ppi in
    let s := s <| ss_stats ::= λ st, st <| generation := next_stream_generation a |> |>
               <| first_message_id := next_message_id (outbound_queue a) |> in
    when accept (modify (λ a, a <| stream_queue ::= λ q, q ++ [id] |>);;
                 push_event (Event.Stream (StreamEvent.Opened id)));;
    modify (λ a, a <| streams ::= <[id := s]> |>);;
    mret true
  else mret false.

Definition get_or_create_stream (id : u16) : AM bool :=
  known ← gets (λ a, bool_decide (is_Some (streams a !! id)));
  if (known : bool) then mret true else create_stream id true PpUnknown.

(** ** Receive window *)

(** The [u32] sum panics on overflow, in whatever order it is taken. *)
Definition get_my_receiver_window_credit (a : Association) : Outcome u32 :=
  let bytes_queued := map_sum (λ s, wrap 32 (get_num_bytes_in_reassembly_queue s)) (streams a)
                    + map_sum (λ c, wrap 32 (data_len c)) (deferred_reset_data a) in
  if bytes_queued <? 2 ^ 32 then Ok (saturating_sub (max_receive_buffer_size a) bytes_queued) else Panic.

Definition can_read (s : StreamState) : bool :=
  match ss_state s with RecvSendState.Readable | RecvSendState.ReadWritable => true | _ => false end.

Definition receive_capacity_exhausted (a : Association) : Outcome bool :=
  credit ← get_my_receiver_window_credit a;
  Ok ((credit =? 0)
      && (negb (bool_decide (deferred_reset_data a = ∅))
          || any_value (λ s, get_num_bytes_in_reassembly_queue s >? 0) (streams a))
      && pq_is_empty (payload_queue a)
      && negb (any_value (λ s, can_read s && is_readable (reassembly_queue s)) (streams a))).

(** ** Completion of an outgoing request *)

Definition take_pending_completion (id : u16) : AM bool :=
  m ← gets pending_reset_completions;
  '(taken, m) ← lift (prc_take_one m id);
  modify (λ a, a <| pending_reset_completions := m |>);;
  mret taken.

Definition emit_reset_complete (ids : list u16) : AM unit :=
  for_each ids (λ id,
    notify ← take_pending_completion id;
    modify (λ a, a <| failed_reset_streams ::= λ m, m ∖ {[ id ]} |>);;
    a ← self;
    when (negb (stream_reset_blocked a id))
      (let application_closed :=
         notify && match streams a !! id with
                   | Some s => match ss_state s with
                               | RecvSendState.Closed | RecvSendState.Writable => true
                               | _ => false
                               end
                   | None => false
                   end in
       if application_closed then unregister_stream id false
       else modify (λ a, a <| streams ::= alter (λ s, s <| sequence_number := 0 |>) id |>));;
    when notify (push_event (Event.Stream (StreamEvent.ResetComplete id)))).

Definition emit_reset_failed (ids : list u16) (reason : StreamResetError.t) : AM unit :=
  for_each ids (λ id,
    _ ← take_pending_completion id;
    modify (λ a, a <| failed_reset_streams ::= λ m, {[ id ]} ∪ m |>);;
    push_event (Event.Stream (StreamEvent.ResetFailed id reason))).

Definition finish_reconfig (rsn : u32) (outcome : unit + StreamResetError.t) : AM bool :=
  a ← self;
  if negb (bool_decide (active_reconfig a = Some rsn)) then mret false
  else
    let fallback_ids := match reconfigs a !! rsn with Some c => reconfig_stream_ids c | None => [] end in
    let ids := default fallback_ids (reconfig_reset_streams a !! rsn) in
    modify (λ a, a <| reconfigs ::= delete rsn |>
                   <| reconfig_reset_streams ::= delete rsn |>
                   <| active_reconfig := None |>
                   <| will_retransmit_reconfig := false |>);;
    stop_timer Reconfig;;
    match outcome with
    | inl _ => emit_reset_complete ids
    | inr reason => emit_reset_failed ids reason
    end;;
    mret true.

(** ** Generations of an incoming stream *)

Definition data_is_above_pending_reset (a : Association) (d : ChunkPayloadData) : bool :=
  bool_decide (is_Some (retiring_streams a !! stream_identifier d))
  || any_value (λ request, reset_request_affects_stream request (stream_identifier d)
                           && sna32gt (tsn d) (sender_last_tsn request)) (reconfig_requests a).

Definition current_reset_boundary (a : Association) (id : u16) : option u32 :=
  retiring_streams a !! id ≫= head.

Definition pending_reset_boundary (a : Association) (id : u16) : option u32 :=
  sender_last_tsn <$> List.find (λ request, reset_request_affects_stream request id) (values (reconfig_requests a)).

Definition forward_tsn_applies_to_current_generation (a : Association) (id : u16) : bool :=
  let current_boundary := current_reset_boundary a id in
  bool_decide (current_boundary = None) || bool_decide (current_boundary = pending_reset_boundary a id).

(** The [for upper in boundaries.into_iter().skip(1)] *)
Fixpoint generation_scan (t lower : u32) (uppers : list u32) : u32 * option u32 :=
  match uppers with
  | [] => (lower, None)
  | upper :: uppers' => if sna32lte t upper then (lower, Some upper) else generation_scan t upper uppers'
  end.

Definition deferred_generation_bounds (a : Association) (id : u16) (t : u32) : option (u32 * option u32) :=
  let boundaries := default [] (retiring_streams a !! id) in
  let boundaries := match pending_reset_boundary a id with
                    | Some pending => if bool_decide (last boundaries = Some pending) then boundaries
                                      else boundaries ++ [pending]
                    | None => boundaries
                    end in
  match boundaries with
  | [] => None
  | lower :: uppers => Some (generation_scan t lower uppers)
  end.

(** Pushing chunks into a queue rebuilt for the purpose. *)
Fixpoint push_chunks (q : ReassemblyQueue) (l : list ChunkPayloadData) : Outcome ReassemblyQueue :=
  match l with
  | [] => Ok q
  | c :: l' => '(_, q) ← rq_push q c; push_chunks q l'
  end.

(** [sort_unstable_by_key]; the keys of chunks with different TSNs differ. *)
Definition sort_by_offset (key : ChunkPayloadData → u32) (l : list ChunkPayloadData) : list ChunkPayloadData :=
  sort_by (λ c d, key c <? key d) l.

Definition forward_deferred (q : ReassemblyQueue) (kind : DeferredForwardTsnKind.t) : ReassemblyQueue :=
  match kind with
  | DeferredForwardTsnKind.Ordered last_ssn t => forward_tsn_for_ordered_bounded q last_ssn t
  | DeferredForwardTsnKind.Unordered t => forward_tsn_for_unordered q t
  end.

Definition prune_deferred_reset_data_for_forward_tsn (id : u16) (boundary : option u32)
    (kind : DeferredForwardTsnKind.t) : AM unit :=
  a ← self;
  let bounds c := deferred_generation_bounds a id (tsn c) in
  let chunks := filter (λ c, stream_identifier c = id ∧ snd <$> bounds c = Some boundary)
                  (values (deferred_reset_data a)) in
  if bool_decide (chunks = []) then mret tt
  else
    let chunks := sort_by_offset (λ c, match bounds c with
                                       | Some (lower, _) => wrapping_sub 32 (tsn c) lower
                                       | None => 0
                                       end) chunks in
    let targeted_tsns := tsn <$> chunks in
    r ← attempt (lift (push_chunks (ReassemblyQueue_new id (max_receive_message_size a)) chunks));
    match r with
    | inr _ => mret tt
    | inl queue =>
        let queue := forward_deferred queue kind in
        let retained_tsns :=
          tsn <$> (flat_map cs_chunks (rq_ordered queue ++ rq_unordered queue) ++ unordered_chunks queue) in
        modify (λ a, a <| deferred_reset_data ::=
          retain (λ t _, negb (bool_decide (t ∈ targeted_tsns)) || bool_decide (t ∈ retained_tsns)) |>)
    end.

(** The first element that satisfies [p], updated in place. *)
Fixpoint update_first {A} (p : A → bool) (f : A → A) (l : list A) : option (A * list A) :=
  match l with
  | [] => None
  | x :: l' => if p x then Some (f x, f x :: l')
               else option_map (λ '(y, l''), (y, x :: l'')) (update_first p f l')
  end.

Definition merges_ordered (boundary : option u32) (last_ssn : u16) (u : DeferredForwardTsn) : bool :=
  bool_decide (generation_boundary u = boundary) &&
  match df_kind u with
  | DeferredForwardTsnKind.Ordered previous_ssn _ =>
      (previous_ssn =? last_ssn) || (bool_decide (is_Some boundary) && sna16lt previous_ssn last_ssn)
  | DeferredForwardTsnKind.Unordered _ => false
  end.

Definition merge_ordered (last_ssn : u16) (t : u32) (u : DeferredForwardTsn) : DeferredForwardTsn :=
  match df_kind u with
  | DeferredForwardTsnKind.Ordered previous_ssn previous_t =>
      mkDeferredForwardTsn (generation_boundary u)
        (DeferredForwardTsnKind.Ordered (if sna16lt previous_ssn last_ssn then last_ssn else previous_ssn)
           (if sna32lt previous_t t then t else previous_t))
  | DeferredForwardTsnKind.Unordered _ => u
  end.

Definition apply_or_defer_ordered_forward_tsn (id : u16) (last_ssn : u16) (t : u32) : AM unit :=
  a ← self;
  if negb (forward_tsn_applies_to_current_generation a id) then
    let boundary := pending_reset_boundary a id in
    let updates := default [] (deferred_forward_tsns a !! id) in
    let '(kind, updates) :=
      match update_first (merges_ordered boundary last_ssn) (merge_ordered last_ssn t) updates with
      | Some (u, updates) => (df_kind u, updates)
      | None => let kind := DeferredForwardTsnKind.Ordered last_ssn t in
                (kind, updates ++ [mkDeferredForwardTsn boundary kind])
      end in
    modify (λ a, a <| deferred_forward_tsns ::= <[id := updates]> |>);;
    prune_deferred_reset_data_for_forward_tsn id boundary kind
  else
    match streams a !! id with
    | Some s =>
        let q := forward_tsn_for_ordered (reassembly_queue s) last_ssn in
        modify (λ a, a <| streams ::= <[id := s <| reassembly_queue := q |>]> |>);;
        when (negb (is_readable (reassembly_queue s)) && is_readable q)
          (push_event (Event.Stream (StreamEvent.Readable id)))
    | None => mret tt
    end.

Definition merges_unordered (boundary : option u32) (u : DeferredForwardTsn) : bool :=
  bool_decide (generation_boundary u = boundary) &&
  match df_kind u with DeferredForwardTsnKind.Unordered _ => true | _ => false end.

Definition merge_unordered (t : u32) (u : DeferredForwardTsn) : DeferredForwardTsn :=
  match df_kind u with
  | DeferredForwardTsnKind.Unordered previous_t =>
      mkDeferredForwardTsn (generation_boundary u)
        (DeferredForwardTsnKind.Unordered (if sna32lt previous_t t then t else previous_t))
  | DeferredForwardTsnKind.Ordered _ _ => u
  end.

Definition apply_or_defer_unordered_forward_tsn (id : u16) (t : u32) : AM unit :=
  a ← self;
  if negb (forward_tsn_applies_to_current_generation a id) then
    let boundary := pending_reset_boundary a id in
    let updates := default [] (deferred_forward_tsns a !! id) in
    let '(kind, updates) :=
      match update_first (merges_unordered boundary) (merge_unordered t) updates with
      | Some (u, updates) => (df_kind u, updates)
      | None => let kind := DeferredForwardTsnKind.Unordered t in
                (kind, updates ++ [mkDeferredForwardTsn boundary kind])
      end in
    modify (λ a, a <| deferred_forward_tsns ::= <[id := updates]> |>);;
    prune_deferred_reset_data_for_forward_tsn id boundary kind
  else
    modify (λ a, a <| streams ::= alter (λ s, s <| reassembly_queue ::= λ q, forward_tsn_for_unordered q t |>) id |>).

Definition apply_unordered_forward_tsn_to_current_streams (t : u32) : AM unit :=
  ids ← gets (λ a, keys (streams a));
  for_each ids (λ id, apply_or_defer_unordered_forward_tsn id t).

Definition deferred_forward_tsn_application (a : Association) (id : u16) (u : DeferredForwardTsn)
    : option (DeferredForwardTsnKind.t * bool) :=
  match df_kind u with
  | DeferredForwardTsnKind.Ordered last_ssn t =>
      s ← streams a !! id;
      n ← applicable_forward_tsn_for_ordered_bounded (reassembly_queue s) last_ssn t (peer_last_tsn a);
      Some (DeferredForwardTsnKind.Ordered n t, n =? last_ssn)
  | DeferredForwardTsnKind.Unordered _ => Some (df_kind u, true)
  end.

Definition apply_deferred_forward_tsns (id : u16) : AM unit :=
  a ← self;
  match streams a !! id, deferred_forward_tsns a !! id with
  | Some s, Some updates =>
      let boundary := current_reset_boundary a id in
      let application u := if bool_decide (generation_boundary u = boundary)
                           then deferred_forward_tsn_application a id u else None in
      let ready := omap (λ u, fst <$> application u) updates in
      if bool_decide (ready = []) then mret tt
      else
        let kept := filter (λ u, snd <$> application u ≠ Some true) updates in
        modify (λ a, a <| deferred_forward_tsns ::= if bool_decide (kept = []) then delete id else <[id := kept]> |>);;
        let q := fold_left forward_deferred ready (reassembly_queue s) in
        modify (λ a, a <| streams ::= <[id := s <| reassembly_queue := q |>]> |>);;
        when (negb (is_readable (reassembly_queue s)) && is_readable q)
          (push_event (Event.Stream (StreamEvent.Readable id)))
  | _, _ => mret tt
  end.

Definition discard_deferred_forward_tsns_through (id : u16) (boundary : u32) : AM unit :=
  modify (λ a,
    match deferred_forward_tsns a !! id with
    | Some updates =>
        let updates := filter (λ u, generation_boundary u ≠ Some boundary) updates in
        a <| deferred_forward_tsns ::= if bool_decide (updates = []) then delete id else <[id := updates]> |>
    | None => a
    end).

(** ** Releasing held-back DATA *)

Definition deliver_deferred_reset_data (d : ChunkPayloadData) : AM unit :=
  created ← get_or_create_stream (stream_identifier d);
  if negb created then mret tt
  else
    s ← gets (λ a, streams a !! stream_identifier d);
    match s with
    | Some s =>
        '(queued, s) ← lift (handle_stream_data s d);
        modify (λ a, a <| streams ::= <[stream_identifier d := s]> |>);;
        push_event Event.DatagramReceived;;
        when (queued && is_readable (reassembly_queue s))
          (push_event (Event.Stream (StreamEvent.Readable (stream_identifier d))))
    | None => mret tt
    end.

Definition deliver_and_forget (d : ChunkPayloadData) : AM unit :=
  deliver_deferred_reset_data d;;
  modify (λ a, a <| deferred_reset_data ::= delete (tsn d) |>).

Definition release_deferred_generation_data (id : u16) (previous_boundary boundary : u32) : AM unit :=
  a ← self;
  let ready := filter (λ c, stream_identifier c = id ∧ sna32gt (tsn c) previous_boundary = true
                            ∧ sna32lte (tsn c) boundary = true) (values (deferred_reset_data a)) in
  let ready := sort_by_offset (λ c, wrapping_sub 32 (tsn c) previous_boundary) ready in
  for_each ready deliver_and_forget;;
  apply_deferred_forward_tsns id.

Definition validate_deferred_reset_data (a : Association) (d : ChunkPayloadData) : Outcome unit :=
  match deferred_generation_bounds a (stream_identifier d) (tsn d) with
  | None => Ok tt
  | Some (lower, upper) =>
      let chunks := filter (λ c, stream_identifier c = stream_identifier d ∧ sna32gt (tsn c) lower = true
                                 ∧ (match upper with Some upper => sna32lte (tsn c) upper | None => true end) = true)
                      (values (deferred_reset_data a)) in
      let chunks := sort_by_offset (λ c, wrapping_sub 32 (tsn c) lower) chunks in
      q ← push_chunks (ReassemblyQueue_new (stream_identifier d) (max_receive_message_size a)) chunks;
      _ ← rq_push q d;
      Ok tt
  end.

(** Iteration over the [FxHashSet] collected from a list. *)
Definition set_iter (l : list Z) : list Z := keys (list_to_map ((λ x, (x, tt)) <$> l) : gmap Z unit).

Definition release_deferred_reset_data : AM unit :=
  a ← self;
  let ready := filter (λ c, data_is_above_pending_reset a c = false) (values (deferred_reset_data a)) in
  for_each ready deliver_and_forget;;
  for_each (set_iter (stream_identifier <$> ready)) apply_deferred_forward_tsns.

(** ** Retiring generations *)

(** Updates of the generation that ends now get its boundary. *)
Definition close_generation (id : u16) (boundary : u32) : AM unit :=
  modify (λ a, a <| deferred_forward_tsns ::= alter (fmap (λ u,
    if bool_decide (generation_boundary u = None) then mkDeferredForwardTsn (Some boundary) (df_kind u) else u)) id |>).

Definition retire_stream (id : u16) (sender_last_tsn : u32) : AM unit :=
  a ← self;
  match retiring_streams a !! id with
  | Some boundaries =>
      modify (λ a, a <| retiring_streams ::= <[id := boundaries ++ [sender_last_tsn]]> |>);;
      close_generation id sender_last_tsn;;
      queue_stream_finished id false
  | None =>
      let has_readable_data :=
        match streams a !! id with
        | Some s => can_read s && negb (get_num_bytes_in_reassembly_queue s =? 0)
        | None => false
        end in
      if negb has_readable_data then
        modify (λ a, a <| deferred_forward_tsns ::= delete id |>);;
        unregister_stream id true
      else
        close_generation id sender_last_tsn;;
        modify (λ a, a <| retiring_streams ::= <[id := [sender_last_tsn]]> |>);;
        queue_stream_finished id false
  end.

Definition inherit_stream_state (id : u16) (inherited : RecvSendState.t) : AM unit :=
  modify (λ a, a <| streams ::= alter (λ s, s <| ss_state ::= λ st, mask_state st (RecvSendState_as_u8 inherited) |>) id |>).

(** The [loop]: each iteration takes one boundary off the stream's queue. *)
Fixpoint finish_retiring_loop (fuel : nat) (id : u16) (inherited : RecvSendState.t) : AM unit :=
  match fuel with
  | O => lift Stuck
  | S fuel' =>
      boundaries ← gets (λ a, retiring_streams a !! id);
      match boundaries with
      | Some (completed :: rest) =>
          modify (λ a, a <| retiring_streams ::= <[id := rest]> |>);;
          discard_deferred_forward_tsns_through id completed;;
          modify (λ a, a <| ready_stream_finishes ::= λ m, prc_insert m id |>);;
          match rest with
          | [] =>
              modify (λ a, a <| retiring_streams ::= delete id |>);;
              result ← attempt release_deferred_reset_data;
              inherit_stream_state id inherited;;
              match result with inl _ => mret tt | inr e => throw e end
          | next :: _ =>
              release_deferred_generation_data id completed next;;
              inherit_stream_state id inherited;;
              a ← self;
              let has_unread_data := match streams a !! id with
                                     | Some s => negb (get_num_bytes_in_reassembly_queue s =? 0)
                                     | None => false
                                     end in
              if has_unread_data then mret tt
              else
                _ ← remove_stream id;
                discard_deferred_forward_tsns_through id next;;
                finish_retiring_loop fuel' id inherited
          end
      | _ => lift Panic
      end
  end.

Definition finish_retiring_stream (id : u16) : AM unit :=
  a ← self;
  match retiring_streams a !! id with
  | None => mret tt
  | Some boundaries =>
      let inherited := match streams a !! id with Some s => ss_state s | None => RecvSendState.ReadWritable end in
      _ ← remove_stream id;
      finish_retiring_loop (S (length boundaries)) id inherited
  end.

(** [retain] on the events: those about a stream that can no longer be read. *)
Definition is_read_event (id : u16) (e : Event.t) : bool :=
  match e with
  | Event.Stream (StreamEvent.Opened i) | Event.Stream (StreamEvent.Readable i) => i =? id
  | _ => false
  end.

Definition discard_retiring_streams (id : u16) : AM unit :=
  a ← self;
  match retiring_streams a !! id with
  | None => mret tt
  | Some boundaries =>
      modify (λ a, a <| retiring_streams ::= delete id |>
                     <| ready_stream_finishes ::= λ m, fold_left (λ m _, prc_insert m id) boundaries m |>);;
      for_each (fst <$> filter (λ e, stream_identifier e.2 = id) (entries (deferred_reset_data a))) (λ t,
        q ← gets payload_queue;
        '(_, q) ← lift (pq_mark_as_acked q t);
        modify (λ a, a <| payload_queue := q |>));;
      modify (λ a, a
        <| deferred_reset_data ::= retain (λ _ c, negb (stream_identifier c =? id)) |>
        <| deferred_forward_tsns ::= delete id |>
        <| events ::= filter (λ e, is_read_event id e = false) |>
        <| streams ::= alter (λ s, s <| reassembly_queue := ReassemblyQueue_new id (max_receive_message_size a) |>) id |>);;
      a ← self;
      when (negb (stream_reset_blocked a id)) (unregister_stream id false)
  end.
End Reset.
