(* ===== verification/AssocRecv.v ===== *)
(** * Receiving DATA, FORWARD TSN and RE-CONFIG ([src/association/mod.rs])

    What a received chunk of the data path does: admitting DATA against the
    receive window, moving the cumulative TSN, acknowledging, skipping
    abandoned messages, and the incoming half of stream reset. *)

From stdpp Require Import base list gmap numbers sets.
From Stdlib Require Import ZArith Lia ZifyBool.
From S2P Require Import Prelude Bytes Util Params Chunks Packet PayloadQueue PendingQueue OutboundQueue.
From S2P Require Import ReassemblyQueue Shared Stream Monad Timer Config Association AssocReset.

Section Recv.
Context {I : MapIter}.

(** ** Stream reset requests of the peer *)

(** [dedup()] *)
Fixpoint dedup (l : list Z) : list Z :=
  match l with
  | x :: (y :: _) as l' => if x =? y then dedup l' else x :: dedup l'
  | l => l
  end.

Definition generate_next_rsn : AM u32 :=
  rsn ← gets my_next_rsn;
  modify (λ a, a <| my_next_rsn ::= λ n, wrapping_add 32 n 1 |>);;
  mret rsn.

Definition reconfig_response (a : Association) (rsn : u32) (result : ReconfigResult) : Packet :=
  create_packet a [CReconfig (mkChunkReconfig (Some (PReconfigResponse (mkParamReconfigResponse rsn result))) None)].

(** The [for id in stream_ids]; the value is [sis_to_reset]. *)
Fixpoint retire_registered (ids : list u16) (boundary : u32) : AM (list u16) :=
  match ids with
  | [] => mret []
  | id :: ids' =>
      a ← self;
      if bool_decide (is_Some (streams a !! id)) then
        retire_stream id boundary;;
        l ← retire_registered ids' boundary;
        mret (id :: l)
      else retire_registered ids' boundary
  end.

(** The reciprocal request for the streams that were reset. *)
Definition queue_reciprocal (p : ParamOutgoingResetRequest) (sis_to_reset : list u16) : AM (list Packet) :=
  if bool_decide (sis_to_reset = []) then mret []
  else
    modify (λ a, a <| pending_reset_streams ::= filter (λ id, id ∉ sis_to_reset) |>);;
    rsn ← generate_next_rsn;
    a ← self;
    let c := mkChunkReconfig
      (Some (POutgoingResetRequest (mkParamOutgoingResetRequest rsn (reconfig_request_sequence_number p)
         (wrapping_sub 32 (my_next_tsn a) 1)
         (if bool_decide (stream_identifiers p = []) then [] else sis_to_reset)))) None in
    modify (λ a, a <| reconfig_reset_streams ::= <[rsn := sis_to_reset]> |>
                   <| reconfigs ::= <[rsn := c]> |>);;
    mret [create_packet a [CReconfig c]].

(** The packets pushed to [reply]. *)
Definition reset_streams_if_any (p : ParamOutgoingResetRequest) (from_wire : bool) : AM (list Packet) :=
  a ← self;
  let performed := sna32lte (sender_last_tsn p) (peer_last_tsn a) in
  sis_to_reset ← (if performed then
    let ids := if bool_decide (stream_identifiers p = []) then keys (streams a) else stream_identifiers p in
    l ← retire_registered (dedup (sort_by Z.ltb ids)) (sender_last_tsn p);
    modify (λ a, a <| reconfig_requests ::= delete (reconfig_request_sequence_number p) |>);;
    mret l
  else mret []);
  reciprocal ← queue_reciprocal p sis_to_reset;
  when performed release_deferred_reset_data;;
  a ← self;
  mret (reciprocal ++
    if from_wire || performed
    then [reconfig_response a (reconfig_request_sequence_number p) (if performed then SuccessPerformed else InProgress)]
    else []).

Definition mark_completed (rsn : u32) : AM unit :=
  modify (λ a, if bool_decide (is_Some (reconfig_requests a !! rsn)) then a
               else a <| max_completed_reconfig_rsn := Some rsn |>).

Fixpoint reevaluate_requests (l : list ParamOutgoingResetRequest) : AM (list Packet) :=
  match l with
  | [] => mret []
  | request :: l' =>
      reply ← reset_streams_if_any request false;
      mark_completed (reconfig_request_sequence_number request);;
      rest ← reevaluate_requests l';
      mret (reply ++ rest)
  end.

Definition reevaluate_pending_reset_requests : AM (list Packet) :=
  requests ← gets (λ a, values (reconfig_requests a));
  reevaluate_requests requests.

Definition handle_reconfig_param (raw : Param) : AM (list Packet) :=
  match raw with
  | POutgoingResetRequest p =>
      _ ← finish_reconfig (reconfig_response_sequence_number p) (inl tt);
      let seq := reconfig_request_sequence_number p in
      a ← self;
      let known := bool_decide (is_Some (reconfig_requests a !! seq)) in
      if negb known && match max_completed_reconfig_rsn a with Some w => sna32lte seq w | None => false end
      then mret [reconfig_response a seq SuccessPerformed]
      else if negb known && negb (bool_decide (reconfig_requests a = ∅))
      then mret [reconfig_response a seq ErrorRequestAlreadyInProgress]
      else if negb known && peer_reconfig_rsn_initialized a
              && negb (seq =? wrapping_add 32 (peer_last_reconfig_rsn a) 1)
      then mret [reconfig_response a seq ErrorBadSequenceNumber]
      else
        when (negb known)
          (modify (λ a, a <| peer_last_reconfig_rsn := seq |>
                          <| peer_reconfig_rsn_initialized := true |>
                          <| reconfig_requests ::= <[seq := p]> |>));;
        request ← gets (λ a, reconfig_requests a !! seq);
        match request with
        | Some request =>
            reply ← reset_streams_if_any request true;
            mark_completed seq;;
            mret reply
        | None => lift Panic
        end
  | PReconfigResponse p =>
      let rsn := rr_response_sequence_number p in
      a ← self;
      if negb (bool_decide (active_reconfig a = Some rsn)) then mret []
      else if bool_decide (rr_result p = InProgress) then
        when (bool_decide (is_Some (reconfigs a !! rsn)))
          (modify (λ a, a <| will_retransmit_reconfig := false |>
                          <| timers ::= λ tt, suppress_error_count (timer_set tt Reconfig None) Reconfig |>));;
        mret []
      else
        let outcome := match rr_result p with
                       | SuccessNop | SuccessPerformed => inl tt
                       | Denied => inr StreamResetError.Denied
                       | _ => inr StreamResetError.Failed
                       end in
        _ ← finish_reconfig rsn outcome;
        mret []
  | _ => throw ErrParameterType
  end.

Definition handle_reconfig (c : ChunkReconfig) : AM (list Packet) :=
  pa ← match param_a c with Some p => handle_reconfig_param p | None => mret [] end;
  pb ← match param_b c with Some p => handle_reconfig_param p | None => mret [] end;
  mret (pa ++ pb).

(** ** Cumulative TSN and acknowledgement *)

(** The [while let Some(chunk) = self.payload_queue.pop(..)]: each iteration takes a chunk off the queue. *)
Fixpoint advance_peer_last_tsn (fuel : nat) : AM (list Packet) :=
  match fuel with
  | O => lift Stuck
  | S fuel' =>
      a ← self;
      match pq_pop (payload_queue a) (wrapping_add 32 (peer_last_tsn a) 1) with
      | (None, q) => modify (λ a, a <| payload_queue := q |>);; mret []
      | (Some chunk, q) =>
          modify (λ a, a <| payload_queue := q |> <| peer_last_tsn ::= λ t, wrapping_add 32 t 1 |>);;
          reply ← reevaluate_pending_reset_requests;
          a ← self;
          match deferred_reset_data a !! tsn chunk with
          | Some deferred =>
              when (negb (data_is_above_pending_reset a deferred))
                (deliver_deferred_reset_data deferred;;
                 modify (λ a, a <| deferred_reset_data ::= delete (tsn chunk) |>))
          | None => mret tt
          end;;
          rest ← advance_peer_last_tsn fuel';
          mret (reply ++ rest)
      end
  end.

Definition handle_peer_last_tsn_and_acknowledgement (sack_immediately : bool) : AM (list Packet) :=
  a ← self;
  reply ← advance_peer_last_tsn (S (length (sorted (payload_queue a))));
  ids ← gets (λ a, keys (deferred_forward_tsns a));
  for_each ids apply_deferred_forward_tsns;;
  a ← self;
  exhausted ← lift (receive_capacity_exhausted a);
  if (exhausted : bool) then throw ErrReceiveBufferExhausted
  else
    let has_packet_loss := negb (pq_is_empty (payload_queue a)) in
    let may_delay :=
      (negb (bool_decide (ack_state a = AckImmediate)) && negb sack_immediately && negb has_packet_loss
       && bool_decide (ack_mode a = AckModeNormal))
      || bool_decide (ack_mode a = AckModeAlwaysDelay) in
    (if may_delay && bool_decide (ack_state a = AckIdle)
     then modify (λ a, a <| delayed_ack_triggered := true |>)
     else modify (λ a, a <| immediate_ack_triggered := true |>));;
    mret reply.

(** ** DATA *)

(** [self.payload_queue.get_last_tsn_received()] is after [t]. *)
Definition fills_gap (a : Association) (t : u32) : bool :=
  match get_last_tsn_received (payload_queue a) with Some last_tsn => sna32lt t last_tsn | None => false end.

(** What happens to an arriving chunk. *)
Inductive Admission : Type := Discard | Ignore | Deliver | Defer.

Definition admit_data (d : ChunkPayloadData) : AM Admission :=
  a ← self;
  let ok := can_push (payload_queue a) d (peer_last_tsn a) in
  if ok && data_is_above_pending_reset a d then
    credit ← lift (get_my_receiver_window_credit a);
    mret (if (credit >? 0) || fills_gap a (tsn d) then Defer else Ignore)
  else if ok then
    created ← get_or_create_stream (stream_identifier d);
    if negb created then mret Discard
    else
      a ← self;
      credit ← lift (get_my_receiver_window_credit a);
      mret (if (credit >? 0) || fills_gap a (tsn d) then Deliver else Ignore)
  else mret Ignore.

Definition handle_data (d : ChunkPayloadData) : AM (list Packet) :=
  modify (λ a, a <| stats ::= inc_datas |>);;
  admission ← admit_data d;
  match admission with
  | Discard => mret []
  | Ignore => handle_peer_last_tsn_and_acknowledgement (immediate_sack d)
  | Defer =>
      a ← self;
      lift (validate_deferred_reset_data a d);;
      let '(pushed, q) := pq_push (payload_queue a) d (peer_last_tsn a) in
      modify (λ a, a <| payload_queue := q |>);;
      when pushed (modify (λ a, a <| deferred_reset_data ::= <[tsn d := d]> |>));;
      handle_peer_last_tsn_and_acknowledgement (immediate_sack d)
  | Deliver =>
      a ← self;
      match streams a !! stream_identifier d with
      | Some s =>
          '(queued, s) ← lift (handle_stream_data s d);
          modify (λ a, a <| streams ::= <[stream_identifier d := s]> |>
                         <| payload_queue := (pq_push (payload_queue a) d (peer_last_tsn a)).2 |>);;
          push_event Event.DatagramReceived;;
          when (queued && is_readable (reassembly_queue s))
            (push_event (Event.Stream (StreamEvent.Readable (stream_identifier d))))
      | None => mret tt
      end;;
      apply_deferred_forward_tsns (stream_identifier d);;
      handle_peer_last_tsn_and_acknowledgement (immediate_sack d)
  end.

(** ** FORWARD TSN *)

(** [ErrorCauseUnrecognizedChunkType] is an alias of [ErrorCause], so its default has code 0. *)
Definition unsupported_chunk_reply (a : Association) : Packet := create_packet a [CError [mkErrorCause 0 []]].

(** A FORWARD TSN that is not ahead of the cumulative TSN asks for a SACK. *)
Definition ack_out_of_date_forward_tsn : AM (list Packet) :=
  modify (λ a, a <| ack_state := AckImmediate |>);; stop_timer Ack;; mret [].

Definition handle_forward_tsn (c : ChunkForwardTsn) : AM (list Packet) :=
  a ← self;
  if negb (use_forward_tsn a) then mret [unsupported_chunk_reply a]
  else if sna32lte (new_cumulative_tsn c) (peer_last_tsn a) then ack_out_of_date_forward_tsn
  else
    modify (λ a, a <| payload_queue ::= λ q, pop_up_to q (new_cumulative_tsn c) |>
                   <| peer_last_tsn := new_cumulative_tsn c |>);;
    for_each (ft_streams c) (λ f,
      apply_or_defer_ordered_forward_tsn (fs_identifier f) (fs_sequence f) (new_cumulative_tsn c));;
    apply_unordered_forward_tsn_to_current_streams (new_cumulative_tsn c);;
    reply ← reevaluate_pending_reset_requests;
    rest ← handle_peer_last_tsn_and_acknowledgement false;
    mret (reply ++ rest).

Definition handle_i_forward_tsn (c : ChunkIForwardTsn) : AM (list Packet) :=
  a ← self;
  if negb (use_forward_tsn a) then mret [unsupported_chunk_reply a]
  else if sna32lte (i_new_cumulative_tsn c) (peer_last_tsn a) then ack_out_of_date_forward_tsn
  else
    modify (λ a, a <| payload_queue ::= λ q, pop_up_to q (i_new_cumulative_tsn c) |>
                   <| peer_last_tsn := i_new_cumulative_tsn c |>);;
    for_each (ift_streams c) (λ f,
      if ifs_unordered f then apply_or_defer_unordered_forward_tsn (ifs_identifier f) (i_new_cumulative_tsn c)
      else apply_or_defer_ordered_forward_tsn (ifs_identifier f) (wrap 16 (ifs_mid f)) (i_new_cumulative_tsn c));;
    apply_unordered_forward_tsn_to_current_streams (i_new_cumulative_tsn c);;
    reply ← reevaluate_pending_reset_requests;
    rest ← handle_peer_last_tsn_and_acknowledgement false;
    mret (reply ++ rest).
End Recv.
