(* ===== verification/AssocSend.v ===== *)
(** * Sending DATA, processing SACKs and congestion control ([src/association/mod.rs])

    The sender's side of the data path: what a SACK acknowledges and what it
    does to the congestion window, fast retransmission, retransmission after a
    timeout, partial reliability, bundling, and the order in which a poll
    gathers outgoing packets. *)

From stdpp Require Import base list gmap numbers sets.
From Stdlib Require Import ZArith Lia ZifyBool.
From S2P Require Import Prelude Bytes Util Params Chunks Packet PayloadQueue PendingQueue OutboundQueue.
From S2P Require Import ReassemblyQueue Shared Stream Monad Timer Config Association AssocReset AssocRecv.

Section Sack.
Context {I : MapIter}.

(** ** What a SACK acknowledges *)

(** [now.duration_since(since).as_millis()]: zero when the clock went back. *)
Definition rtt_millis (now since : Instant) : u64 := wrap 64 (Z.max 0 (now - since) / ms).

Definition measure_rtt (c : ChunkPayloadData) (now : Instant) : AM unit :=
  modify (λ a, a <| min_tsn2measure_rtt := my_next_tsn a |>);;
  match since c with
  | Some since =>
      m ← gets rto_mgr;
      '(_, m) ← lift (set_new_rtt m (rtt_millis now since));
      modify (λ a, a <| rto_mgr := m |>)
  | None => mret tt
  end.

(** The bytes of a message of an earlier stream generation are nobody's credit. *)
Definition credits_stream (a : Association) (c : ChunkPayloadData) : bool :=
  match streams a !! stream_identifier c with
  | Some s => negb (message_id c <? first_message_id s)
  | None => true
  end.

Definition add_credit (m : gmap Z Z) (id : u16) (n : Z) : gmap Z Z := <[id := default 0 (m !! id) + n]> m.

(** The [while sna32lte(i, d.cumulative_tsn_ack)]: every iteration takes a chunk out of the flight. *)
Fixpoint ack_cumulative (fuel : nat) (i cum : u32) (now : Instant) (acked_bytes : gmap Z Z) (newly : bool)
    : AM (gmap Z Z * bool) :=
  if negb (sna32lte i cum) then mret (acked_bytes, newly)
  else match fuel with
  | O => lift Stuck
  | S fuel' =>
      q ← gets outbound_queue;
      let '(popped, q) := oq_pop q i in
      modify (λ a, a <| outbound_queue := q |>);;
      match popped with
      | None => throw ErrInflightQueueTsnPop
      | Some c =>
          let newly := newly || (negb (acked c) && (nsent c >? 0)) in
          a ← self;
          let acked_bytes := if negb (acked c) && negb (abandoned c) && credits_stream a c
                             then add_credit acked_bytes (stream_identifier c) (data_len c) else acked_bytes in
          when (negb (acked c) && negb (abandoned c) && (nsent c =? 1) && sna32gte (tsn c) (min_tsn2measure_rtt a))
            (measure_rtt c now);;
          modify (λ a, if in_fast_recovery a && (tsn c =? fast_recover_exit_point a)
                       then a <| in_fast_recovery := false |> else a);;
          ack_cumulative fuel' (wrapping_add 32 i 1) cum now acked_bytes newly
      end
  end.

(** [for i in g.start..=g.end] *)
Definition block_offsets (g : GapAckBlock) : list Z :=
  seqZ (gab_start g) (gab_end g - gab_start g + 1).

(** One TSN of a gap block. *)
Definition ack_gap_tsn (t : u32) (now : Instant) (acc : gmap Z Z * bool * u32) : AM (gmap Z Z * bool * u32) :=
  let '(acked_bytes, newly, htna) := acc in
  q ← gets outbound_queue;
  match oq_get q t with
  | None => throw ErrTsnRequestNotExist
  | Some c =>
      let newly := newly || (negb (acked c) && (nsent c >? 0)) in
      '(n_bytes_acked, q) ← lift (if negb (acked c) then oq_mark_as_acked q t else Ok (0, q));
      modify (λ a, a <| outbound_queue := q |>);;
      if negb (acked c) && negb (abandoned c) then
        a ← self;
        let acked_bytes := if credits_stream a c
                           then add_credit acked_bytes (stream_identifier c) n_bytes_acked else acked_bytes in
        when (nsent c =? 1) (measure_rtt c now);;
        mret (acked_bytes, newly, if sna32lt htna t then t else htna)
      else mret (acked_bytes, newly, htna)
  end.

Fixpoint ack_gap_tsns (ts : list u32) (now : Instant) (acc : gmap Z Z * bool * u32) : AM (gmap Z Z * bool * u32) :=
  match ts with
  | [] => mret acc
  | t :: ts' => acc ← ack_gap_tsn t now acc; ack_gap_tsns ts' now acc
  end.

(** The TSNs the gap blocks report, in order. *)
Definition gap_tsns (d : ChunkSelectiveAck) : list u32 :=
  (λ i, wrapping_add 32 (cumulative_tsn_ack d) i) <$> flat_map block_offsets (gap_ack_blocks d).

Definition process_selective_ack (d : ChunkSelectiveAck) (now : Instant) : AM (gmap Z Z * u32) :=
  a ← self;
  let earliest_outstanding := earliest_outstanding_tsn (outbound_queue a) in
  '(acked_bytes, newly) ←
    ack_cumulative (S (length (sorted (inflight (outbound_queue a))))) (wrapping_add 32 (cumulative_tsn_ack_point a) 1)
      (cumulative_tsn_ack d) now ∅ false;
  '(acked_bytes, newly, htna) ← ack_gap_tsns (gap_tsns d) now (acked_bytes, newly, cumulative_tsn_ack d);
  when newly (modify (λ a, a <| timers ::= λ tt, reset_retrans tt T3RTX |>));;
  a ← self;
  let earliest_acked :=
    match earliest_outstanding with
    | Some t => sna32lte t (cumulative_tsn_ack d)
                || match oq_get (outbound_queue a) t with Some c => acked c | None => false end
    | None => false
    end in
  when earliest_acked (modify (λ a, a <| timers ::= λ tt, timer_set tt T3RTX None |>));;
  mret (acked_bytes, htna).

(** ** Congestion control *)

Definition on_cumulative_tsn_ack_point_advanced (total_bytes_acked : Z) (now : Instant) : AM unit :=
  a ← self;
  (if inflight_len (outbound_queue a) =? 0 then stop_timer T3RTX else restart_timer_if_stale T3RTX now);;
  let pending_data := negb (pending_len (outbound_queue a) =? 0) in
  if cwnd a <=? ssthresh a then
    when (negb (in_fast_recovery a) && pending_data)
      (c ← lift (checked_add 32 (cwnd a) (Z.min (wrap 32 total_bytes_acked) (cwnd a)));
       modify (λ a, a <| cwnd := c |>))
  else
    p ← lift (checked_add 32 (partial_bytes_acked a) (wrap 32 total_bytes_acked));
    modify (λ a, a <| partial_bytes_acked := p |>);;
    when ((p >=? cwnd a) && pending_data)
      (c ← lift (checked_add 32 (cwnd a) (mtu a));
       modify (λ a, a <| partial_bytes_acked := p - cwnd a |> <| cwnd := c |>)).

(** Entering fast recovery when a chunk is reported missing for the third time. *)
Definition enter_fast_recovery (htna : u32) : AM unit :=
  a ← self;
  m ← lift (checked_mul 32 4 (mtu a));
  modify (λ a, a <| in_fast_recovery := true |>
                 <| fast_recover_exit_point := htna |>
                 <| ssthresh := Z.max (cwnd a / 2) m |>
                 <| cwnd := Z.max (cwnd a / 2) m |>
                 <| partial_bytes_acked := 0 |>
                 <| will_retransmit_fast := true |>).

(** The [while sna32lt(tsn, max_tsn)]: every TSN visited is in the flight. *)
Fixpoint count_misses (fuel : nat) (t max_tsn htna : u32) : AM unit :=
  if negb (sna32lt t max_tsn) then mret tt
  else match fuel with
  | O => lift Stuck
  | S fuel' =>
      a ← self;
      match oq_get (outbound_queue a) t with
      | None => throw ErrTsnRequestNotExist
      | Some c =>
          when (negb (acked c) && negb (abandoned c) && (miss_indicator c <? 3))
            (modify (λ a, a <| outbound_queue ::= λ q, oq_get_mut q t (λ c, c <| miss_indicator ::= λ n, n + 1 |>) |>);;
             when ((miss_indicator c + 1 =? 3) && negb (in_fast_recovery a)) (enter_fast_recovery htna));;
          count_misses fuel' (wrapping_add 32 t 1) max_tsn htna
      end
  end.

Definition process_fast_retransmission (cum htna : u32) (cum_advanced : bool) : AM unit :=
  a ← self;
  when (negb (in_fast_recovery a) || cum_advanced)
    (let max_tsn := if negb (in_fast_recovery a) then htna
                    else wrapping_add 32 (wrapping_add 32 cum (wrap 32 (inflight_len (outbound_queue a)))) 1 in
     count_misses (S (length (sorted (inflight (outbound_queue a))))) (wrapping_add 32 cum 1) max_tsn htna);;
  modify (λ a, if in_fast_recovery a && cum_advanced then a <| will_retransmit_fast := true |> else a).

(** The [while self.outbound_queue.is_abandoned(next)]. *)
Fixpoint skip_abandoned (fuel : nat) : AM unit :=
  a ← self;
  let next := wrapping_add 32 (advanced_peer_tsn_ack_point a) 1 in
  if negb (is_abandoned (outbound_queue a) next) then mret tt
  else match fuel with
  | O => lift Stuck
  | S fuel' => modify (λ a, a <| advanced_peer_tsn_ack_point := next |>);; skip_abandoned fuel'
  end.

Definition advance_peer_tsn_ack_point : AM unit :=
  modify (λ a, if sna32lt (advanced_peer_tsn_ack_point a) (cumulative_tsn_ack_point a)
               then a <| advanced_peer_tsn_ack_point := cumulative_tsn_ack_point a |> else a);;
  a ← self;
  skip_abandoned (length (sorted (inflight (outbound_queue a)))).

Definition postprocess_sack (st : AssociationState) (now : Instant) : AM unit :=
  a ← self;
  if negb (inflight_len (outbound_queue a) =? 0) then restart_timer_if_stale T3RTX now
  else if bool_decide (st = ShutdownPending) then
    modify (λ a, a <| will_send_shutdown := true |>);; set_state ShutdownSent
  else if bool_decide (st = ShutdownReceived) then
    modify (λ a, a <| will_send_shutdown_ack := true |>);; set_state ShutdownAckSent
  else mret tt.

(** The application learns that a stream's buffer ran low. *)
Definition release_stream_buffer (id : u16) (n : Z) : AM unit :=
  s ← gets (λ a, streams a !! id);
  match s with
  | Some s =>
      let '(low, s) := on_buffer_released s n in
      modify (λ a, a <| streams ::= <[id := s]> |>);;
      when low (push_event (Event.Stream (StreamEvent.BufferedAmountLow id)))
  | None => mret tt
  end.

Definition handle_sack (d : ChunkSelectiveAck) (now : Instant) : AM (list Packet) :=
  a ← self;
  let st := state a in
  if negb (bool_decide (st = Established)) && negb (bool_decide (st = ShutdownPending))
     && negb (bool_decide (st = ShutdownReceived)) then mret []
  else
    modify (λ a, a <| stats ::= inc_sacks |>);;
    if sna32gt (cumulative_tsn_ack_point a) (cumulative_tsn_ack d) then mret []
    else
      let outstanding_before := inflight_bytes (outbound_queue a) in
      '(acked_bytes, htna) ← process_selective_ack d now;
      a ← self;
      total_bytes_acked ← lift (checked_sub outstanding_before (inflight_bytes (outbound_queue a)));
      let cum_advanced := sna32lt (cumulative_tsn_ack_point a) (cumulative_tsn_ack d) in
      when cum_advanced
        (modify (λ a, a <| cumulative_tsn_ack_point := cumulative_tsn_ack d |>);;
         on_cumulative_tsn_ack_point_advanced total_bytes_acked now);;
      for_each (entries acked_bytes) (λ '(id, n), release_stream_buffer id n);;
      modify (λ a,
        let bytes_outstanding := wrap 32 (inflight_bytes (outbound_queue a)) in
        a <| rwnd := if bytes_outstanding >=? sack_advertised_receiver_window_credit d then 0
                     else sack_advertised_receiver_window_credit d - bytes_outstanding |>);;
      process_fast_retransmission (cumulative_tsn_ack d) htna cum_advanced;;
      a ← self;
      when (use_forward_tsn a)
        (advance_peer_tsn_ack_point;;
         modify (λ a, if sna32gt (advanced_peer_tsn_ack_point a) (cumulative_tsn_ack_point a)
                      then a <| will_send_forward_tsn := true |> else a));;
      postprocess_sack st now;;
      mret [].
End Sack.

(** ** Partial reliability and retransmission *)

Section Transmit.
Context {I : MapIter}.

Definition release_abandoned_buffer (id : u16) (message : u64) (bytes : usize) : AM unit :=
  s ← gets (λ a, streams a !! id);
  match s with
  | Some s => when (message >=? first_message_id s) (release_stream_buffer id bytes)
  | None => mret tt
  end.

Definition abandon_if_needed (t : u32) (now : Instant) : AM bool :=
  a ← self;
  match oq_get (outbound_queue a) t with
  | None => mret false
  | Some c =>
      if abandoned c then mret true
      else if negb (use_forward_tsn a) then mret false
      else if bool_decide (payload_type c = Dcep) then mret false
      else
        let policy := match reliability c with
                      | Some r => Some r
                      | None => (λ s, (reliability_type s, reliability_value s)) <$> streams a !! stream_identifier c
                      end in
        match policy with
        | None => mret false
        | Some (typ, value) =>
            let expired := match typ with
                           | Rexmit => nsent c >? value
                           | Timed => past_deadline now c
                           | Reliable => false
                           end in
            if negb expired then mret false
            else
              '(r, next_tsn, q) ← lift (oq_abandon (outbound_queue a) t (my_next_tsn a));
              modify (λ a, a <| outbound_queue := q |> <| my_next_tsn := next_tsn |>);;
              match r with
              | Some (id, bytes) => release_abandoned_buffer id (message_id c) bytes
              | None => mret tt
              end;;
              mret true
        end
  end.

(** [for tsn in .. { abandoned |= self.abandon_if_needed(tsn, now); }] *)
Fixpoint abandon_all (ts : list u32) (now : Instant) : AM bool :=
  match ts with
  | [] => mret false
  | t :: ts' => b ← abandon_if_needed t now; b' ← abandon_all ts' now; mret (b || b')
  end.

(** The [while let Some(..) = self.outbound_queue.expire_pending_tail(..)]: each iteration takes pending chunks away. *)
Fixpoint expire_tails (fuel : nat) (now : Instant) : AM bool :=
  match fuel with
  | O => lift Stuck
  | S fuel' =>
      a ← self;
      '(r, next_tsn, q) ← lift (expire_pending_tail (outbound_queue a) now (my_next_tsn a));
      modify (λ a, a <| outbound_queue := q |> <| my_next_tsn := next_tsn |>);;
      match r with
      | Some (id, message, bytes) =>
          release_abandoned_buffer id message bytes;;
          _ ← expire_tails fuel' now;
          mret true
      | None => mret false
      end
  end.

(** One iteration per pending chunk at most, and the one that finds nothing to do. *)
Definition pending_fuel (a : Association) : nat :=
  S (length (unordered_queue (pending (outbound_queue a))) + length (ordered_queue (pending (outbound_queue a)))).

Definition expire_inflight_messages (now : Instant) : AM unit :=
  a ← self;
  when (use_forward_tsn a)
    (modify (λ a, a <| outbound_queue ::= λ q, start_timed_messages q now |>);;
     expired ← gets (λ a, expired_inflight (outbound_queue a) now);
     abandoned ← abandon_all expired now;
     fuel ← gets pending_fuel;
     tails ← expire_tails fuel now;
     when (abandoned || tails) (restart_timer_if_stale T3RTX now)).

(** [bytes_in_packet] stays below [mtu] plus one chunk, far from the width of [u32]. *)
Fixpoint bundle_loop (a : Association) (cs : list ChunkPayloadData) (to_send : list ChunkPayloadData)
    (bytes_in_packet : u32) : list Packet :=
  match cs with
  | [] => if bool_decide (to_send = []) then [] else [create_packet a (CPayloadData <$> to_send)]
  | c :: cs' =>
      if bytes_in_packet + wrap 32 (data_len c) >? mtu a then
        create_packet a (CPayloadData <$> to_send)
        :: bundle_loop a cs' [c] (COMMON_HEADER_SIZE + (DATA_CHUNK_HEADER_SIZE + wrap 32 (data_len c)))
      else bundle_loop a cs' (to_send ++ [c]) (bytes_in_packet + (DATA_CHUNK_HEADER_SIZE + wrap 32 (data_len c)))
  end.

Definition bundle_data_chunks_into_packets (a : Association) (cs : list ChunkPayloadData) : list Packet :=
  bundle_loop a cs [] COMMON_HEADER_SIZE.

Definition send_next_data_chunk (now : Instant) : AM (option ChunkPayloadData) :=
  a ← self;
  '(c, next_tsn, q) ← lift (send_next (outbound_queue a) (my_next_tsn a) now);
  modify (λ a, a <| outbound_queue := q |> <| my_next_tsn := next_tsn |>);;
  mret c.

(** The [loop] of [pop_pending_data_chunks_to_send]: each iteration expires a message, sends a chunk or stops. *)
Fixpoint pop_pending_loop (fuel : nat) (now : Instant) : AM (list ChunkPayloadData) :=
  match fuel with
  | O => lift Stuck
  | S fuel' =>
      a ← self;
      '(expired, q) ← lift (if use_forward_tsn a then expire_pending (outbound_queue a) now
                            else Ok (None, outbound_queue a));
      modify (λ a, a <| outbound_queue := q |>);;
      match expired with
      | Some (id, unordered, bytes) =>
          when (negb unordered)
            (modify (λ a, a <| streams ::= alter (λ s, s <| sequence_number ::= λ n, wrapping_sub 16 n 1 |>) id |>));;
          release_stream_buffer id bytes;;
          pop_pending_loop fuel' now
      | None =>
          match peek_pending q with
          | None => mret []
          | Some c =>
              if inflight_bytes q + data_len c >? cwnd a then mret []
              else if data_len c >? rwnd a then mret []
              else
                modify (λ a, a <| rwnd ::= λ r, r - data_len c |>);;
                sent ← send_next_data_chunk now;
                rest ← pop_pending_loop fuel' now;
                mret (match sent with Some c => c :: rest | None => rest end)
          end
      end
  end.

Definition pop_pending_data_chunks_to_send (now : Instant) : AM (list ChunkPayloadData) :=
  expire_inflight_messages now;;
  a ← self;
  if pending_len (outbound_queue a) =? 0 then mret []
  else
    chunks ← pop_pending_loop (pending_fuel a) now;
    a ← self;
    if bool_decide (chunks = []) && (inflight_len (outbound_queue a) =? 0) then
      probe ← send_next_data_chunk now;
      mret (match probe with Some c => [c] | None => [] end)
    else mret chunks.

Definition chunks_bytes (cs : list ChunkPayloadData) : usize := sum_with data_len cs.

(** The [while !done] of [get_data_packets_to_retransmit]; [i] is the distance to the cumulative TSN and
    [cs] the chunks selected so far. *)
Fixpoint retransmit_loop (fuel : nat) (i : u32) (now : Instant) (cs : list ChunkPayloadData) (bytes_to_send : usize)
    : AM (list ChunkPayloadData) :=
  match fuel with
  | O => lift Stuck
  | S fuel' =>
      a ← self;
      let t := wrapping_add 32 (wrapping_add 32 (cumulative_tsn_ack_point a) i) 1 in
      match oq_get (outbound_queue a) t with
      | None => mret cs
      | Some c =>
          if negb (retransmit c) then retransmit_loop fuel' (i + 1) now cs bytes_to_send
          else
            gone ← abandon_if_needed t now;
            a ← self;
            if (gone : bool) then
              let cs := filter (λ c, is_abandoned (outbound_queue a) (tsn c) = false) cs in
              retransmit_loop fuel' (i + 1) now cs (chunks_bytes cs)
            else match oq_get (outbound_queue a) t with
            | None => lift Panic
            | Some c =>
                if (i =? 0) && (rwnd a <? wrap 32 (data_len c)) then mret (cs ++ [c])
                else if bytes_to_send + data_len c >? Z.min (cwnd a) (rwnd a) then mret cs
                else retransmit_loop fuel' (i + 1) now (cs ++ [c]) (bytes_to_send + data_len c)
            end
      end
  end.

(** [for chunk in &mut chunks]: the flight remembers the retransmission. *)
Fixpoint mark_retransmitted (cs : list ChunkPayloadData) : AM (list ChunkPayloadData) :=
  match cs with
  | [] => mret []
  | chunk :: cs' =>
      a ← self;
      match oq_get (outbound_queue a) (tsn chunk) with
      | None => lift Panic
      | Some c =>
          n ← lift (checked_add 32 (nsent c) 1);
          modify (λ a, a <| outbound_queue ::= λ q,
            oq_get_mut q (tsn chunk) (λ c, c <| retransmit := false |> <| nsent := n |>) |>);;
          rest ← mark_retransmitted cs';
          mret (chunk <| nsent := n |> :: rest)
      end
  end.

(** The loop visits consecutive TSNs that are in flight and stops at the first that is not; giving up a
    message may add a TSN for its unsent tail, which takes pending chunks away. *)
Definition inflight_fuel (a : Association) : nat := length (sorted (inflight (outbound_queue a))) + pending_fuel a.

Definition get_data_packets_to_retransmit (now : Instant) : AM (list Packet) :=
  expire_inflight_messages now;;
  fuel ← gets inflight_fuel;
  chunks ← retransmit_loop fuel 0 now [] 0;
  chunks ← mark_retransmitted chunks;
  a ← self;
  mret (bundle_data_chunks_into_packets a chunks).
End Transmit.

(** ** Gathering outgoing packets *)

Section Gather.
Context {I : MapIter} {B : BufApi} (crc : Bytes → u32).

(** [if let Ok(raw) = p.marshal() { raw_packets.push(raw) }]; the boolean says whether it was. *)
Definition marshal_onto (raw_packets : list Bytes) (p : Packet) : Outcome (bool * list Bytes) :=
  match Packet_marshal crc p with
  | Ok raw => Ok (true, raw_packets ++ [raw])
  | Err _ => Ok (false, raw_packets)
  | Panic => Panic
  | Stuck => Stuck
  end.

Fixpoint marshal_all (raw_packets : list Bytes) (ps : list Packet) : Outcome (list Bytes) :=
  match ps with
  | [] => Ok raw_packets
  | p :: ps' => '(_, raw_packets) ← marshal_onto raw_packets p; marshal_all raw_packets ps'
  end.

(** [for p in queued]: requests wait for the active one and for the DATA they cover; the values are the
    packets sent and those kept in the queue. *)
Fixpoint drain_control (queued : list Packet) (raw_packets : list Bytes) (buffered : list Packet)
    (request_blocked : bool) : AM (list Bytes * list Packet) :=
  match queued with
  | [] => mret (raw_packets, buffered)
  | p :: queued' =>
      a ← self;
      match packet_reconfig_request_rsn p with
      | None =>
          '(_, raw_packets) ← lift (marshal_onto raw_packets p);
          drain_control queued' raw_packets buffered request_blocked
      | Some rsn =>
          if request_blocked then drain_control queued' raw_packets (buffered ++ [p]) true
          else if negb (bool_decide (active_reconfig a = None)) && negb (bool_decide (active_reconfig a = Some rsn))
          then drain_control queued' raw_packets (buffered ++ [p]) true
          else if reconfig_has_unacked_data a rsn then drain_control queued' raw_packets (buffered ++ [p]) true
          else
            refreshed ← refresh_unsent_reconfig rsn;
            let p := default p refreshed in
            '(sent, raw_packets) ← lift (marshal_onto raw_packets p);
            if (sent : bool) then
              modify (λ a, a <| active_reconfig := Some rsn |>);;
              drain_control queued' raw_packets buffered false
            else drain_control queued' raw_packets (buffered ++ [p]) true
      end
  end.

Definition restart_reconfig_timer (now : Instant) : AM unit :=
  a ← self;
  when (negb (bool_decide (active_reconfig a = None))) (restart_timer_if_stale Reconfig now).

Definition gather_outbound_control_packets (raw_packets : list Bytes) (now : Instant) : AM (list Bytes) :=
  queued ← gets control_queue;
  modify (λ a, a <| control_queue := [] |>);;
  '(raw_packets, buffered) ← drain_control queued raw_packets [] false;
  modify (λ a, a <| control_queue := buffered |>);;
  restart_reconfig_timer now;;
  mret raw_packets.

Definition gather_data_packets_to_retransmit (raw_packets : list Bytes) (now : Instant) : AM (list Bytes) :=
  ps ← get_data_packets_to_retransmit now;
  lift (marshal_all raw_packets ps).

(** A new request for the application's resets [ids]. *)
Definition send_reset_request_for (ids : list u16) (raw_packets : list Bytes) : AM (list Bytes) :=
  modify (λ a, a <| pending_reset_streams ::= filter (λ id, id ∉ ids) |>);;
  rsn ← generate_next_rsn;
  a ← self;
  let c := mkChunkReconfig (Some (POutgoingResetRequest (mkParamOutgoingResetRequest rsn
             (peer_last_reconfig_rsn a) (wrapping_sub 32 (my_next_tsn a) 1) ids))) None in
  modify (λ a, a <| reconfig_reset_streams ::= <[rsn := ids]> |> <| reconfigs ::= <[rsn := c]> |>);;
  let p := create_packet a [CReconfig c] in
  '(sent, raw_packets) ← lift (marshal_onto raw_packets p);
  (if (sent : bool) then modify (λ a, a <| active_reconfig := Some rsn |>)
   else modify (λ a, a <| control_queue ::= λ q, q ++ [p] |>));;
  mret raw_packets.

Definition gather_outbound_data_and_reconfig_packets (raw_packets : list Bytes) (now : Instant) : AM (list Bytes) :=
  chunks ← pop_pending_data_chunks_to_send now;
  raw_packets ← (if bool_decide (chunks = []) then mret raw_packets
                 else restart_timer_if_stale T3RTX now;;
                      a ← self;
                      lift (marshal_all raw_packets (bundle_data_chunks_into_packets a chunks)));
  a ← self;
  raw_packets ← (if will_retransmit_reconfig a then
                   modify (λ a, a <| will_retransmit_reconfig := false |>);;
                   match active_reconfig a ≫= λ rsn, reconfigs a !! rsn with
                   | Some c => lift ('(_, raw) ← marshal_onto raw_packets (create_packet a [CReconfig c]); Ok raw)
                   | None => mret raw_packets
                   end
                 else mret raw_packets);
  a ← self;
  if bool_decide (active_reconfig a = None) && bool_decide (reconfigs a = ∅)
     && negb (bool_decide (pending_reset_streams a = []))
  then
    let ids := filter (λ id, stream_has_unacked_data a id = false) (pending_reset_streams a) in
    if bool_decide (ids = []) then mret raw_packets
    else
      raw_packets ← send_reset_request_for ids raw_packets;
      restart_reconfig_timer now;;
      mret raw_packets
  else restart_reconfig_timer now;; mret raw_packets.

(** The [loop] of the fast retransmission: [fast_retrans_size] counts the one packet it fills. *)
Fixpoint fast_retransmit_loop (fuel : nat) (i : u32) (now : Instant) (fast_retrans_size : u32)
    : AM (list ChunkPayloadData) :=
  match fuel with
  | O => lift Stuck
  | S fuel' =>
      a ← self;
      let t := wrapping_add 32 (wrapping_add 32 (cumulative_tsn_ack_point a) i) 1 in
      match oq_get (outbound_queue a) t with
      | None => mret []
      | Some c =>
          if acked c || abandoned c || (nsent c >? 1) || (miss_indicator c <? 3)
          then fast_retransmit_loop fuel' (i + 1) now fast_retrans_size
          else
            gone ← abandon_if_needed t now;
            if (gone : bool) then fast_retransmit_loop fuel' (i + 1) now fast_retrans_size
            else
              a ← self;
              match oq_get (outbound_queue a) t with
              | None => lift Panic
              | Some c =>
                  let data_chunk_size := DATA_CHUNK_HEADER_SIZE + wrap 32 (data_len c) in
                  if mtu a <? fast_retrans_size + data_chunk_size then mret []
                  else
                    n ← lift (checked_add 32 (nsent c) 1);
                    modify (λ a, a <| stats ::= inc_fast_retrans |>
                                   <| outbound_queue ::= λ q, oq_get_mut q t (λ c, c <| nsent := n |>) |>);;
                    rest ← fast_retransmit_loop fuel' (i + 1) now (fast_retrans_size + data_chunk_size);
                    mret (c <| nsent := n |> :: rest)
              end
      end
  end.

Definition gather_outbound_fast_retransmission_packets (raw_packets : list Bytes) (now : Instant) : AM (list Bytes) :=
  expire_inflight_messages now;;
  a ← self;
  if negb (will_retransmit_fast a) then mret raw_packets
  else
    modify (λ a, a <| will_retransmit_fast := false |>);;
    fuel ← gets inflight_fuel;
    cs ← fast_retransmit_loop fuel 0 now COMMON_HEADER_SIZE;
    a ← self;
    let cs := filter (λ c, is_abandoned (outbound_queue a) (tsn c) = false) cs in
    if bool_decide (cs = []) then mret raw_packets
    else lift ('(_, raw) ← marshal_onto raw_packets (create_packet a (CPayloadData <$> cs)); Ok raw).

Definition create_selective_ack_chunk : AM ChunkSelectiveAck :=
  a ← self;
  credit ← lift (get_my_receiver_window_credit a);
  let '(dups, q) := pop_duplicates (payload_queue a) in
  modify (λ a, a <| payload_queue := q |>);;
  mret (mkChunkSelectiveAck (peer_last_tsn a) credit (get_gap_ack_blocks (payload_queue a) (peer_last_tsn a)) dups).

Definition gather_outbound_sack_packets (raw_packets : list Bytes) : AM (list Bytes) :=
  a ← self;
  if negb (bool_decide (ack_state a = AckImmediate)) then mret raw_packets
  else
    modify (λ a, a <| ack_state := AckIdle |>);;
    sack ← create_selective_ack_chunk;
    lift ('(_, raw) ← marshal_onto raw_packets (create_packet a [CSelectiveAck sack]); Ok raw).

(** The [while sna32lte(i, self.advanced_peer_tsn_ack_point)]: the greatest skipped SSN per ordered stream. *)
Fixpoint forward_streams (fuel : nat) (a : Association) (i : u32) (m : gmap Z u16) : Outcome (gmap Z u16) :=
  if negb (sna32lte i (advanced_peer_tsn_ack_point a)) then Ok m
  else match fuel with
  | O => Stuck
  | S fuel' =>
      match oq_get (outbound_queue a) i with
      | None => Ok m
      | Some c =>
          let m := if unordered c then m
                   else match m !! stream_identifier c with
                        | Some n => if sna16lt n (stream_sequence_number c)
                                    then <[stream_identifier c := stream_sequence_number c]> m else m
                        | None => <[stream_identifier c := stream_sequence_number c]> m
                        end in
          forward_streams fuel' a (wrapping_add 32 i 1) m
      end
  end.

Definition create_forward_tsn (a : Association) : Outcome ChunkForwardTsn :=
  m ← forward_streams (S (length (sorted (inflight (outbound_queue a))))) a
        (wrapping_add 32 (cumulative_tsn_ack_point a) 1) ∅;
  Ok (mkChunkForwardTsn (advanced_peer_tsn_ack_point a)
        ((λ '(id, n), mkChunkForwardTsnStream id n) <$> entries m)).

Definition gather_outbound_forward_tsn_packets (raw_packets : list Bytes) : AM (list Bytes) :=
  a ← self;
  when (use_forward_tsn a)
    (advance_peer_tsn_ack_point;;
     modify (λ a', if sna32gt (advanced_peer_tsn_ack_point a') (advanced_peer_tsn_ack_point a)
                      && sna32gt (advanced_peer_tsn_ack_point a') (cumulative_tsn_ack_point a')
                   then a' <| will_send_forward_tsn := true |> else a'));;
  a ← self;
  if negb (will_send_forward_tsn a) then mret raw_packets
  else
    modify (λ a, a <| will_send_forward_tsn := false |>);;
    if sna32gt (advanced_peer_tsn_ack_point a) (cumulative_tsn_ack_point a) then
      c ← lift (create_forward_tsn a);
      lift ('(_, raw) ← marshal_onto raw_packets (create_packet a [CForwardTsn c]); Ok raw)
    else mret raw_packets.

Definition gather_outbound_shutdown_packets (raw_packets : list Bytes) (now : Instant) : AM (list Bytes * bool) :=
  a ← self;
  if will_send_shutdown a then
    modify (λ a, a <| will_send_shutdown := false |>);;
    '(sent, raw) ← lift (marshal_onto raw_packets (create_packet a [CShutdown (cumulative_tsn_ack_point a)]));
    when sent (start_timer T2Shutdown now);;
    mret (raw, true)
  else if will_send_shutdown_ack a then
    modify (λ a, a <| will_send_shutdown_ack := false |>);;
    '(sent, raw) ← lift (marshal_onto raw_packets (create_packet a [CShutdownAck]));
    when sent (start_timer T2Shutdown now);;
    mret (raw, true)
  else if will_send_shutdown_complete a then
    modify (λ a, a <| will_send_shutdown_complete := false |>);;
    '(sent, raw) ← lift (marshal_onto raw_packets (create_packet a [CShutdownComplete]));
    mret (raw, negb sent)
  else mret (raw_packets, true).

Definition gather_outbound (now : Instant) : AM (list Bytes * bool) :=
  raw_packets ← gather_outbound_control_packets [] now;
  st ← gets state;
  match st with
  | Established =>
      raw_packets ← gather_data_packets_to_retransmit raw_packets now;
      raw_packets ← gather_outbound_fast_retransmission_packets raw_packets now;
      raw_packets ← gather_outbound_data_and_reconfig_packets raw_packets now;
      raw_packets ← gather_outbound_control_packets raw_packets now;
      raw_packets ← gather_outbound_sack_packets raw_packets;
      raw_packets ← gather_outbound_forward_tsn_packets raw_packets;
      mret (raw_packets, true)
  | ShutdownPending | ShutdownSent | ShutdownReceived =>
      raw_packets ← gather_data_packets_to_retransmit raw_packets now;
      raw_packets ← gather_outbound_fast_retransmission_packets raw_packets now;
      raw_packets ← gather_outbound_sack_packets raw_packets;
      raw_packets ← gather_outbound_forward_tsn_packets raw_packets;
      gather_outbound_shutdown_packets raw_packets now
  | ShutdownAckSent => gather_outbound_shutdown_packets raw_packets now
  | _ => mret (raw_packets, true)
  end.

(** The datagrams to send; [None] when there are none.  The flag that asks to close is dropped. *)
Definition poll_transmit (now : Instant) : AM (option Transmit) :=
  '(contents, _) ← gather_outbound now;
  a ← self;
  mret (if bool_decide (contents = []) then None
        else Some (mkTransmit now (remote_addr a) None (local_ip a) (PayloadRawEncode contents))).
End Gather.
