(* ===== verification/AssocControl.v ===== *)
(** * Handshake, shutdown, timers and the application interface ([src/association/mod.rs], [stream.rs])

    The chunks that set an association up and tear it down, the dispatch of
    received packets, what an expired timer does, the methods the application
    calls on the association and on its streams, and the events it polls.
    [fresh_cookie] is the state cookie the random generator would give. *)

From stdpp Require Import base list gmap numbers strings pretty sets.
From Stdlib Require Import ZArith Lia ZifyBool.
From S2P Require Import Prelude Bytes Util Params Chunks Packet PayloadQueue PendingQueue OutboundQueue.
From S2P Require Import ReassemblyQueue Shared Stream Monad Timer Config Association AssocReset AssocRecv AssocSend.

Section Control.
Context {I : MapIter} (fresh_cookie : Bytes).

(** ** Closing *)

Definition close_all_timers : AM unit := for_each Timer_VALUES stop_timer.

Definition close_with_reason (reason : AssociationError.t) : AM unit :=
  a ← self;
  when (negb (bool_decide (state a = Closed)))
    (set_state Closed;;
     close_all_timers;;
     ids ← gets (λ a, keys (streams a));
     for_each ids (λ id, unregister_stream id false);;
     modify (λ a, a <| pending_reset_completions := ∅ |>
                    <| failed_reset_streams := ∅ |>
                    <| retiring_streams := ∅ |>
                    <| ready_stream_finishes := ∅ |>
                    <| delivered_stream_finishes := ∅ |>
                    <| deferred_forward_tsns := ∅ |>
                    <| pending_reset_streams := [] |>
                    <| reconfigs := ∅ |>
                    <| reconfig_reset_streams := ∅ |>
                    <| reconfig_requests := ∅ |>
                    <| deferred_reset_data := ∅ |>
                    <| control_queue := [] |>
                    <| active_reconfig := None |>
                    <| will_retransmit_reconfig := false |>);;
     push_event (Event.AssociationLost reason)).

Definition close : AM unit := close_with_reason AssociationError.AssociationClosed.

Definition abort_receive_capacity : AM unit :=
  ignore (close_with_reason AssociationError.ReceiveBufferExhausted);;
  modify (λ a, a <| control_queue ::= λ q, q ++ [create_packet a [CAbort [mkErrorCause OUT_OF_RESOURCE []]]] |>).

Definition shutdown : AM unit :=
  a ← self;
  if negb (bool_decide (state a = Established)) then throw ErrShutdownNonEstablished
  else
    set_state ShutdownPending;;
    when (inflight_queue_length a =? 0)
      (modify (λ a, a <| will_send_shutdown := true |>);; set_state ShutdownSent);;
    modify (λ a, a <| endpoint_events ::= λ l, l ++ [Drained] |>).

(** ** Handshake *)

Definition handle_init (p : Packet) (i : ChunkInit) : AM (list Packet) :=
  a ← self;
  if negb (bool_decide (state a = Closed)) && negb (bool_decide (state a = CookieWait))
     && negb (bool_decide (state a = CookieEchoed)) then throw ErrHandleInitState
  else
    modify (λ a, a
      <| my_max_num_inbound_streams ::= Z.min (num_inbound_streams i) |>
      <| my_max_num_outbound_streams ::= Z.min (num_outbound_streams i) |>
      <| peer_verification_tag := initiate_tag i |>
      <| a_source_port := destination_port (common_header p) |>
      <| a_destination_port := source_port (common_header p) |>);;
    apply_remote_init_params (initial_tsn i) (advertised_receiver_window_credit i) (params i);;
    modify (λ a, a <| my_cookie ::= λ c, Some (default fresh_cookie c) |>);;
    a ← self;
    let init_ack := ChunkInit_set_supported_extensions
      (mkChunkInit true (my_verification_tag a) (max_receive_buffer_size a) (my_max_num_outbound_streams a)
         (my_max_num_inbound_streams a) (my_next_tsn a)
         (match my_cookie a with Some cookie => [PStateCookie cookie] | None => [] end)) in
    mret [create_packet a [CInit init_ack]].

(** The first state cookie among the parameters. *)
Definition find_cookie (ps : list Param) : option Bytes :=
  head (omap (λ p, match p with PStateCookie cookie => Some cookie | _ => None end) ps).

Definition handle_init_ack (p : Packet) (i : ChunkInit) (now : Instant) : AM (list Packet) :=
  a ← self;
  if negb (bool_decide (state a = CookieWait)) then mret []
  else
    modify (λ a, a
      <| my_max_num_inbound_streams ::= Z.min (num_inbound_streams i) |>
      <| my_max_num_outbound_streams ::= Z.min (num_outbound_streams i) |>
      <| peer_verification_tag := initiate_tag i |>);;
    if negb (a_source_port a =? destination_port (common_header p))
       || negb (a_destination_port a =? source_port (common_header p)) then mret []
    else
      apply_remote_init_params (initial_tsn i) (advertised_receiver_window_credit i) (params i);;
      stop_timer T1Init;;
      modify (λ a, a <| stored_init := None |>);;
      match find_cookie (params i) with
      | Some cookie =>
          modify (λ a, a <| stored_cookie_echo := Some cookie |>);;
          send_cookie_echo;;
          start_timer T1Cookie now;;
          set_state CookieEchoed;;
          mret []
      | None => throw ErrInitAckNoCookie
      end.

Definition handle_heartbeat (ps : list Param) : AM (list Packet) :=
  a ← self;
  mret (match ps with
        | PHeartbeatInfo info :: _ => [create_packet a [CHeartbeatAck [PHeartbeatInfo info]]]
        | _ => []
        end).

Definition handle_cookie_echo (cookie : Bytes) : AM (list Packet) :=
  a ← self;
  match my_cookie a with
  | None => mret []
  | Some mine =>
      if negb (bool_decide (mine = cookie)) then mret []
      else match state a with
      | Established => mret [create_packet a [CCookieAck]]
      | Closed | CookieWait | CookieEchoed =>
          stop_timer T1Init;;
          modify (λ a, a <| stored_init := None |>);;
          stop_timer T1Cookie;;
          modify (λ a, a <| stored_cookie_echo := None |>);;
          push_event Event.Connected;;
          set_state Established;;
          modify (λ a, a <| handshake_completed := true |>);;
          mret [create_packet a [CCookieAck]]
      | _ => mret []
      end
  end.

Definition handle_cookie_ack : AM (list Packet) :=
  a ← self;
  if negb (bool_decide (state a = CookieEchoed)) then mret []
  else
    stop_timer T1Cookie;;
    modify (λ a, a <| stored_cookie_echo := None |>);;
    push_event Event.Connected;;
    set_state Established;;
    modify (λ a, a <| handshake_completed := true |>);;
    mret [].

(** ** Shutdown *)

Definition handle_shutdown : AM (list Packet) :=
  a ← self;
  match state a with
  | Established =>
      if negb (inflight_len (outbound_queue a) =? 0) then set_state ShutdownReceived
      else modify (λ a, a <| will_send_shutdown_ack := true |>);; set_state ShutdownAckSent
  | ShutdownSent => modify (λ a, a <| will_send_shutdown_ack := true |>);; set_state ShutdownAckSent
  | _ => mret tt
  end;;
  mret [].

Definition handle_shutdown_ack : AM (list Packet) :=
  a ← self;
  when (bool_decide (state a = ShutdownSent) || bool_decide (state a = ShutdownAckSent))
    (stop_timer T2Shutdown;;
     modify (λ a, a <| will_send_shutdown_complete := true |>));;
  mret [].

Definition handle_shutdown_complete : AM (list Packet) :=
  a ← self;
  when (bool_decide (state a = ShutdownAckSent)) (stop_timer T2Shutdown;; close);;
  mret [].

(** ** Dispatch *)

(** [Display] of a cause code, for the text of an abort. *)
Definition cause_code_display (code : u16) : string :=
  match code with
  | 1 => "Invalid Stream Identifier"
  | 2 => "Missing Mandatory Parameter"
  | 3 => "Stale Cookie Error"
  | 4 => "Out Of Resource"
  | 5 => "Unresolvable IP"
  | 6 => "Unrecognized Chunk Type"
  | 7 => "Invalid Mandatory Parameter"
  | 8 => "Unrecognized Parameters"
  | 9 => "No User Data"
  | 10 => "Cookie Received While Shutting Down"
  | 11 => "Restart Of An Association With New Addresses"
  | 12 => "User Initiated Abort"
  | 13 => "Protocol Violation"
  | _ => "Unknown CauseCode: " +:+ pretty code
  end.

Definition causes_display (causes : list ErrorCause) : string :=
  foldr (λ e s, "(" +:+ cause_code_display (ec_code e) +:+ ")" +:+ s) "" causes.

(** [for e in &c.error_causes]: an abort by the peer's user closes quietly. *)
Definition handle_abort (causes : list ErrorCause) : AM unit :=
  if existsb (λ e, ec_code e =? USER_INITIATED_ABORT) causes then ignore close
  else throw (ErrAbortChunk (causes_display causes)).

(** The chunk's own [check]: its result is an error or nothing of interest. *)
Definition check_chunk (c : Chunk) : Outcome unit :=
  match c with
  | CInit i => ChunkInit_check i
  | CReconfig r => ChunkReconfig_check r
  | _ => Ok tt
  end.

Definition enqueue_control (ps : list Packet) : AM unit := modify (λ a, a <| control_queue ::= λ q, q ++ ps |>).

Definition handle_chunk (p : Packet) (c : Chunk) (now : Instant) : AM unit :=
  lift (check_chunk c);;
  match c with
  | CInit i => packets ← (if is_ack i then handle_init_ack p i now else handle_init p i); enqueue_control packets
  | CAbort causes => handle_abort causes
  | CError causes => throw (ErrAbortChunk (causes_display causes))
  | CHeartbeat ps => packets ← handle_heartbeat ps; enqueue_control packets
  | CCookieEcho cookie => packets ← handle_cookie_echo cookie; enqueue_control packets
  | CCookieAck => packets ← handle_cookie_ack; enqueue_control packets
  | CPayloadData d => packets ← handle_data d; enqueue_control packets
  | CSelectiveAck d => packets ← handle_sack d now; enqueue_control packets
  | CReconfig r => packets ← handle_reconfig r; enqueue_control packets
  | CForwardTsn f => packets ← handle_forward_tsn f; enqueue_control packets
  | CIForwardTsn f => packets ← handle_i_forward_tsn f; enqueue_control packets
  | CShutdown _ => packets ← handle_shutdown; enqueue_control packets
  | CShutdownAck => packets ← handle_shutdown_ack; enqueue_control packets
  | CShutdownComplete => packets ← handle_shutdown_complete; enqueue_control packets
  | CHeartbeatAck _ => throw ErrChunkTypeUnhandled
  end.

Definition handle_chunk_start : AM unit :=
  modify (λ a, a <| delayed_ack_triggered := false |> <| immediate_ack_triggered := false |>).

Definition handle_chunk_end (now : Instant) : AM unit :=
  a ← self;
  if immediate_ack_triggered a then modify (λ a, a <| ack_state := AckImmediate |>);; stop_timer Ack
  else when (delayed_ack_triggered a)
    (modify (λ a, a <| ack_state := AckDelay |>);;
     with_timers (λ tt, timer_start tt Ack now ACK_INTERVAL)).

Definition handle_inbound (p : Packet) (now : Instant) : AM unit :=
  checked ← attempt (lift (check_packet p));
  match checked with
  | inr _ => mret tt
  | inl _ =>
      handle_chunk_start;;
      for_each (chunks p) (λ c, handle_chunk p c now);;
      handle_chunk_end now
  end.

(** A datagram the endpoint routed here, decoded as far as the endpoint needs. *)
Definition handle_event {B : BufApi} (event : AssociationEvent) : AM unit :=
  match ae_inner event with
  | Datagram transmit =>
      match t_payload transmit with
      | PayloadPartialDecode partial_decode =>
          decoded ← attempt (lift (PartialDecode_finish partial_decode));
          match decoded with
          | inr _ => mret tt
          | inl pkt =>
              handled ← attempt (handle_inbound pkt (t_now transmit));
              match handled with
              | inl _ => mret tt
              | inr err => if bool_decide (err = ErrReceiveBufferExhausted) then abort_receive_capacity else ignore close
              end
          end
      | PayloadRawEncode _ => mret tt
      end
  end.

(** ** Timers *)

Definition on_ack_timeout : AM unit :=
  modify (λ a, a <| stats ::= inc_ack_timeouts |> <| ack_state := AckImmediate |>).

Definition on_retransmission_timeout (t : Timer) : AM unit :=
  match t with
  | T1Init => ignore send_init
  | T1Cookie => ignore send_cookie_echo
  | T2Shutdown =>
      a ← self;
      match state a with
      | ShutdownSent => modify (λ a, a <| will_send_shutdown := true |>)
      | ShutdownAckSent => modify (λ a, a <| will_send_shutdown_ack := true |>)
      | _ => mret tt
      end
  | T3RTX =>
      a ← self;
      m ← lift (checked_mul 32 4 (mtu a));
      modify (λ a, a <| stats ::= inc_t3timeouts |>
                     <| ssthresh := Z.max (cwnd a / 2) m |>
                     <| cwnd := mtu a |>);;
      when (use_forward_tsn a)
        (advance_peer_tsn_ack_point;;
         modify (λ a, if sna32gt (advanced_peer_tsn_ack_point a) (cumulative_tsn_ack_point a)
                      then a <| will_send_forward_tsn := true |> else a));;
      modify (λ a, a <| outbound_queue ::= oq_mark_all_to_retransmit |>)
  | Reconfig => modify (λ a, a <| will_retransmit_reconfig := true |>)
  | Ack => mret tt
  end.

Definition on_retransmission_failure (t : Timer) : AM unit :=
  match t with
  | T1Init => modify (λ a, a <| error := Some (AssociationError.HandshakeFailed ErrHandshakeInitAck) |>)
  | T1Cookie => modify (λ a, a <| error := Some (AssociationError.HandshakeFailed ErrHandshakeCookieEcho) |>)
  | Reconfig =>
      active ← gets active_reconfig;
      match active with
      | Some rsn => _ ← finish_reconfig rsn (inr StreamResetError.Failed); mret tt
      | None => stop_timer Reconfig
      end
  | _ => mret tt
  end.

Definition handle_timeout (now : Instant) : AM unit :=
  for_each Timer_VALUES (λ t,
    a ← self;
    let '((expired, failure, n_rtos), table) := is_expired (timers a) t now in
    modify (λ a, a <| timers := table |>);;
    when expired
      (modify (λ a, a <| timers ::= λ tt, timer_set tt t None |>);;
       if bool_decide (t = Ack) then on_ack_timeout
       else if (failure : bool) then on_retransmission_failure t
       else on_retransmission_timeout t;; start_timer t now)).

Definition poll_timeout (a : Association) : option Instant := next_timeout (timers a).

(** ** Events *)

Definition event_stream (e : StreamEvent.t) : option u16 :=
  match e with
  | StreamEvent.Opened id | StreamEvent.Readable id | StreamEvent.Writable id | StreamEvent.Finished id
  | StreamEvent.ResetComplete id | StreamEvent.ResetFailed id _ | StreamEvent.Stopped id _
  | StreamEvent.BufferedAmountLow id | StreamEvent.BufferedAmountHigh id => Some id
  | StreamEvent.Available => None
  end.

(** The event may pass although its stream is blocked behind [Finished]. *)
Definition passes_blocked (a : Association) (e : StreamEvent.t) : bool :=
  match e with
  | StreamEvent.ResetComplete id | StreamEvent.ResetFailed id _ => prc_contains (delivered_stream_finishes a) id
  | StreamEvent.Opened _ | StreamEvent.Readable _ => true
  | _ => false
  end.

Definition finish_waits (a : Association) (e : Event.t) : option u16 :=
  match e with
  | Event.Stream (StreamEvent.Finished id) =>
      if negb (bool_decide (state a = Closed)) && negb (prc_contains (ready_stream_finishes a) id)
      then Some id else None
  | _ => None
  end.

(** The index of the event to hand out: the first that is not held back. *)
Fixpoint select_event (a : Association) (l : list Event.t) (index : nat) (blocked : list u16) : option nat :=
  match l with
  | [] => None
  | e :: l' =>
      match finish_waits a e with
      | Some id => select_event a l' (S index) (id :: blocked)
      | None =>
          let held := match e with
                      | Event.Stream se =>
                          match event_stream se with
                          | Some id => bool_decide (id ∈ blocked) && negb (passes_blocked a se)
                          | None => false
                          end
                      | _ => false
                      end in
          if held then select_event a l' (S index) blocked else Some index
      end
  end.

(** [take_one] on one of the multisets. *)
Definition take_finish (get : Association → PendingResetCompletions)
    (put : PendingResetCompletions → Association → Association) (id : u16) : AM unit :=
  m ← gets get;
  '(_, m) ← lift (prc_take_one m id);
  modify (put m).

Definition poll : AM (option Event.t) :=
  a ← self;
  match select_event a (events a) 0 [] with
  | Some index =>
      match events a !! index with
      | None => lift Panic
      | Some x =>
          modify (λ a, a <| events ::= delete index |>);;
          match x with
          | Event.Stream (StreamEvent.Finished id) =>
              take_finish ready_stream_finishes (λ m a, a <| ready_stream_finishes := m |>) id;;
              when (negb (bool_decide (state a = Closed)))
                (modify (λ a, a <| delivered_stream_finishes ::= λ m, prc_insert m id |>))
          | Event.Stream (StreamEvent.ResetComplete id) | Event.Stream (StreamEvent.ResetFailed id _) =>
              take_finish delivered_stream_finishes (λ m a, a <| delivered_stream_finishes := m |>) id
          | _ => mret tt
          end;;
          mret (Some x)
      end
  | None =>
      match error a with
      | Some e => modify (λ a, a <| error := None |>);; mret (Some (Event.HandshakeFailed e))
      | None => mret None
      end
  end.

Definition poll_endpoint_event : AM (option EndpointEventInner) :=
  a ← self;
  modify (λ a, a <| endpoint_events ::= tail |>);;
  mret (head (endpoint_events a)).

(** ** Opening streams *)

Definition open_stream (id : u16) (ppi : PayloadProtocolIdentifier) : AM unit :=
  a ← self;
  if bool_decide (is_Some (streams a !! id)) then throw ErrStreamAlreadyExist
  else if stream_reset_blocked a id then throw ErrStreamResetPending
  else
    created ← create_stream id false ppi;
    if negb created then throw ErrStreamCreateFailed else mret tt.

Definition accept_stream : AM (option u16) :=
  a ← self;
  modify (λ a, a <| stream_queue ::= tail |>);;
  mret (head (stream_queue a)).

Definition stream (id : u16) : AM unit :=
  a ← self;
  if bool_decide (is_Some (streams a !! id)) then mret tt else throw ErrStreamNotExisted.

Definition send_reset_request (id : u16) : AM unit :=
  a ← self;
  if negb (bool_decide (state a = Established)) then throw ErrResetPacketInStateNotExist
  else modify (λ a, a <| pending_reset_streams ::= λ l, l ++ [id] |>).

Definition send_payload_data (message : list ChunkPayloadData) : AM unit :=
  a ← self;
  if negb (bool_decide (state a = Established)) then throw ErrPayloadDataStateNotExist
  else
    q ← lift (oq_push (outbound_queue a) message);
    modify (λ a, a <| outbound_queue := q |>).
End Control.

(** ** What the application can ask of an association *)

Definition is_handshaking (a : Association) : bool := negb (handshake_completed a).
Definition is_closed (a : Association) : bool := bool_decide (state a = Closed).
Definition association_is_closing (a : Association) : bool := is_closing (state a).
Definition association_is_drained (a : Association) : bool := is_drained (state a).

(** In milliseconds. *)
Definition rtt (a : Association) : u64 := get_rto (rto_mgr a).

Definition stream_ids {I : MapIter} (a : Association) : list u16 := keys (streams a).
Definition association_buffered_amount (a : Association) : usize :=
  pending_bytes (outbound_queue a) + inflight_bytes (outbound_queue a).

Definition set_max_send_message_size (value : u32) : AM unit := modify (λ a, a <| max_send_message_size := value |>).
Definition set_max_receive_message_size (value : u32) : AM unit :=
  modify (λ a, a <| max_receive_message_size := value |>).

(** ** Stream handles ([stream.rs]): [id] is the handle's stream identifier *)

(** [trait BytesSource] of [util.rs], with the state after the call. *)
Class BytesSource (T : Type) := {
  src_remaining : T → Outcome usize;
  src_pop_chunk : T → usize → Outcome (Bytes * usize * T);
}.

#[export] Instance ByteSlice_source : BytesSource Bytes := {|
  src_remaining d := Ok (ByteSlice_remaining d);
  src_pop_chunk d limit := Ok (ByteSlice_pop_chunk d limit);
|}.

#[export] Instance BytesArray_source : BytesSource BytesArray := {|
  src_remaining := BytesArray_remaining;
  src_pop_chunk := BytesArray_pop_chunk;
|}.

Section Handles.
Context {I : MapIter} {B : BufApi}.

(** [self.association.streams.get(&id).ok_or(ErrStreamClosed)] *)
Definition get_stream (id : u16) : AM StreamState :=
  s ← gets (λ a, streams a !! id);
  match s with Some s => mret s | None => throw ErrStreamClosed end.

Definition put_stream (id : u16) (s : StreamState) : AM unit := modify (λ a, a <| streams ::= <[id := s]> |>).

Definition stream_stats (id : u16) : AM DataChannelStats := s ← get_stream id; mret (ss_stats s).

Definition stream_is_readable (a : Association) (id : u16) : bool :=
  match streams a !! id with Some s => can_read s | None => false end.

Definition stream_is_writable (a : Association) (id : u16) : bool :=
  if stream_reset_blocked a id then false
  else match streams a !! id with
       | Some s => match ss_state s with RecvSendState.Writable | RecvSendState.ReadWritable => true | _ => false end
       | None => false
       end.

(** [find_map]: the final report of a generation, while it waits to be polled. *)
Fixpoint update_final_stats (g : u64) (f : DataChannelStats → DataChannelStats) (l : list Event.t) : list Event.t :=
  match l with
  | [] => []
  | Event.DataChannelStatsFinal st :: l' =>
      if generation st =? g then Event.DataChannelStatsFinal (f st) :: l'
      else Event.DataChannelStatsFinal st :: update_final_stats g f l'
  | e :: l' => e :: update_final_stats g f l'
  end.

Definition count_received (id : u16) (g : u64) (m : Chunks) : AM unit :=
  a ← self;
  let f st := stats_received st (ppi m) (Chunks_len m) in
  match streams a !! id with
  | Some s =>
      if generation (ss_stats s) =? g then put_stream id (s <| ss_stats ::= f |>)
      else modify (λ a, a <| events ::= update_final_stats g f |>)
  | None => modify (λ a, a <| events ::= update_final_stats g f |>)
  end.

Definition abort_if_exhausted : AM unit :=
  a ← self;
  exhausted ← lift (receive_capacity_exhausted a);
  when exhausted abort_receive_capacity.

Definition read_sctp (id : u16) : AM (option Chunks) :=
  s ← get_stream id;
  if negb (can_read s) then throw ErrStreamClosed
  else
    let '(message, q) := rq_read (reassembly_queue s) in
    put_stream id (s <| reassembly_queue := q |>);;
    match message with
    | None => mret None
    | Some m =>
        when (rq_get_num_bytes q =? 0) (finish_retiring_stream id);;
        abort_if_exhausted;;
        count_received id (generation (ss_stats s)) m;;
        mret (Some m)
    end.

(** The number of bytes written and what the source still holds. *)
Definition write_source {T} `{BytesSource T} (id : u16) (source : T) (ppi : PayloadProtocolIdentifier)
    : AM (usize * T) :=
  a ← self;
  if negb (stream_is_writable a id) then throw ErrStreamClosed
  else
    n ← lift (src_remaining source);
    if n >? max_send_message_size a then throw ErrOutboundPacketTooLarge
    else if is_closing (state a) then throw ErrStreamClosed
    else
      '(p, _, source) ← lift (src_pop_chunk source (max_send_message_size a));
      s ← get_stream id;
      '(is_buffered_amount_high, cs, s) ← lift (packetize s p ppi);
      put_stream id s;;
      send_payload_data ((λ c, c <| reliability := Some (reliability_type s, reliability_value s) |>) <$> cs);;
      when (negb (bool_decide (cs = [])))
        (s ← gets (λ a, streams a !! id);
         match s with
         | Some s => put_stream id (s <| ss_stats ::= λ st, stats_sent st ppi (len p) |>)
         | None => lift Panic
         end);;
      when is_buffered_amount_high (push_event (Event.Stream (StreamEvent.BufferedAmountHigh id)));;
      mret (len p, source).

Definition stream_finish (id : u16) : AM unit :=
  modify (λ a, a <| streams ::= alter (λ s, s <| ss_state ::= λ st, mask_state st 1 |>) id |>).

Definition stream_stop (id : u16) : AM unit :=
  a ← self;
  let retiring := bool_decide (is_Some (retiring_streams a !! id)) in
  when (stream_is_readable a id && negb retiring && negb (stream_reset_in_progress a id)) (send_reset_request id);;
  modify (λ a, a <| streams ::= alter (λ s, s <| ss_state ::= λ st, mask_state st 2 |>) id |>);;
  when retiring (discard_retiring_streams id);;
  abort_if_exhausted.

Definition stream_close (id : u16) : AM unit := stream_finish id;; stream_stop id.

Definition get_default_payload_type (id : u16) : AM PayloadProtocolIdentifier :=
  s ← get_stream id; mret (default_payload_type s).

Definition write_sctp (id : u16) (p : Bytes) (ppi : PayloadProtocolIdentifier) : AM usize :=
  '(n, _) ← write_source id p ppi; mret n.

Definition write_with_ppi (id : u16) (data : Bytes) (ppi : PayloadProtocolIdentifier) : AM usize :=
  '(n, _) ← write_source id data ppi; mret n.

Definition write (id : u16) (data : Bytes) : AM usize :=
  ppi ← get_default_payload_type id; write_with_ppi id data ppi.

Definition write_chunk (id : u16) (p : Bytes) : AM usize :=
  ppi ← get_default_payload_type id; '(n, _) ← write_source id p ppi; mret n.

(** The value has the chunks that are left to the caller. *)
Definition write_chunks (id : u16) (data : list Bytes) : AM (usize * BytesArray) :=
  ppi ← get_default_payload_type id; write_source id (BytesArray_from_chunks data) ppi.

Definition stream_buffered_amount (id : u16) : AM usize := s ← get_stream id; mret (buffered_amount s).
Definition buffered_amount_low_threshold (id : u16) : AM usize := s ← get_stream id; mret (buffered_amount_low s).
Definition buffered_amount_high_threshold (id : u16) : AM usize := s ← get_stream id; mret (buffered_amount_high s).

Definition set_default_payload_type (id : u16) (ppi : PayloadProtocolIdentifier) : AM unit :=
  s ← get_stream id; put_stream id (s <| default_payload_type := ppi |>).

Definition set_reliability_params (id : u16) (unordered : bool) (rel_type : ReliabilityType) (rel_val : u32) : AM unit :=
  s ← get_stream id;
  put_stream id (s <| ss_unordered := unordered |> <| reliability_type := rel_type |> <| reliability_value := rel_val |>).

Definition set_buffered_amount_low_threshold (id : u16) (th : usize) : AM unit :=
  s ← get_stream id; put_stream id (s <| buffered_amount_low := th |>).

Definition set_buffered_amount_high_threshold (id : u16) (th : usize) : AM unit :=
  s ← get_stream id; put_stream id (s <| buffered_amount_high := th |>).
End Handles.
