(* ===== verification/AssocFrame.v ===== *)
(** * What the data path leaves alone ([src/association/mod.rs])

    Most methods touch neither the state machine nor the congestion window.
    [quiet] lists the fields they leave unchanged, [silent] adds the receiver's
    cumulative TSN and queue, which only receiving changes; the lemmas below say so
    method by method, from the leaves of the call graph up. *)

From stdpp Require Import base list gmap numbers strings sets.
From Stdlib Require Import ZArith Lia ZifyBool.
From S2P Require Import Prelude Bytes Util Params Chunks Packet PayloadQueue PendingQueue OutboundQueue.
From S2P Require Import ReassemblyQueue Shared Stream Monad Timer Config Association AssocReset AssocRecv AssocSend AssocControl.

Record quiet (a a' : Association) : Prop := mk_quiet {
  q_state : state a' = state a;
  q_mtu : mtu a' = mtu a;
  q_cwnd : cwnd a' = cwnd a;
  q_ssthresh : ssthresh a' = ssthresh a;
  q_handshake : handshake_completed a' = handshake_completed a;
  q_peer_tag : peer_verification_tag a' = peer_verification_tag a;
  q_my_tag : my_verification_tag a' = my_verification_tag a;
  q_cookie : my_cookie a' = my_cookie a;
  q_length : inflight_queue_length a' = inflight_queue_length a;
}.

#[export] Instance quiet_refl : Reflexive quiet.
Proof. done. Qed.
#[export] Instance quiet_trans : Transitive quiet.
Proof. intros ??? [] []. constructor; congruence. Qed.

(** Most methods do not touch the receiver's cumulative TSN and its queue of TSNs either. *)
Record silent (a a' : Association) : Prop := mk_silent {
  si_quiet : quiet a a';
  si_peer_last_tsn : peer_last_tsn a' = peer_last_tsn a;
  si_payload_queue : payload_queue a' = payload_queue a;
}.

#[export] Instance silent_refl : Reflexive silent.
Proof. done. Qed.
#[export] Instance silent_trans : Transitive silent.
Proof. intros ??? [] []. constructor; [by etrans|congruence..]. Qed.

Lemma silent_quiet {A} (m : AM A) : preserves silent m → preserves quiet m.
Proof. intros Hm a. eapply holds_mono; [apply Hm|intros ??; apply si_quiet..]. Qed.
#[export] Hint Resolve silent_quiet : quiet.

(** Updates of other fields. *)
#[export] Hint Extern 5 (quiet _ _) => (constructor; reflexivity) : quiet.
#[export] Hint Extern 5 (silent _ _) => (constructor; [constructor|..]; reflexivity) : quiet.

Ltac quiet :=
  intros; repeat match goal with |- preserves _ ?m => progress (preserves; try reflexivity) end;
  try solve [repeat case_match; constructor; try constructor; reflexivity].

Section Frames.
Context {I : MapIter}.

Lemma push_event_silent e : preserves silent (push_event e).
Proof. unfold push_event. quiet. Qed.
#[local] Hint Resolve push_event_silent : quiet.

Lemma with_timers_silent f : preserves silent (with_timers f).
Proof. unfold with_timers. quiet. Qed.
#[local] Hint Resolve with_timers_silent : quiet.

Lemma start_timer_silent t now : preserves silent (start_timer t now).
Proof. unfold start_timer. quiet. Qed.
#[local] Hint Resolve start_timer_silent : quiet.

Lemma restart_timer_if_stale_silent t now : preserves silent (restart_timer_if_stale t now).
Proof. unfold restart_timer_if_stale. quiet. Qed.
#[local] Hint Resolve restart_timer_if_stale_silent : quiet.

Lemma stop_timer_silent t : preserves silent (stop_timer t).
Proof. unfold stop_timer. quiet. Qed.
#[local] Hint Resolve stop_timer_silent : quiet.

Lemma send_init_silent : preserves silent (send_init).
Proof. unfold send_init. quiet. Qed.
#[local] Hint Resolve send_init_silent : quiet.

Lemma send_cookie_echo_silent : preserves silent (send_cookie_echo).
Proof. unfold send_cookie_echo. quiet. Qed.
#[local] Hint Resolve send_cookie_echo_silent : quiet.

Lemma refresh_unsent_reconfig_silent rsn : preserves silent (refresh_unsent_reconfig rsn).
Proof. unfold refresh_unsent_reconfig. quiet. Qed.
#[local] Hint Resolve refresh_unsent_reconfig_silent : quiet.

Lemma queue_stream_finished_silent id b : preserves silent (queue_stream_finished id b).
Proof. unfold queue_stream_finished. quiet. Qed.
#[local] Hint Resolve queue_stream_finished_silent : quiet.

Lemma remove_stream_silent id : preserves silent (remove_stream id).
Proof. unfold remove_stream. quiet. Qed.
#[local] Hint Resolve remove_stream_silent : quiet.

Lemma unregister_stream_silent id b : preserves silent (unregister_stream id b).
Proof. unfold unregister_stream. quiet. Qed.
#[local] Hint Resolve unregister_stream_silent : quiet.

Lemma create_stream_silent id b p : preserves silent (create_stream id b p).
Proof. unfold create_stream. quiet. Qed.
#[local] Hint Resolve create_stream_silent : quiet.

Lemma get_or_create_stream_silent id : preserves silent (get_or_create_stream id).
Proof. unfold get_or_create_stream. quiet. Qed.
#[local] Hint Resolve get_or_create_stream_silent : quiet.

Lemma take_pending_completion_silent id : preserves silent (take_pending_completion id).
Proof. unfold take_pending_completion. quiet. Qed.
#[local] Hint Resolve take_pending_completion_silent : quiet.

Lemma emit_reset_complete_silent l : preserves silent (emit_reset_complete l).
Proof. unfold emit_reset_complete. quiet. Qed.
#[local] Hint Resolve emit_reset_complete_silent : quiet.

Lemma emit_reset_failed_silent l r : preserves silent (emit_reset_failed l r).
Proof. unfold emit_reset_failed. quiet. Qed.
#[local] Hint Resolve emit_reset_failed_silent : quiet.

Lemma finish_reconfig_silent rsn o : preserves silent (finish_reconfig rsn o).
Proof. unfold finish_reconfig. quiet. Qed.
#[local] Hint Resolve finish_reconfig_silent : quiet.

Lemma prune_deferred_reset_data_for_forward_tsn_silent id b k : preserves silent (prune_deferred_reset_data_for_forward_tsn id b k).
Proof. unfold prune_deferred_reset_data_for_forward_tsn. quiet. Qed.
#[local] Hint Resolve prune_deferred_reset_data_for_forward_tsn_silent : quiet.

Lemma apply_or_defer_ordered_forward_tsn_silent id n t : preserves silent (apply_or_defer_ordered_forward_tsn id n t).
Proof. unfold apply_or_defer_ordered_forward_tsn. quiet. Qed.
#[local] Hint Resolve apply_or_defer_ordered_forward_tsn_silent : quiet.

Lemma apply_or_defer_unordered_forward_tsn_silent id t : preserves silent (apply_or_defer_unordered_forward_tsn id t).
Proof. unfold apply_or_defer_unordered_forward_tsn. quiet. Qed.
#[local] Hint Resolve apply_or_defer_unordered_forward_tsn_silent : quiet.

Lemma apply_unordered_forward_tsn_to_current_streams_silent t : preserves silent (apply_unordered_forward_tsn_to_current_streams t).
Proof. unfold apply_unordered_forward_tsn_to_current_streams. quiet. Qed.
#[local] Hint Resolve apply_unordered_forward_tsn_to_current_streams_silent : quiet.

Lemma apply_deferred_forward_tsns_silent id : preserves silent (apply_deferred_forward_tsns id).
Proof. unfold apply_deferred_forward_tsns. quiet. Qed.
#[local] Hint Resolve apply_deferred_forward_tsns_silent : quiet.

Lemma discard_deferred_forward_tsns_through_silent id b : preserves silent (discard_deferred_forward_tsns_through id b).
Proof. unfold discard_deferred_forward_tsns_through. quiet. Qed.
#[local] Hint Resolve discard_deferred_forward_tsns_through_silent : quiet.

Lemma deliver_deferred_reset_data_silent d : preserves silent (deliver_deferred_reset_data d).
Proof. unfold deliver_deferred_reset_data. quiet. Qed.
#[local] Hint Resolve deliver_deferred_reset_data_silent : quiet.

Lemma deliver_and_forget_silent d : preserves silent (deliver_and_forget d).
Proof. unfold deliver_and_forget. quiet. Qed.
#[local] Hint Resolve deliver_and_forget_silent : quiet.

Lemma release_deferred_generation_data_silent id b b2 : preserves silent (release_deferred_generation_data id b b2).
Proof. unfold release_deferred_generation_data. quiet. Qed.
#[local] Hint Resolve release_deferred_generation_data_silent : quiet.

Lemma release_deferred_reset_data_silent : preserves silent (release_deferred_reset_data).
Proof. unfold release_deferred_reset_data. quiet. Qed.
#[local] Hint Resolve release_deferred_reset_data_silent : quiet.

Lemma close_generation_silent id b : preserves silent (close_generation id b).
Proof. unfold close_generation. quiet. Qed.
#[local] Hint Resolve close_generation_silent : quiet.

Lemma retire_stream_silent id t : preserves silent (retire_stream id t).
Proof. unfold retire_stream. quiet. Qed.
#[local] Hint Resolve retire_stream_silent : quiet.

Lemma inherit_stream_state_silent id st : preserves silent (inherit_stream_state id st).
Proof. unfold inherit_stream_state. quiet. Qed.
#[local] Hint Resolve inherit_stream_state_silent : quiet.

Lemma finish_retiring_loop_silent fuel id st : preserves silent (finish_retiring_loop fuel id st).
Proof. induction fuel as [|fuel IH]; cbn [finish_retiring_loop]; quiet. Qed.
#[local] Hint Resolve finish_retiring_loop_silent : quiet.

Lemma finish_retiring_stream_silent id : preserves silent (finish_retiring_stream id).
Proof. unfold finish_retiring_stream. quiet. Qed.
#[local] Hint Resolve finish_retiring_stream_silent : quiet.

Lemma discard_retiring_streams_quiet id : preserves quiet (discard_retiring_streams id).
Proof. unfold discard_retiring_streams. quiet. Qed.
#[local] Hint Resolve discard_retiring_streams_quiet : quiet.

Lemma generate_next_rsn_silent : preserves silent (generate_next_rsn).
Proof. unfold generate_next_rsn. quiet. Qed.
#[local] Hint Resolve generate_next_rsn_silent : quiet.

Lemma retire_registered_silent l b : preserves silent (retire_registered l b).
Proof. induction l as [|x l IH]; cbn [retire_registered]; quiet. Qed.
#[local] Hint Resolve retire_registered_silent : quiet.

Lemma queue_reciprocal_silent p l : preserves silent (queue_reciprocal p l).
Proof. unfold queue_reciprocal. quiet. Qed.
#[local] Hint Resolve queue_reciprocal_silent : quiet.

Lemma reset_streams_if_any_silent p b : preserves silent (reset_streams_if_any p b).
Proof. unfold reset_streams_if_any. quiet. Qed.
#[local] Hint Resolve reset_streams_if_any_silent : quiet.

Lemma mark_completed_silent rsn : preserves silent (mark_completed rsn).
Proof. unfold mark_completed. quiet. Qed.
#[local] Hint Resolve mark_completed_silent : quiet.

Lemma reevaluate_requests_silent l : preserves silent (reevaluate_requests l).
Proof. induction l as [|x l IH]; cbn [reevaluate_requests]; quiet. Qed.
#[local] Hint Resolve reevaluate_requests_silent : quiet.

Lemma reevaluate_pending_reset_requests_silent : preserves silent (reevaluate_pending_reset_requests).
Proof. unfold reevaluate_pending_reset_requests. quiet. Qed.
#[local] Hint Resolve reevaluate_pending_reset_requests_silent : quiet.

Lemma handle_reconfig_param_silent p : preserves silent (handle_reconfig_param p).
Proof. unfold handle_reconfig_param. quiet. Qed.
#[local] Hint Resolve handle_reconfig_param_silent : quiet.

Lemma handle_reconfig_silent c : preserves silent (handle_reconfig c).
Proof. unfold handle_reconfig. quiet. Qed.
#[local] Hint Resolve handle_reconfig_silent : quiet.

Lemma advance_peer_last_tsn_quiet fuel : preserves quiet (advance_peer_last_tsn fuel).
Proof. induction fuel as [|fuel IH]; cbn [advance_peer_last_tsn]; quiet. Qed.
#[local] Hint Resolve advance_peer_last_tsn_quiet : quiet.

Lemma handle_peer_last_tsn_and_acknowledgement_quiet b : preserves quiet (handle_peer_last_tsn_and_acknowledgement b).
Proof. unfold handle_peer_last_tsn_and_acknowledgement. quiet. Qed.
#[local] Hint Resolve handle_peer_last_tsn_and_acknowledgement_quiet : quiet.

Lemma admit_data_silent d : preserves silent (admit_data d).
Proof. unfold admit_data. quiet. Qed.
#[local] Hint Resolve admit_data_silent : quiet.

Lemma handle_data_quiet d : preserves quiet (handle_data d).
Proof. unfold handle_data. quiet. Qed.
#[local] Hint Resolve handle_data_quiet : quiet.

Lemma ack_out_of_date_forward_tsn_silent : preserves silent (ack_out_of_date_forward_tsn).
Proof. unfold ack_out_of_date_forward_tsn. quiet. Qed.
#[local] Hint Resolve ack_out_of_date_forward_tsn_silent : quiet.

Lemma handle_forward_tsn_quiet c : preserves quiet (handle_forward_tsn c).
Proof. unfold handle_forward_tsn. quiet. Qed.
#[local] Hint Resolve handle_forward_tsn_quiet : quiet.

Lemma handle_i_forward_tsn_quiet c : preserves quiet (handle_i_forward_tsn c).
Proof. unfold handle_i_forward_tsn. quiet. Qed.
#[local] Hint Resolve handle_i_forward_tsn_quiet : quiet.

Lemma measure_rtt_silent c now : preserves silent (measure_rtt c now).
Proof. unfold measure_rtt. quiet. Qed.
#[local] Hint Resolve measure_rtt_silent : quiet.

Lemma ack_cumulative_silent fuel i cum now m b : preserves silent (ack_cumulative fuel i cum now m b).
Proof. revert i m b; induction fuel as [|fuel IH]; intros; cbn [ack_cumulative]; quiet. Qed.
#[local] Hint Resolve ack_cumulative_silent : quiet.

Lemma ack_gap_tsn_silent t now acc : preserves silent (ack_gap_tsn t now acc).
Proof. unfold ack_gap_tsn. quiet. Qed.
#[local] Hint Resolve ack_gap_tsn_silent : quiet.

Lemma ack_gap_tsns_silent ts now acc : preserves silent (ack_gap_tsns ts now acc).
Proof. revert acc; induction ts as [|t ts IH]; intros; cbn [ack_gap_tsns]; quiet. Qed.
#[local] Hint Resolve ack_gap_tsns_silent : quiet.

Lemma process_selective_ack_silent d now : preserves silent (process_selective_ack d now).
Proof. unfold process_selective_ack. quiet. Qed.
#[local] Hint Resolve process_selective_ack_silent : quiet.

Lemma skip_abandoned_silent fuel : preserves silent (skip_abandoned fuel).
Proof. induction fuel as [|fuel IH]; cbn [skip_abandoned]; quiet. Qed.
#[local] Hint Resolve skip_abandoned_silent : quiet.

Lemma advance_peer_tsn_ack_point_silent : preserves silent (advance_peer_tsn_ack_point).
Proof. unfold advance_peer_tsn_ack_point. quiet. Qed.
#[local] Hint Resolve advance_peer_tsn_ack_point_silent : quiet.

Lemma release_stream_buffer_silent id n : preserves silent (release_stream_buffer id n).
Proof. unfold release_stream_buffer. quiet. Qed.
#[local] Hint Resolve release_stream_buffer_silent : quiet.

Lemma release_abandoned_buffer_silent id m n : preserves silent (release_abandoned_buffer id m n).
Proof. unfold release_abandoned_buffer. quiet. Qed.
#[local] Hint Resolve release_abandoned_buffer_silent : quiet.

Lemma abandon_if_needed_silent t now : preserves silent (abandon_if_needed t now).
Proof. unfold abandon_if_needed. quiet. Qed.
#[local] Hint Resolve abandon_if_needed_silent : quiet.

Lemma abandon_all_silent ts now : preserves silent (abandon_all ts now).
Proof. induction ts as [|t ts IH]; cbn [abandon_all]; quiet. Qed.
#[local] Hint Resolve abandon_all_silent : quiet.

Lemma expire_tails_silent fuel now : preserves silent (expire_tails fuel now).
Proof. induction fuel as [|fuel IH]; cbn [expire_tails]; quiet. Qed.
#[local] Hint Resolve expire_tails_silent : quiet.

Lemma expire_inflight_messages_silent now : preserves silent (expire_inflight_messages now).
Proof. unfold expire_inflight_messages. quiet. Qed.
#[local] Hint Resolve expire_inflight_messages_silent : quiet.

Lemma send_next_data_chunk_silent now : preserves silent (send_next_data_chunk now).
Proof. unfold send_next_data_chunk. quiet. Qed.
#[local] Hint Resolve send_next_data_chunk_silent : quiet.

Lemma pop_pending_loop_silent fuel now : preserves silent (pop_pending_loop fuel now).
Proof. induction fuel as [|fuel IH]; cbn [pop_pending_loop]; quiet. Qed.
#[local] Hint Resolve pop_pending_loop_silent : quiet.

Lemma pop_pending_data_chunks_to_send_silent now : preserves silent (pop_pending_data_chunks_to_send now).
Proof. unfold pop_pending_data_chunks_to_send. quiet. Qed.
#[local] Hint Resolve pop_pending_data_chunks_to_send_silent : quiet.

Lemma retransmit_loop_silent fuel i now cs n : preserves silent (retransmit_loop fuel i now cs n).
Proof. revert i cs n; induction fuel as [|fuel IH]; intros; cbn [retransmit_loop]; quiet. Qed.
#[local] Hint Resolve retransmit_loop_silent : quiet.

Lemma mark_retransmitted_silent cs : preserves silent (mark_retransmitted cs).
Proof. induction cs as [|c cs IH]; cbn [mark_retransmitted]; quiet. Qed.
#[local] Hint Resolve mark_retransmitted_silent : quiet.

Lemma get_data_packets_to_retransmit_silent now : preserves silent (get_data_packets_to_retransmit now).
Proof. unfold get_data_packets_to_retransmit. quiet. Qed.
#[local] Hint Resolve get_data_packets_to_retransmit_silent : quiet.
End Frames.

Section GatherFrames.
Context {I : MapIter} {B : BufApi} (crc : Bytes → u32).

#[local] Hint Resolve push_event_silent with_timers_silent start_timer_silent restart_timer_if_stale_silent stop_timer_silent send_init_silent send_cookie_echo_silent refresh_unsent_reconfig_silent queue_stream_finished_silent remove_stream_silent unregister_stream_silent create_stream_silent get_or_create_stream_silent take_pending_completion_silent emit_reset_complete_silent emit_reset_failed_silent finish_reconfig_silent prune_deferred_reset_data_for_forward_tsn_silent apply_or_defer_ordered_forward_tsn_silent apply_or_defer_unordered_forward_tsn_silent apply_unordered_forward_tsn_to_current_streams_silent apply_deferred_forward_tsns_silent discard_deferred_forward_tsns_through_silent deliver_deferred_reset_data_silent deliver_and_forget_silent release_deferred_generation_data_silent release_deferred_reset_data_silent close_generation_silent retire_stream_silent inherit_stream_state_silent finish_retiring_loop_silent finish_retiring_stream_silent discard_retiring_streams_quiet generate_next_rsn_silent retire_registered_silent queue_reciprocal_silent reset_streams_if_any_silent mark_completed_silent reevaluate_requests_silent reevaluate_pending_reset_requests_silent handle_reconfig_param_silent handle_reconfig_silent advance_peer_last_tsn_quiet handle_peer_last_tsn_and_acknowledgement_quiet admit_data_silent handle_data_quiet ack_out_of_date_forward_tsn_silent handle_forward_tsn_quiet handle_i_forward_tsn_quiet measure_rtt_silent ack_cumulative_silent ack_gap_tsn_silent ack_gap_tsns_silent process_selective_ack_silent skip_abandoned_silent advance_peer_tsn_ack_point_silent release_stream_buffer_silent release_abandoned_buffer_silent abandon_if_needed_silent abandon_all_silent expire_tails_silent expire_inflight_messages_silent send_next_data_chunk_silent pop_pending_loop_silent pop_pending_data_chunks_to_send_silent retransmit_loop_silent mark_retransmitted_silent get_data_packets_to_retransmit_silent : quiet.

Lemma drain_control_silent qs raw buf b : preserves silent (drain_control crc qs raw buf b).
Proof. revert raw buf b; induction qs as [|p qs IH]; intros; cbn [drain_control]; quiet. Qed.
#[local] Hint Resolve drain_control_silent : quiet.

Lemma restart_reconfig_timer_silent now : preserves silent (restart_reconfig_timer now).
Proof. unfold restart_reconfig_timer. quiet. Qed.
#[local] Hint Resolve restart_reconfig_timer_silent : quiet.

Lemma gather_outbound_control_packets_silent raw now : preserves silent (gather_outbound_control_packets crc raw now).
Proof. unfold gather_outbound_control_packets. quiet. Qed.
#[local] Hint Resolve gather_outbound_control_packets_silent : quiet.

Lemma gather_data_packets_to_retransmit_silent raw now : preserves silent (gather_data_packets_to_retransmit crc raw now).
Proof. unfold gather_data_packets_to_retransmit. quiet. Qed.
#[local] Hint Resolve gather_data_packets_to_retransmit_silent : quiet.

Lemma send_reset_request_for_silent ids raw : preserves silent (send_reset_request_for crc ids raw).
Proof. unfold send_reset_request_for. quiet. Qed.
#[local] Hint Resolve send_reset_request_for_silent : quiet.

Lemma gather_outbound_data_and_reconfig_packets_silent raw now : preserves silent (gather_outbound_data_and_reconfig_packets crc raw now).
Proof. unfold gather_outbound_data_and_reconfig_packets. quiet. Qed.
#[local] Hint Resolve gather_outbound_data_and_reconfig_packets_silent : quiet.

Lemma fast_retransmit_loop_silent fuel i now n : preserves silent (fast_retransmit_loop fuel i now n).
Proof. revert i n; induction fuel as [|fuel IH]; intros; cbn [fast_retransmit_loop]; quiet. Qed.
#[local] Hint Resolve fast_retransmit_loop_silent : quiet.

Lemma gather_outbound_fast_retransmission_packets_silent raw now : preserves silent (gather_outbound_fast_retransmission_packets crc raw now).
Proof. unfold gather_outbound_fast_retransmission_packets. quiet. Qed.
#[local] Hint Resolve gather_outbound_fast_retransmission_packets_silent : quiet.

Lemma create_selective_ack_chunk_quiet : preserves quiet (create_selective_ack_chunk).
Proof. unfold create_selective_ack_chunk. quiet. Qed.
#[local] Hint Resolve create_selective_ack_chunk_quiet : quiet.

Lemma gather_outbound_sack_packets_quiet raw : preserves quiet (gather_outbound_sack_packets crc raw).
Proof. unfold gather_outbound_sack_packets. quiet. Qed.
#[local] Hint Resolve gather_outbound_sack_packets_quiet : quiet.

Lemma gather_outbound_forward_tsn_packets_silent raw : preserves silent (gather_outbound_forward_tsn_packets crc raw).
Proof. unfold gather_outbound_forward_tsn_packets. quiet. Qed.
#[local] Hint Resolve gather_outbound_forward_tsn_packets_silent : quiet.

Lemma gather_outbound_shutdown_packets_silent raw now : preserves silent (gather_outbound_shutdown_packets crc raw now).
Proof. unfold gather_outbound_shutdown_packets. quiet. Qed.
#[local] Hint Resolve gather_outbound_shutdown_packets_silent : quiet.

Lemma gather_outbound_quiet now : preserves quiet (gather_outbound crc now).
Proof. unfold gather_outbound. quiet. Qed.
#[local] Hint Resolve gather_outbound_quiet : quiet.

Lemma poll_transmit_quiet now : preserves quiet (poll_transmit crc now).
Proof. unfold poll_transmit. quiet. Qed.
#[local] Hint Resolve poll_transmit_quiet : quiet.
End GatherFrames.

#[export] Hint Resolve push_event_silent with_timers_silent start_timer_silent restart_timer_if_stale_silent stop_timer_silent send_init_silent send_cookie_echo_silent refresh_unsent_reconfig_silent queue_stream_finished_silent remove_stream_silent unregister_stream_silent create_stream_silent get_or_create_stream_silent take_pending_completion_silent emit_reset_complete_silent emit_reset_failed_silent finish_reconfig_silent prune_deferred_reset_data_for_forward_tsn_silent apply_or_defer_ordered_forward_tsn_silent apply_or_defer_unordered_forward_tsn_silent apply_unordered_forward_tsn_to_current_streams_silent apply_deferred_forward_tsns_silent discard_deferred_forward_tsns_through_silent deliver_deferred_reset_data_silent deliver_and_forget_silent release_deferred_generation_data_silent release_deferred_reset_data_silent close_generation_silent retire_stream_silent inherit_stream_state_silent finish_retiring_loop_silent finish_retiring_stream_silent discard_retiring_streams_quiet generate_next_rsn_silent retire_registered_silent queue_reciprocal_silent reset_streams_if_any_silent mark_completed_silent reevaluate_requests_silent reevaluate_pending_reset_requests_silent handle_reconfig_param_silent handle_reconfig_silent advance_peer_last_tsn_quiet handle_peer_last_tsn_and_acknowledgement_quiet admit_data_silent handle_data_quiet ack_out_of_date_forward_tsn_silent handle_forward_tsn_quiet handle_i_forward_tsn_quiet measure_rtt_silent ack_cumulative_silent ack_gap_tsn_silent ack_gap_tsns_silent process_selective_ack_silent skip_abandoned_silent advance_peer_tsn_ack_point_silent release_stream_buffer_silent release_abandoned_buffer_silent abandon_if_needed_silent abandon_all_silent expire_tails_silent expire_inflight_messages_silent send_next_data_chunk_silent pop_pending_loop_silent pop_pending_data_chunks_to_send_silent retransmit_loop_silent mark_retransmitted_silent get_data_packets_to_retransmit_silent drain_control_silent restart_reconfig_timer_silent gather_outbound_control_packets_silent gather_data_packets_to_retransmit_silent send_reset_request_for_silent gather_outbound_data_and_reconfig_packets_silent fast_retransmit_loop_silent gather_outbound_fast_retransmission_packets_silent create_selective_ack_chunk_quiet gather_outbound_sack_packets_quiet gather_outbound_forward_tsn_packets_silent gather_outbound_shutdown_packets_silent gather_outbound_quiet poll_transmit_quiet : quiet.
