(* ===== verification/AssocMachine.v ===== *)
(** * The association's state machine and congestion window over every entry point

    [Call] lists what can be done to an association: a datagram arrives, a
    timer expires, the application polls or calls a method.  The theorems say
    which transitions of the state machine a chunk can cause and what holds of
    every association reachable by any sequence of calls. *)

From stdpp Require Import base list gmap numbers strings sets relations.
From Stdlib Require Import ZArith Lia ZifyBool.
From S2P Require Import Prelude Bytes Util Params Chunks Packet PayloadQueue PendingQueue OutboundQueue.
From S2P Require Import ReassemblyQueue Shared Stream Monad Timer Config Association AssocReset AssocRecv AssocSend AssocControl.
From S2P Require Import AssocFrame.

(** ** Transitions *)

Inductive transition : Chunk → AssociationState → AssociationState → Prop :=
| tr_init_ack i : is_ack i = true → transition (CInit i) CookieWait CookieEchoed
| tr_cookie_echo c st : st = Closed ∨ st = CookieWait ∨ st = CookieEchoed → transition (CCookieEcho c) st Established
| tr_cookie_ack : transition CCookieAck CookieEchoed Established
| tr_sack_pending d : transition (CSelectiveAck d) ShutdownPending ShutdownSent
| tr_sack_received d : transition (CSelectiveAck d) ShutdownReceived ShutdownAckSent
| tr_shutdown_data t : transition (CShutdown t) Established ShutdownReceived
| tr_shutdown t st : st = Established ∨ st = ShutdownSent → transition (CShutdown t) st ShutdownAckSent
| tr_shutdown_complete : transition CShutdownComplete ShutdownAckSent Closed
| tr_abort causes st : existsb (λ e, ec_code e =? USER_INITIATED_ABORT) causes = true → transition (CAbort causes) st Closed.

(** ** Composing transitions *)

(** The congestion window never falls below one packet, and every product and sum of window
    arithmetic that starts from it fits 32 bits. *)
Definition window_ok (a : Association) : Prop := 0 < mtu a ∧ 4 * mtu a < 2 ^ 32 ∧ mtu a <= cwnd a < 2 ^ 32.

(** Neither the state machine nor the handshake flag moves, and the window stays in bounds. *)
Record calm (a a' : Association) : Prop := mk_calm {
  c_state : state a' = state a;
  c_handshake : handshake_completed a' = handshake_completed a;
  c_window : window_ok a → window_ok a';
}.
#[export] Instance calm_refl : Reflexive calm.
Proof. done. Qed.
#[export] Instance calm_trans : Transitive calm.
Proof. intros ??? [] []. constructor; [congruence..|auto]. Qed.

Lemma quiet_calm_step a a' : quiet a a' → calm a a'.
Proof. intros []. constructor; [done..|]. unfold window_ok. congruence. Qed.

Lemma quiet_calm {A} (m : AM A) : preserves quiet m → preserves calm m.
Proof. intros Hm a. eapply holds_mono; [apply Hm|intros ??; apply quiet_calm_step..]. Qed.

Ltac calm :=
  repeat first [ preserves_step
    | solve [auto with quiet]
    | apply quiet_calm; solve [auto with quiet]
    | solve [repeat case_match; constructor; try reflexivity; done] ].

(** From state [st] a method stays, or moves where [T] allows; an error stays. *)
Definition moves_from {A} (T : AssociationState → Prop) (st : AssociationState) (m : AM A) : Prop :=
  ∀ a, state a = st → holds True m (λ _ a', state a' = st ∨ T (state a')) (λ _ a', state a' = st) a.

Section Moves.
Context (T : AssociationState → Prop) (st : AssociationState).

Lemma moves_same {A} (m : AM A) : preserves calm m → moves_from T st m.
Proof. intros Hm a <-. eapply holds_mono; [apply Hm|intros ?? []; by left|by intros ?? []]. Qed.

Lemma moves_bind {A B} (m : AM A) (f : A → AM B) :
  preserves calm m → (∀ r, moves_from T st (f r)) → moves_from T st (m ≫= f).
Proof.
  intros Hm Hf a <-. apply holds_bind. eapply holds_mono; [apply Hm| |by intros ?? []].
  intros r a' []. by apply Hf.
Qed.

Lemma moves_self {B} (f : Association → AM B) :
  (∀ a, state a = st → moves_from T st (f a)) → moves_from T st (self ≫= f).
Proof. intros Hf a Ha. apply holds_bind, holds_self. by apply Hf. Qed.

(** After the move only updates of other fields follow. *)
Lemma moves_then {A B} (m : AM A) (f : A → AM B) :
  moves_from T st m → (∀ r a, holds True (f r) (λ _ a', state a' = state a) (λ _ _, False) a) → moves_from T st (m ≫= f).
Proof.
  intros Hm Hf a Ha. apply holds_bind. eapply holds_mono; [by apply Hm| |done].
  intros r a' Ha'. eapply holds_mono; [apply Hf|by intros ?? ->|done].
Qed.

Lemma moves_set_state st' : T st' → moves_from T st (set_state st').
Proof. intros ? a ?. apply holds_modify. by right. Qed.

Lemma moves_ret {A} (r : A) : moves_from T st (mret r).
Proof. intros a Ha. apply holds_ret. by left. Qed.
End Moves.

Section Machine.
Context {I : MapIter} (fresh_cookie : Bytes).

Lemma checked_add_Ok w a b c : checked_add w a b = Ok c → c = a + b ∧ c < 2 ^ w.
Proof. unfold checked_add. case_match eqn:E; [|done]. intros [= <-]. lia. Qed.

Lemma checked_mul_Ok w a b c : checked_mul w a b = Ok c → c = a * b ∧ c < 2 ^ w.
Proof. unfold checked_mul. case_match eqn:E; [|done]. intros [= <-]. lia. Qed.

(** Opening the window by a number of bytes that was checked not to overflow. *)
Lemma grow_window_calm a n (f : Association → Association) :
  0 <= n → (∀ b, quiet b (f b)) →
  ∀ b, quiet a b →
  holds True (c ← lift (checked_add 32 (cwnd a) n); modify (λ b, f b <| cwnd := c |>))
    (λ _, calm a) (λ _, calm a) b.
Proof.
  intros Hn Hf b Hq. apply holds_bind, holds_lift; [|intros ??; by apply quiet_calm_step|done].
  intros c [-> Hc]%checked_add_Ok. apply holds_modify. destruct (quiet_trans _ _ _ Hq (Hf b)).
  constructor; cbn; [done..|]. unfold window_ok. cbn. lia.
Qed.

Lemma on_cumulative_calm n now : preserves calm (on_cumulative_tsn_ack_point_advanced n now).
Proof.
  intros a. unfold on_cumulative_tsn_ack_point_advanced. apply holds_bind, holds_self, holds_bind.
  assert (preserves quiet (if inflight_len (outbound_queue a) =? 0 then stop_timer T3RTX else restart_timer_if_stale T3RTX now))
    as Ht by (preserves).
  eapply holds_mono; [apply Ht| |intros ??; apply quiet_calm_step]. intros [] b Hq; simpl in Hq.
  pose proof (wrap_uN 32 n ltac:(lia)) as [Hn _].
  assert (window_ok a → 0 <= cwnd a) as Hc by (unfold window_ok; lia).
  destruct (cwnd a <=? ssthresh a); [apply holds_when; [intros _|intros _; by apply quiet_calm_step]|].
  - destruct (decide (0 <= cwnd a)); [apply (grow_window_calm a _ (λ b, b)); [lia|done|done]|].
    apply holds_bind, holds_lift; [intros c Hc'|intros ??; by apply quiet_calm_step|done].
    apply holds_modify. destruct Hq. constructor; cbn; [done..|]. tauto.
  - apply holds_bind, holds_lift; [|intros ??; by apply quiet_calm_step|done].
    intros p _. apply holds_bind, holds_modify. set (b' := b <| _ := _ |>).
    assert (quiet a b') as Hq' by (etrans; [exact Hq|by constructor]). clearbody b'.
    apply holds_when; [intros _|intros _; by apply quiet_calm_step].
    destruct (decide (0 <= mtu a)); [by apply (grow_window_calm a _ (λ b, b <| partial_bytes_acked := p - cwnd b |>))|].
    apply holds_bind, holds_lift; [intros c Hc'|intros ??; by apply quiet_calm_step|done].
    apply holds_modify. destruct Hq'. constructor; cbn; [done..|]. unfold window_ok. lia.
Qed.

Lemma enter_fast_recovery_calm t : preserves calm (enter_fast_recovery t).
Proof.
  intros a. unfold enter_fast_recovery. apply holds_bind, holds_self, holds_bind, holds_lift; [|done..].
  intros m [-> Hm]%checked_mul_Ok. apply holds_modify. constructor; [done..|]. unfold window_ok. cbn.
  pose proof (Z.div_le_upper_bound (cwnd a) 2 (cwnd a)). lia.
Qed.

Lemma count_misses_calm fuel t m h : preserves calm (count_misses fuel t m h).
Proof.
  revert t; induction fuel as [|fuel IH]; intros; cbn [count_misses]; calm; apply enter_fast_recovery_calm.
Qed.

Lemma process_fast_retransmission_calm c h b : preserves calm (process_fast_retransmission c h b).
Proof. unfold process_fast_retransmission. calm. apply count_misses_calm. Qed.
#[local] Hint Resolve on_cumulative_calm process_fast_retransmission_calm : quiet.

Lemma handle_sack_moves d now st : moves_from (transition (CSelectiveAck d) st) st (handle_sack d now).
Proof.
  unfold handle_sack. apply moves_self. intros a Ha. case_match; [apply moves_ret|].
  apply moves_bind; [calm|intros _]. case_match; [apply moves_ret|].
  apply moves_bind; [calm|intros [m h]]. apply moves_bind; [calm|intros a1]. apply moves_bind; [calm|intros n].
  apply moves_bind; [calm|intros _]. apply moves_bind; [calm|intros _]. apply moves_bind; [calm|intros _].
  apply moves_bind; [calm|intros _]. apply moves_bind; [calm|intros a2]. apply moves_bind; [calm|intros _].
  apply moves_then; [|intros; by apply holds_ret]. subst st.
  unfold postprocess_sack. apply moves_self. intros a3 _. case_match; [apply moves_same; calm|].
  destruct (decide (state a = ShutdownPending)) as [E|E];
    [rewrite (bool_decide_true _ E)|rewrite (bool_decide_false _ E); clear E;
     destruct (decide (state a = ShutdownReceived)) as [E|E];
     [rewrite (bool_decide_true _ E)|rewrite (bool_decide_false _ E); apply moves_ret]];
    (apply moves_bind; [calm|intros _]; apply moves_set_state; rewrite E; constructor).
Qed.

(** ** Handshake, shutdown and closing *)

Lemma apply_remote_init_params_calm t w ps : preserves calm (apply_remote_init_params t w ps).
Proof. unfold apply_remote_init_params. calm. Qed.
#[local] Hint Resolve apply_remote_init_params_calm : quiet.

Lemma handle_init_calm p i : preserves calm (handle_init fresh_cookie p i).
Proof. unfold handle_init. calm. Qed.

Lemma handle_init_ack_moves p i now st :
  is_ack i = true → moves_from (transition (CInit i) st) st (handle_init_ack p i now).
Proof.
  intros Hi. unfold handle_init_ack. apply moves_self. intros a <-. case_bool_decide as E; [|apply moves_ret].
  cbn [negb]. apply moves_bind; [calm|intros _]. case_match; [apply moves_ret|].
  do 3 (apply moves_bind; [calm|intros _]). case_match; [|apply moves_same; calm].
  do 3 (apply moves_bind; [calm|intros _]). apply moves_then; [|intros; by apply holds_ret].
  apply moves_set_state. rewrite E. by constructor.
Qed.

Lemma handle_cookie_echo_moves c st : moves_from (transition (CCookieEcho c) st) st (handle_cookie_echo c).
Proof.
  unfold handle_cookie_echo. apply moves_self. intros a <-. case_match; [|apply moves_ret].
  case_match; [apply moves_ret|]. case_match eqn:E; try apply moves_ret.
  all: do 5 (apply moves_bind; [calm|intros _]).
  all: apply moves_then; [apply moves_set_state; constructor; auto|intros; by apply holds_bind, holds_modify].
Qed.

Lemma handle_cookie_ack_moves st : moves_from (transition CCookieAck st) st handle_cookie_ack.
Proof.
  unfold handle_cookie_ack. apply moves_self. intros a <-. case_bool_decide as E; [|apply moves_ret].
  cbn [negb]. do 3 (apply moves_bind; [calm|intros _]).
  apply moves_then; [apply moves_set_state; rewrite E; constructor|intros; by apply holds_bind, holds_modify].
Qed.

Lemma handle_shutdown_moves t st : moves_from (transition (CShutdown t) st) st handle_shutdown.
Proof.
  unfold handle_shutdown. apply moves_self. intros a <-. apply moves_then; [|intros; by apply holds_ret].
  case_match eqn:E; try apply moves_ret.
  - case_match; [apply moves_set_state; constructor|]. apply moves_bind; [calm|intros _]. apply moves_set_state. constructor. auto.
  - apply moves_bind; [calm|intros _]. apply moves_set_state. constructor. auto.
Qed.

(** ** Closing *)

Definition final_report (s : StreamState) : Event.t := Event.DataChannelStatsFinal (ss_stats s).

Lemma unregister_all ids a :
  NoDup ids →
  holds False (for_each ids (λ id, unregister_stream id false))
    (λ _ a', streams a' = foldr delete (streams a) ids ∧
       events a' = events a ++ omap (λ id, final_report <$> streams a !! id) ids ∧
       quiet a a' ∧ timers a' = timers a ∧ outbound_queue a' = outbound_queue a ∧ payload_queue a' = payload_queue a)
    (λ _ _, False) a.
Proof.
  revert a; induction ids as [|id ids IH]; intros a Hnd.
  { apply holds_ret. cbn. rewrite app_nil_r. done. }
  apply NoDup_cons in Hnd as [Hid Hnd]. cbn [for_each]. apply holds_bind. unfold unregister_stream, remove_stream.
  do 2 apply holds_bind. apply holds_gets. destruct (streams a !! id) as [s|] eqn:Es.
  - do 2 (apply holds_bind, holds_modify). apply holds_ret, holds_when; [done|intros _].
    set (a1 := _ <| events ::= _ |>). eapply holds_mono; [by apply IH| |done].
    intros _ a' (Hs & He & Hq & Ht & Ho & Hp).
    assert (streams a1 = delete id (streams a)) as E1 by done.
    assert (events a1 = events a ++ [final_report s]) as E2 by done.
    assert (quiet a a1) as Hq1 by (constructor; reflexivity).
    split_and!; [| |by etrans|done..]; clearbody a1.
    + rewrite Hs, E1. cbn. clear. induction ids as [|j l IHl]; [done|]. cbn. by rewrite IHl, delete_delete.
    + rewrite He, E1, E2, <- app_assoc. cbn. rewrite Es. cbn. do 2 f_equal.
      clear -Hid. induction ids as [|j l IHl]; [done|]. cbn. rewrite lookup_delete_ne by set_solver.
      rewrite IHl by set_solver. done.
  - apply holds_ret, holds_when; [done|intros _]. eapply holds_mono; [by apply IH| |done].
    intros _ a' (Hs & He & ?). split_and!; try tauto.
    + rewrite Hs. cbn. symmetry. apply delete_id. clear -Es. induction ids as [|j l IHl]; [done|]. cbn.
      destruct (decide (j = id)) as [->|]; [apply lookup_delete_eq|by rewrite lookup_delete_ne].
    + rewrite He. cbn. by rewrite Es.
Qed.

Context {L : MapIterLaws I}.

Lemma keys_NoDup {A} (m : gmap Z A) : NoDup (keys m).
Proof. unfold keys. rewrite (entries_law A m). apply NoDup_fst_map_to_list. Qed.

Lemma elem_of_keys {A} (m : gmap Z A) k : k ∈ keys m ↔ is_Some (m !! k).
Proof.
  unfold keys. rewrite (entries_law A m), list_elem_of_fmap. split.
  - intros ([k' x] & -> & H%elem_of_map_to_list). eauto.
  - intros [x Hx]. exists (k, x). by rewrite elem_of_map_to_list.
Qed.

Lemma delete_all_keys {A} (m : gmap Z A) l : (∀ k, is_Some (m !! k) → k ∈ l) → foldr delete m l = ∅.
Proof.
  intros H. apply map_empty. intros k. destruct (decide (k ∈ l)) as [Hk|Hk].
  - clear H. induction l as [|j l IH]; [set_solver|]. cbn. rewrite lookup_delete. case_decide; [done|].
    apply IH. set_solver.
  - assert (m !! k = None) as Hm by (destruct (m !! k) eqn:E; [exfalso; apply Hk, H; eauto|done]).
    clear H Hk. induction l as [|j l IH]; [done|]. cbn. rewrite lookup_delete. by case_decide.
Qed.

Lemma omap_entries {A B} (f : A → B) (m : gmap Z A) :
  omap (λ k, f <$> m !! k) (keys m) ≡ₚ (λ e, f e.2) <$> map_to_list m.
Proof.
  unfold keys. rewrite (entries_law A m).
  assert (∀ l, (∀ e, e ∈ l → m !! e.1 = Some e.2) → omap (λ k, f <$> m !! k) l.*1 = (λ e, f e.2) <$> l) as H.
  { induction l as [|e l IH]; intros Hl; [done|]. cbn. rewrite (Hl e) by left. cbn. f_equal. apply IH. set_solver. }
  rewrite H; [done|]. intros [k x] Hx%elem_of_map_to_list. done.
Qed.

Lemma close_all_timers_holds a :
  holds False close_all_timers
    (λ _ a', (∀ t, timer_get (timers a') t = None) ∧ quiet a a' ∧ streams a' = streams a ∧ events a' = events a ∧
       outbound_queue a' = outbound_queue a ∧ payload_queue a' = payload_queue a) (λ _ _, False) a.
Proof.
  unfold close_all_timers, Timer_VALUES, stop_timer. cbn [for_each]. do 6 apply holds_bind, holds_modify.
  apply holds_ret. split_and!; try done. by intros [].
Qed.

(** What closing leaves behind. *)
Record closed_down (reason : AssociationError.t) (a a' : Association) : Prop := mk_closed_down {
  cd_state : state a' = Closed;
  cd_timers : ∀ t, timer_get (timers a') t = None;
  cd_streams : streams a' = ∅;
  cd_control : control_queue a' = [];
  cd_reset : reconfigs a' = ∅ ∧ reconfig_requests a' = ∅ ∧ active_reconfig a' = None ∧
    pending_reset_streams a' = [] ∧ pending_reset_completions a' = ∅ ∧ retiring_streams a' = ∅ ∧
    deferred_reset_data a' = ∅ ∧ deferred_forward_tsns a' = ∅;
  cd_events : ∃ finals, events a' = events a ++ finals ++ [Event.AssociationLost reason] ∧
    finals ≡ₚ (λ e, final_report e.2) <$> map_to_list (streams a);
  cd_window : mtu a' = mtu a ∧ cwnd a' = cwnd a ∧ ssthresh a' = ssthresh a;
  cd_kept : handshake_completed a' = handshake_completed a ∧ my_cookie a' = my_cookie a ∧
    outbound_queue a' = outbound_queue a ∧ payload_queue a' = payload_queue a;
}.

Lemma close_with_reason_holds r a :
  state a ≠ Closed → holds False (close_with_reason r) (λ _, closed_down r a) (λ _ _, False) a.
Proof.
  intros Hst. unfold close_with_reason. apply holds_bind, holds_self. rewrite bool_decide_false by done. cbn [negb when].
  apply holds_bind, holds_modify, holds_bind. eapply holds_mono; [apply close_all_timers_holds| |done].
  intros _ a1 (Ht1 & Hq1 & Hs1 & He1 & Ho1 & Hp1). apply holds_bind, holds_gets, holds_bind.
  eapply holds_mono; [apply unregister_all, keys_NoDup| |done].
  intros _ a2 (Hs2 & He2 & Hq2 & Ht2 & Ho2 & Hp2). apply holds_bind, holds_modify, holds_modify.
  destruct Hq1, Hq2. cbn in *. constructor; cbn; try done; try congruence; try (split_and!; congruence).
  - rewrite Hs2. apply delete_all_keys. intros k. apply elem_of_keys.
  - eexists. rewrite He2, He1, <- app_assoc. split; [done|]. rewrite Hs1. apply omap_entries.
Qed.

(** Claim C23.  Closing an open association leaves nothing running: no timer is armed, no stream, control
    packet or reset state remains, and the application gets the final report of every stream and
    then exactly one [AssociationLost]; unacknowledged data and the congestion window are left
    as they are.  Closing a closed association does nothing. *)
Theorem close_spec reason a :
  if bool_decide (state a = Closed) then close_with_reason reason a = ROk tt a
  else ∃ a', close_with_reason reason a = ROk tt a' ∧ closed_down reason a a'.
Proof.
  case_bool_decide as E.
  - unfold close_with_reason. run. by rewrite E.
  - pose proof (close_with_reason_holds reason a E) as H. unfold holds in H.
    destruct (close_with_reason reason a) as [[] a'| | |]; [by eauto|done..].
Qed.

Lemma close_holds r a : holds True (close_with_reason r) (λ _ a', state a' = Closed) (λ _ _, False) a.
Proof.
  destruct (decide (state a = Closed)) as [E|E].
  - unfold close_with_reason. apply holds_bind, holds_self. by rewrite bool_decide_true.
  - pose proof (close_with_reason_holds r a E) as H. unfold holds in *. destruct (close_with_reason r a); try done. apply H.
Qed.

Lemma close_moves (T : AssociationState → Prop) st r : T Closed → moves_from T st (close_with_reason r).
Proof. intros HT a Ha. eapply holds_mono; [apply close_holds|intros ?? ->; by right|done]. Qed.

Lemma handle_shutdown_complete_moves st : moves_from (transition CShutdownComplete st) st handle_shutdown_complete.
Proof.
  unfold handle_shutdown_complete. apply moves_self. intros a <-. apply moves_then; [|intros; by apply holds_ret].
  case_bool_decide as E; [|apply moves_ret]. cbn [when]. apply moves_bind; [calm|intros _].
  apply close_moves. rewrite E. constructor.
Qed.

Lemma handle_abort_moves causes st : moves_from (transition (CAbort causes) st) st (handle_abort causes).
Proof.
  unfold handle_abort. case_match eqn:E; [|apply moves_same; calm]. unfold ignore. apply moves_then; [|intros; by apply holds_ret].
  intros a Ha. apply holds_attempt. eapply holds_mono; [apply close_holds|intros ?? ->; right; by constructor|done].
Qed.

Lemma enqueue_moves {T : AssociationState → Prop} {st} (m : AM (list Packet)) :
  moves_from T st m → moves_from T st (m ≫= enqueue_control).
Proof. intros Hm. apply moves_then; [done|]. intros r a. by apply holds_modify. Qed.

Lemma handle_chunk_moves p c now st : moves_from (transition c st) st (handle_chunk fresh_cookie p c now).
Proof.
  unfold handle_chunk. apply moves_bind; [calm|intros _].
  destruct c; try apply enqueue_moves; try apply handle_abort_moves; try (apply moves_same; solve [calm]);
    auto using handle_cookie_echo_moves, handle_cookie_ack_moves, handle_sack_moves, handle_shutdown_moves,
      handle_shutdown_complete_moves.
  - destruct (is_ack c) eqn:E; [by apply handle_init_ack_moves|apply moves_same, handle_init_calm].
  - apply moves_same. unfold handle_shutdown_ack. calm.
Qed.

(** Claim C22.  The state machine moves only along its edges: handling a chunk leaves the association's
    state alone or takes the transition this chunk stands for (COOKIE ECHO to ESTABLISHED,
    SHUTDOWN to SHUTDOWN-ACK-SENT, and so on); when handling it fails the state is unchanged. *)
Theorem handle_chunk_transition p c now a a' :
  (∀ r, handle_chunk fresh_cookie p c now a = ROk r a' → state a' = state a ∨ transition c (state a) (state a')) ∧
  (∀ e, handle_chunk fresh_cookie p c now a = RErr e a' → state a' = state a).
Proof.
  pose proof (handle_chunk_moves p c now (state a) a eq_refl) as H. unfold holds in H.
  split; intros ? E; by rewrite E in H.
Qed.

(** ** What holds of every reachable association *)

Definition past_handshake (st : AssociationState) : bool :=
  match st with Closed | CookieWait | CookieEchoed => false | _ => true end.

Definition assoc_inv (a : Association) : Prop :=
  window_ok a ∧ (past_handshake (state a) = true → handshake_completed a = true).

(** The handshake flag is never taken back and the window stays in bounds. *)
Record flags (a a' : Association) : Prop := mk_flags {
  f_handshake : handshake_completed a = true → handshake_completed a' = true;
  f_window : window_ok a → window_ok a';
}.
#[local] Instance flags_refl : Reflexive flags.
Proof. done. Qed.
#[local] Instance flags_trans : Transitive flags.
Proof. intros ??? [] []. constructor; auto. Qed.

Lemma calm_flags {A} (m : AM A) : preserves calm m → preserves flags m.
Proof. intros Hm a. eapply holds_mono; [apply Hm|intros ?? [_ E ?]; constructor; by rewrite ?E..]. Qed.

Lemma close_flags r : preserves flags (close_with_reason r).
Proof.
  intros a. destruct (decide (state a = Closed)) as [E|E].
  - unfold close_with_reason. apply holds_bind, holds_self. by rewrite bool_decide_true.
  - pose proof (close_with_reason_holds r a E) as H. unfold holds in *. destruct (close_with_reason r a) as [? a'| | |]; try done.
    destruct H as [_ _ _ _ _ _ (Hm & Hc & _) (Hh & _)]. constructor; [by rewrite Hh|]. unfold window_ok. congruence.
Qed.
#[local] Hint Resolve close_flags : quiet.

Ltac flags :=
  repeat first [ preserves_step
    | solve [auto with quiet]
    | apply calm_flags; solve [calm]
    | solve [repeat case_match; constructor; (done || reflexivity || tauto)] ].

Lemma handle_chunk_flags p c now : preserves flags (handle_chunk fresh_cookie p c now).
Proof.
  unfold handle_chunk, enqueue_control, handle_sack, postprocess_sack, set_state, handle_init_ack, handle_cookie_echo,
    handle_cookie_ack, handle_shutdown, handle_shutdown_ack, handle_shutdown_complete, handle_heartbeat, handle_abort,
    close, set_state.
  flags. apply calm_flags, handle_init_calm.
Qed.

(** The handshake flag is set when the handshake completes. *)
Lemma cookie_completes a c :
  (c = CCookieAck ∨ ∃ cookie, c = CCookieEcho cookie) →
  ∀ p now, holds True (handle_chunk fresh_cookie p c now)
    (λ _ a', state a' = Established → state a ≠ Established → handshake_completed a' = true) (λ _ _, True) a.
Proof.
  intros Hc p now. unfold handle_chunk. destruct Hc as [->|[cookie ->]]; apply holds_bind, holds_lift; try done; intros _ _.
  - unfold handle_cookie_ack, enqueue_control, set_state, push_event, stop_timer.
    do 2 apply holds_bind; apply holds_self. case_bool_decide; cbn [negb]; repeat holds_step; intros; cbn in *; try done; congruence.
  - unfold handle_cookie_echo, enqueue_control, set_state, push_event, stop_timer.
    do 2 apply holds_bind; apply holds_self. repeat case_match; repeat holds_step; intros; cbn in *; try done; congruence.
Qed.

Lemma transition_handshake c st st' :
  transition c st st' → past_handshake st' = true →
  past_handshake st = true ∨
  ((c = CCookieAck ∨ ∃ cookie, c = CCookieEcho cookie) ∧ st' = Established ∧ st ≠ Established).
Proof.
  destruct 1 as [| ? st Hst| | | | | ? st Hst | |]; intros Hp; try done; eauto 7.
  - right. split; [eauto|]. split; [done|]. by destruct Hst as [->|[->| ->]].
  - left. by destruct Hst as [->| ->].
Qed.

Definition keeps (a a' : Association) : Prop := assoc_inv a → assoc_inv a'.
#[local] Instance keeps_refl : Reflexive keeps.
Proof. intros a ?. done. Qed.
#[local] Instance keeps_trans : Transitive keeps.
Proof. unfold keeps. intros ??? ???. auto. Qed.

Lemma calm_keeps_step a a' : calm a a' → keeps a a'.
Proof. intros [E1 E2 ?] [? Ha]. split; rewrite ?E1, ?E2; auto. Qed.

Lemma calm_keeps {A} (m : AM A) : preserves calm m → preserves keeps m.
Proof. intros Hm a. eapply holds_mono; [apply Hm|intros ??; apply calm_keeps_step..]. Qed.

Lemma handle_chunk_keeps p c now : preserves keeps (handle_chunk fresh_cookie p c now).
Proof.
  intros a.
  pose proof (handle_chunk_moves p c now (state a) a eq_refl) as H1.
  pose proof (handle_chunk_flags p c now a) as H2.
  pose proof (holds_and _ _ _ _ _ _ _ H1 H2) as H. clear H1 H2.
  assert (holds True (handle_chunk fresh_cookie p c now) (λ _ a',
    (c = CCookieAck ∨ ∃ cookie, c = CCookieEcho cookie) → state a' = Established → state a ≠ Established →
    handshake_completed a' = true) (λ _ _, True) a) as H3.
  { destruct (handle_chunk fresh_cookie p c now a) as [r a'| | |] eqn:E; unfold holds; rewrite E; try done.
    intros Hc. pose proof (cookie_completes a c Hc p now) as H'. unfold holds in H'. by rewrite E in H'. }
  pose proof (holds_and _ _ _ _ _ _ _ H H3) as H4. eapply holds_mono; [exact H4| |].
  - intros r a' [[Hm [Hf Hw]] Hc] [Hwin Hh]. split; [auto|]. intros Hp. destruct Hm as [Hs|Ht]; [rewrite Hs in Hp; auto|].
    destruct (transition_handshake _ _ _ Ht Hp) as [?|(? & ? & ?)]; auto.
  - intros e a' [[Hm [Hf Hw]] _] [Hwin Hh]. split; [auto|]. rewrite Hm. auto.
Qed.

Lemma close_keeps r : preserves keeps (close_with_reason r).
Proof.
  intros a. pose proof (holds_and _ _ _ _ _ _ _ (close_holds r a) (close_flags r a)) as H.
  eapply holds_mono; [exact H|intros ?? [Hs []] [? _]; split; [auto|by rewrite Hs]|by intros ?? []].
Qed.

Lemma shutdown_keeps : preserves keeps shutdown.
Proof.
  intros a. unfold shutdown, set_state. apply holds_bind, holds_self. case_bool_decide as E; cbn [negb]; [|by apply holds_throw].
  apply holds_bind, holds_modify, holds_bind, holds_when; intros _; repeat holds_step.
  all: intros [? Hh]; split; [done|]; intros _; apply Hh; by rewrite E.
Qed.

Lemma on_retransmission_timeout_calm t : preserves calm (on_retransmission_timeout t).
Proof.
  destruct t; unfold on_retransmission_timeout; try solve [calm].
  apply preserves_bind; [apply _|calm|intros a]. apply preserves_bind; [apply _|calm|intros m].
  apply preserves_bind; [apply _| |intros _; calm]. apply preserves_modify. intros b. constructor; [done..|].
  unfold window_ok. cbn. lia.
Qed.

Lemma on_retransmission_failure_calm t : preserves calm (on_retransmission_failure t).
Proof. destruct t; unfold on_retransmission_failure; calm. Qed.
#[local] Hint Resolve on_retransmission_timeout_calm on_retransmission_failure_calm : quiet.

Lemma handle_timeout_calm now : preserves calm (handle_timeout now).
Proof. unfold handle_timeout, on_ack_timeout. calm. Qed.

(** ** Entry points *)

Context {B : BufApi} (crc : Bytes → u32).

Inductive Call : Type :=
| CallDatagram (event : AssociationEvent)
| CallTimeout (now : Instant)
| CallTransmit (now : Instant)
| CallPoll
| CallPollEndpoint
| CallOpenStream (id : u16) (ppi : PayloadProtocolIdentifier)
| CallAcceptStream
| CallWrite (id : u16) (data : Bytes) (ppi : PayloadProtocolIdentifier)
| CallWriteChunks (id : u16) (data : list Bytes) (ppi : PayloadProtocolIdentifier)
| CallRead (id : u16)
| CallFinish (id : u16)
| CallStop (id : u16)
| CallReliability (id : u16) (unordered : bool) (typ : ReliabilityType) (value : u32)
| CallPayloadType (id : u16) (ppi : PayloadProtocolIdentifier)
| CallLowThreshold (id : u16) (th : usize)
| CallHighThreshold (id : u16) (th : usize)
| CallMaxSend (value : u32)
| CallMaxReceive (value : u32)
| CallShutdown
| CallClose.

(** Values returned to the application do not matter here. *)
Definition drop_value {A} (m : AM A) : AM unit := m ≫= λ _, mret tt.

Definition run_call (c : Call) : AM unit :=
  match c with
  | CallDatagram event => handle_event fresh_cookie event
  | CallTimeout now => handle_timeout now
  | CallTransmit now => drop_value (poll_transmit crc now)
  | CallPoll => drop_value poll
  | CallPollEndpoint => drop_value poll_endpoint_event
  | CallOpenStream id ppi => open_stream id ppi
  | CallAcceptStream => drop_value accept_stream
  | CallWrite id data ppi => drop_value (write_source id data ppi)
  | CallWriteChunks id data ppi => drop_value (write_source id (BytesArray_from_chunks data) ppi)
  | CallRead id => drop_value (read_sctp id)
  | CallFinish id => stream_finish id
  | CallStop id => stream_stop id
  | CallReliability id unordered typ value => set_reliability_params id unordered typ value
  | CallPayloadType id ppi => set_default_payload_type id ppi
  | CallLowThreshold id th => set_buffered_amount_low_threshold id th
  | CallHighThreshold id th => set_buffered_amount_high_threshold id th
  | CallMaxSend value => set_max_send_message_size value
  | CallMaxReceive value => set_max_receive_message_size value
  | CallShutdown => shutdown
  | CallClose => close
  end.

(** A call that returned, with or without an error. *)
Definition assoc_step (a a' : Association) : Prop :=
  ∃ c, (∃ r, run_call c a = ROk r a') ∨ (∃ e, run_call c a = RErr e a').

#[local] Hint Resolve close_keeps shutdown_keeps handle_chunk_keeps : quiet.

Ltac keeps :=
  repeat first [ preserves_step
    | solve [auto with quiet]
    | apply calm_keeps; solve [calm]
    | solve [apply calm_keeps, quiet_calm; auto with quiet]
    | solve [apply calm_keeps_step; repeat case_match; constructor; done] ].

Lemma handle_inbound_keeps p now : preserves keeps (handle_inbound fresh_cookie p now).
Proof. unfold handle_inbound, handle_chunk_start, handle_chunk_end. keeps. Qed.
#[local] Hint Resolve handle_inbound_keeps : quiet.

Lemma abort_receive_capacity_keeps : preserves keeps abort_receive_capacity.
Proof. unfold abort_receive_capacity. keeps. Qed.
#[local] Hint Resolve abort_receive_capacity_keeps : quiet.

Lemma abort_if_exhausted_keeps : preserves keeps abort_if_exhausted.
Proof. unfold abort_if_exhausted. keeps. Qed.
#[local] Hint Resolve abort_if_exhausted_keeps : quiet.

Lemma handle_event_keeps event : preserves keeps (handle_event fresh_cookie event).
Proof. unfold handle_event, close. keeps. Qed.
#[local] Hint Resolve handle_event_keeps : quiet.

Lemma handles_quiet :
  preserves quiet poll ∧ preserves quiet poll_endpoint_event ∧ preserves quiet accept_stream ∧
  (∀ id p, preserves quiet (open_stream id p)) ∧ (∀ id, preserves quiet (get_stream id)) ∧
  (∀ id s, preserves quiet (put_stream id s)) ∧ (∀ l, preserves quiet (send_payload_data l)) ∧
  (∀ id, preserves quiet (send_reset_request id)) ∧ (∀ id, preserves quiet (stream_finish id)) ∧
  (∀ id g m, preserves quiet (count_received id g m)).
Proof.
  unfold poll, take_finish, poll_endpoint_event, accept_stream, open_stream, get_stream, put_stream, send_payload_data,
    send_reset_request, stream_finish, count_received, put_stream.
  split_and!; intros; quiet.
Qed.

Lemma read_sctp_keeps id : preserves keeps (read_sctp id).
Proof.
  destruct handles_quiet as (_ & _ & _ & _ & ? & ? & _ & _ & _ & ?). unfold read_sctp. keeps.
Qed.

Lemma write_source_keeps {T} `{BytesSource T} id (source : T) ppi : preserves keeps (write_source id source ppi).
Proof.
  destruct handles_quiet as (_ & _ & _ & _ & ? & ? & ? & _). unfold write_source. keeps.
Qed.

Lemma stream_stop_keeps id : preserves keeps (stream_stop id).
Proof.
  destruct handles_quiet as (_ & _ & _ & _ & _ & _ & _ & ? & _). unfold stream_stop. keeps.
Qed.
#[local] Hint Resolve read_sctp_keeps write_source_keeps stream_stop_keeps : quiet.

Lemma run_call_keeps c : preserves keeps (run_call c).
Proof.
  destruct handles_quiet as (? & ? & ? & ? & ? & ? & _ & _ & ? & _).
  destruct c; unfold run_call, drop_value, close; keeps; try (apply calm_keeps, handle_timeout_calm).
  all: unfold set_reliability_params, set_default_payload_type, set_buffered_amount_low_threshold,
         set_buffered_amount_high_threshold, set_max_send_message_size, set_max_receive_message_size; keeps.
Qed.

(** ** A fresh association *)

Lemma new_common_inv config max_payload_size remote ip side tag tsn a :
  0 <= max_payload_size → new_common config max_payload_size remote ip side tag tsn = Ok a →
  window_ok a ∧ state a = Closed.
Proof.
  intros Hm. unfold new_common. intros H.
  apply bind_Ok in H as (m & [-> _]%checked_add_Ok & H). apply bind_Ok in H as (mtu & [-> _]%checked_add_Ok & H).
  apply bind_Ok in H as (m4 & [-> Hm4]%checked_mul_Ok & H). apply bind_Ok in H as (m2 & [-> _]%checked_mul_Ok & H).
  apply Ok_Association_inj in H as <-. split; [|done]. unfold window_ok, COMMON_HEADER_SIZE, DATA_CHUNK_HEADER_SIZE in *. cbn in *. lia.
Qed.

Definition initial_association (a : Association) : Prop :=
  ∃ config max_payload_size remote ip, 0 <= max_payload_size ∧
    ((∃ for_server tag tsn now, Association_new for_server config max_payload_size tag remote ip tsn now = Ok a) ∨
     (∃ local_init remote_init,
        new_with_out_of_band_init config max_payload_size remote ip local_init remote_init = Ok a)).

Lemma initial_association_inv a : initial_association a → assoc_inv a.
Proof.
  intros (config & m & remote & ip & Hm & [(for_server & tag & tsn & now & H)|(li & ri & H)]).
  - unfold Association_new in H. apply bind_Ok in H as (this & [Hw Hs]%new_common_inv & H); [|done].
    destruct for_server; [change (is_client _) with false in H|change (is_client _) with true in H]; cbv iota in H.
    { apply Ok_Association_inj in H as <-. split; [done|]. by rewrite Hs. }
    revert H. apply construct_Ok. apply holds_bind, holds_modify, holds_bind, holds_modify.
    match goal with |- holds _ _ _ _ ?a1 => assert (window_ok a1 ∧ state a1 = CookieWait) as [Hw1 Hs1] by done; generalize dependent a1 end.
    clear Hs Hw this. intros this Hw Hs. assert (preserves calm (ignore send_init;; start_timer T1Init now)) as Hc by calm.
    eapply holds_mono; [apply Hc| |done]. intros _ a' [Hs' _ ?]. split; [auto|]. by rewrite Hs', Hs.
  - unfold new_with_out_of_band_init in H. apply bind_Ok in H as (this & [Hw Hs]%new_common_inv & H); [|done].
    revert H. apply construct_Ok. unfold apply_remote_init_params, set_state, push_event. repeat holds_step. done.
Qed.

(** Claim C3.  Whatever is done to an association — datagrams from the network, expired timers, calls of the
    application, in any order and number, failing calls included — its congestion window stays
    at least one packet and within 32 bits, and it is past the handshake only when it has
    recorded the handshake as completed. *)
Theorem association_reachable_inv a a' : initial_association a → rtc assoc_step a a' → assoc_inv a'.
Proof.
  intros Ha%initial_association_inv Hsteps. induction Hsteps as [|a b c [call Hstep] _ IH]; [done|]. apply IH.
  pose proof (run_call_keeps call a) as Hk. unfold holds in Hk.
  by destruct Hstep as [[r E]|[e E]]; rewrite E in Hk; apply Hk.
Qed.
End Machine.

(** ** Concrete associations *)

Definition is_Ok {A} (o : Outcome A) : bool := match o with Ok _ => true | _ => false end.

Definition get_Ok (o : Outcome Association) : Association := match o with Ok a => a | _ => Association_default end.

Lemma get_Ok_spec o : is_Ok o = true → o = Ok (get_Ok o).
Proof. by destruct o. Qed.

Definition demo_end (for_server : bool) (tag tsn : u32) : Association :=
  get_Ok (Association_new for_server TransportConfig_default default_max_payload_size tag unspecified_addr None tsn 0).

Lemma demo_client : Association_new false TransportConfig_default default_max_payload_size 77 unspecified_addr None 5 0 =
  Ok (demo_end false 77 5).
Proof. apply get_Ok_spec. vm_compute. reflexivity. Qed.

Lemma demo_server : Association_new true TransportConfig_default default_max_payload_size 88 unspecified_addr None 4294967295 0 =
  Ok (demo_end true 88 4294967295).
Proof. apply get_Ok_spec. vm_compute. reflexivity. Qed.

Lemma close_spec_witness :
  ∃ a', @close_with_reason list_iter AssociationError.AssociationClosed (demo_end false 77 5) = ROk tt a' ∧
    closed_down AssociationError.AssociationClosed (demo_end false 77 5) a'.
Proof.
  assert (bool_decide (state (demo_end false 77 5) = Closed) = false) as E by (vm_compute; reflexivity).
  pose proof (@close_spec list_iter list_iter_laws AssociationError.AssociationClosed (demo_end false 77 5)) as H.
  rewrite E in H. exact H.
Defined.

(** What a run gives, read off an evaluation. *)
Lemma evaluated {S} (r : Res S unit) (f : S → bool) :
  match r with ROk _ s => f s | _ => false end = true → ∃ s, r = ROk tt s ∧ f s = true.
Proof. destruct r as [[] s| | |]; [|done..]. eauto. Qed.

(** An ABORT by the peer's user, on an association that is shaking hands. *)
Lemma handle_chunk_transition_witness :
  ∃ a', @handle_chunk list_iter [1; 2; 3] (mkPacket (mkCommonHeader 5000 5000 77) []) (CAbort [mkErrorCause USER_INITIATED_ABORT []])
          0 (demo_end false 77 5) = ROk tt a' ∧
    (state a' = CookieWait ∨ transition (CAbort [mkErrorCause USER_INITIATED_ABORT []]) CookieWait (state a')) ∧
    state a' = Closed.
Proof.
  set (p := mkPacket (mkCommonHeader 5000 5000 77) []). set (c := CAbort [mkErrorCause USER_INITIATED_ABORT []]).
  pose proof (@handle_chunk_transition list_iter [1; 2; 3] list_iter_laws p c 0 (demo_end false 77 5)) as H.
  assert (state (demo_end false 77 5) = CookieWait) as Hs by (vm_compute; reflexivity).
  destruct (evaluated (@handle_chunk list_iter [1; 2; 3] p c 0 (demo_end false 77 5)) (λ a, bool_decide (state a = Closed)))
    as (a' & E & F); [vm_compute; reflexivity|].
  exists a'. split; [done|]. rewrite Hs in H. split; [by apply (proj1 (H a') tt)|by apply bool_decide_eq_true in F].
Defined.

(** A client that opens a stream and is then closed. *)
Lemma association_reachable_inv_witness :
  ∃ a a', @run_call list_iter [1; 2; 3] list_buf (λ _, 0) (CallOpenStream 3 Binary) (demo_end false 77 5) = ROk tt a ∧
    @run_call list_iter [1; 2; 3] list_buf (λ _, 0) CallClose a = ROk tt a' ∧ assoc_inv a'.
Proof.
  destruct (evaluated (@run_call list_iter [1; 2; 3] list_buf (λ _, 0) (CallOpenStream 3 Binary) (demo_end false 77 5))
    (λ a, match @run_call list_iter [1; 2; 3] list_buf (λ _, 0) CallClose a with ROk _ _ => true | _ => false end))
    as (a & E & F); [vm_compute; reflexivity|].
  destruct (evaluated (@run_call list_iter [1; 2; 3] list_buf (λ _, 0) CallClose a) (λ _, true)) as (a' & E' & _); [done|].
  exists a, a'. split; [done|]. split; [done|].
  apply (@association_reachable_inv list_iter [1; 2; 3] list_iter_laws list_buf (λ _, 0) (demo_end false 77 5)).
  - exists TransportConfig_default, default_max_payload_size, unspecified_addr, None.
    split; [vm_compute; discriminate|left]. exists false, 77, 5, 0. exact demo_client.
  - eapply rtc_l; [exists (CallOpenStream 3 Binary); left; eauto|].
    apply rtc_once. exists CallClose. left. eauto.
Defined.
