(* ===== verification/AssocHandshake.v ===== *)
(** * The handshake between two associations

    One side is created as a client and the other as a server; their control
    packets are carried to each other.  The theorem says that four deliveries
    set both up and that the two ends then agree on tags, sequence numbers,
    window and extensions. *)

From stdpp Require Import base list gmap numbers strings sets.
From Stdlib Require Import ZArith Lia ZifyBool.
From S2P Require Import Prelude Bytes Util Params Chunks Packet PayloadQueue PendingQueue OutboundQueue.
From S2P Require Import ReassemblyQueue Shared Stream Monad Timer Config Association AssocReset AssocRecv AssocSend AssocControl.
From S2P Require Import AssocMachine.

Section Handshake.
Context {I : MapIter} (fresh_cookie : Bytes).

(** The network hands every control packet of [a] to [b]. *)
Definition deliver (now : Instant) (a b : Association) : option (Association * Association) :=
  match for_each (control_queue a) (λ p, handle_inbound fresh_cookie p now) b with
  | ROk _ b' => Some (a <| control_queue := [] |>, b')
  | _ => None
  end.

(** What the handshake never changes. *)
Record same_end (a a' : Association) : Prop := mk_same_end {
  e_tag : my_verification_tag a' = my_verification_tag a;
  e_tsn : my_next_tsn a' = my_next_tsn a;
  e_buf : max_receive_buffer_size a' = max_receive_buffer_size a;
  e_outbound : outbound_queue a' = outbound_queue a;
  e_queue : payload_queue a' = payload_queue a;
  e_point : cumulative_tsn_ack_point a' = cumulative_tsn_ack_point a;
  e_advanced : advanced_peer_tsn_ack_point a' = advanced_peer_tsn_ack_point a;
  e_requests : reconfig_requests a' = reconfig_requests a;
  e_retiring : retiring_streams a' = retiring_streams a;
  e_deferred : deferred_reset_data a' = deferred_reset_data a;
  e_forward : deferred_forward_tsns a' = deferred_forward_tsns a;
}.
#[local] Instance same_end_refl : Reflexive same_end.
Proof. done. Qed.
#[local] Instance same_end_trans : Transitive same_end.
Proof. intros ??? [] []. constructor; congruence. Qed.

(** What [a] has learnt of its peer [b]. *)
Record knows (a b : Association) : Prop := mk_knows {
  k_tag : peer_verification_tag a = my_verification_tag b;
  k_tsn : peer_last_tsn a = wrapping_sub 32 (my_next_tsn b) 1;
  k_rsn : peer_last_reconfig_rsn a = wrapping_sub 32 (my_next_tsn b) 1;
  k_rwnd : rwnd a = max_receive_buffer_size b;
  k_forward : use_forward_tsn a = true;
}.

Lemma knows_same a b a' b' :
  knows a b → same_end b b' → peer_verification_tag a' = peer_verification_tag a → peer_last_tsn a' = peer_last_tsn a →
  peer_last_reconfig_rsn a' = peer_last_reconfig_rsn a → rwnd a' = rwnd a → use_forward_tsn a' = use_forward_tsn a →
  knows a' b'.
Proof. intros [] [] ?????. constructor; congruence. Qed.

(** ** One received packet with one chunk *)

Definition ready (a : Association) : Association :=
  a <| delayed_ack_triggered := false |> <| immediate_ack_triggered := false |>.

Lemma inbound_single p c now a (Q : Association → Prop) :
  check_packet p = Ok tt → chunks p = [c] →
  holds False (handle_chunk fresh_cookie p c now)
    (λ _ a', immediate_ack_triggered a' = false ∧ delayed_ack_triggered a' = false ∧ Q a') (λ _ _, False) (ready a) →
  holds False (handle_inbound fresh_cookie p now) (λ _, Q) (λ _ _, False) a.
Proof.
  intros Hp Hc Hh. unfold handle_inbound, handle_chunk_start, handle_chunk_end.
  apply holds_bind, holds_attempt, holds_lift; rewrite Hp; [|done|by intros []]. intros _ _.
  apply holds_bind, holds_modify, holds_bind. rewrite Hc. cbn [for_each]. apply holds_bind.
  eapply holds_mono; [by apply Hh| |done]. intros _ a' (H1 & H2 & HQ). apply holds_ret, holds_bind, holds_self.
  rewrite H1. apply holds_when; [congruence|done].
Qed.

(** The checks of a packet with one chunk that is not bundled. *)
Lemma check_packet_single h c :
  source_port h ≠ 0 → destination_port h ≠ 0 → (is_init_chunk c = true → verification_tag h = 0) →
  check_packet (mkPacket h [c]) = Ok tt.
Proof.
  intros Hs Hd Hv. unfold check_packet. apply Z.eqb_neq in Hs as Hs', Hd as Hd'. cbn [common_header chunks].
  rewrite Hs', Hd'. apply check_init_chunks_spec. intros c' ->%list_elem_of_singleton Hi. split; [done|by apply Hv].
Qed.

(** ** The four messages *)

Definition extensions : list Param := [PSupportedExtensions [CT_RECONFIG; CT_FORWARD_TSN]].

(** The offer an association makes in INIT, and in INIT ACK with a cookie. *)
Definition offer (ack : bool) (a : Association) (cookies : list Param) : ChunkInit :=
  mkChunkInit ack (my_verification_tag a) (max_receive_buffer_size a) (my_max_num_outbound_streams a)
    (my_max_num_inbound_streams a) (my_next_tsn a) (cookies ++ extensions).

Definition offer_ok (a : Association) : Prop :=
  my_verification_tag a ≠ 0 ∧ 1500 <= max_receive_buffer_size a ∧
  0 < my_max_num_outbound_streams a ∧ 0 < my_max_num_inbound_streams a.

Lemma offer_check ack a cookies : offer_ok a → ChunkInit_check (offer ack a cookies) = Ok tt.
Proof.
  intros (? & ? & ? & ?). unfold ChunkInit_check, offer, guard_err. cbn.
  by rewrite !(proj2 (Z.eqb_neq _ _)), (proj2 (Z.ltb_ge _ _)) by lia.
Qed.

Definition limits (a b a' : Association) : Prop :=
  my_max_num_inbound_streams a' = Z.min (my_max_num_inbound_streams b) (my_max_num_inbound_streams a) ∧
  my_max_num_outbound_streams a' = Z.min (my_max_num_outbound_streams b) (my_max_num_outbound_streams a).

(** INIT at an association that has not completed a handshake. *)
Lemma receive_init c s sp dp now :
  sp ≠ 0 → dp ≠ 0 → offer_ok c → state s = Closed → my_cookie s = None → control_queue s = [] → use_forward_tsn s = false →
  holds False (handle_inbound fresh_cookie (mkPacket (mkCommonHeader sp dp 0) [CInit (offer false c [])]) now)
    (λ _ s', same_end s s' ∧ knows s' c ∧ limits s c s' ∧ state s' = Closed ∧ my_cookie s' = Some fresh_cookie ∧
       a_source_port s' = dp ∧ a_destination_port s' = sp ∧ events s' = events s ∧ timers s' = timers s ∧
       control_queue s' = [mkPacket (mkCommonHeader dp sp (my_verification_tag c))
                             [CInit (offer true s' [PStateCookie fresh_cookie])]])
    (λ _ _, False) s.
Proof.
  intros Hsp Hdp Ho Hs Hc Hq Hf. eapply inbound_single; [by apply check_packet_single|done|].
  unfold handle_chunk. apply holds_bind, holds_lift; cbn [check_chunk]; rewrite offer_check by done; [|done|by intros []].
  intros _ _. change (is_ack (offer false c [])) with false. unfold handle_init, enqueue_control, apply_remote_init_params.
  cbv iota. do 2 apply holds_bind; apply holds_self. change (state (ready s)) with (state s). rewrite Hs.
  do 3 apply holds_bind, holds_modify. apply holds_bind, holds_self, holds_ret, holds_modify.
  split_and!; try constructor; try done; cbn; rewrite ?Hc, ?Hf, ?Hq; done.
Qed.

(** The retransmission timer of COOKIE ECHO can be armed at [now]. *)
Definition can_arm (a : Association) (now : Instant) : Prop :=
  returns (timer_start (timers a) T1Cookie now (get_rto (rto_mgr a))).

(** INIT ACK at the client. *)
Lemma receive_init_ack s c cookie now :
  offer_ok s → a_source_port c ≠ 0 → a_destination_port c ≠ 0 → state c = CookieWait → control_queue c = [] →
  can_arm c now →
  holds False (handle_inbound fresh_cookie
      (mkPacket (mkCommonHeader (a_destination_port c) (a_source_port c) (my_verification_tag c))
         [CInit (offer true s [PStateCookie cookie])]) now)
    (λ _ c', same_end c c' ∧ knows c' s ∧ limits c s c' ∧ state c' = CookieEchoed ∧ events c' = events c ∧
       (∀ t, t ≠ T1Cookie → timer_get (timers c') t = if decide (t = T1Init) then None else timer_get (timers c) t) ∧
       a_source_port c' = a_source_port c ∧ a_destination_port c' = a_destination_port c ∧
       control_queue c' = [mkPacket (mkCommonHeader (a_source_port c) (a_destination_port c) (my_verification_tag s))
                             [CCookieEcho cookie]])
    (λ _ _, False) c.
Proof.
  intros Ho Hsp Hdp Hs Hq Ht. eapply inbound_single; [by apply check_packet_single|done|].
  unfold handle_chunk. apply holds_bind, holds_lift; cbn [check_chunk]; rewrite offer_check by done; [|done|by intros []].
  intros _ _. change (is_ack (offer true s _)) with true. cbv iota.
  unfold handle_init_ack, enqueue_control, apply_remote_init_params, stop_timer, send_cookie_echo, start_timer, with_timers,
    set_state.
  do 2 apply holds_bind; apply holds_self. change (state (ready c)) with (state c). rewrite Hs.
  apply holds_bind, holds_modify. cbn [common_header source_port destination_port].
  change (a_source_port (ready c)) with (a_source_port c). change (a_destination_port (ready c)) with (a_destination_port c).
  rewrite !Z.eqb_refl. do 4 apply holds_bind, holds_modify. do 2 apply holds_bind; apply holds_gets, holds_modify.
  do 2 apply holds_bind; apply holds_gets, holds_bind, holds_gets, holds_bind.
  match goal with |- holds _ (lift ?o) _ _ _ =>
    change o with (timer_start (timer_stop (timers c) T1Init) T1Cookie now (get_rto (rto_mgr c))) end.
  unfold can_arm, timer_start in *. cbn [tt_retrans tt_rto_max decide] in *.
  change (tt_retrans (timer_stop (timers c) T1Init) T1Cookie) with (tt_retrans (timers c) T1Cookie).
  change (tt_rto_max (timer_stop (timers c) T1Init)) with (tt_rto_max (timers c)).
  destruct (Instant_add _ _) as [time| | |] eqn:Htt; [|unfold Instant_add in Htt; by case_match|done..].
  apply holds_modify, holds_bind, holds_modify, holds_ret, holds_modify.
  split_and!; try constructor; try done; cbn; rewrite ?Hq; try done; [by rewrite orb_true_r|].
  by intros [].
Qed.

(** COOKIE ECHO at the server that gave the cookie out. *)
Lemma receive_cookie_echo s cookie h now :
  source_port h ≠ 0 → destination_port h ≠ 0 → state s = Closed → my_cookie s = Some cookie → control_queue s = [] →
  holds False (handle_inbound fresh_cookie (mkPacket h [CCookieEcho cookie]) now)
    (λ _ s', same_end s s' ∧ (∀ c, knows s c → knows s' c) ∧ state s' = Established ∧ handshake_completed s' = true ∧
       events s' = events s ++ [Event.Connected] ∧
       (∀ t, timer_get (timers s') t = if decide (t = T1Init ∨ t = T1Cookie) then None else timer_get (timers s) t) ∧
       my_max_num_inbound_streams s' = my_max_num_inbound_streams s ∧
       my_max_num_outbound_streams s' = my_max_num_outbound_streams s ∧
       control_queue s' = [mkPacket (mkCommonHeader (a_source_port s) (a_destination_port s) (peer_verification_tag s))
                             [CCookieAck]])
    (λ _ _, False) s.
Proof.
  intros Hsp Hdp Hs Hc Hq. eapply inbound_single; [by apply check_packet_single|done|].
  unfold handle_chunk. apply holds_bind, holds_ret.
  unfold handle_cookie_echo, enqueue_control, stop_timer, push_event, set_state. do 2 apply holds_bind; apply holds_self.
  change (my_cookie (ready s)) with (my_cookie s). change (state (ready s)) with (state s). rewrite Hc, Hs.
  rewrite bool_decide_true by done. cbn [negb]. do 7 apply holds_bind, holds_modify. apply holds_ret, holds_modify.
  split_and!; try constructor; try done; cbn; rewrite ?Hq; try done; try apply H.
  by intros [].
Qed.

(** COOKIE ACK at the client. *)
Lemma receive_cookie_ack c h now :
  source_port h ≠ 0 → destination_port h ≠ 0 → state c = CookieEchoed → control_queue c = [] →
  holds False (handle_inbound fresh_cookie (mkPacket h [CCookieAck]) now)
    (λ _ c', same_end c c' ∧ (∀ s, knows c s → knows c' s) ∧ state c' = Established ∧ handshake_completed c' = true ∧
       events c' = events c ++ [Event.Connected] ∧
       (∀ t, timer_get (timers c') t = if decide (t = T1Cookie) then None else timer_get (timers c) t) ∧
       my_max_num_inbound_streams c' = my_max_num_inbound_streams c ∧
       my_max_num_outbound_streams c' = my_max_num_outbound_streams c ∧ control_queue c' = [])
    (λ _ _, False) c.
Proof.
  intros Hsp Hdp Hs Hq. eapply inbound_single; [by apply check_packet_single|done|].
  unfold handle_chunk. apply holds_bind, holds_ret.
  unfold handle_cookie_ack, enqueue_control, stop_timer, push_event, set_state. do 2 apply holds_bind; apply holds_self.
  change (state (ready c)) with (state c). rewrite Hs. rewrite bool_decide_true by done. cbn [negb].
  do 5 apply holds_bind, holds_modify. apply holds_ret, holds_modify.
  split_and!; try constructor; try done; cbn; rewrite ?Hq; try done; try apply H.
Qed.

(** ** The whole handshake *)

Definition handshake (t1 t2 t3 t4 : Instant) (c s : Association) : option (Association * Association) :=
  '(c, s) ← deliver t1 c s; '(s, c) ← deliver t2 s c; '(c, s) ← deliver t3 c s; '(s, c) ← deliver t4 s c; Some (c, s).

Lemma deliver_one a b p now (Q : Association → Prop) :
  control_queue a = [p] → holds False (handle_inbound fresh_cookie p now) (λ _, Q) (λ _ _, False) b →
  ∃ b', deliver now a b = Some (a <| control_queue := [] |>, b') ∧ Q b'.
Proof.
  intros Hq H. unfold deliver, holds in *. rewrite Hq. cbn [for_each]. unfold mbind, M_bind.
  destruct (handle_inbound fresh_cookie p now b) as [[] b'| | |]; [|done..]. by exists b'.
Qed.

Record config_ok (config : TransportConfig) (tag : u32) : Prop := mk_config_ok {
  co_tag : tag ≠ 0;
  co_ports : tc_local_port config ≠ 0 ∧ tc_remote_port config ≠ 0;
  co_buffer : 1500 <= tc_max_receive_buffer_size config;
  co_streams : 0 < tc_max_num_outbound_streams config ∧ 0 < tc_max_num_inbound_streams config;
}.

(** A client that has just been created, in the fields of the handshake. *)
Record new_end (config : TransportConfig) (tag tsn : u32) (a : Association) : Prop := mk_new_end {
  n_own : my_verification_tag a = tag ∧ my_next_tsn a = tsn ∧
    max_receive_buffer_size a = tc_max_receive_buffer_size config;
  n_streams : my_max_num_outbound_streams a = tc_max_num_outbound_streams config ∧
    my_max_num_inbound_streams a = tc_max_num_inbound_streams config;
  n_ports : a_source_port a = tc_local_port config ∧ a_destination_port a = tc_remote_port config;
  n_rest : my_cookie a = None ∧ use_forward_tsn a = false ∧ events a = [];
  n_rto : get_rto (rto_mgr a) = tc_rto_initial_ms config ∧ tt_rto_max (timers a) = tc_rto_max_ms config ∧
    tt_retrans (timers a) T1Cookie = 0;
  n_data : outbound_queue a = OutboundQueue_default ∧ payload_queue a = PayloadQueue_new ∧
    cumulative_tsn_ack_point a = wrapping_sub 32 tsn 1 ∧ advanced_peer_tsn_ack_point a = wrapping_sub 32 tsn 1;
  n_resets : reconfig_requests a = ∅ ∧ retiring_streams a = ∅ ∧ deferred_reset_data a = ∅ ∧ deferred_forward_tsns a = ∅;
}.

Lemma new_common_end config max_payload_size remote ip side tag tsn a :
  new_common config max_payload_size remote ip side tag tsn = Ok a →
  new_end config tag tsn a ∧ control_queue a = [] ∧ state a = Closed ∧ peer_verification_tag a = 0 ∧
  ∀ t, timer_get (timers a) t = None.
Proof.
  unfold new_common. intros H. do 4 (apply bind_Ok in H as (? & _ & H)).
  by apply Ok_Association_inj in H as <-.
Qed.

Lemma new_server_end config max_payload_size tag remote ip tsn now a :
  Association_new true config max_payload_size tag remote ip tsn now = Ok a →
  new_end config tag tsn a ∧ control_queue a = [] ∧ state a = Closed ∧ ∀ t, timer_get (timers a) t = None.
Proof.
  unfold Association_new. intros H. apply bind_Ok in H as (this & Hthis%new_common_end & H).
  change (is_client _) with false in H. cbv iota in H. apply Ok_Association_inj in H as <-. tauto.
Qed.

Definition init_sent (config : TransportConfig) (tag tsn : u32) (a : Association) : Prop :=
  new_end config tag tsn a ∧ state a = CookieWait ∧
  control_queue a = [mkPacket (mkCommonHeader (a_source_port a) (a_destination_port a) 0) [CInit (offer false a [])]] ∧
  ∀ t, t ≠ T1Init → timer_get (timers a) t = None.

Lemma new_client_end config max_payload_size tag remote ip tsn now a :
  Association_new false config max_payload_size tag remote ip tsn now = Ok a → init_sent config tag tsn a.
Proof.
  unfold Association_new. intros H. apply bind_Ok in H as (this & (Hend & Hq & Hs & Hp & Ht)%new_common_end & H).
  change (is_client _) with true in H. cbv iota in H. unfold set_state, send_init, start_timer, with_timers in H.
  revert H. apply construct_Ok.
  destruct Hend as [(<- & <- & ?) [] [] (? & ? & ?) (? & ? & ?) (? & ? & ? & ?) (? & ? & ? & ?)].
  apply holds_bind, holds_modify, holds_bind, holds_modify, holds_bind, holds_ignore, holds_bind, holds_gets, holds_modify.
  apply holds_bind, holds_gets, holds_bind, holds_gets, holds_bind, holds_lift; [|done..].
  intros tt' Htt. unfold timer_start in Htt. apply bind_Ok in Htt as (time & _ & Htt). injection Htt as <-. apply holds_modify.
  split_and!; [by constructor|done| |]; [cbn; rewrite Hq; cbn; unfold create_packet; cbn; by rewrite Hp|].
  intros [] ?; try done; apply Ht.
Qed.

Record connected (a b : Association) : Prop := mk_connected {
  cn_state : state a = Established;
  cn_handshake : handshake_completed a = true;
  cn_events : events a = [Event.Connected];
  cn_timers : ∀ t, timer_get (timers a) t = None;
  cn_control : control_queue a = [];
  cn_knows : knows a b;
  cn_streams : my_max_num_inbound_streams a = my_max_num_inbound_streams b ∧
    my_max_num_outbound_streams a = my_max_num_outbound_streams b;
}.

Lemma handshake_connects cfg_c cfg_s mp_c mp_s tag_c tag_s addr_c addr_s ip_c ip_s tsn_c tsn_s t0 t1 t2 t3 t4 c0 s0 :
  Association_new false cfg_c mp_c tag_c addr_s ip_c tsn_c t0 = Ok c0 →
  Association_new true cfg_s mp_s tag_s addr_c ip_s tsn_s t0 = Ok s0 →
  config_ok cfg_c tag_c → config_ok cfg_s tag_s →
  returns (Instant_add t2 (calculate_next_timeout (tc_rto_initial_ms cfg_c) 0 (tc_rto_max_ms cfg_c))) →
  ∃ c s, handshake t1 t2 t3 t4 c0 s0 = Some (c, s) ∧ connected c s ∧ connected s c ∧
    same_end c0 c ∧ same_end s0 s.
Proof.
  intros (Hc0 & Hcs & Hcq & Hct)%new_client_end (Hs0 & Hsq & Hss & Hst)%new_server_end Hcc Hsc Ht.
  destruct Hc0 as [(<- & <- & Hcb) [Hco Hci] [Hcl Hcr] (_ & _ & Hce) (Hcrto & Hcmax & Hcret) _ _].
  destruct Hs0 as [(<- & <- & Hsb) [Hso Hsi] _ (Hsck & Hsf & Hse) _ _ _].
  destruct Hcc as [? [] ? []], Hsc as [? [] ? []].
  assert (offer_ok c0) as Hoc by (unfold offer_ok; lia).
  assert (a_source_port c0 ≠ 0 ∧ a_destination_port c0 ≠ 0) as [Hnz1 Hnz2] by lia.
  destruct (deliver_one _ s0 _ t1 _ Hcq (receive_init c0 s0 _ _ t1 Hnz1 Hnz2 Hoc Hss Hsck Hsq Hsf))
    as (s1 & E1 & Hse1 & Hk1 & [Hli1 Hlo1] & Hs1 & Hck1 & Hsp1 & Hdp1 & Hev1 & Htm1 & Hq1).
  set (c1 := c0 <| control_queue := [] |>) in *.
  assert (offer_ok s1) as Hos by (destruct Hse1; unfold offer_ok; lia).
  assert (can_arm c1 t2) as Harm.
  { unfold can_arm, timer_start. cbn. rewrite Hcrto, Hcmax, Hcret. by destruct (Instant_add _ _). }
  pose proof (receive_init_ack s1 c1 fresh_cookie t2 Hos Hnz1 Hnz2 Hcs eq_refl Harm) as Hrecv.
  destruct (deliver_one s1 c1 _ t2 _ Hq1 Hrecv)
    as (c2 & E2 & Hse2 & Hk2 & [Hli2 Hlo2] & Hs2 & Hev2 & Htm2 & Hsp2 & Hdp2 & Hq2).
  set (s2 := s1 <| control_queue := [] |>) in *.
  destruct (deliver_one c2 s2 _ t3 _ Hq2 (receive_cookie_echo s2 fresh_cookie (mkCommonHeader _ _ _) t3 Hnz1 Hnz2 Hs1 Hck1 eq_refl))
    as (s3 & E3 & Hse3 & Hk3 & Hs3 & Hh3 & Hev3 & Htm3 & Hli3 & Hlo3 & Hq3).
  assert (a_source_port s2 ≠ 0 ∧ a_destination_port s2 ≠ 0) as [Hnz1' Hnz2'] by (cbn; lia).
  set (c3 := c2 <| control_queue := [] |>) in *.
  destruct (deliver_one s3 c3 _ t4 _ Hq3 (receive_cookie_ack c3 (mkCommonHeader _ _ _) t4 Hnz1' Hnz2' Hs2 eq_refl))
    as (c4 & E4 & Hse4 & Hk4 & Hs4 & Hh4 & Hev4 & Htm4 & Hli4 & Hlo4 & Hq4).
  assert (same_end c0 c4) as Hc by (destruct Hse2, Hse4; constructor; etrans; eassumption).
  assert (same_end s0 (s3 <| control_queue := [] |>)) as Hs by (destruct Hse1, Hse3; constructor; etrans; eassumption).
  assert (same_end s1 (s3 <| control_queue := [] |>)) as Hs' by (by destruct Hse3).
  exists c4, (s3 <| control_queue := [] |>). split_and!; [|constructor..|exact Hc|exact Hs]; try assumption; try reflexivity.
  - unfold handshake. rewrite E1. cbn. rewrite E2. cbn. rewrite E3. cbn. by rewrite E4.
  - rewrite Hev4. change (events c3) with (events c2). rewrite Hev2. change (events c1) with (events c0). by rewrite Hce.
  - intros t. rewrite Htm4. case_decide; [done|]. etrans; [by apply Htm2|]. case_decide; [done|]. by apply Hct.
  - apply Hk4. eapply knows_same; [exact Hk2|exact Hs'|done..].
  - cbn. rewrite Hli3, Hlo3, Hli4, Hlo4. cbn. rewrite Hli2, Hlo2, Hli1, Hlo1. cbn. clear. lia.
  - etrans; [exact Hev3|]. cbn. by rewrite Hev1, Hse.
  - intros t. etrans; [apply Htm3|]. case_decide; [done|]. cbn. by rewrite Htm1.
  - assert (knows s2 c4) as Hk by (eapply knows_same; [exact Hk1|exact Hc|done..]).
    apply Hk3 in Hk. by destruct Hk.
  - cbn. rewrite Hli3, Hlo3, Hli4, Hlo4. cbn. rewrite Hli2, Hlo2, Hli1, Hlo1. cbn. clear. lia.
Qed.
(** Claim C4.  A client and a server with usable configurations always get connected: delivering the INIT, the
    INIT ACK, the COOKIE ECHO and the COOKIE ACK in turn leaves both established, each with one
    [Connected] event, nothing left to send and no timer armed, and each knows the other's
    verification tag, initial TSN, receive window and that FORWARD TSN may be used; both have
    the same limits on inbound and on outbound streams. *)
Theorem handshake_completes cfg_c cfg_s mp_c mp_s tag_c tag_s addr_c addr_s ip_c ip_s tsn_c tsn_s t0 t1 t2 t3 t4 c0 s0 :
  Association_new false cfg_c mp_c tag_c addr_s ip_c tsn_c t0 = Ok c0 →
  Association_new true cfg_s mp_s tag_s addr_c ip_s tsn_s t0 = Ok s0 →
  config_ok cfg_c tag_c → config_ok cfg_s tag_s →
  returns (Instant_add t2 (calculate_next_timeout (tc_rto_initial_ms cfg_c) 0 (tc_rto_max_ms cfg_c))) →
  ∃ c s, handshake t1 t2 t3 t4 c0 s0 = Some (c, s) ∧ connected c s ∧ connected s c ∧
    same_end c0 c ∧ same_end s0 s.
Proof. apply handshake_connects. Qed.
End Handshake.

(** ** A concrete pair *)

Lemma demo_config_ok tag : tag ≠ 0 → config_ok TransportConfig_default tag.
Proof. intros. constructor; [done|..]; vm_compute; split_and?; done. Qed.

Lemma handshake_completes_witness :
  ∃ c s, @handshake list_iter [1; 2; 3] 10 20 30 40 (demo_end false 77 5) (demo_end true 88 4294967295) = Some (c, s) ∧
    connected c s ∧ connected s c ∧ same_end (demo_end false 77 5) c ∧ same_end (demo_end true 88 4294967295) s.
Proof.
  refine (@handshake_completes list_iter [1; 2; 3] _ _ _ _ _ _ _ _ _ _ _ _ _ 10 20 30 40 _ _ demo_client demo_server _ _ _).
  - by apply demo_config_ok.
  - by apply demo_config_ok.
  - vm_compute. exact Logic.I.
Defined.
