(* ===== verification/AssocData.v ===== *)
(** * Sending DATA ([src/association/mod.rs])

    The sender cuts the selected chunks into packets and lets data go only as
    far as the congestion window and the peer's receive window allow. *)

From stdpp Require Import base list gmap numbers strings sets.
From Stdlib Require Import ZArith Lia ZifyBool.
From S2P Require Import Prelude Bytes Util Params Chunks Packet PayloadQueue PendingQueue OutboundQueue.
From S2P Require Import ReassemblyQueue Shared Stream Monad Timer Config Association AssocReset AssocRecv AssocSend AssocControl.
From S2P Require Import AssocFrame AssocMachine.

(** ** Bundling *)

(** The bytes a DATA chunk takes in a packet, padding aside. *)
Definition chunk_size (c : ChunkPayloadData) : Z := DATA_CHUNK_HEADER_SIZE + data_len c.

Definition as_packet (a : Association) (cs : list ChunkPayloadData) : Packet := create_packet a (CPayloadData <$> cs).

Definition fits (a : Association) (c : ChunkPayloadData) : Prop := COMMON_HEADER_SIZE + chunk_size c <= mtu a.

(** The groups of chunks the loop makes. *)
Lemma bundle_loop_groups a cs to_send bytes :
  ∃ groups, bundle_loop a cs to_send bytes = as_packet a <$> groups ∧ concat groups = to_send ++ cs ∧
    (mtu a < 2 ^ 32 → Forall (fits a) cs →
     bytes = COMMON_HEADER_SIZE + sum_with chunk_size to_send → (to_send = [] ∨ bytes <= mtu a + DATA_CHUNK_HEADER_SIZE) →
     Forall (λ g, g ≠ [] ∧ COMMON_HEADER_SIZE + sum_with chunk_size g <= mtu a + DATA_CHUNK_HEADER_SIZE) groups).
Proof.
  revert to_send bytes; induction cs as [|c cs IH]; intros to_send bytes; cbn [bundle_loop].
  - case_bool_decide as E; [exists []; subst to_send; by rewrite app_nil_r|].
    exists [to_send]. cbn. rewrite app_nil_r. split; [done|]. split; [done|]. intros _ _ Hb Hto. repeat constructor; [done|]. destruct Hto; [done|lia].
  - destruct (bytes + wrap 32 (data_len c) >? mtu a) eqn:E.
    + destruct (IH [c] (COMMON_HEADER_SIZE + (DATA_CHUNK_HEADER_SIZE + wrap 32 (data_len c)))) as (gs & -> & Hgs & Hsz).
      exists (to_send :: gs). split; [done|]. split; [cbn; by rewrite Hgs|]. intros Hm [Hc Hcs]%Forall_cons Hb Hto.
      unfold fits, chunk_size, COMMON_HEADER_SIZE, DATA_CHUNK_HEADER_SIZE in *. pose proof (data_len_nonneg c).
      rewrite (wrap_small 32 (data_len c)) in * by (unfold uN; lia).
      assert (to_send ≠ []) as Hne by (intros ->; cbn in Hb; lia).
      constructor; [split; [done|]; destruct Hto; [done|lia]|]. apply Hsz; [done..|unfold sum_with; cbn; lia|right; lia].
    + destruct (IH (to_send ++ [c]) (bytes + (DATA_CHUNK_HEADER_SIZE + wrap 32 (data_len c)))) as (gs & -> & Hgs & Hsz).
      exists gs. split; [done|]. split; [by rewrite Hgs, <- app_assoc|]. intros Hm [Hc Hcs]%Forall_cons Hb Hto. pose proof (data_len_nonneg c).
      assert (wrap 32 (data_len c) = data_len c) as Ew
        by (apply wrap_small; unfold fits, chunk_size, COMMON_HEADER_SIZE, DATA_CHUNK_HEADER_SIZE in Hc; unfold uN; lia).
      rewrite Ew in *. apply Hsz; [done..| |right; lia].
      rewrite sum_with_app, Hb. change (sum_with chunk_size [c]) with (DATA_CHUNK_HEADER_SIZE + data_len c + 0). lia.
Qed.

(** Claim C27.  Bundling loses, repeats and reorders nothing, whatever the sizes: the packets carry exactly the
    chunks it was given, in order, under the association's ports and tag.  When every chunk fits a
    packet of its own, no packet is empty, and none is more than one DATA chunk header over the
    MTU (padding aside). *)
Theorem bundle_spec a cs :
  ∃ groups, bundle_data_chunks_into_packets a cs = as_packet a <$> groups ∧ concat groups = cs ∧
    (mtu a < 2 ^ 32 → Forall (fits a) cs →
     Forall (λ g, g ≠ [] ∧ COMMON_HEADER_SIZE + sum_with chunk_size g <= mtu a + DATA_CHUNK_HEADER_SIZE) groups).
Proof.
  destruct (bundle_loop_groups a cs [] COMMON_HEADER_SIZE) as (gs & E & Hc & Hsz). exists gs. split; [exact E|]. split; [done|].
  intros Hm Hf. apply Hsz; [done..|by left].
Qed.

Definition filled (n : nat) : ChunkPayloadData := ChunkPayloadData_default <| user_data := replicate n 0 |>.

Lemma bundle_spec_witness :
  ∃ groups, bundle_data_chunks_into_packets (demo_end false 77 5) [filled 1100; filled 100; filled 1]
              = as_packet (demo_end false 77 5) <$> groups ∧ concat groups = [filled 1100; filled 100; filled 1] ∧
    Forall (λ g, g ≠ [] ∧ COMMON_HEADER_SIZE + sum_with chunk_size g <= mtu (demo_end false 77 5) + DATA_CHUNK_HEADER_SIZE) groups.
Proof.
  destruct (bundle_spec (demo_end false 77 5) [filled 1100; filled 100; filled 1]) as (groups & E & Hc & Hsz).
  exists groups. split; [exact E|]. split; [exact Hc|]. apply Hsz; [|repeat constructor]; vm_compute; done.
Defined.

(** The bound is reached: the length test leaves out the header of the chunk it is about to add, so a
    datagram longer than the MTU goes out. *)
Lemma bundle_exceeds_mtu :
  let a := demo_end false 77 5 in
  let ps := bundle_data_chunks_into_packets a [filled 1100; filled 100] in
  mtu a = 1228 ∧ Forall (fits a) [filled 1100; filled 100] ∧
  match ps with
  | [p] => match Packet_marshal (B:=list_buf) (λ _, 0) p with Ok raw => len raw = 1244 | _ => False end
  | _ => False
  end.
Proof. split; [vm_compute; done|]. split; [repeat constructor; vm_compute; done|]. vm_compute. reflexivity. Qed.

(** ** The windows *)

Section Window.
Context {I : MapIter}.

(** What the sender's window depends on. *)
Record same_window (a a' : Association) : Prop := mk_same_window {
  sw_queue : outbound_queue a' = outbound_queue a;
  sw_tsn : my_next_tsn a' = my_next_tsn a;
  sw_rwnd : rwnd a' = rwnd a;
  sw_cwnd : cwnd a' = cwnd a;
  sw_forward : use_forward_tsn a' = use_forward_tsn a;
}.

Lemma release_stream_buffer_window id n a :
  holds False (release_stream_buffer id n) (λ _, same_window a) (λ _ _, False) a.
Proof.
  unfold release_stream_buffer, push_event. apply holds_bind, holds_gets. destruct (streams a !! id) as [s|]; [|done].
  destruct (on_buffer_released s n) as [low s']. apply holds_bind, holds_modify, holds_when; intros _; [by apply holds_modify|done].
Qed.

(** What one call of the loop has sent: [n] is the number of bytes. *)
Record sent_within (a : Association) (cs : list ChunkPayloadData) (a' : Association) : Prop := mk_sent_within {
  sn_tsns : ∀ (i : nat) c, cs !! i = Some c → tsn c = wrapping_add 32 (my_next_tsn a) (Z.of_nat i);
  sn_next : my_next_tsn a' = wrapping_add 32 (my_next_tsn a) (len cs);
  sn_inflight : inflight_bytes (outbound_queue a') = inflight_bytes (outbound_queue a) + chunks_bytes cs;
  sn_held : ∀ c, c ∈ cs → oq_get (outbound_queue a') (tsn c) = Some c;
  sn_kept : ∀ t c, oq_get (outbound_queue a) t = Some c → oq_get (outbound_queue a') t = Some c;
  sn_only : ∀ t c, oq_get (outbound_queue a') t = Some c → c ∈ cs ∨ oq_get (outbound_queue a) t = Some c;
  sn_count : len cs + pending_len (outbound_queue a') <= pending_len (outbound_queue a);
  sn_cwnd : cs ≠ [] → inflight_bytes (outbound_queue a') <= cwnd a;
  sn_rwnd : rwnd a' = rwnd a - chunks_bytes cs ∧ 0 <= rwnd a';
  sn_window : cwnd a' = cwnd a;
  sn_stop : ∀ c, peek_pending (outbound_queue a') = Some c →
    cwnd a' < inflight_bytes (outbound_queue a') + data_len c ∨ rwnd a' < data_len c;
}.

Lemma sent_nothing a a' :
  same_window a a' → uN 32 (my_next_tsn a) → 0 <= rwnd a →
  (∀ c, peek_pending (outbound_queue a) = Some c →
    cwnd a < inflight_bytes (outbound_queue a) + data_len c ∨ rwnd a < data_len c) → sent_within a [] a'.
Proof.
  intros [E1 E2 E3 E4 _] Hn Hr Hstop. constructor; rewrite ?E1, ?E2, ?E3, ?E4; try done.
  - unfold wrapping_add, len. cbn. rewrite Z.add_0_r. symmetry. by apply wrap_small.
  - unfold chunks_bytes, sum_with. cbn. lia.
  - intros c Hc. by apply not_elem_of_nil in Hc.
  - auto.
  - unfold chunks_bytes, sum_with. cbn. lia.
Qed.

Lemma sent_within_same a a1 cs a' :
  my_next_tsn a1 = my_next_tsn a → rwnd a1 = rwnd a → cwnd a1 = cwnd a →
  inflight (outbound_queue a1) = inflight (outbound_queue a) →
  pending_len (outbound_queue a1) <= pending_len (outbound_queue a) → sent_within a1 cs a' → sent_within a cs a'.
Proof.
  intros E1 E2 E3 E4 E5 [H1 H2 H3 H4 H5 HO HC H6 H7 H8 H9]. unfold oq_get, inflight_bytes in *.
  constructor; unfold oq_get, inflight_bytes; rewrite <- ?E1, <- ?E2, <- ?E3, <- ?E4; (done || lia).
Qed.

Lemma next_dist base nt : uN 32 base → uN 32 nt → dist32 base nt < 2 ^ 31 →
  dist32 base (wrapping_add 32 nt 1) = dist32 base nt + 1.
Proof. intros. sna. Qed.

(** Sending one chunk and then the rest. *)
Lemma sent_within_cons base a a1 c cs a' q' now :
  oq_inv base (my_next_tsn a) (outbound_queue a) →
  oq_get (outbound_queue a) (my_next_tsn a) = None →
  (∀ t, oq_get q' t = if t =? my_next_tsn a then Some (as_sent (my_next_tsn a) now c) else oq_get (outbound_queue a) t) →
  inflight_bytes q' = inflight_bytes (outbound_queue a) + data_len c →
  inflight_bytes (outbound_queue a) + data_len c <= cwnd a →
  outbound_queue a1 = q' → my_next_tsn a1 = wrapping_add 32 (my_next_tsn a) 1 → rwnd a1 = rwnd a - data_len c →
  cwnd a1 = cwnd a → pending_len (outbound_queue a) = pending_len q' + 1 → sent_within a1 cs a' → sent_within a (as_sent (my_next_tsn a) now c :: cs) a'.
Proof.
  intros Hq Hnone Hget Hb Hc E1 E2 E3 E4 E5 [H1 H2 H3 H4 H5 HO HC H6 H7 H8 H9].
  assert (chunks_bytes (as_sent (my_next_tsn a) now c :: cs) = data_len c + chunks_bytes cs) as Hsum by done.
  assert (tsn (as_sent (my_next_tsn a) now c) = my_next_tsn a) as Htsn by done.
  assert (∀ n, wrapping_add 32 (wrapping_add 32 (my_next_tsn a) 1) n = wrapping_add 32 (my_next_tsn a) (n + 1)) as Hadd.
  { intros n. unfold wrapping_add, wrap. rewrite Zplus_mod_idemp_l. f_equal. lia. }
  set (c' := as_sent (my_next_tsn a) now c) in *. clearbody c'. rewrite E1 in *. constructor.
  - intros [|i] x; cbn; [intros [= <-]; rewrite Htsn|].
    + unfold wrapping_add. rewrite Z.add_0_r. symmetry. apply wrap_small, (oi_next _ _ _ Hq).
    + intros Hx%H1. rewrite Hx, E2, Hadd. f_equal. lia.
  - rewrite H2, E2, Hadd. f_equal. unfold len. cbn. lia.
  - lia.
  - intros x [->|Hx]%elem_of_cons; [|auto]. apply H5. by rewrite Hget, Htsn, Z.eqb_refl.
  - intros t x Hx. apply H5. rewrite Hget. destruct (Z.eqb_spec t (my_next_tsn a)); [congruence|done].
  - intros t x [Hx|Hx]%HO; [left; by right|]. rewrite Hget in Hx. destruct (t =? my_next_tsn a); [|by right].
    injection Hx as <-. left. left.
  - unfold len in *. cbn. lia.
  - intros _. destruct cs as [|x cs]; [unfold chunks_bytes, sum_with in H3; cbn in H3; lia|]. rewrite <- E4. auto.
  - lia.
  - lia.
  - exact H9.
Qed.

Lemma pop_pending_loop_Ok base fuel now a :
  oq_inv base (my_next_tsn a) (outbound_queue a) → (pending_count (outbound_queue a) < fuel)%nat →
  dist32 base (my_next_tsn a) + Z.of_nat (pending_count (outbound_queue a)) < 2 ^ 31 → 0 <= rwnd a →
  holds False (pop_pending_loop fuel now) (λ cs a', sent_within a cs a' ∧ oq_inv base (my_next_tsn a') (outbound_queue a'))
    (λ _ _, False) a.
Proof.
  revert a; induction fuel as [|fuel IH]; intros a Hq Hfuel Hd Hr; [lia|]. cbn [pop_pending_loop].
  apply holds_bind, holds_self, holds_bind.
  assert (∃ r q, (if use_forward_tsn a then expire_pending (outbound_queue a) now else Ok (None, outbound_queue a)) = Ok (r, q) ∧
    oq_inv base (my_next_tsn a) q ∧ inflight q = inflight (outbound_queue a) ∧
    match r with Some _ => (pending_count q < pending_count (outbound_queue a))%nat | None => q = outbound_queue a end)
    as (r & q & E & Hq' & Hin & Hcount).
  { destruct (use_forward_tsn a); [by apply expire_pending_Ok|]. by eauto 10. }
  rewrite E. apply holds_ret, holds_bind, holds_modify. destruct r as [[[id un] bytes]|].
  - apply holds_bind. eapply (holds_mono _ _ (λ _ a1, same_window (a <| outbound_queue := q |>) a1) _ (λ _ _, False)).
    { apply holds_when; intros _; [apply holds_modify|]; by constructor. } 2: done.
    intros _ a1 H1. apply holds_bind. eapply holds_mono; [apply release_stream_buffer_window| |done].
    intros [] a2 H2; cbv beta in H2. destruct H1 as [F1 F2 F3 F4 F5], H2 as [G1 G2 G3 G4 G5]. cbn in F1, F2, F3, F4.
    eapply holds_mono; [apply IH| |done].
    + by rewrite G1, G2, F1, F2.
    + rewrite G1, F1. lia.
    + rewrite G1, G2, F1, F2. lia.
    + lia.
    + intros cs a' [Hs ?]. split; [|done]. eapply sent_within_same; [..|exact Hs]; try congruence.
      rewrite G1, F1, (pending_count_len _ _ _ Hq), (pending_count_len _ _ _ Hq'). lia.
  - subst q. assert (same_window a (a <| outbound_queue := outbound_queue a |>)) as Hsame by done.
    pose proof (oi_next _ _ _ Hq) as Hn. pose proof (inv_base _ _ (oi_inflight _ _ _ Hq)) as Hbase. pose proof (sent_nothing _ _ Hsame Hn Hr) as Hnil.
    destruct (peek_pending (outbound_queue a)) as [c|] eqn:Ec; [|by split; [apply Hnil|]].
    destruct (_ >? _) eqn:Ecw; [split; [apply Hnil; intros ? [= <-]; lia|done]|].
    destruct (data_len c >? rwnd a) eqn:Erw; [split; [apply Hnil; intros ? [= <-]; lia|done]|].
    assert (0 < pending_len (outbound_queue a)) as Hpos.
    { rewrite (pending_count_len _ _ _ Hq). apply pn_peek_elem in Ec. unfold pending_count.
      destruct (_ ++ _); [by apply not_elem_of_nil in Ec|cbn; lia]. }
    destruct (send_next_Ok base (my_next_tsn a) (outbound_queue a) now Hq ltac:(lia) Hpos)
      as (c0 & q' & Es & Hpeek & Hq1 & Hnone & Hget & _ & Hib & Hlen).
    destruct (peek_start_timed _ now _ Ec) as (c1 & Hc1 & Hsf). assert (c1 = c0) as -> by congruence.
    assert (data_len c0 = data_len c) as Hdl by (destruct Hsf as (_ & _ & _ & _ & Hu); unfold data_len; by rewrite Hu).
    pose proof Hlen as Hlen'. rewrite (pending_count_len _ _ _ Hq), (pending_count_len _ _ _ Hq1) in Hlen.
    apply holds_bind, holds_modify, holds_bind. unfold send_next_data_chunk. apply holds_bind, holds_self, holds_bind.
    change (send_next _ _ now) with (send_next (outbound_queue a) (my_next_tsn a) now). rewrite Es.
    apply holds_ret, holds_bind, holds_modify, holds_ret, holds_bind.
    match goal with |- holds _ _ _ _ ?s => set (a1 := s) end.
    assert (outbound_queue a1 = q' ∧ my_next_tsn a1 = wrapping_add 32 (my_next_tsn a) 1 ∧ rwnd a1 = rwnd a - data_len c0 ∧
      cwnd a1 = cwnd a) as (G1 & G2 & G3 & G4) by (rewrite Hdl; done). clearbody a1.
    eapply holds_mono; [apply IH| |done].
    + by rewrite G1, G2.
    + rewrite G1. lia.
    + rewrite G1, G2, next_dist by (done || lia). lia.
    + lia.
    + intros cs a' [Hs ?]. apply holds_ret. split; [|done]. eapply sent_within_cons; try done. lia.
Qed.

(** Claim C21.  Filling the window always ends, without an error or a panic, and sends nothing it may not: the
    chunks get consecutive TSNs and are kept in flight under them, nothing already in flight is
    touched, the bytes in flight stay within the congestion window and what was sent is taken off
    the peer's receive window, which never goes below zero; it stops only when nothing is pending or
    the next chunk would overrun one of the two windows. *)
Theorem pop_pending_within_windows base now a :
  oq_inv base (my_next_tsn a) (outbound_queue a) →
  dist32 base (my_next_tsn a) + pending_len (outbound_queue a) < 2 ^ 31 → 0 <= rwnd a →
  ∃ cs a', pop_pending_loop (pending_fuel a) now a = ROk cs a' ∧ sent_within a cs a' ∧
    oq_inv base (my_next_tsn a') (outbound_queue a').
Proof.
  intros Hq Hd Hr. rewrite (pending_count_len _ _ _ Hq) in Hd.
  assert (pending_count (outbound_queue a) < pending_fuel a)%nat as Hf.
  { unfold pending_count, pending_fuel. rewrite length_app. lia. }
  pose proof (pop_pending_loop_Ok base _ now a Hq Hf Hd Hr) as H. unfold holds in H.
  destruct (pop_pending_loop _ now a) as [cs a'| | |]; [|done..]. eauto.
Qed.
End Window.

Lemma pop_pending_within_windows_witness :
  ∃ q cs a', oq_push OutboundQueue_default (sample_half 65535) = Ok q ∧
    let a := demo_end false 77 5 <| outbound_queue := q |> <| my_next_tsn := 10 |> <| rwnd := 100 |> in
    pop_pending_loop (pending_fuel a) 0 a = ROk cs a' ∧ sent_within a cs a' ∧
    oq_inv 9 (my_next_tsn a') (outbound_queue a').
Proof.
  destruct sample_pushed as (q & E & Hq & _). exists q.
  assert (pending_len q = 2) as Hl by (vm_compute in E; injection E as <-; reflexivity).
  destruct (pop_pending_within_windows 9 0 (demo_end false 77 5 <| outbound_queue := q |> <| my_next_tsn := 10 |> <| rwnd := 100 |>))
    as (cs & a' & H1 & H2 & H3).
  - exact Hq.
  - change (dist32 9 10 + pending_len q < 2 ^ 31). rewrite Hl. vm_compute. reflexivity.
  - vm_compute. discriminate.
  - exists cs, a'. split; [exact E|]. split; [exact H1|]. split; [exact H2|exact H3].
Defined.
