(* ===== verification/AssocAck.v ===== *)
(** * What a DATA chunk does to the acknowledgement state

    The receiver knows the cumulative TSN and the queue of TSNs past it.  While
    no stream reset is under way, handling a DATA chunk always returns; what
    the association would acknowledge afterwards is what it would have
    acknowledged before, and this chunk when it was taken; and the SACK that is
    built next says exactly that. *)

From stdpp Require Import base list gmap numbers sets.
From Stdlib Require Import ZArith Lia ZifyBool.
From S2P Require Import Prelude Bytes Util Params Chunks Packet PayloadQueue PayloadRun PendingQueue OutboundQueue.
From S2P Require Import ReassemblyQueue Shared Stream Monad Timer Config Association AssocReset AssocRecv AssocSend.
From S2P Require Import AssocFrame.

(** ** Moving the cumulative TSN *)

(** [q'] with cumulative TSN [p] is [q] with cumulative TSN [base] after every next TSN was taken off. *)
Record drained (base : u32) (q : PayloadQueue) (p : u32) (q' : PayloadQueue) : Prop := mk_drained {
  dr_popped : popped base q p q';
  dr_stops : chunk_map q' !! next_tsn p = None;
}.

Lemma drained_refl base q : pq_inv base q → chunk_map q !! next_tsn base = None → drained base q base q.
Proof. intros. constructor; [by apply popped_refl|done]. Qed.

Lemma drained_step base q q1 p q' c :
  pq_inv base q → chunk_map q !! base = None → chunk_map q !! next_tsn base = Some c →
  chunk_map q1 = delete (next_tsn base) (chunk_map q) → drained (next_tsn base) q1 p q' → drained base q p q'.
Proof. intros ???? []. constructor; [by eapply popped_step|done]. Qed.

Section Ack.
Context {I : MapIter} {IL : MapIterLaws I}.

(** ** No stream reset under way *)

Record undisturbed (a : Association) : Prop := mk_undisturbed {
  ud_requests : reconfig_requests a = ∅;
  ud_retiring : retiring_streams a = ∅;
  ud_data : deferred_reset_data a = ∅;
  ud_forward : deferred_forward_tsns a = ∅;
}.

Lemma entries_empty {A} : entries (∅ : gmap Z A) = [].
Proof. pose proof (entries_law A ∅) as H. rewrite map_to_list_empty in H. by apply Permutation_nil_r in H. Qed.

(** Nothing but the cumulative TSN and the queue changes. *)
Definition moved (a : Association) (p : u32) (q : PayloadQueue) : Association :=
  a <| payload_queue := q |> <| peer_last_tsn := p |>.

Lemma advance_drains fuel : ∀ a,
  pq_inv (peer_last_tsn a) (payload_queue a) → chunk_map (payload_queue a) !! peer_last_tsn a = None →
  undisturbed a → (length (sorted (payload_queue a)) < fuel)%nat →
  holds False (advance_peer_last_tsn fuel)
    (λ _ a', ∃ p q, a' = moved a p q ∧ drained (peer_last_tsn a) (payload_queue a) p q ∧ chunk_map q !! p = None)
    (λ _ _, False) a.
Proof.
  induction fuel as [|fuel IH]; intros a Hq Hb Hu Hf; [lia|]. cbn [advance_peer_last_tsn].
  apply holds_bind, holds_self. pose proof (pop_next _ _ Hq Hb) as Hpop. fold (next_tsn (peer_last_tsn a)).
  destruct (pq_pop _ _) as [[c|] q1].
  - destruct Hpop as (Hc & Hm & Hq1 & Hlen). apply holds_bind, holds_modify.
    set (a1 := a <| payload_queue := q1 |> <| peer_last_tsn ::= _ |>).
    assert (undisturbed a1) as Hu1 by (by destruct Hu). apply holds_bind. unfold reevaluate_pending_reset_requests.
    apply holds_bind, holds_gets. unfold values. rewrite (ud_requests _ Hu1), entries_empty. cbn [fmap list_fmap reevaluate_requests].
    apply holds_ret, holds_bind, holds_self. rewrite (ud_data _ Hu1), lookup_empty. apply holds_bind, holds_ret, holds_bind.
    change (peer_last_tsn a1) with (next_tsn (peer_last_tsn a)) in *.
    eapply holds_mono; [apply (IH a1); [exact Hq1| |done|]| |done].
    + change (chunk_map q1 !! next_tsn (peer_last_tsn a) = None). rewrite Hm. apply lookup_delete_eq.
    + change (payload_queue a1) with q1. lia.
    + intros reply a' (p & q & -> & Hd & Hp). apply holds_ret. exists p, q. split; [reflexivity|]. split; [|done].
      by eapply drained_step.
  - destruct Hpop as [-> Hn]. apply holds_bind, holds_modify, holds_ret. exists (peer_last_tsn a), (payload_queue a).
    split; [reflexivity|]. split; [|done]. by apply drained_refl.
Qed.

(** ** Acknowledging *)

Definition queued_bytes (a : Association) : Z :=
  map_sum (λ s, wrap 32 (get_num_bytes_in_reassembly_queue s)) (streams a).

Lemma credit_returns a : undisturbed a → queued_bytes a < 2 ^ 32 →
  get_my_receiver_window_credit a = Ok (saturating_sub (max_receive_buffer_size a) (queued_bytes a)).
Proof.
  intros Hu Hlt. unfold get_my_receiver_window_credit. rewrite (ud_data _ Hu), map_sum_empty, Z.add_0_r.
  fold (queued_bytes a). by rewrite (proj2 (Z.ltb_lt _ _)).
Qed.

(** What the association may be left in: moved, with flags of the acknowledgement set. *)
Record received (a a' : Association) : Prop := mk_received {
  re_drained : drained (peer_last_tsn a) (payload_queue a) (peer_last_tsn a') (payload_queue a');
  re_base : chunk_map (payload_queue a') !! peer_last_tsn a' = None;
  re_undisturbed : undisturbed a';
}.

(** And the application has seen nothing of it. *)
Definition silently (a a' : Association) : Prop :=
  received a a' ∧ streams a' = streams a ∧ events a' = events a ∧ max_receive_buffer_size a' = max_receive_buffer_size a.

Lemma acknowledge_receives a immediately :
  pq_inv (peer_last_tsn a) (payload_queue a) → chunk_map (payload_queue a) !! peer_last_tsn a = None →
  undisturbed a → queued_bytes a < 2 ^ 32 →
  holds False (handle_peer_last_tsn_and_acknowledgement immediately) (λ _, silently a)
    (λ e a', silently a a' ∧ max_receive_buffer_size a <= queued_bytes a ∧ e = ErrReceiveBufferExhausted) a.
Proof.
  intros Hq Hb Hu Hlt. unfold handle_peer_last_tsn_and_acknowledgement. apply holds_bind, holds_self, holds_bind.
  eapply holds_mono; [apply advance_drains; [done..|lia]| |done]. intros reply a1 (p & q & -> & Hd & Hp).
  assert (undisturbed (moved a p q)) as Hu1 by (by destruct Hu). apply holds_bind, holds_gets, holds_bind.
  unfold keys. rewrite (ud_forward _ Hu1), entries_empty. cbn [fmap list_fmap for_each]. apply holds_ret, holds_bind, holds_self, holds_bind.
  assert (silently a (moved a p q)) as Hr by done.
  unfold receive_capacity_exhausted. rewrite credit_returns by done. cbn [mbind Outcome_bind].
  apply holds_lift; [intros ex [= <-]|done|by intros []]. destruct (_ && _) eqn:Eex.
  { apply holds_throw. split; [done|]. split; [|done]. rewrite <- !andb_assoc in Eex. apply andb_true_iff in Eex as [Eex _]. unfold saturating_sub in Eex.
    change (max_receive_buffer_size (moved a p q)) with (max_receive_buffer_size a) in Eex. change (queued_bytes (moved a p q)) with (queued_bytes a) in Eex. lia. }
  clear Eex. apply holds_bind.
  by case_match; apply holds_modify, holds_ret; destruct Hr as [[? ? []] ?].
Qed.

(** ** One DATA chunk *)

Record receiving (a : Association) : Prop := mk_receiving {
  rv_queue : pq_inv (peer_last_tsn a) (payload_queue a);
  rv_base : chunk_map (payload_queue a) !! peer_last_tsn a = None;
  rv_next : chunk_map (payload_queue a) !! next_tsn (peer_last_tsn a) = None;
}.

(** What the association would acknowledge, as seen by a sender whose last known cumulative TSN is [base]. *)
Definition would_ack (base : u32) (a : Association) (t : u32) : Prop :=
  0 < dist32 base t <= dist32 base (peer_last_tsn a) ∨ is_Some (chunk_map (payload_queue a) !! t).

Lemma would_ack_self a t : would_ack (peer_last_tsn a) a t ↔ is_Some (chunk_map (payload_queue a) !! t).
Proof.
  unfold would_ack. rewrite dist32_self. intuition lia.
Qed.

Lemma drained_ack base q p q' t :
  drained base q p q' → uN 32 t →
  0 < dist32 base t <= dist32 base p ∨ is_Some (chunk_map q' !! t) ↔ is_Some (chunk_map q !! t).
Proof.
  intros Hd Ht. rewrite (po_left _ _ _ _ (dr_popped _ _ _ _ Hd)). case_decide as Hr.
  - split; [intros _; by apply (po_taken _ _ _ _ (dr_popped _ _ _ _ Hd))|by left].
  - intuition.
Qed.

(** [window_open]: the chunk is new, there is credit, and its stream takes it. *)
Definition window_open (d : ChunkPayloadData) (a : Association) : Prop :=
  can_push (payload_queue a) d (peer_last_tsn a) = true ∧
  queued_bytes a < max_receive_buffer_size a ∧
  ∃ s r, streams a !! stream_identifier d = Some s ∧ handle_stream_data s d = Ok r.

Record after_data (d : ChunkPayloadData) (a a' : Association) (taken : bool) : Prop := mk_after_data {
  ad_receiving : receiving a';
  ad_undisturbed : undisturbed a';
  ad_ahead : dist32 (peer_last_tsn a) (peer_last_tsn a') < 2 ^ 31;
  ad_ack t : uN 32 t →
    would_ack (peer_last_tsn a) a' t ↔ would_ack (peer_last_tsn a) a t ∨ (taken = true ∧ t = tsn d);
  ad_taken : taken = true → can_push (payload_queue a) d (peer_last_tsn a) = true;
  ad_open : window_open d a → taken = true;
}.

(** The acknowledgement of a state whose queue is that of [a], or that with [d]. *)
Lemma received_after d a a1 a' (taken : bool) :
  peer_last_tsn a1 = peer_last_tsn a →
  (∀ t, is_Some (chunk_map (payload_queue a1) !! t) ↔
     is_Some (chunk_map (payload_queue a) !! t) ∨ (taken = true ∧ t = tsn d)) →
  (taken = true → can_push (payload_queue a) d (peer_last_tsn a) = true) →
  (window_open d a → taken = true) → received a1 a' → after_data d a a' taken.
Proof.
  intros Hp Hq Ht Ho [Hd Hb Hu]. rewrite Hp in Hd. split; [|done|by apply Hd| |done..].
  - split; [by apply Hd|done|by apply Hd].
  - intros t Hut. rewrite would_ack_self, <- Hq. by apply drained_ack.
Qed.

Lemma push_bytes q c b q' :
  rq_push q c = Ok (b, q') → rq_get_num_bytes q' = rq_get_num_bytes q ∨ rq_get_num_bytes q' = rq_get_num_bytes q + data_len c.
Proof.
  unfold rq_push, rq_get_num_bytes. destruct (negb _); [intros [= _ <-]; by left|]. destruct (unordered c).
  - intros (sz & _ & H)%bind_Ok. destruct (sz >? _); [done|].
    apply bind_Ok in H as ([found q1] & Hf & H). right. unfold find_complete_unordered_chunk_set in Hf.
    assert (rq_n_bytes q1 = rq_n_bytes q + data_len c) as <-.
    { clear H. repeat case_match; by simplify_eq/=. }
    by destruct found; simplify_eq/=.
  - destruct (_ >? _); [done|]. destruct (sna16lt _ _); [intros [= _ <-]; by left|]. right.
    destruct (push_existing _ _) as [[]|]; [by simplify_eq|]. destruct (Chunks_push _ _). by simplify_eq.
Qed.

Lemma wrap_add_le b n : 0 <= n → wrap 32 (b + n) <= wrap 32 b + n.
Proof. intros. unfold wrap. rewrite <- Zplus_mod_idemp_l. apply Z.mod_le; [|lia]. pose proof (Z.mod_pos_bound b (2 ^ 32) eq_refl). lia. Qed.

(** A known stream stays, an unknown one is created empty. *)
Record same_receiver (a a' : Association) : Prop := mk_same_receiver {
  sm_tsn : peer_last_tsn a' = peer_last_tsn a;
  sm_queue : payload_queue a' = payload_queue a;
  sm_undisturbed : undisturbed a';
  sm_bytes : queued_bytes a' = queued_bytes a;
  sm_buffer : max_receive_buffer_size a' = max_receive_buffer_size a;
}.

Lemma get_or_create_receives id a :
  undisturbed a →
  holds False (get_or_create_stream id)
    (λ created a', same_receiver a a' ∧ (created = true → is_Some (streams a' !! id)) ∧
       ∀ s, streams a !! id = Some s → created = true ∧ streams a' !! id = Some s) (λ _ _, False) a.
Proof.
  intros Hu. unfold get_or_create_stream. apply holds_bind, holds_gets. case_bool_decide as Hs.
  { apply holds_ret. split; [by destruct Hu|]. eauto. }
  apply eq_None_not_Some in Hs. unfold create_stream. apply holds_bind, holds_self.
  destruct (_ <? _); [|apply holds_ret; split; [by destruct Hu|]; split; [done|]; intros s Hs'; congruence].
  unfold push_event. apply holds_bind, holds_modify, holds_bind, holds_when; [intros _|done].
  apply holds_bind, holds_modify, holds_modify, holds_bind, holds_modify, holds_ret.
  split; [split; try reflexivity; [by destruct Hu|]|].
  - unfold queued_bytes. cbn. by rewrite map_sum_insert.
  - split; [intros _; cbn; rewrite lookup_insert_eq; eauto|]. intros s Hs'. congruence.
Qed.

Lemma not_above_reset d a : undisturbed a → data_is_above_pending_reset a d = false.
Proof.
  intros Hu. unfold data_is_above_pending_reset, any_value. rewrite (ud_retiring _ Hu), (ud_requests _ Hu), lookup_empty.
  by rewrite bool_decide_false by (by intros []).
Qed.

Lemma can_push_true q d base :
  can_push q d base = true → chunk_map q !! tsn d = None ∧ sna32lte (tsn d) base = false.
Proof. unfold can_push. rewrite negb_true_iff, orb_false_iff, contains_key_false. done. Qed.

(** Queueing a chunk that may be pushed. *)
Lemma push_receives q d base :
  pq_inv base q → chunk_map q !! base = None → uN 32 (tsn d) → tsn d ≠ wrapping_add 32 base (2 ^ 31) →
  can_push q d base = true →
  pq_inv base (pq_push q d base).2 ∧ chunk_map (pq_push q d base).2 = <[tsn d := d]> (chunk_map q) ∧
  chunk_map (pq_push q d base).2 !! base = None.
Proof.
  intros Hq Hb Hu Hne Hc. pose proof (can_push_true _ _ _ Hc) as [Hf Hl].
  assert (pq_push q d base = (true, push_no_check q d)) as E.
  { unfold pq_push, can_push in *. apply negb_true_iff in Hc. by rewrite Hc. }
  rewrite E. cbn [snd]. split; [by eapply pq_push_inv|]. split; [done|].
  change (<[tsn d := d]> (chunk_map q) !! base = None). apply lookup_insert_None. split; [done|]. intros Heq.
  pose proof (inv_base _ _ Hq) as Hbu. clear -Hl Heq Hbu Hu. rewrite Heq in Hl. sna.
Qed.

Section Data.
Context (d : ChunkPayloadData) (a : Association).
Context (Hrv : receiving a) (Hud : undisturbed a) (Hu32 : uN 32 (tsn d)).
Context (Hfar : tsn d ≠ wrapping_add 32 (peer_last_tsn a) (2 ^ 31)) (Hfit : queued_bytes a + data_len d < 2 ^ 32).

(** The chunk goes to its stream and into the queue. *)
Lemma deliver_receives a1 s :
  same_receiver a a1 → streams a1 !! stream_identifier d = Some s →
  can_push (payload_queue a) d (peer_last_tsn a) = true →
  ∀ r s', handle_stream_data s d = Ok (r, s') →
  let a2 := a1 <| streams ::= <[stream_identifier d := s']> |>
               <| payload_queue := (pq_push (payload_queue a1) d (peer_last_tsn a1)).2 |> in
  ∀ a3, peer_last_tsn a3 = peer_last_tsn a2 → payload_queue a3 = payload_queue a2 → streams a3 = streams a2 →
    undisturbed a3 → ∀ immediately,
  holds False (handle_peer_last_tsn_and_acknowledgement immediately)
    (λ _ a', ∃ taken, after_data d a a' taken) (λ _ a', ∃ taken, after_data d a a' taken) a3.
Proof.
  intros [Ht Hq Hu1 Hbytes _] Hs Hc r s' Hh a2 a3 Ht3 Hq3 Hs3 Hu3 immediately.
  destruct (push_receives _ _ _ (rv_queue _ Hrv) (rv_base _ Hrv) Hu32 Hfar Hc) as (Hinv & Hmap & Hbase).
  change (peer_last_tsn a2) with (peer_last_tsn a1) in Ht3.
  change (payload_queue a2) with (pq_push (payload_queue a1) d (peer_last_tsn a1)).2 in Hq3.
  change (streams a2) with (<[stream_identifier d := s']> (streams a1)) in Hs3. clear a2.
  rewrite Ht in Ht3. rewrite Hq, Ht in Hq3.
  assert (queued_bytes a3 < 2 ^ 32) as Hlt.
  { assert (queued_bytes a3 = queued_bytes a1 - wrap 32 (get_num_bytes_in_reassembly_queue s)
      + wrap 32 (get_num_bytes_in_reassembly_queue s')) as -> 
      by (unfold queued_bytes; rewrite Hs3; exact (map_sum_replace _ _ _ _ s' Hs)).
    unfold handle_stream_data in Hh. apply bind_Ok in Hh as ([b q'] & Hp & Hh). pose proof (data_len_nonneg d).
    assert (get_num_bytes_in_reassembly_queue s' = rq_get_num_bytes q') as -> by (by simplify_eq/=).
    change (get_num_bytes_in_reassembly_queue s) with (rq_get_num_bytes (reassembly_queue s)). rewrite Hbytes.
    pose proof (wrap_add_le (rq_get_num_bytes (reassembly_queue s)) (data_len d)).
    destruct (push_bytes _ _ _ _ Hp) as [->| ->]; lia. }
  assert (∀ a', received a3 a' → ∃ taken, after_data d a a' taken) as Hafter.
  { intros a' Hr. exists true. revert Hr. apply received_after; [done| |done..]. intros t. rewrite Hq3, Hmap, lookup_insert_is_Some.
    split; [intros [->|[_ ?]]; auto|intros [?|[_ ->]]; [|auto]; destruct (decide (tsn d = t)); auto]. }
  eapply holds_mono; [apply acknowledge_receives; rewrite ?Hq3, ?Ht3; done|intros ? ? [? _]; by apply Hafter|intros ? ? [[? _] _]; by apply Hafter].
Qed.

(** The chunk is not taken. *)
Lemma ignore_receives a1 immediately :
  same_receiver a a1 → ¬ window_open d a →
  holds False (handle_peer_last_tsn_and_acknowledgement immediately)
    (λ _ a', ∃ taken, after_data d a a' taken) (λ _ a', ∃ taken, after_data d a a' taken) a1.
Proof.
  intros [Ht Hq Hu1 Hbytes _] Hno. pose proof (data_len_nonneg d). destruct Hrv as [Hinv Hbase _].
  assert (∀ a', received a1 a' → ∃ taken, after_data d a a' taken) as Hafter.
  { intros a' Hr. exists false. revert Hr. apply received_after; [done| |done..]. intros t. rewrite Hq. naive_solver. }
  eapply holds_mono; [apply acknowledge_receives; rewrite ?Hq, ?Ht, ?Hbytes; (done || lia)|intros ? ? [? _]; by apply Hafter|intros ? ? [[? _] _]; by apply Hafter].
Qed.

Lemma untaken_after a1 : same_receiver a a1 → ¬ window_open d a → after_data d a a1 false.
Proof.
  intros [Ht Hq Hu1 _ _] Hno. destruct Hrv as [Hinv Hbase Hnext].
  apply (received_after d a a); [done|naive_solver|done..|].
  split; rewrite ?Ht, ?Hq; [by apply drained_refl|done..].
Qed.

Lemma handle_data_after :
  holds False (handle_data d) (λ _ a', ∃ taken, after_data d a a' taken) (λ _ a', ∃ taken, after_data d a a' taken) a.
Proof.
  unfold handle_data, admit_data. apply holds_bind, holds_modify. set (a0 := a <| stats ::= inc_datas |>).
  assert (same_receiver a a0) as Hs0 by (by destruct Hud). do 2 apply holds_bind. apply holds_self.
  rewrite (not_above_reset d a0) by apply Hs0. rewrite andb_false_r.
  change (payload_queue a0) with (payload_queue a). change (peer_last_tsn a0) with (peer_last_tsn a).
  destruct (can_push (payload_queue a) d (peer_last_tsn a)) eqn:Hc.
  2:{ apply holds_ret, ignore_receives; [done|]. intros [? _]. congruence. }
  apply holds_bind. eapply holds_mono; [apply get_or_create_receives, Hs0| |done].
  intros created a1 ([Ht1 Hq1 Hu1 Hb1 Hm1] & Hcr & Hknown).
  assert (same_receiver a a1) as Hs1 by (split; [done..| |]; [exact Hb1|exact Hm1]).
  destruct created; cbn [negb].
  2:{ apply holds_ret, holds_ret. exists false. apply untaken_after; [done|]. intros (_ & _ & s & r & Hs & _).
      by apply (Hknown s) in Hs as [? _]. }
  destruct (Hcr eq_refl) as [s Hs]. apply holds_bind, holds_self, holds_bind.
  rewrite credit_returns; [|done|rewrite (sm_bytes _ _ Hs1); pose proof (data_len_nonneg d); lia].
  apply holds_lift; [|done|by intros []]. intros credit [= <-]. apply holds_ret.
  destruct (_ || _) eqn:Hopen.
  2:{ apply ignore_receives; [done|]. intros (_ & Hlt & _).
      apply orb_false_iff in Hopen as [Hopen _]. unfold saturating_sub in Hopen.
      rewrite (sm_bytes _ _ Hs1), (sm_buffer _ _ Hs1) in Hopen. lia. }
  apply holds_bind, holds_self. rewrite Hs. apply holds_bind, holds_bind.
  pose proof (rq_push_returns (reassembly_queue s) d) as Hret.
  apply holds_lift.
  - intros [queued s'] Hh. apply holds_bind, holds_modify. set (a2 := a1 <| streams ::= _ |> <| payload_queue := _ |>).
    assert (∀ a3, peer_last_tsn a3 = peer_last_tsn a2 → payload_queue a3 = payload_queue a2 → streams a3 = streams a2 → undisturbed a3 →
      holds False (apply_deferred_forward_tsns (stream_identifier d);; handle_peer_last_tsn_and_acknowledgement (immediate_sack d))
        (λ _ a', ∃ taken, after_data d a a' taken) (λ _ a', ∃ taken, after_data d a a' taken) a3) as Hrest.
    { intros a3 ??? Hu3. unfold apply_deferred_forward_tsns. apply holds_bind, holds_bind, holds_self.
      rewrite (ud_forward _ Hu3), lookup_empty.
      assert (∀ (o : option StreamState), (match o with Some _ => @mret AM _ unit tt | None => mret tt end) = mret tt) as E by (by intros []).
      rewrite E. apply holds_ret. by eapply (deliver_receives a1 s). }
    assert (undisturbed a2) as Hu2 by (by destruct Hu1). unfold push_event. apply holds_bind, holds_modify.
    apply holds_when; intros _; [apply holds_modify|]; apply Hrest; try reflexivity; by destruct Hu2.
  - intros e Hh. exists false. apply untaken_after; [done|]. intros (_ & _ & s1 & r & Hs' & Hok).
    apply (Hknown s1) in Hs' as [_ Hs']. congruence.
  - unfold handle_stream_data. intros Hn. apply Hn. apply returns_bind; [done|by intros [] _].
Qed.
End Data.

(** ** The SACK *)

(** What a SACK tells a sender whose last known cumulative TSN is [base]. *)
Definition sack_covers (base : u32) (s : ChunkSelectiveAck) (t : u32) : Prop :=
  0 < dist32 base t <= dist32 base (cumulative_tsn_ack s) ∨
  covers (gap_ack_blocks s) (dist32 (cumulative_tsn_ack s) t).

(** The 16-bit offsets of the gap blocks reach this far. *)
Definition in_reach (base cum t : u32) : Prop := 0 < dist32 base t <= dist32 base cum ∨ dist32 cum t < 2 ^ 16.

Lemma sack_exact base a t :
  receiving a → uN 32 t →
  let s := mkChunkSelectiveAck (peer_last_tsn a) 0 (get_gap_ack_blocks (payload_queue a) (peer_last_tsn a)) [] in
  (sack_covers base s t → would_ack base a t) ∧ (would_ack base a t → in_reach base (peer_last_tsn a) t → sack_covers base s t).
Proof.
  intros [Hq Hb Hn] Ht. destruct (gap_blocks_exact _ _ Hq) as [Hc _]. cbv zeta. unfold sack_covers, would_ack, in_reach.
  cbn [cumulative_tsn_ack gap_ack_blocks]. rewrite Hc. pose proof (inv_base _ _ Hq) as Hbu.
  assert (wrapping_add 32 (peer_last_tsn a) (dist32 (peer_last_tsn a) t) = t) as E by (clear -Hbu Ht; sna). rewrite E.
  split; [intros [?|[_ [c Hx]]]; [by left|right; eauto]|].
  intros [?|[c Hx]] [?|?]; try (by left). right. split; [|eauto]. pose proof (dist32_bounds (peer_last_tsn a) t).
  assert (dist32 (peer_last_tsn a) t ≠ 0); [|lia]. intros E0. apply eq_None_not_Some in Hb. apply Hb.
  assert (t = peer_last_tsn a) as <- by (clear -Hbu Ht E0; sna). eauto.
Qed.

(** Claim C7.  DATA is acknowledged truthfully: while no stream reset is under way and the receive window can be
    counted, handling a DATA chunk, unless its TSN is exactly half the number circle away from the
    cumulative TSN, always returns (with or without an error); afterwards the
    association would acknowledge exactly what it would have acknowledged before and, if it took the
    chunk, that chunk; it takes only chunks it did not have, and takes every one that arrives while the
    window is open and its stream accepts it; the cumulative TSN never stops before a TSN that was
    received, and the SACK built next covers exactly these TSNs, as far as its 16-bit gap blocks reach. *)
Theorem data_acknowledged d a :
  receiving a → undisturbed a → uN 32 (tsn d) → tsn d ≠ wrapping_add 32 (peer_last_tsn a) (2 ^ 31) →
  queued_bytes a + data_len d < 2 ^ 32 →
  ∃ a' taken, ((∃ r, handle_data d a = ROk r a') ∨ (∃ e, handle_data d a = RErr e a')) ∧ after_data d a a' taken ∧
    ∀ s a'', create_selective_ack_chunk a' = ROk s a'' → ∀ t, uN 32 t →
      (sack_covers (peer_last_tsn a) s t → is_Some (pq_get (payload_queue a) t) ∨ (taken = true ∧ t = tsn d)) ∧
      (is_Some (pq_get (payload_queue a) t) ∨ (taken = true ∧ t = tsn d) →
       in_reach (peer_last_tsn a) (peer_last_tsn a') t → sack_covers (peer_last_tsn a) s t).
Proof.
  intros Hrv Hud Hu Hfar Hfit. pose proof (handle_data_after d a Hrv Hud Hu Hfar Hfit) as H. unfold holds in H.
  assert (∀ a' taken, after_data d a a' taken → ∀ s a'', create_selective_ack_chunk a' = ROk s a'' → ∀ t, uN 32 t →
      (sack_covers (peer_last_tsn a) s t → is_Some (pq_get (payload_queue a) t) ∨ (taken = true ∧ t = tsn d)) ∧
      (is_Some (pq_get (payload_queue a) t) ∨ (taken = true ∧ t = tsn d) →
       in_reach (peer_last_tsn a) (peer_last_tsn a') t → sack_covers (peer_last_tsn a) s t)) as Hsack.
  { intros a' taken Had s a'' Hs t Ht. pose proof (sack_exact (peer_last_tsn a) a' t (ad_receiving _ _ _ _ Had) Ht) as Hex.
    pose proof (ad_ack _ _ _ _ Had t Ht) as Hack. rewrite would_ack_self in Hack. unfold create_selective_ack_chunk in Hs. revert Hs. run.
    destruct (get_my_receiver_window_credit a'); [|done..]. intros [= <- _].
    destruct Hex as [Hx1 Hx2]. rewrite Hack in Hx1, Hx2. exact (conj Hx1 Hx2). }
  destruct (handle_data d a) as [r a'|e a'| |] eqn:E; [| |done..]; destruct H as [taken Had];
    exists a', taken; (split; [eauto|]); split; auto; by apply Hsack.
Qed.
End Ack.

(** ** A new association receives TSN 2 before TSN 1 *)

Definition demo_receiver : Association := Association_default <| max_receive_buffer_size := 100000 |>.
Definition demo_chunk : ChunkPayloadData := ChunkPayloadData_default <| tsn := 2 |> <| user_data := [1; 2; 3] |>.

Lemma data_acknowledged_witness :
  ∃ a' taken, ((∃ r, @handle_data list_iter demo_chunk demo_receiver = ROk r a') ∨
      (∃ e, @handle_data list_iter demo_chunk demo_receiver = RErr e a')) ∧
    after_data demo_chunk demo_receiver a' taken ∧
    ∀ s a'', create_selective_ack_chunk a' = ROk s a'' → ∀ t, uN 32 t →
      (sack_covers 0 s t → is_Some (pq_get PayloadQueue_new t) ∨ (taken = true ∧ t = 2)) ∧
      (is_Some (pq_get PayloadQueue_new t) ∨ (taken = true ∧ t = 2) → in_reach 0 (peer_last_tsn a') t → sack_covers 0 s t).
Proof.
  apply (@data_acknowledged list_iter list_iter_laws demo_chunk demo_receiver).
  - constructor; [apply pq_inv_new; by vm_compute|reflexivity..].
  - constructor; reflexivity.
  - by vm_compute.
  - by vm_compute.
  - by vm_compute.
Defined.
