(* ===== verification/AssocSack.v ===== *)
(** * What a SACK does to the flight

    The sender's half of acknowledgement.  A SACK that reports only TSNs in
    flight is always processed: the TSNs up to its cumulative TSN leave the
    flight, those in its gap blocks are marked, every stream is credited with
    exactly the bytes that were owed to it, and nothing else changes.  Composed
    with [AssocAck], this holds for every SACK the receiving end builds. *)

From stdpp Require Import base list gmap numbers sets.
From Stdlib Require Import ZArith Lia ZifyBool.
From S2P Require Import Prelude Bytes Util Params Chunks Packet PayloadQueue PayloadRun PendingQueue OutboundQueue.
From S2P Require Import ReassemblyQueue Shared Stream Monad Timer Config Association AssocReset AssocRecv AssocSend.
From S2P Require Import AssocFrame AssocAck.

Definition flight (a : Association) : PayloadQueue := inflight (outbound_queue a).

(** ** What processing a SACK may write *)

Definition written (a : Association) (i : PayloadQueue) (t : u32) (m : RtoManager) (r : bool) (tt : TimerTable) : Association :=
  a <| outbound_queue ::= λ q, q <| inflight := i |> |> <| min_tsn2measure_rtt := t |> <| rto_mgr := m |>
    <| in_fast_recovery := r |> <| timers := tt |>.

Definition touched (a a' : Association) : Prop :=
  ∃ i t m r tt, tt_rto_max tt = tt_rto_max (timers a) ∧ a' = written a i t m r tt.

Lemma touched_intro a a' :
  tt_rto_max (timers a') = tt_rto_max (timers a) →
  a' = written a (flight a') (min_tsn2measure_rtt a') (rto_mgr a') (in_fast_recovery a') (timers a') → touched a a'.
Proof. unfold touched. eauto 8. Qed.

(** Every write of the loops below is one of these. *)
Ltac written a :=
  apply touched_intro; [done|];
  destruct a as [? ? ? ? ? ? ? ? ? ? ? ? ? ? ? ? ? ? ? ? ? ? ? ? ? ? ? ? ? ? ? ? ? ? ? ? ? ? ? ? ? ? ? ? oq];
  destruct oq; reflexivity.

#[export] Instance touched_refl : Reflexive touched.
Proof. intros a. written a. Qed.

#[export] Instance touched_trans : Transitive touched.
Proof.
  intros a ? ? (i & t & m & r & tt & Ht & ->) (i' & t' & m' & r' & tt' & Ht' & ->). exists i', t', m', r', tt'.
  split; [by rewrite Ht'|reflexivity].
Qed.

Lemma touched_queue a i : touched a (a <| outbound_queue := outbound_queue a <| inflight := i |> |>).
Proof. written a. Qed.

Lemma touched_tsn a t : touched a (a <| min_tsn2measure_rtt := t |>).
Proof. written a. Qed.

Lemma touched_rto a m : touched a (a <| rto_mgr := m |>).
Proof. written a. Qed.

Lemma touched_recovery a r : touched a (a <| in_fast_recovery := r |>).
Proof. written a. Qed.

Lemma touched_timers a tt : tt_rto_max tt = tt_rto_max (timers a) → touched a (a <| timers := tt |>).
Proof. intros. written a. Qed.

Lemma touched_same a a' : touched a a' →
  streams a' = streams a ∧ my_next_tsn a' = my_next_tsn a ∧ cumulative_tsn_ack_point a' = cumulative_tsn_ack_point a ∧
  outbound_queue a' = outbound_queue a <| inflight := flight a' |>.
Proof. intros (i & t & m & r & tt & _ & ->). done. Qed.

(** ** Measuring round trips *)

(** [E] is kept by every measurement of a chunk in flight.  The estimator is floating point, and some
    measurements overflow it: [p] says whether that is tolerated. *)
Definition measurable (p : Prop) (now : Instant) (E : RtoManager → Prop) (q : PayloadQueue) : Prop :=
  ∀ m t c s, E m → chunk_map q !! t = Some c → since c = Some s →
    match set_new_rtt m (rtt_millis now s) with
    | Ok (_, m') => E m'
    | Err _ => False
    | _ => p
    end.

Lemma measurable_sub p now E q q' :
  measurable p now E q → (∀ t c, chunk_map q' !! t = Some c → ∃ c', chunk_map q !! t = Some c' ∧ since c' = since c) →
  measurable p now E q'.
Proof. intros H Hsub m t c s Hm (c' & Hc & <-)%Hsub. by apply (H m t c' s). Qed.

(** A measurement is not an error, and it changes nothing but the estimator. *)
Lemma measure_rtt_Ok p now E q t c a :
  measurable p now E q → chunk_map q !! t = Some c → E (rto_mgr a) →
  holds p (measure_rtt c now) (λ _ a', touched a a' ∧ E (rto_mgr a') ∧ flight a' = flight a) (λ _ _, False) a.
Proof.
  intros Hm Hc HE. unfold measure_rtt. apply holds_bind, holds_modify. pose proof (touched_tsn a (my_next_tsn a)) as Ht.
  set (a1 := a <| min_tsn2measure_rtt := _ |>). change (E (rto_mgr a1)) in HE. fold a1 in Ht.
  destruct (since c) as [s|] eqn:Es; [|by apply holds_ret]. apply holds_bind, holds_gets, holds_bind.
  specialize (Hm _ _ _ _ HE Hc Es). destruct (set_new_rtt _ _) as [[x m]| | |]; [|done..].
  apply holds_ret, holds_modify. split; [|done]. etrans; [exact Ht|apply touched_rto].
Qed.

(** ** The bytes owed to a stream *)

Definition owes (a : Association) (sid : u16) (c : ChunkPayloadData) : bool :=
  negb (acked c) && negb (abandoned c) && credits_stream a c && (stream_identifier c =? sid).

Definition owed (a : Association) (sid : u16) (q : PayloadQueue) : Z :=
  bytes_where (owes a sid) (chunk_map q).

Definition credit (m : gmap Z Z) (sid : u16) : Z := default 0 (m !! sid).

Lemma credit_add m id n sid : credit (add_credit m id n) sid = credit m sid + if id =? sid then n else 0.
Proof.
  unfold credit, add_credit. destruct (Z.eqb_spec id sid) as [->|Hne]; [by rewrite lookup_insert_eq|].
  rewrite lookup_insert_ne by done. lia.
Qed.

(** Crediting the stream of a chunk that is acknowledged now, if there is anything to credit. *)
Lemma credit_chunk a m c sid :
  credit (if negb (acked c) && negb (abandoned c) && credits_stream a c
          then add_credit m (stream_identifier c) (data_len c) else m) sid =
  credit m sid + if owes a sid c then data_len c else 0.
Proof. unfold owes. destruct (_ && credits_stream a c); cbn [andb]; [apply credit_add|lia]. Qed.

Lemma owed_streams a a' sid q : streams a' = streams a → owed a' sid q = owed a sid q.
Proof. intros E. unfold owed, owes, credits_stream. by rewrite E. Qed.

(** ** The cumulative part *)

Record popped_flight (E : RtoManager → Prop) (base cum : u32) (a : Association) (m : gmap Z Z)
    (m' : gmap Z Z) (a' : Association) : Prop := mk_popped_flight {
  pf_touched : touched a a';
  pf_popped : popped base (flight a) cum (flight a');
  pf_rto : E (rto_mgr a');
  pf_credit sid : credit m' sid + owed a sid (flight a') = credit m sid + owed a sid (flight a);
}.

Section Process.
Context (p : Prop) (now : Instant) (E : RtoManager → Prop).

(** One iteration leaves an association [a1] with the next TSN off the flight. *)
Lemma popped_flight_step base cum a a1 c m m' a' :
  pq_inv base (flight a) → chunk_map (flight a) !! base = None → chunk_map (flight a) !! next_tsn base = Some c →
  chunk_map (flight a1) = delete (next_tsn base) (chunk_map (flight a)) → touched a a1 →
  popped_flight E (next_tsn base) cum a1
    (if negb (acked c) && negb (abandoned c) && credits_stream a c
     then add_credit m (stream_identifier c) (data_len c) else m) m' a' →
  popped_flight E base cum a m m' a'.
Proof.
  intros Hq Hb Hc Hm Ht [Ht' Hp HE Hcr]. pose proof (touched_same _ _ Ht) as (Es & _). split; [by etrans| |done|].
  - by eapply popped_step.
  - intros sid. specialize (Hcr sid). rewrite !(owed_streams a a1), credit_chunk in Hcr by done.
    rewrite Hcr. unfold owed, bytes_where. rewrite Hm, (map_sum_delete _ (chunk_map (flight a)) _ _ Hc). lia.
Qed.

Lemma popped_sub base q cum q' : popped base q cum q' →
  ∀ t c, chunk_map q' !! t = Some c → ∃ c', chunk_map q !! t = Some c' ∧ since c' = since c.
Proof. intros Hp t c. rewrite (po_left _ _ _ _ Hp). case_decide; [done|eauto]. Qed.

Lemma ack_cumulative_Ok fuel cum : ∀ base a m newly,
  pq_inv base (flight a) → chunk_map (flight a) !! base = None → uN 32 cum → dist32 base cum < 2 ^ 31 →
  (∀ t, uN 32 t → 0 < dist32 base t <= dist32 base cum → is_Some (chunk_map (flight a) !! t)) →
  (length (sorted (flight a)) < fuel)%nat → measurable p now E (flight a) → E (rto_mgr a) →
  holds p (ack_cumulative fuel (next_tsn base) cum now m newly)
    (λ r a', popped_flight E base cum a m r.1 a') (λ _ _, False) a.
Proof.
  induction fuel as [|fuel IH]; intros base a m newly Hq Hb Hu Hd Hin Hf Hm HE; [lia|]. cbn [ack_cumulative].
  pose proof (inv_base _ _ Hq) as Hub. destruct (decide (dist32 base cum = 0)) as [H0|H0].
  { assert (cum = base) as -> by (clear -Hu Hub H0; sna).
    assert (sna32lte (next_tsn base) base = false) as -> by (clear -Hub; unfold next_tsn; sna).
    apply holds_ret. split; [done|by apply popped_refl|done|done]. }
  pose proof (dist32_bounds base cum) as Hbd. pose proof (next_tsn_u32 base) as Hun.
  assert (sna32lte (next_tsn base) cum = true) as -> by (clear -Hu Hub H0 Hd; unfold next_tsn; sna).
  assert (dist32 (next_tsn base) cum = dist32 base cum - 1) as Hd' by (clear -Hu Hub H0; unfold next_tsn; sna).
  destruct (Hin (next_tsn base) Hun) as [c Hc].
  { assert (dist32 base (next_tsn base) = 1) as -> by (clear -Hub; unfold next_tsn; sna). lia. }
  cbn [negb]. apply holds_bind, holds_gets. unfold oq_pop. pose proof (pop_next _ _ Hq Hb) as Hpop. unfold flight in Hpop.
  destruct (pq_pop (inflight (outbound_queue a)) (next_tsn base)) as [[c'|] q1]; [|destruct Hpop as [_ Hn]; unfold flight in Hc; congruence].
  destruct Hpop as (Hc' & Hm1 & Hq1 & Hlen). fold (flight a) in *. assert (c' = c) as -> by congruence.
  apply holds_bind, holds_modify. pose proof (touched_queue a q1) as Ht1. set (a1 := a <| outbound_queue := _ |>) in *.
  change q1 with (flight a1) in Hm1, Hq1, Hlen. apply holds_bind, holds_self.
  assert (credits_stream a1 c = credits_stream a c) as -> by done. change (E (rto_mgr a1)) in HE. clearbody a1.
  apply holds_bind, (holds_mono _ _ (λ _ a2, touched a a2 ∧ E (rto_mgr a2) ∧ flight a2 = flight a1) _ (λ _ _, False)); [| |done].
  { apply holds_when; intros _; [|done]. eapply holds_mono; [by eapply measure_rtt_Ok| |done].
    intros [] a2 (Ht2 & HE2 & Hfl). split; [by etrans|done]. }
  intros [] a2 (Ht2 & HE2 & Hfl). apply holds_bind, holds_modify.
  match goal with |- holds _ _ _ _ ?s => set (a3 := s) end.
  assert (touched a a3 ∧ E (rto_mgr a3) ∧ flight a3 = flight a1) as (Ht3 & HE3 & Hfl3).
  { subst a3. destruct (_ && _); [|done]. split; [|done]. etrans; [exact Ht2|apply touched_recovery]. }
  clearbody a3. rewrite <- Hfl3 in *.
  eapply holds_mono; [apply (IH (next_tsn base) a3 _ _)| |done]; [done|..|done|lia| |lia| |done|].
  - rewrite Hm1. apply lookup_delete_eq.
  - intros t Ht Hr. assert (t ≠ next_tsn base) as Hne. by (intros ->; rewrite dist32_self in Hr; lia).
    rewrite Hm1, lookup_delete_ne by done. apply Hin; [done|]. clear -Ht Hub Hr Hne Hu Hd' Hd H0. unfold next_tsn in *. sna.
  - eapply measurable_sub; [done|]. intros t c0 H. rewrite Hm1 in H. apply lookup_delete_Some in H as [_ H]. eauto.
  - intros r a' H. by eapply popped_flight_step.
Qed.

(** ** The gap blocks *)

Definition sacked (c : ChunkPayloadData) : ChunkPayloadData :=
  if acked c then c else c <| acked := true |> <| retransmit := false |> <| user_data := [] |>.

(** A TSN that an acknowledgement is news of. *)
Definition fresh (q : PayloadQueue) (t : u32) : Prop :=
  ∃ c, chunk_map q !! t = Some c ∧ acked c = false ∧ abandoned c = false.

(** [h'] is the highest TSN among [h] and the fresh ones of [ts]. *)
Record reaches (base : u32) (q : PayloadQueue) (h : u32) (ts : list u32) (h' : u32) : Prop := mk_reaches {
  rc_from : h' = h ∨ (h' ∈ ts ∧ fresh q h');
  rc_up : dist32 base h <= dist32 base h';
  rc_max t : t ∈ ts → fresh q t → dist32 base t <= dist32 base h';
}.

(** [q'] is [q] with the TSNs of [ts] marked. *)
Definition marked (q : PayloadQueue) (ts : list u32) (q' : PayloadQueue) : Prop :=
  ∀ t, chunk_map q' !! t = (if decide (t ∈ ts) then sacked <$> chunk_map q !! t else chunk_map q !! t).

Record marked_flight (base : u32) (ts : list u32) (a : Association) (m : gmap Z Z) (h : u32)
    (m' : gmap Z Z) (h' : u32) (a' : Association) : Prop := mk_marked_flight {
  mf_touched : touched a a';
  mf_inv : pq_inv base (flight a');
  mf_marked : marked (flight a) ts (flight a');
  mf_rto : E (rto_mgr a');
  mf_credit sid : credit m' sid + owed a sid (flight a') = credit m sid + owed a sid (flight a);
  mf_htna : reaches base (flight a) h ts h';
}.

Lemma sacked_twice c : sacked (sacked c) = sacked c.
Proof. unfold sacked. destruct (acked c) eqn:Ea; [by rewrite Ea|done]. Qed.

Lemma acked_sacked c : acked (sacked c) = true.
Proof. unfold sacked. by destruct (acked c) eqn:Ea. Qed.

Lemma marked_fresh q t q' t' : marked q [t] q' → fresh q' t' ↔ fresh q t' ∧ t' ≠ t.
Proof.
  intros Hm. unfold fresh. rewrite Hm. case_decide as Hd; rewrite list_elem_of_singleton in Hd.
  - split; [|naive_solver]. intros (c & (c' & -> & ->)%fmap_Some & Ha & _).
    by rewrite acked_sacked in Ha.
  - naive_solver.
Qed.

Lemma marked_cons q t q1 ts q' : marked q [t] q1 → marked q1 ts q' → marked q (t :: ts) q'.
Proof.
  intros H1 H2 t'. rewrite H2, H1. destruct (decide (t' ∈ ts)) as [Hi|Hi], (decide (t' ∈ [t])) as [Ht|Ht];
    rewrite list_elem_of_singleton in Ht.
  - rewrite decide_True by (by right). destruct (chunk_map q !! t'); cbn; by rewrite ?sacked_twice.
  - rewrite decide_True by (by right). done.
  - subst. by rewrite decide_True by left.
  - rewrite decide_False by (intros []%elem_of_cons; done). done.
Qed.

Lemma marked_sub q ts q' : marked q ts q' →
  ∀ t c, chunk_map q' !! t = Some c → ∃ c', chunk_map q !! t = Some c' ∧ since c' = since c.
Proof.
  intros Hm t c. rewrite Hm. case_decide; [|eauto]. intros (c' & -> & ->)%fmap_Some. exists c'.
  split; [done|]. unfold sacked. by destruct (acked c').
Qed.

Lemma reaches_cons base q t q1 ts h h1 h' :
  marked q [t] q1 → reaches base q h [t] h1 → reaches base q1 h1 ts h' → reaches base q h (t :: ts) h'.
Proof.
  intros Hm [Hf Hu Hx] [Hf' Hu' Hx']. split.
  - destruct Hf' as [->|[Hi Hfr]]; [|right; rewrite (marked_fresh _ _ _ _ Hm) in Hfr; split; [by right|apply Hfr]].
    destruct Hf as [->|[Hi Hfr]]; [by left|right]. split; [|done]. apply list_elem_of_singleton in Hi as ->. left.
  - lia.
  - intros t' [->|Hi]%elem_of_cons Hfr; [specialize (Hx t ltac:(left) Hfr); lia|].
    destruct (decide (t' = t)) as [->|Hne]; [specialize (Hx t ltac:(left) Hfr); lia|].
    apply Hx'; [done|]. by apply (marked_fresh _ _ _ _ Hm).
Qed.

Lemma marked_flight_cons base t ts a m h a1 m1 h1 a' m' h' :
  marked_flight base [t] a m h m1 h1 a1 → marked_flight base ts a1 m1 h1 m' h' a' →
  marked_flight base (t :: ts) a m h m' h' a'.
Proof.
  intros [Ht Hi Hm HE Hc Hr] [Ht' Hi' Hm' HE' Hc' Hr']. pose proof (touched_same _ _ Ht) as (Es & _).
  split; [by etrans|done|by eapply marked_cons|done| |by eapply reaches_cons].
  intros sid. specialize (Hc' sid). rewrite !(owed_streams a a1) in Hc' by done. rewrite Hc'. apply Hc.
Qed.

(** Marking one TSN of the flight. *)
Lemma mark_one base q t c :
  pq_inv base q → chunk_map q !! t = Some c →
  ∃ n q', (if negb (acked c) then pq_mark_as_acked q t else Ok (0, q)) = Ok (n, q') ∧ pq_inv base q' ∧ marked q [t] q' ∧
    (acked c = false → n = data_len c) ∧
    ∀ a sid, owed a sid q' + (if owes a sid c then data_len c else 0) = owed a sid q.
Proof.
  intros Hq Hc. destruct (acked c) eqn:Ea; cbn [negb].
  - exists 0, q. split_and!; [done|done| |done|].
    + intros t'. case_decide as H; [|done]. apply list_elem_of_singleton in H as ->. rewrite Hc. cbn. unfold sacked. by rewrite Ea.
    + intros a sid. unfold owes. rewrite Ea. cbn. lia.
  - destruct (pq_mark_as_acked_Ok base q t Hq) as (n & q' & Ep & Hq' & _ & _ & H & _). destruct (H c Hc) as [-> Hm].
    exists (data_len c), q'. split_and!; [done|done| |done|].
    + intros t'. rewrite Hm. case_decide as Ht; rewrite list_elem_of_singleton in Ht.
      * subst t'. rewrite lookup_insert_eq, Hc. cbn. unfold sacked. by rewrite Ea.
      * by rewrite lookup_insert_ne by done.
    + intros a sid. unfold owed, bytes_where. rewrite Hm, (map_sum_replace _ _ _ c) by done. unfold owes at 3. cbn. lia.
Qed.

Lemma reaches_one base q h t c :
  uN 32 base → uN 32 h → uN 32 t → dist32 base h < 2 ^ 31 → dist32 base t < 2 ^ 31 → chunk_map q !! t = Some c →
  reaches base q h [t] (if negb (acked c) && negb (abandoned c) then (if sna32lt h t then t else h) else h).
Proof.
  intros Hb Hh Ht Hdh Hdt Hc. pose proof (sna32lt_window base h t Hb Hh Ht Hdh Hdt) as Hlt.
  assert (fresh q t ↔ negb (acked c) && negb (abandoned c) = true) as Hf.
  { unfold fresh. rewrite Hc, andb_true_iff, !negb_true_iff. naive_solver. }
  destruct (negb (acked c) && negb (abandoned c)).
  - destruct (sna32lt h t); split; try lia.
    + right. split; [left|by apply Hf].
    + by intros ? ->%list_elem_of_singleton _.
    + intros ? ->%list_elem_of_singleton _. assert (¬ dist32 base h < dist32 base t) by (by intros ?%Hlt). lia.
  - split; [by left|done|]. intros ? ->%list_elem_of_singleton ?%Hf. done.
Qed.

Lemma ack_gap_tsn_Ok base t a m newly h :
  pq_inv base (flight a) → is_Some (chunk_map (flight a) !! t) → uN 32 h → dist32 base h < 2 ^ 31 →
  measurable p now E (flight a) → E (rto_mgr a) →
  holds p (ack_gap_tsn t now (m, newly, h)) (λ r a', marked_flight base [t] a m h r.1.1 r.2 a') (λ _ _, False) a.
Proof.
  intros Hq [c Hc] Hh Hd Hm HE. pose proof (inv_base _ _ Hq) as Hb.
  assert (t ∈ sorted (flight a)) as Hs by (apply (inv_dom _ _ Hq); eauto).
  pose proof (reaches_one base (flight a) h t c Hb Hh (inv_u32 _ _ Hq _ Hs) Hd (inv_window _ _ Hq _ Hs) Hc) as Hr.
  destruct (mark_one base (flight a) t c Hq Hc) as (n & q' & Em & Hq' & Hmk & Hn & Ho).
  unfold ack_gap_tsn. apply holds_bind, holds_gets. unfold oq_get, pq_get. fold (flight a). rewrite Hc.
  assert ((if negb (acked c) then oq_mark_as_acked (outbound_queue a) t else Ok (0, outbound_queue a)) =
          Ok (n, outbound_queue a <| inflight := q' |>)) as ->.
  { unfold oq_mark_as_acked. fold (flight a). destruct (acked c); cbn [negb] in *; [|by rewrite Em].
    injection Em as <- <-. unfold flight. by destruct (outbound_queue a). }
  apply holds_bind, holds_ret, holds_bind, holds_modify. pose proof (touched_queue a q') as Ht.
  set (a1 := a <| outbound_queue := _ |>) in *. assert (flight a1 = q') as Efl by done. change (E (rto_mgr a1)) in HE.
  assert (credits_stream a1 c = credits_stream a c) as Ecs by done. clearbody a1. subst q'.
  assert (∀ m' h' a', touched a a' → E (rto_mgr a') → flight a' = flight a1 →
    m' = (if negb (acked c) && negb (abandoned c) && credits_stream a c then add_credit m (stream_identifier c) (data_len c) else m) →
    h' = (if negb (acked c) && negb (abandoned c) then (if sna32lt h t then t else h) else h) →
    marked_flight base [t] a m h m' h' a') as Hdone.
  { intros m' h' a' Ht' HE' Hfl -> ->. split; rewrite ?Hfl; try done.
    intros sid. rewrite credit_chunk, <- (Ho a sid). lia. }
  destruct (negb (acked c) && negb (abandoned c)) eqn:Ef; [|apply holds_ret; by apply Hdone].
  apply holds_bind, holds_self, holds_bind, (holds_mono _ _ (λ _ a2, touched a a2 ∧ E (rto_mgr a2) ∧ flight a2 = flight a1) _ (λ _ _, False)); [| |done].
  { apply holds_when; intros _; [|done]. eapply holds_mono; [by eapply measure_rtt_Ok| |done].
    intros [] a2 (Ht2 & HE2 & Hfl). split; [by etrans|done]. }
  intros [] a2 (Ht2 & HE2 & Hfl). apply holds_ret, Hdone; [done|done|done| |done]. cbn [fst]. rewrite Ecs, Hn; [done|].
  by destruct (acked c).
Qed.

Lemma ack_gap_tsns_Ok base ts : ∀ a m newly h,
  pq_inv base (flight a) → (∀ t, t ∈ ts → is_Some (chunk_map (flight a) !! t)) → uN 32 h → dist32 base h < 2 ^ 31 →
  measurable p now E (flight a) → E (rto_mgr a) →
  holds p (ack_gap_tsns ts now (m, newly, h)) (λ r a', marked_flight base ts a m h r.1.1 r.2 a') (λ _ _, False) a.
Proof.
  induction ts as [|t ts IH]; intros a m newly h Hq Hts Hh Hd Hm HE; cbn [ack_gap_tsns].
  { apply holds_ret. split; try done.
    split; [by left|done|]. by intros ? ?%elem_of_nil. }
  apply holds_bind. eapply holds_mono; [apply (ack_gap_tsn_Ok base); try done; apply Hts; left| |done].
  intros [[m1 newly1] h1] a1 H1; cbn [fst snd] in H1. pose proof H1 as [_ Hi1 Hm1 HE1 _ [Hf1 _ _]].
  assert (uN 32 h1 ∧ dist32 base h1 < 2 ^ 31) as [Hu1 Hd1].
  { destruct Hf1 as [->|[_ (c & Hc & _)]]; [done|]. assert (h1 ∈ sorted (flight a)) as Hs by (apply (inv_dom _ _ Hq); eauto).
    split; [by apply (inv_u32 _ _ Hq)|by apply (inv_window _ _ Hq)]. }
  eapply holds_mono; [apply IH; try done| |done].
  - intros t' Ht'. rewrite (Hm1 t'). destruct (Hts t') as [c ->]; [by right|]. case_decide; cbn; eauto.
  - eapply measurable_sub; [done|]. by eapply marked_sub.
  - intros r a' H. by eapply marked_flight_cons.
Qed.

(** ** A whole SACK *)

(** The TSNs in flight are those between the cumulative acknowledgement point and the next TSN. *)
Record sending (a : Association) : Prop := mk_sending {
  sd_queue : pq_inv (cumulative_tsn_ack_point a) (flight a);
  sd_next : uN 32 (my_next_tsn a);
  sd_run : contiguous (cumulative_tsn_ack_point a) (my_next_tsn a) (flight a);
  sd_forward : use_forward_tsn a = true → uN 32 (advanced_peer_tsn_ack_point a) ∧
    dist32 (cumulative_tsn_ack_point a) (advanced_peer_tsn_ack_point a) < dist32 (cumulative_tsn_ack_point a) (my_next_tsn a);
}.

(** The SACK reports nothing that was not sent. *)
Record honest (d : ChunkSelectiveAck) (a : Association) : Prop := mk_honest {
  hn_u32 : uN 32 (cumulative_tsn_ack d);
  hn_window : dist32 (cumulative_tsn_ack_point a) (cumulative_tsn_ack d) < 2 ^ 31;
  hn_cum : dist32 (cumulative_tsn_ack_point a) (cumulative_tsn_ack d) < dist32 (cumulative_tsn_ack_point a) (my_next_tsn a);
  hn_gaps t : t ∈ gap_tsns d →
    dist32 (cumulative_tsn_ack_point a) (cumulative_tsn_ack d) < dist32 (cumulative_tsn_ack_point a) t <
    dist32 (cumulative_tsn_ack_point a) (my_next_tsn a);
}.

(** What is left in flight under a TSN. *)
Definition left_over (d : ChunkSelectiveAck) (a : Association) (t : u32) : option ChunkPayloadData :=
  if decide (0 < dist32 (cumulative_tsn_ack_point a) t <= dist32 (cumulative_tsn_ack_point a) (cumulative_tsn_ack d)) then None
  else if decide (t ∈ gap_tsns d) then sacked <$> chunk_map (flight a) !! t
  else chunk_map (flight a) !! t.

Record sack_done (d : ChunkSelectiveAck) (a : Association) (m : gmap Z Z) (htna : u32) (a' : Association) : Prop := mk_sack_done {
  sk_touched : touched a a';
  sk_inv : pq_inv (cumulative_tsn_ack d) (flight a');
  sk_flight t : chunk_map (flight a') !! t = left_over d a t;
  sk_credit sid : credit m sid = owed a sid (flight a) - owed a sid (flight a');
  sk_htna : reaches (cumulative_tsn_ack d) (flight a) (cumulative_tsn_ack d) (gap_tsns d) htna;
  sk_rto : E (rto_mgr a');
  sk_timer t : earliest_outstanding_tsn (outbound_queue a) = Some t →
    0 < dist32 (cumulative_tsn_ack_point a) t <= dist32 (cumulative_tsn_ack_point a) (cumulative_tsn_ack d) ∨ t ∈ gap_tsns d →
    timer_get (timers a') T3RTX = None;
}.

Lemma gap_tsns_u32 d t : t ∈ gap_tsns d → uN 32 t.
Proof. unfold gap_tsns. intros (o & -> & _)%list_elem_of_fmap. by apply wrap_uN. Qed.

(** The TSNs of the gap blocks, by their offsets. *)
Lemma gap_tsns_covers d t : t ∈ gap_tsns d ↔ ∃ o, t = wrapping_add 32 (cumulative_tsn_ack d) o ∧ covers (gap_ack_blocks d) o.
Proof.
  unfold gap_tsns, covers. rewrite list_elem_of_fmap. split; intros (o & -> & H); exists o; (split; [done|]).
  - apply list_elem_of_In, in_flat_map in H as (b & Hb & Ho). apply list_elem_of_In in Hb, Ho.
    exists b. split; [done|]. unfold block_offsets in Ho. apply elem_of_seqZ in Ho. lia.
  - destruct H as (b & Hb & Ho). apply list_elem_of_In, in_flat_map. exists b. rewrite <- !list_elem_of_In. split; [done|].
    unfold block_offsets. apply elem_of_seqZ. lia.
Qed.

Lemma sending_base a : sending a → chunk_map (flight a) !! cumulative_tsn_ack_point a = None.
Proof.
  intros [Hq _ Hr _]. apply eq_None_not_Some. intros H%Hr; [|apply (inv_base _ _ Hq)]. rewrite dist32_self in H. lia.
Qed.

Lemma honest_gap d a t : sending a → honest d a → t ∈ gap_tsns d → is_Some (chunk_map (flight a) !! t) ∧
  ¬ (0 < dist32 (cumulative_tsn_ack_point a) t <= dist32 (cumulative_tsn_ack_point a) (cumulative_tsn_ack d)).
Proof.
  intros Hs Hh Ht. pose proof (hn_gaps _ _ Hh t Ht). pose proof (dist32_bounds (cumulative_tsn_ack_point a) (cumulative_tsn_ack d)).
  split; [|lia]. apply (sd_run _ Hs); [by eapply gap_tsns_u32|lia].
Qed.

Lemma process_selective_ack_Ok d a :
  sending a → honest d a → measurable p now E (flight a) → E (rto_mgr a) →
  holds p (process_selective_ack d now) (λ r a', sack_done d a r.1 r.2 a') (λ _ _, False) a.
Proof.
  intros Hs Hh Hm HE. pose proof (sending_base _ Hs) as Hb. unfold process_selective_ack.
  apply holds_bind, holds_self, holds_bind. fold (next_tsn (cumulative_tsn_ack_point a)) (flight a).
  eapply holds_mono; [apply (ack_cumulative_Ok _ _ (cumulative_tsn_ack_point a) a ∅ false)| |done];
    [apply Hs|done|apply Hh|apply Hh| |lia|done|done|].
  { intros t Ht Hr. apply (sd_run _ Hs); [done|]. pose proof (hn_cum _ _ Hh). lia. }
  intros [m1 newly] a1 [Ht1 Hp1 HE1 Hc1]. cbn [fst] in Hc1. apply holds_bind.
  assert (∀ t, t ∈ gap_tsns d → chunk_map (flight a1) !! t = chunk_map (flight a) !! t) as Hsame.
  { intros t [_ Ht]%(honest_gap _ _ _ Hs Hh). by rewrite (po_left _ _ _ _ Hp1), decide_False. }
  eapply holds_mono; [apply (ack_gap_tsns_Ok (cumulative_tsn_ack d))| |done];
    [apply Hp1| |apply Hh|by rewrite dist32_self| |done|].
  { intros t Ht. rewrite Hsame by done. by eapply honest_gap. }
  { eapply measurable_sub; [done|]. by eapply popped_sub. }
  intros [[m2 newly2] h] a2 [Ht2 Hi2 Hm2 HE2 Hc2 Hr2]. cbn [fst snd] in Hc2, Hr2.
  pose proof (touched_same _ _ Ht1) as (Es & _).
  apply holds_bind, (holds_mono _ _ (λ _ a3, touched a2 a3 ∧ E (rto_mgr a3) ∧ flight a3 = flight a2) _ (λ _ _, False)); [| |done].
  { apply holds_when; intros _; [apply holds_modify|]; split; try done; by apply touched_timers. }
  intros [] a3 (Ht3 & HE3 & Hf3). apply holds_bind, holds_self, holds_bind.
  assert (∀ t, chunk_map (flight a2) !! t = left_over d a t) as Hleft.
  { intros t. unfold left_over. rewrite Hm2, (po_left _ _ _ _ Hp1). by repeat case_decide. }
  assert (∀ a', touched a3 a' → E (rto_mgr a') → flight a' = flight a3 →
    (∀ t, earliest_outstanding_tsn (outbound_queue a) = Some t →
      0 < dist32 (cumulative_tsn_ack_point a) t <= dist32 (cumulative_tsn_ack_point a) (cumulative_tsn_ack d) ∨ t ∈ gap_tsns d →
      timer_get (timers a') T3RTX = None) → sack_done d a m2 h a') as Hdone.
  { intros a' Ht' HE' Hf' Htm. split; try done.
    - etrans; [exact Ht1|]. etrans; [exact Ht2|]. by etrans.
    - by rewrite Hf', Hf3.
    - intros t. by rewrite Hf', Hf3.
    - intros sid. rewrite Hf', Hf3. specialize (Hc1 sid). specialize (Hc2 sid). rewrite !(owed_streams a a1) in Hc2 by done.
      unfold credit in Hc1 at 2. rewrite lookup_empty in Hc1. cbn in Hc1. lia.
    - assert (∀ t, t ∈ gap_tsns d → fresh (flight a1) t ↔ fresh (flight a) t) as Hfr
        by (intros t Ht; unfold fresh; by rewrite Hsame).
      destruct Hr2 as [Hfrom Hup Hmax]. split; [|done|].
      + destruct Hfrom as [->|[Hin Hf]]; [by left|right]. split; [done|]. by apply Hfr.
      + intros t Ht Hf. apply Hmax; [done|]. by apply Hfr. }
  apply holds_when; intros Hack; [apply holds_modify|]; apply holds_ret; apply Hdone; try done; [by apply touched_timers|].
  intros t Ht Hr. exfalso. rewrite Ht in Hack. apply orb_false_iff in Hack as [Hle Hacked].
  assert (t ∈ sorted (flight a)) as Hin.
  { unfold earliest_outstanding_tsn in Ht. fold (flight a) in Ht. eapply list_elem_of_filter, head_Some_elem_of, Ht. }
  pose proof (sd_queue _ Hs) as Hq. destruct Hr as [Hr|Hg].
  - apply not_true_iff_false in Hle. apply Hle. apply (sna32lte_window (cumulative_tsn_ack_point a)); try apply Hh; try lia;
      [apply (inv_base _ _ Hq)|by apply (inv_u32 _ _ Hq)|by apply (inv_window _ _ Hq)].
  - destruct (honest_gap _ _ _ Hs Hh Hg) as [[c Hc] Hn]. unfold oq_get, pq_get in Hacked. fold (flight a3) in Hacked.
    rewrite Hf3, Hleft in Hacked. unfold left_over in Hacked. rewrite decide_False, decide_True, Hc in Hacked by done.
    cbn in Hacked. by rewrite acked_sacked in Hacked.
Qed.
End Process.
