(* ===== verification/AssocSackHandle.v ===== *)
(** * Handling a SACK

    [handle_sack] around [process_selective_ack]: the acknowledgement point and
    the congestion window move, streams get their credit, the peer's window is
    recomputed, missing TSNs are counted and lost ones are chosen for fast
    retransmission.  For a SACK that reports only what was sent, all of it
    always succeeds and leaves the flight between the new point and the next
    TSN. *)

From stdpp Require Import base list gmap numbers sets.
From Stdlib Require Import ZArith Lia ZifyBool.
From S2P Require Import Prelude Bytes Util Params Chunks Packet PayloadQueue PayloadRun PendingQueue OutboundQueue.
From S2P Require Import ReassemblyQueue Shared Stream Monad Timer Config Association AssocReset AssocRecv AssocSend.
From S2P Require Import AssocFrame AssocAck AssocSack.

(** ** What the steps after the marking leave alone *)

(** A chunk in flight is reported missing, nothing else. *)
Definition miss_only (c c' : ChunkPayloadData) : Prop := ∃ n, c' = c <| miss_indicator := n |>.

Definition misses : PayloadQueue → PayloadQueue → Prop := chunkwise miss_only.

Record calm (a a' : Association) : Prop := mk_calm {
  cm_point : cumulative_tsn_ack_point a' = cumulative_tsn_ack_point a;
  cm_next : my_next_tsn a' = my_next_tsn a;
  cm_inv base : pq_inv base (flight a) → pq_inv base (flight a');
  cm_sorted : sorted (flight a') = sorted (flight a);
  cm_bytes : inflight_bytes (outbound_queue a') = inflight_bytes (outbound_queue a);
  cm_misses : misses (flight a) (flight a');
  cm_mtu : mtu a' = mtu a;
  cm_forward : use_forward_tsn a' = use_forward_tsn a;
  cm_pending : pending (outbound_queue a') = pending (outbound_queue a);
  cm_rto_max : tt_rto_max (timers a') = tt_rto_max (timers a);
}.

#[export] Instance miss_only_refl : Reflexive miss_only.
Proof. intros c. exists (miss_indicator c). by destruct c. Qed.

#[export] Instance miss_only_trans : Transitive miss_only.
Proof. intros c ? ? [n ->] [n' ->]. by exists n'. Qed.

#[export] Instance calm_refl : Reflexive calm.
Proof. by constructor. Qed.

#[export] Instance calm_trans : Transitive calm.
Proof.
  intros a a1 a2 [] []. constructor; try congruence; [auto|by etrans].
Qed.

(** ** Room for the arithmetic *)

(** The windows, the MTU and the clock are far enough from the ends of their types. *)
Record roomy (now : Instant) (a : Association) : Prop := mk_roomy {
  rm_cwnd : 0 <= cwnd a < 2 ^ 31;
  rm_mtu : 0 <= mtu a < 2 ^ 28;
  rm_partial : 0 <= partial_bytes_acked a ∧ partial_bytes_acked a + inflight_bytes (outbound_queue a) < 2 ^ 32;
  rm_clock i : i <= tt_rto_max (timers a) → ∃ t, Instant_add now i = Ok t;
}.

Section Handle.
Context {I : MapIter} {IL : MapIterLaws I} (p : Prop) (now : Instant).

Lemma restart_calm a :
  p ∨ (∀ i, i <= tt_rto_max (timers a) → ∃ t, Instant_add now i = Ok t) →
  holds p (restart_timer_if_stale T3RTX now)
    (λ _ a', calm a a' ∧ (∃ tt, a' = a <| timers := tt |>)) (λ _ _, False) a.
Proof.
  intros Hr. unfold restart_timer_if_stale, with_timers. apply holds_bind, holds_gets, holds_bind, holds_gets, holds_bind.
  assert (∀ r, match timer_start (timers a) T3RTX now r with
    | Ok tab => tt_rto_max tab = tt_rto_max (timers a) | Err _ => False | _ => p end) as Hs.
  { intros r. unfold timer_start. rewrite decide_False by done.
    destruct Hr as [Hp|Hr]; [unfold Instant_add; by destruct (Instant_checked_add _ _)|].
    destruct (Hr (calculate_next_timeout r (tt_retrans (timers a) T3RTX) (tt_rto_max (timers a)))) as [t ->]; [|done].
    unfold calculate_next_timeout. case_match; lia. }
  assert (match restart_if_stale (timers a) T3RTX now (get_rto (rto_mgr a)) with
    | Ok tab => tt_rto_max tab = tt_rto_max (timers a) | Err _ => False | _ => p end) as H.
  { unfold restart_if_stale. destruct (tt_data _ _) as [cur|]; [destruct (cur >=? now); [done|]|]; apply Hs. }
  destruct (restart_if_stale _ _ _ _); [|done..]. apply holds_ret, holds_modify. split; [by constructor|eauto].
Qed.

(** ** The acknowledgement point and the congestion window *)

(** The window is kept, or grows by no more than was acknowledged or by one MTU. *)
Definition grows (a : Association) (total : Z) (a' : Association) : Prop :=
  0 <= cwnd a → 0 <= mtu a → cwnd a <= cwnd a' <= cwnd a + Z.max total (mtu a).

Lemma holds_checked {A} w x y (f : Z → AM A) Q Er (a : Association) :
  p ∨ x + y < 2 ^ w → holds p (f (x + y)) Q Er a → holds p (lift (checked_add w x y) ≫= f) Q Er a.
Proof.
  intros Hp Hf. apply holds_bind. unfold checked_add. destruct (Z.ltb_spec (x + y) (2 ^ w)); [by apply holds_ret|].
  destruct Hp; [done|lia].
Qed.

Lemma wrap_le w z : 0 <= w → 0 <= z → 0 <= wrap w z <= z.
Proof. intros. pose proof (wrap_uN w z). unfold wrap, uN in *. split; [lia|]. by apply Z.mod_le, pow2_pos. Qed.

Lemma advanced_calm a total :
  p ∨ roomy now a → 0 <= total → p ∨ partial_bytes_acked a + total < 2 ^ 32 →
  holds p (on_cumulative_tsn_ack_point_advanced total now)
    (λ _ a', calm a a' ∧ grows a total a' ∧ streams a' = streams a ∧ advanced_peer_tsn_ack_point a' = advanced_peer_tsn_ack_point a)
    (λ _ _, False) a.
Proof.
  intros Hr Ht Hp. unfold on_cumulative_tsn_ack_point_advanced. apply holds_bind, holds_self, holds_bind.
  apply (holds_mono _ _ (λ _ a1, calm a a1 ∧ ∃ tab, a1 = a <| timers := tab |>) _ (λ _ _, False)); [| |done].
  { destruct (_ =? 0); [unfold stop_timer; apply holds_modify; split; [by constructor|eauto]|].
    apply restart_calm. destruct Hr as [?|[]]; auto. }
  intros [] a1 (Hcalm & tab & ->). pose proof (wrap_le 32 total ltac:(lia) Ht) as Hw.
  assert (grows a total (a <| timers := tab |>)) as Hsame by (unfold grows; cbn; lia).
  assert (p ∨ (0 <= cwnd a < 2 ^ 31 ∧ 0 <= mtu a < 2 ^ 28)) as Hroom by (destruct Hr as [?|[? ? _ _]]; auto).
  destruct (cwnd a <=? ssthresh a).
  - apply holds_when; intros _; [|done]. apply holds_checked; [destruct Hroom; [auto|right; lia]|].
    apply holds_modify. split; [by destruct Hcalm|]. split; [|done]. unfold grows. cbn. lia.
  - apply holds_checked; [destruct Hp; [auto|right; lia]|]. apply holds_bind, holds_modify.
    apply holds_when; intros _; [|by destruct Hcalm]. apply holds_checked; [destruct Hroom; [auto|right; lia]|].
    apply holds_modify. split; [by destruct Hcalm|]. split; [|done]. unfold grows. cbn. lia.
Qed.

(** ** Returning credit to the streams *)

Definition credited (s : StreamState) (n : Z) : StreamState := (on_buffer_released s n).2.

Lemma release_calm a id n :
  holds p (release_stream_buffer id n)
    (λ _ a', calm a a' ∧ cwnd a' = cwnd a ∧ advanced_peer_tsn_ack_point a' = advanced_peer_tsn_ack_point a ∧
       streams a' = alter (λ s, credited s n) id (streams a)) (λ _ _, False) a.
Proof.
  unfold release_stream_buffer, push_event. apply holds_bind, holds_gets. destruct (streams a !! id) as [s|] eqn:Es.
  - unfold credited. rewrite (alter_present _ _ _ s Es). destruct (on_buffer_released s n) as [low s'].
    apply holds_bind, holds_modify, holds_when; intros _; [apply holds_modify|]; done.
  - apply holds_ret. split_and!; [done..|]. by rewrite alter_absent.
Qed.

Lemma release_all_calm l : ∀ a, NoDup l.*1 →
  holds p (for_each l (λ '(id, n), release_stream_buffer id n))
    (λ _ a', calm a a' ∧ cwnd a' = cwnd a ∧ advanced_peer_tsn_ack_point a' = advanced_peer_tsn_ack_point a ∧
       (∀ id n, (id, n) ∈ l → streams a' !! id = (λ s, credited s n) <$> streams a !! id) ∧
       (∀ id, id ∉ l.*1 → streams a' !! id = streams a !! id)) (λ _ _, False) a.
Proof.
  induction l as [|[id n] l IH]; intros a Hnd; cbn [for_each].
  { apply holds_ret. split_and!; try done. by intros ? ? ?%elem_of_nil. }
  apply NoDup_cons in Hnd as [Hni Hnd]. apply holds_bind. eapply holds_mono; [apply release_calm| |done].
  intros [] a1 (Hc1 & Hw1 & Ha1 & Hs1). eapply holds_mono; [by apply IH| |done].
  intros [] a2 (Hc2 & Hw2 & Ha2 & Hin & Hout). split_and!; [by etrans|congruence..| |].
  - intros id' n' [[= -> ->]|Hi]%elem_of_cons.
    + rewrite Hout by done. by rewrite Hs1, lookup_alter_eq.
    + rewrite (Hin _ _ Hi), Hs1, lookup_alter_ne; [done|]. intros <-. apply Hni, list_elem_of_fmap. by exists (id, n').
  - intros id' Hi. cbn in Hi. rewrite not_elem_of_cons in Hi. destruct Hi as [Hne Hi].
    rewrite Hout, Hs1, lookup_alter_ne; [done..].
Qed.

(** ** Counting misses *)

(** The window is kept, or halved down to four MTUs on entering fast recovery. *)
Definition backs_off (a a' : Association) : Prop :=
  cwnd a' = cwnd a ∨ (in_fast_recovery a' = true ∧ cwnd a' = Z.max (cwnd a / 2) (4 * mtu a)).

(** What counting misses may change. *)
Record counted (a a' : Association) : Prop := mk_counted {
  ct_calm : calm a a';
  ct_cwnd : if in_fast_recovery a then in_fast_recovery a' = true ∧ cwnd a' = cwnd a else backs_off a a';
  ct_streams : streams a' = streams a;
  ct_rwnd : rwnd a' = rwnd a;
  ct_advanced : advanced_peer_tsn_ack_point a' = advanced_peer_tsn_ack_point a;
}.

#[export] Instance counted_refl : Reflexive counted.
Proof. intros a. split; try done. destruct (in_fast_recovery a); [done|by left]. Qed.

#[export] Instance counted_trans : Transitive counted.
Proof.
  intros a a1 a2 [C1 W1 S1 R1 P1] [C2 W2 S2 R2 P2]. split; [by etrans| |congruence..]. pose proof (cm_mtu _ _ C1) as Hm.
  unfold backs_off in *. rewrite Hm in W2. destruct (in_fast_recovery a), (in_fast_recovery a1); intuition congruence.
Qed.

Lemma miss_counted a t c :
  chunk_map (flight a) !! t = Some c →
  counted a (a <| outbound_queue ::= λ q, oq_get_mut q t (λ c, c <| miss_indicator ::= λ n, n + 1 |>) |>).
Proof.
  intros Hc. split; try done; [|destruct (in_fast_recovery a) eqn:Ef; [done|by left]]. split; try done.
  - intros base Hq. by apply pq_get_mut_inv.
  - apply (chunkwise_alter miss_only). intros c' _. by eexists.
Qed.

Lemma enter_counted a htna :
  in_fast_recovery a = false → p ∨ 4 * mtu a < 2 ^ 32 →
  holds p (enter_fast_recovery htna) (λ _ a', counted a a') (λ _ _, False) a.
Proof.
  intros Hf Hm. unfold enter_fast_recovery. apply holds_bind, holds_self, holds_bind. unfold checked_mul.
  destruct (Z.ltb_spec (4 * mtu a) (2 ^ 32)); [|by destruct Hm; [|lia]]. apply holds_ret, holds_modify.
  split; try done. rewrite Hf. by right.
Qed.

Lemma count_misses_Ok fuel base next max htna : ∀ t a,
  pq_inv base (flight a) → contiguous base next (flight a) → dist32 base next <= 2 ^ 31 → uN 32 max → uN 32 t →
  0 < dist32 base t → dist32 base t <= 2 ^ 31 → dist32 base max <= dist32 base next →
  (left_from base t (flight a) <= fuel)%nat → p ∨ 4 * mtu a < 2 ^ 32 →
  holds p (count_misses fuel t max htna) (λ _ a', counted a a') (λ _ _, False) a.
Proof.
  induction fuel as [|fuel IH]; intros t a Hq Hc Hn Hum Hut H0 Hw Hmax Hf Hm; pose proof (inv_base _ _ Hq) as Hb; cbn [count_misses].
  all: destruct (sna32lt t max) eqn:Hlt; cbn [negb]; [|by apply holds_ret].
  all: assert (dist32 base t < dist32 base max) as Hd by (clear -Hlt Hb Hum Hut H0 Hw Hmax Hn; sna).
  all: assert (is_Some (chunk_map (flight a) !! t)) as Ht by (apply Hc; [done|lia]).
  all: pose proof (left_from_next base t (flight a) Hq Ht) as Hl.
  { exfalso. clear -Hl Hf. lia. }
  apply holds_bind, holds_self. destruct Ht as [c Hct]. unfold oq_get, pq_get. fold (flight a). rewrite Hct.
  apply holds_bind, (holds_mono _ _ (λ _ a1, counted a a1) _ (λ _ _, False)); [| |done].
  { apply holds_when; intros _; [|done]. apply holds_bind, holds_modify. pose proof (miss_counted a t c Hct) as H1.
    match type of H1 with counted _ ?s => set (a1 := s) in * end. assert (in_fast_recovery a1 = in_fast_recovery a) as Ef by done.
    clearbody a1. apply holds_when; intros He; [|done].
    eapply holds_mono; [apply enter_counted| |done].
    - rewrite Ef. destruct (in_fast_recovery a); [by rewrite andb_false_r in He|done].
    - by rewrite (cm_mtu _ _ (ct_calm _ _ H1)).
    - intros [] a2 H2. by etrans. }
  intros [] a1 H1. pose proof (ct_calm _ _ H1) as C1.
  assert (contiguous base next (flight a1)) as Hc1 by (eapply chunkwise_contiguous, Hc; apply C1).
  fold (next_tsn t). pose proof (next_tsn_u32 t). assert (dist32 base (next_tsn t) = dist32 base t + 1) as En.
  { clear -Hb Hut Hd Hmax Hn. unfold next_tsn. sna. }
  eapply holds_mono; [apply IH; try done; try lia| |done].
  - by apply (cm_inv _ _ C1).
  - unfold left_from in *. rewrite (cm_sorted _ _ C1). lia.
  - by rewrite (cm_mtu _ _ C1).
  - intros [] a2 H2. by etrans.
Qed.

Section Point.
Context (base next : u32) (a : Association) (Hq : pq_inv base (flight a)) (Hc : contiguous base next (flight a)).

Lemma fast_retransmission_Ok htna advanced :
  0 < dist32 base next → uN 32 htna → dist32 base htna < dist32 base next → p ∨ 4 * mtu a < 2 ^ 32 →
  holds p (process_fast_retransmission base htna advanced) (λ _ a', counted a a') (λ _ _, False) a.
Proof.
  intros Hn Hu Hh Hm. pose proof (inv_base _ _ Hq) as Hb. pose proof (contiguous_window _ _ _ Hq Hc) as Hw.
  unfold process_fast_retransmission. apply holds_bind, holds_self, holds_bind.
  apply (holds_mono _ _ (λ _ a1, counted a a1) _ (λ _ _, False)); [| |done].
  - apply holds_when; intros _; [|done]. pose proof (contiguous_len _ _ _ Hq Hc) as Hl. fold (next_tsn base) (flight a).
    assert (dist32 base (next_tsn base) = 1) as E1 by (clear -Hb; unfold next_tsn; sna).
    eapply (count_misses_Ok _ base next); try done; try lia.
    + destruct (negb _); [done|]. by apply wrap_uN.
    + apply next_tsn_u32.
    + destruct (negb _); [lia|]. unfold inflight_len. fold (flight a). rewrite Hl. clear -Hb Hn Hw. sna.
    + pose proof (left_from_len base (next_tsn base) (flight a)). lia.
  - intros [] a1 H1. apply holds_modify. destruct (_ && _); [|done]. etrans; [exact H1|]. split; try done.
    cbn. destruct (in_fast_recovery a1); [done|by left].
Qed.
End Point.

(** ** Skipping abandoned TSNs *)

Record skipped (a a' : Association) : Prop := mk_skipped {
  sp_calm : calm a a';
  sp_cwnd : cwnd a' = cwnd a;
  sp_streams : streams a' = streams a;
  sp_rwnd : rwnd a' = rwnd a;
  sp_queue : outbound_queue a' = outbound_queue a;
}.

#[export] Instance skipped_refl : Reflexive skipped.
Proof. by constructor. Qed.

#[export] Instance skipped_trans : Transitive skipped.
Proof. intros a a1 a2 [] []. constructor; [by etrans|congruence..]. Qed.

Definition forward_ok (base next : u32) (a : Association) : Prop :=
  uN 32 (advanced_peer_tsn_ack_point a) ∧ dist32 base (advanced_peer_tsn_ack_point a) < dist32 base next.

Lemma skip_abandoned_Ok base next fuel : ∀ a,
  pq_inv base (flight a) → contiguous base next (flight a) → forward_ok base next a →
  (left_from base (next_tsn (advanced_peer_tsn_ack_point a)) (flight a) <= fuel)%nat →
  holds p (skip_abandoned fuel) (λ _ a', skipped a a' ∧ forward_ok base next a') (λ _ _, False) a.
Proof.
  induction fuel as [|fuel IH]; intros a Hq Hc [Hu Hd] Hf; pose proof (inv_base _ _ Hq) as Hb;
    pose proof (contiguous_window _ _ _ Hq Hc) as Hw; cbn [skip_abandoned]; apply holds_bind, holds_self; cbv zeta.
  all: fold (next_tsn (advanced_peer_tsn_ack_point a)); destruct (is_abandoned _ _) eqn:Ha; cbn [negb]; [|by apply holds_ret].
  all: assert (is_Some (chunk_map (flight a) !! next_tsn (advanced_peer_tsn_ack_point a))) as Hs
    by (unfold is_abandoned, pq_get in Ha; fold (flight a) in Ha; by destruct (chunk_map (flight a) !! _)).
  all: pose proof (left_from_next _ _ _ Hq Hs) as Hl.
  { exfalso. clear -Hl Hf. lia. }
  apply Hc in Hs; [|apply next_tsn_u32]. apply holds_bind, holds_modify.
  set (a1 := a <| advanced_peer_tsn_ack_point := _ |>). assert (skipped a a1) as H1 by done.
  change (flight a) with (flight a1) in *. eapply holds_mono; [apply (IH a1); try done| |done].
  - split; [apply next_tsn_u32|apply Hs].
  - change (advanced_peer_tsn_ack_point a1) with (next_tsn (advanced_peer_tsn_ack_point a)). clear -Hl Hf. lia.
  - intros [] a2 [H2 ?]. split; [by etrans|done].
Qed.

(** The point of the peer may lag behind [base], less than half a circle. *)
Lemma advance_peer_Ok base next a :
  cumulative_tsn_ack_point a = base → pq_inv base (flight a) → contiguous base next (flight a) → 0 < dist32 base next →
  forward_ok base next a ∨ (uN 32 (advanced_peer_tsn_ack_point a) ∧ 0 < dist32 (advanced_peer_tsn_ack_point a) base < 2 ^ 31) →
  holds p advance_peer_tsn_ack_point (λ _ a', skipped a a' ∧ forward_ok base next a') (λ _ _, False) a.
Proof.
  intros Ep Hq Hc Hn Hf. pose proof (inv_base _ _ Hq) as Hb. pose proof (contiguous_window _ _ _ Hq Hc) as Hw.
  unfold advance_peer_tsn_ack_point. apply holds_bind, holds_modify.
  match goal with |- holds _ _ _ _ ?s => set (a1 := s) end.
  assert (skipped a a1 ∧ forward_ok base next a1 ∧ flight a1 = flight a) as (H1 & Hf1 & Efl).
  { subst a1. rewrite Ep. unfold forward_ok in *. destruct Hf as [[Hu Hd]|[Hu Hd]].
    - destruct (sna32lt _ base) eqn:E; [|done]. split; [done|]. split; [|done]. split; [done|]. cbn. rewrite dist32_self. done.
    - assert (sna32lt (advanced_peer_tsn_ack_point a) base = true) as -> by (by apply sna32lt_dist).
      split; [done|]. split; [|done]. split; [done|]. cbn. by rewrite dist32_self. }
  clearbody a1. apply holds_bind, holds_self. eapply holds_mono; [apply (skip_abandoned_Ok base next)| |done]; rewrite ?Efl; try done.
  - fold (flight a1). rewrite Efl. apply left_from_len.
  - intros [] a2 [H2 ?]. split; [by etrans|done].
Qed.

(** ** The flight after the marking *)

Lemma left_over_Some d a t :
  is_Some (left_over d a t) ↔ is_Some (chunk_map (flight a) !! t) ∧
    ¬ (0 < dist32 (cumulative_tsn_ack_point a) t <= dist32 (cumulative_tsn_ack_point a) (cumulative_tsn_ack d)).
Proof.
  unfold left_over. case_decide as H; [split; [by intros []|by intros []]|]. case_decide; [rewrite fmap_is_Some|]; tauto.
Qed.

(** Distances from a later point. *)
Lemma dist32_later base cum t :
  uN 32 base → uN 32 cum → uN 32 t → dist32 base cum <= dist32 base t → dist32 cum t = dist32 base t - dist32 base cum.
Proof. intros. sna. Qed.

Lemma dist32_earlier base cum t :
  uN 32 base → uN 32 cum → uN 32 t → dist32 base t < dist32 base cum → dist32 cum t = dist32 base t - dist32 base cum + 2 ^ 32.
Proof. intros. sna. Qed.

Lemma left_contiguous d a q :
  sending a → honest d a → (∀ t, chunk_map q !! t = left_over d a t) → contiguous (cumulative_tsn_ack d) (my_next_tsn a) q.
Proof.
  intros Hs Hh Hl t Ht. rewrite Hl, left_over_Some. pose proof (sd_run _ Hs t Ht) as Hr. rewrite Hr.
  pose proof (inv_base _ _ (sd_queue _ Hs)) as Hb. pose proof (hn_u32 _ _ Hh) as Hu. pose proof (hn_cum _ _ Hh) as Hc.
  pose proof (dist32_later _ _ _ Hb Hu (sd_next _ Hs) ltac:(lia)) as ->.
  pose proof (contiguous_window _ _ _ (sd_queue _ Hs) (sd_run _ Hs)) as Hw.
  destruct (Z.lt_ge_cases (dist32 (cumulative_tsn_ack_point a) t) (dist32 (cumulative_tsn_ack_point a) (cumulative_tsn_ack d))) as [Hlt|Hge].
  - rewrite (dist32_earlier _ _ _ Hb Hu Ht Hlt). pose proof (dist32_bounds (cumulative_tsn_ack_point a) t). lia.
  - rewrite (dist32_later _ _ _ Hb Hu Ht Hge). pose proof (dist32_bounds (cumulative_tsn_ack_point a) (cumulative_tsn_ack d)). lia.
Qed.

Lemma left_over_len d a t c : left_over d a t = Some c → ∃ c0, chunk_map (flight a) !! t = Some c0 ∧ data_len c <= data_len c0.
Proof.
  unfold left_over. case_decide; [done|]. case_decide; [|intros ->; by exists c]. intros (c0 & -> & ->)%fmap_Some. exists c0. split; [done|].
  unfold sacked. pose proof (data_len_nonneg c0). destruct (acked c0); [lia|]. done.
Qed.

(** Counting misses owes nobody more or less. *)
Lemma misses_owed a sid q q' : misses q q' → owed a sid q' = owed a sid q.
Proof.
  intros Hm. unfold owed, bytes_where. apply (chunkwise_sum miss_only); [|by intros c c' [n ->]|done].
  intros c. pose proof (data_len_nonneg c). case_match; lia.
Qed.

Lemma postprocess_skipped st a :
  p ∨ (∀ i, i <= tt_rto_max (timers a) → ∃ t, Instant_add now i = Ok t) →
  holds p (postprocess_sack st now)
    (λ _ a', skipped a a' ∧ advanced_peer_tsn_ack_point a' = advanced_peer_tsn_ack_point a) (λ _ _, False) a.
Proof.
  intros Hr. unfold postprocess_sack, set_state. apply holds_bind, holds_self. destruct (negb _).
  { eapply holds_mono; [by apply restart_calm| |done]. intros [] a' (Hc & tab & ->). split; [split; [exact Hc|done..]|done]. }
  destruct (bool_decide _); [|destruct (bool_decide _)]; [| |by apply holds_ret];
    apply holds_bind, holds_modify, holds_modify; (split; [split; [by constructor|done..]|done]).
Qed.

(** ** The whole handler *)

Definition takes_sacks (st : AssociationState) : Prop :=
  st = Established ∨ st = ShutdownPending ∨ st = ShutdownReceived.

Record sack_handled (d : ChunkSelectiveAck) (a a' : Association) : Prop := mk_sack_handled {
  sh_point : cumulative_tsn_ack_point a' = cumulative_tsn_ack d;
  sh_next : my_next_tsn a' = my_next_tsn a;
  sh_pending : pending (outbound_queue a') = pending (outbound_queue a);
  sh_forward : use_forward_tsn a' = use_forward_tsn a;
  sh_sending : sending a';
  sh_flight t : match left_over d a t, chunk_map (flight a') !! t with
                | Some c, Some c' => miss_only c c'
                | None, None => True
                | _, _ => False
                end;
  sh_streams sid : streams a' !! sid =
    (λ s, credited s (owed a sid (flight a) - owed a sid (flight a'))) <$> streams a !! sid;
  sh_rwnd : rwnd a' = saturating_sub (sack_advertised_receiver_window_credit d) (wrap 32 (inflight_bytes (outbound_queue a')));
  sh_cwnd : 0 <= cwnd a → 0 <= mtu a →
    Z.min (cwnd a) (4 * mtu a) <= cwnd a' <=
    Z.max (cwnd a + Z.max (inflight_bytes (outbound_queue a) - inflight_bytes (outbound_queue a')) (mtu a)) (4 * mtu a);
}.

(** The marking leaves less in flight, and as much room. *)
Lemma sack_done_bytes E d a m htna a1 :
  sending a → sack_done E d a m htna a1 → 0 <= inflight_bytes (outbound_queue a1) <= inflight_bytes (outbound_queue a).
Proof.
  intros Hs Hd. unfold inflight_bytes, pq_get_num_bytes. fold (flight a) (flight a1).
  rewrite (inv_bytes _ _ (sd_queue _ Hs)), (inv_bytes _ _ (sk_inv _ _ _ _ _ _ Hd)).
  split; [apply map_sum_nonneg, data_len_nonneg|]. apply map_sum_sub; [apply data_len_nonneg|].
  intros t c. rewrite (sk_flight _ _ _ _ _ _ Hd). apply left_over_len.
Qed.

Lemma sack_done_roomy E d a m htna a1 :
  sending a → sack_done E d a m htna a1 → roomy now a → roomy now a1.
Proof.
  intros Hs Hd [R1 R2 R3 R4]. pose proof (sack_done_bytes _ _ _ _ _ _ Hs Hd) as Hb.
  destruct (sk_touched _ _ _ _ _ _ Hd) as (i & t & rm & r & tab & Ht & E1).
  assert (cwnd a1 = cwnd a ∧ mtu a1 = mtu a ∧ partial_bytes_acked a1 = partial_bytes_acked a ∧
    tt_rto_max (timers a1) = tt_rto_max (timers a)) as (Hc & Hm & Hp & Hx) by (rewrite E1; done).
  split; rewrite ?Hc, ?Hm, ?Hp, ?Hx; (done || lia).
Qed.

(** What [handle_sack] does once the flight is marked and the point has moved. *)
Definition after_marking (d : ChunkSelectiveAck) (m : gmap Z Z) (htna : u32) (advanced : bool) (st : AssociationState)
    : AM (list Packet) :=
  for_each (entries m) (λ '(id, n), release_stream_buffer id n);;
  modify (λ a,
    let bytes_outstanding := wrap 32 (inflight_bytes (outbound_queue a)) in
    a <| rwnd := if bytes_outstanding >=? sack_advertised_receiver_window_credit d then 0
                 else sack_advertised_receiver_window_credit d - bytes_outstanding |>);;
  process_fast_retransmission (cumulative_tsn_ack d) htna advanced;;
  a ← self;
  when (use_forward_tsn a)
    (advance_peer_tsn_ack_point;;
     modify (λ a, if sna32gt (advanced_peer_tsn_ack_point a) (cumulative_tsn_ack_point a)
                  then a <| will_send_forward_tsn := true |> else a));;
  postprocess_sack st now;;
  mret [].

Definition able (a : Association) : Prop :=
  4 * mtu a < 2 ^ 32 ∧ ∀ i, i <= tt_rto_max (timers a) → ∃ t, Instant_add now i = Ok t.

Lemma roomy_able a a' : roomy now a → mtu a' = mtu a → tt_rto_max (timers a') = tt_rto_max (timers a) → able a'.
Proof. intros [_ ? _ ?] Hm Ht. split; rewrite ?Hm, ?Ht; [lia|done]. Qed.

(** The point of the peer is between the acknowledgement point and the next TSN, or behind both. *)
Definition lagging (base next : u32) (a : Association) : Prop :=
  forward_ok base next a ∨
  (uN 32 (advanced_peer_tsn_ack_point a) ∧ 0 < dist32 (advanced_peer_tsn_ack_point a) base < 2 ^ 31).

Lemma credits_returned m a a' :
  (∀ id n, (id, n) ∈ entries m → streams a' !! id = (λ s, credited s n) <$> streams a !! id) →
  (∀ id, id ∉ (entries m).*1 → streams a' !! id = streams a !! id) →
  ∀ sid, streams a' !! sid = (λ s, credited s (credit m sid)) <$> streams a !! sid.
Proof.
  intros Hin Hout sid. unfold credit. destruct (m !! sid) as [n|] eqn:Em; cbn.
  - apply Hin. rewrite (entries_law _ m). by apply elem_of_map_to_list.
  - rewrite Hout; [by destruct (streams a !! sid)|]. intros ([id n] & -> & H)%list_elem_of_fmap.
    rewrite (entries_law _ m) in H. apply elem_of_map_to_list in H. cbn in Em. congruence.
Qed.

Lemma entries_keys_NoDup {A} (m : gmap Z A) : NoDup (entries m).*1.
Proof. rewrite (entries_law _ m). apply NoDup_fst_map_to_list. Qed.

Lemma after_marking_Ok d m htna advanced st a :
  cumulative_tsn_ack_point a = cumulative_tsn_ack d →
  pq_inv (cumulative_tsn_ack d) (flight a) → contiguous (cumulative_tsn_ack d) (my_next_tsn a) (flight a) →
  0 < dist32 (cumulative_tsn_ack d) (my_next_tsn a) →
  uN 32 htna → dist32 (cumulative_tsn_ack d) htna < dist32 (cumulative_tsn_ack d) (my_next_tsn a) →
  (use_forward_tsn a = true → lagging (cumulative_tsn_ack d) (my_next_tsn a) a) → p ∨ able a →
  holds p (after_marking d m htna advanced st)
    (λ r a', r = [] ∧ calm a a' ∧ (cwnd a' = cwnd a ∨ cwnd a' = Z.max (cwnd a / 2) (4 * mtu a)) ∧
       (∀ sid, streams a' !! sid = (λ s, credited s (credit m sid)) <$> streams a !! sid) ∧
       rwnd a' = saturating_sub (sack_advertised_receiver_window_credit d) (wrap 32 (inflight_bytes (outbound_queue a'))) ∧
       (use_forward_tsn a = true → forward_ok (cumulative_tsn_ack d) (my_next_tsn a) a')) (λ _ _, False) a.
Proof.
  intros Hp Hq Hc Hn Hu Hh Hl Hroom. unfold after_marking, able in *.
  apply holds_bind. eapply holds_mono; [by apply release_all_calm, entries_keys_NoDup| |done].
  intros [] a1 (C1 & W1 & P1 & Hin & Hout). pose proof (credits_returned _ _ _ Hin Hout) as Hstr. clear Hin Hout.
  apply holds_bind, holds_modify. match goal with |- holds _ _ _ _ ?s => set (a2 := s) end.
  assert (calm a1 a2) as C2 by done. assert (streams a2 = streams a1 ∧ cwnd a2 = cwnd a1 ∧
    advanced_peer_tsn_ack_point a2 = advanced_peer_tsn_ack_point a1) as (S2 & W2 & P2) by done.
  assert (rwnd a2 = saturating_sub (sack_advertised_receiver_window_credit d) (wrap 32 (inflight_bytes (outbound_queue a2)))) as R2.
  { subst a2. cbn. unfold saturating_sub. case_match; lia. }
  clearbody a2. assert (calm a a2) as C by (by etrans). clear C1 C2.
  apply holds_bind. eapply holds_mono; [apply (fast_retransmission_Ok (cumulative_tsn_ack d) (my_next_tsn a))| |done]; try done.
  { by apply (cm_inv _ _ C). } { eapply chunkwise_contiguous, Hc. apply C. }
  { rewrite (cm_mtu _ _ C). destruct Hroom as [?|[]]; auto. }
  intros [] a3 [C3 W3 S3 R3 P3]. apply holds_bind, holds_self, holds_bind.
  assert (calm a a3) as C' by (by etrans).
  apply (holds_mono _ _ (λ _ a4, skipped a3 a4 ∧
    (use_forward_tsn a = true → forward_ok (cumulative_tsn_ack d) (my_next_tsn a) a4)) _ (λ _ _, False)); [| |done].
  { rewrite (cm_forward _ _ C'). apply holds_when; intros Hf; [|split; [done|congruence]]. apply holds_bind.
    eapply holds_mono; [apply (advance_peer_Ok (cumulative_tsn_ack d) (my_next_tsn a))| |done].
    - by rewrite (cm_point _ _ C').
    - by apply (cm_inv _ _ C').
    - eapply chunkwise_contiguous, Hc. apply C'.
    - done.
    - unfold lagging, forward_ok in *. rewrite P3, P2, P1. by apply Hl.
    - intros [] a4 [H4 F4]. apply holds_modify. destruct (sna32gt _ _); [|done]. split; [etrans; [exact H4|done]|done]. }
  intros [] a4 [H4 F4]. apply holds_bind. eapply holds_mono; [apply postprocess_skipped| |done].
  { rewrite (cm_rto_max _ _ (sp_calm _ _ H4)), (cm_rto_max _ _ C'). destruct Hroom as [?|[]]; auto. }
  intros [] a5 [H5 P5]. apply holds_ret. assert (skipped a3 a5) as [C5 W5 S5 R5 _] by (by etrans).
  split_and!; [done|by etrans| | | |].
  - pose proof (cm_mtu _ _ C) as Hmtu. unfold backs_off in W3. rewrite W5, <- W1, <- W2, <- Hmtu.
    destruct (in_fast_recovery a2); intuition.
  - intros sid. by rewrite S5, S3, S2.
  - rewrite R5, R3, R2, (cm_bytes _ _ C5), (cm_bytes _ _ C3). done.
  - intros Hf. specialize (F4 Hf). unfold forward_ok in *. by rewrite P5.
Qed.

(** Moving the point. *)
Lemma move_point_Ok d total a :
  uN 32 (cumulative_tsn_ack_point a) → uN 32 (cumulative_tsn_ack d) →
  dist32 (cumulative_tsn_ack_point a) (cumulative_tsn_ack d) < 2 ^ 31 →
  p ∨ roomy now a → 0 <= total → p ∨ partial_bytes_acked a + total < 2 ^ 32 →
  holds p (when (sna32lt (cumulative_tsn_ack_point a) (cumulative_tsn_ack d))
             (modify (λ a, a <| cumulative_tsn_ack_point := cumulative_tsn_ack d |>);;
              on_cumulative_tsn_ack_point_advanced total now))
    (λ _ a', calm (a <| cumulative_tsn_ack_point := cumulative_tsn_ack d |>) a' ∧ grows a total a' ∧
       streams a' = streams a ∧ advanced_peer_tsn_ack_point a' = advanced_peer_tsn_ack_point a) (λ _ _, False) a.
Proof.
  intros Hb Hu Hw Hr Ht Hp. apply holds_when; intros Hlt.
  - apply holds_bind, holds_modify. eapply holds_mono; [apply advanced_calm| |done]; try done.
    destruct Hr as [?|[]]; [by left|right; by constructor].
  - assert (cumulative_tsn_ack_point a = cumulative_tsn_ack d) as E by (clear -Hb Hu Hw Hlt; sna).
    split; [by constructor|]. split; [unfold grows; lia|done].
Qed.

(** The hypotheses of [after_marking_Ok] once the flight is marked. *)
Lemma marked_lagging d a adv :
  sending a → honest d a → uN 32 adv → dist32 (cumulative_tsn_ack_point a) adv < dist32 (cumulative_tsn_ack_point a) (my_next_tsn a) →
  dist32 (cumulative_tsn_ack d) adv < dist32 (cumulative_tsn_ack d) (my_next_tsn a) ∨ 0 < dist32 adv (cumulative_tsn_ack d) < 2 ^ 31.
Proof.
  intros Hs Hh Ha Hd. pose proof (inv_base _ _ (sd_queue _ Hs)) as Hb. pose proof (hn_u32 _ _ Hh) as Hu.
  pose proof (contiguous_window _ _ _ (sd_queue _ Hs) (sd_run _ Hs)) as Hw. pose proof (hn_cum _ _ Hh) as Hc. pose proof (sd_next _ Hs) as Hn.
  clear -Hb Hu Hw Hc Hn Ha Hd. sna.
Qed.

Lemma reaches_next d a htna :
  sending a → honest d a → reaches (cumulative_tsn_ack d) (flight a) (cumulative_tsn_ack d) (gap_tsns d) htna →
  uN 32 htna ∧ dist32 (cumulative_tsn_ack d) htna < dist32 (cumulative_tsn_ack d) (my_next_tsn a).
Proof.
  intros Hs Hh [Hf _ _]. pose proof (inv_base _ _ (sd_queue _ Hs)) as Hb. pose proof (hn_u32 _ _ Hh) as Hu.
  pose proof (hn_cum _ _ Hh) as Hc. pose proof (sd_next _ Hs) as Hn. pose proof (dist32_later _ _ _ Hb Hu Hn ltac:(lia)) as E.
  destruct Hf as [->|[Hg _]]; [split; [done|]; rewrite dist32_self; lia|].
  pose proof (gap_tsns_u32 _ _ Hg) as Ht. pose proof (hn_gaps _ _ Hh _ Hg) as Hr. split; [done|].
  rewrite (dist32_later _ _ _ Hb Hu Ht) by lia. lia.
Qed.

Section Tail.
Context (E : RtoManager → Prop) (d : ChunkSelectiveAck) (a a1 a2 : Association) (m : gmap Z Z) (htna : u32).
Context (Hs : sending a) (Hh : honest d a) (Hd : sack_done E d a m htna a1).
Context (C2 : calm (a1 <| cumulative_tsn_ack_point := cumulative_tsn_ack d |>) a2).
Context (G2 : grows a1 (inflight_bytes (outbound_queue a) - inflight_bytes (outbound_queue a1)) a2).
Context (S2 : streams a2 = streams a1) (P2 : advanced_peer_tsn_ack_point a2 = advanced_peer_tsn_ack_point a1).

Lemma handled_tail advanced st :
  p ∨ able a2 → holds p (after_marking d m htna advanced st) (λ r a', r = [] ∧ sack_handled d a a') (λ _ _, False) a2.
Proof.
  intros Hr. destruct (sk_touched _ _ _ _ _ _ Hd) as (qi & qt & qm & qr & qtab & _ & E1).
  assert (my_next_tsn a1 = my_next_tsn a ∧ cwnd a1 = cwnd a ∧ mtu a1 = mtu a ∧ streams a1 = streams a ∧
    use_forward_tsn a1 = use_forward_tsn a ∧ advanced_peer_tsn_ack_point a1 = advanced_peer_tsn_ack_point a ∧
    pending (outbound_queue a1) = pending (outbound_queue a))
    as (F2 & F3 & F4 & F5 & F6 & F7 & F8) by (rewrite E1; done). clear E1.
  destruct C2 as [Kp Kn Ki Ks Kb Km Kt Kf Kpn _]. cbn in Kp, Kn, Kb, Kt, Kf, Kpn.
  assert (pq_inv (cumulative_tsn_ack d) (flight a2)) as Hq2 by (apply Ki, (sk_inv _ _ _ _ _ _ Hd)).
  assert (contiguous (cumulative_tsn_ack d) (my_next_tsn a) (flight a1)) as Hc1
    by (apply left_contiguous; [done|done|apply Hd]).
  assert (contiguous (cumulative_tsn_ack d) (my_next_tsn a2) (flight a2)) as Hc2.
  { rewrite Kn, F2. by eapply chunkwise_contiguous, Hc1. }
  destruct (reaches_next _ _ _ Hs Hh (sk_htna _ _ _ _ _ _ Hd)) as [Hhu Hhd]. rewrite <- F2, <- Kn in Hhd.
  pose proof (dist32_bounds (cumulative_tsn_ack d) htna) as Hpos.
  eapply holds_mono; [apply after_marking_Ok; try done; [lia|]| |done].
  { intros Hf. rewrite Kf, F6 in Hf. destruct (sd_forward _ Hs Hf) as [Hau Had].
    unfold lagging, forward_ok. rewrite P2, F7, Kn, F2. destruct (marked_lagging _ _ _ Hs Hh Hau Had); auto. }
  intros r a' (-> & C & W & St & R & F). split; [done|]. pose proof (cm_inv _ _ C _ Hq2) as Hq'.
  assert (misses (flight a1) (flight a')) as Hmiss by (etrans; [exact Km|apply C]).
  assert (cumulative_tsn_ack_point a' = cumulative_tsn_ack d ∧ my_next_tsn a' = my_next_tsn a) as [Ep En].
  { by rewrite (cm_point _ _ C), (cm_next _ _ C), Kn. }
  split; [done|done|by rewrite (cm_pending _ _ C), Kpn, F8|by rewrite (cm_forward _ _ C), Kf, F6| | | |done|].
  - split; rewrite ?Ep, ?En; [done|apply (sd_next _ Hs)|by eapply chunkwise_contiguous, Hc1|]. intros Hf.
    rewrite (cm_forward _ _ C) in Hf. specialize (F Hf). by rewrite Kn, F2 in F.
  - intros t. rewrite <- (sk_flight _ _ _ _ _ _ Hd). apply Hmiss.
  - intros sid. rewrite St, S2, F5, (sk_credit _ _ _ _ _ _ Hd), (misses_owed a sid _ _ Hmiss). done.
  - intros Hcw Hmtu. pose proof G2 as G3. unfold grows in G3. rewrite F3, F4 in G3. specialize (G3 Hcw Hmtu). rewrite (cm_bytes _ _ C), Kb.
    assert (cwnd a2 / 2 <= cwnd a2) as Hhalf by (apply Z.div_le_upper_bound; lia).
    rewrite Kt, F4 in W. destruct W as [-> | ->]; clear -G3 Hcw Hmtu Hhalf; lia.
Qed.
End Tail.

Lemma handle_sack_Ok E d a :
  sending a → honest d a → takes_sacks (state a) → measurable p now E (flight a) → E (rto_mgr a) → p ∨ roomy now a →
  holds p (handle_sack d now) (λ r a', r = [] ∧ sack_handled d a a') (λ _ _, False) a.
Proof.
  intros Hs Hh Hst Hm HE Hr. pose proof (inv_base _ _ (sd_queue _ Hs)) as Hb. pose proof (hn_u32 _ _ Hh) as Hu.
  unfold handle_sack. apply holds_bind, holds_self.
  assert (negb (bool_decide (state a = Established)) && negb (bool_decide (state a = ShutdownPending))
     && negb (bool_decide (state a = ShutdownReceived)) = false) as -> by (destruct Hst as [-> | [-> | ->]]; done).
  apply holds_bind, holds_modify. set (a0 := a <| stats ::= inc_sacks |>).
  assert (sna32gt (cumulative_tsn_ack_point a) (cumulative_tsn_ack d) = false) as ->.
  { pose proof (hn_window _ _ Hh) as Hw. clear -Hb Hu Hw. sna. }
  assert (sending a0) as Hs0 by (by destruct Hs). assert (honest d a0) as Hh0 by (by destruct Hh).
  assert (p ∨ roomy now a0) as Hr0 by (destruct Hr as [?|[]]; [by left|right; by constructor]).
  change (inflight_bytes (outbound_queue a)) with (inflight_bytes (outbound_queue a0)). apply holds_bind.
  eapply holds_mono; [by eapply (process_selective_ack_Ok p now E d a0)| |done].
  intros [m htna] a1 Hd. cbn [fst snd] in Hd. apply holds_bind, holds_self.
  pose proof (sack_done_bytes _ _ _ _ _ _ Hs0 Hd) as Hbytes. apply holds_bind.
  unfold checked_sub. rewrite (proj2 (Z.leb_le _ _)) by lia. apply holds_ret.
  set (total := inflight_bytes _ - inflight_bytes _) in *.
  destruct (sk_touched _ _ _ _ _ _ Hd) as (qi & qt & qm & qr & qtab & Ht & E1).
  assert (cumulative_tsn_ack_point a1 = cumulative_tsn_ack_point a ∧ my_next_tsn a1 = my_next_tsn a ∧ cwnd a1 = cwnd a ∧
    mtu a1 = mtu a ∧ streams a1 = streams a ∧ use_forward_tsn a1 = use_forward_tsn a ∧
    advanced_peer_tsn_ack_point a1 = advanced_peer_tsn_ack_point a ∧ partial_bytes_acked a1 = partial_bytes_acked a ∧ tt_rto_max (timers a1) = tt_rto_max (timers a))
    as (F1 & F2 & F3 & F4 & F5 & F6 & F7 & F8 & F9) by (rewrite E1; done). clear E1 Ht.
  apply holds_bind. eapply holds_mono; [apply (move_point_Ok d total a1)| |done].
  { by rewrite F1. } { done. } { rewrite F1. apply Hh. }
  { destruct Hr0; [by left|right]. by eapply sack_done_roomy. } { lia. }
  { destruct Hr0 as [?|[_ _ [_ ?] _]]; [by left|right]. rewrite F8. change (partial_bytes_acked a0) with (partial_bytes_acked a) in *. lia. }
  intros [] a2 (C2 & G2 & S2 & P2). change (holds p (after_marking d m htna (sna32lt (cumulative_tsn_ack_point a1) (cumulative_tsn_ack d)) (state a))
    (λ r a', r = [] ∧ sack_handled d a a') (λ _ _, False) a2).
  eapply holds_mono; [eapply (handled_tail E d a0 a1 a2 m); try done| |done].
  - destruct Hr0 as [?|R]; [by left|right]. eapply (roomy_able a0); [done|..].
    + rewrite (cm_mtu _ _ C2). exact F4.
    + rewrite (cm_rto_max _ _ C2). exact F9.
  - intros r a' [-> []]. split; [done|by constructor].
Qed.
End Handle.

Section Theorems.
Context {I : MapIter} {IL : MapIterLaws I}.

(** Claim C8.  A SACK that reports only what was sent is always handled: with room left in the windows, the
    clock and the round-trip estimator, handling it ends without an error or a panic; the
    acknowledgement point moves to its cumulative TSN and everything up to there leaves the
    flight, the TSNs of its gap blocks are marked and their data dropped, the rest of the flight
    changes in nothing but its miss counters and stays without gaps; every stream gets back
    exactly the bytes that were owed to it and no longer are; the peer's window is what it
    advertised minus what is outstanding; and the congestion window grows by no more than the bytes
    acknowledged or one MTU and, when it shrinks, keeps half of itself or four MTUs. *)
Theorem honest_sack_handled E d now a :
  sending a → honest d a → takes_sacks (state a) → measurable False now E (flight a) → E (rto_mgr a) → roomy now a →
  ∃ a', handle_sack d now a = ROk [] a' ∧ sack_handled d a a'.
Proof.
  intros Hs Hh Ht Hm HE Hr. pose proof (handle_sack_Ok False now E d a Hs Hh Ht Hm HE (or_intror Hr)) as H. unfold holds in H.
  destruct (handle_sack d now a) as [r a'| | |]; try done. destruct H as [-> ?]. by exists a'.
Qed.
End Theorems.

(** ** Three chunks in flight, the first and the last acknowledged *)

Definition demo_sent (t : u32) : ChunkPayloadData :=
  ChunkPayloadData_default <| tsn := t |> <| user_data := [t; t] |> <| nsent := 1 |> <| since := Some 0 |>
    <| reliability := Some (Reliable, 0) |>.

Definition demo_run (f : u32 → ChunkPayloadData) : PayloadQueue :=
  push_no_check (push_no_check (push_no_check PayloadQueue_new (f 10)) (f 11)) (f 12).

Lemma demo_run_map f : (∀ t, tsn (f t) = t) →
  chunk_map (demo_run f) = <[12 := f 12]> (<[11 := f 11]> (<[10 := f 10]> (∅ : gmap Z ChunkPayloadData))).
Proof.
  intros Hf. change (chunk_map (demo_run f)) with
    (<[tsn (f 12) := f 12]> (<[tsn (f 11) := f 11]> (<[tsn (f 10) := f 10]> (∅ : gmap Z ChunkPayloadData)))). by rewrite !Hf.
Qed.

Lemma demo_run_chunk f t c : (∀ t, tsn (f t) = t) → chunk_map (demo_run f) !! t = Some c → c = f t ∧ (t = 10 ∨ t = 11 ∨ t = 12).
Proof.
  intros Hf Hc. rewrite demo_run_map in Hc by done.
  repeat (apply lookup_insert_Some in Hc as [[<- <-]|[_ Hc]]; [by auto|]). by rewrite lookup_empty in Hc.
Qed.

Lemma demo_run_ok f : (∀ t, tsn (f t) = t) → pq_inv 9 (demo_run f) ∧ contiguous 9 13 (demo_run f).
Proof.
  intros Hf. split.
  - assert (∀ m t, m !! tsn (f t) = None ↔ (m : gmap Z ChunkPayloadData) !! t = None) as Hm by (intros; by rewrite Hf).
    unfold demo_run. repeat (apply push_no_check_inv; [|apply Hm|rewrite Hf; by vm_compute..]); [apply pq_inv_new; by vm_compute|done|..];
      cbn; by rewrite !Hf.
  - intros t Ht. rewrite demo_run_map by done. change (dist32 9 13) with 4.
    rewrite !lookup_insert_is_Some, lookup_empty. split.
    + intros [<-|[_ [<-|[_ [<-|[_ []]]]]]]; [by vm_compute..|done].
    + intros Hd. assert (t = 10 ∨ t = 11 ∨ t = 12) as [-> | [-> | ->]];
      [sna|right; split; [lia|right; split; [lia|by left]]|right; split; [lia|by left]|by left].
Qed.

Definition demo_flight : PayloadQueue := demo_run demo_sent.

Definition demo_sender : Association :=
  Association_default <| state := Established |> <| cumulative_tsn_ack_point := 9 |> <| advanced_peer_tsn_ack_point := 9 |>
    <| my_next_tsn := 13 |> <| outbound_queue ::= λ q, q <| inflight := demo_flight |> |> <| mtu := 1228 |> <| cwnd := 4380 |>.

Definition demo_sack : ChunkSelectiveAck := mkChunkSelectiveAck 10 1000 [mkGapAckBlock 2 2] [].

Lemma demo_sending : sending demo_sender.
Proof.
  destruct (demo_run_ok demo_sent) as [Hq Hc]; [done|]. exact (mk_sending demo_sender Hq ltac:(by vm_compute) Hc ltac:(done)).
Qed.

Lemma demo_honest : honest demo_sack demo_sender.
Proof.
  constructor; [by vm_compute..|]. intros t Ht. change (gap_tsns demo_sack) with [12] in Ht.
  apply list_elem_of_singleton in Ht as ->. by vm_compute.
Qed.

Definition demo_rto : RtoManager := RtoManager_default <| rto := 1000 |>.

Lemma demo_flight_chunk t c : chunk_map (flight demo_sender) !! t = Some c → c = demo_sent t.
Proof. intros Hc. by apply (demo_run_chunk demo_sent) in Hc as [? _]. Qed.

Lemma demo_measurable : measurable False 0 (λ m, m = rto_mgr demo_sender ∨ m = demo_rto) (flight demo_sender).
Proof.
  intros m t c s Hm ->%demo_flight_chunk [= <-]. destruct Hm as [-> | ->]; vm_compute; right; reflexivity.
Qed.

Lemma early_instant i : i <= 60000 → ∃ t, Instant_add 0 i = Ok t.
Proof.
  intros Hi. unfold Instant_add, Instant_checked_add, INSTANT_LIMIT, ms.
  destruct (Z.ltb_spec (0 + i * 1000000) (2 ^ 63 * 1000 * 1000000)); [eauto|lia].
Qed.

Lemma demo_roomy : roomy 0 demo_sender.
Proof. constructor; [by vm_compute..|]. intros i Hi. by apply early_instant. Qed.

Lemma honest_sack_handled_witness :
  ∃ a', @handle_sack list_iter demo_sack 0 demo_sender = ROk [] a' ∧ sack_handled demo_sack demo_sender a'.
Proof.
  eapply (@honest_sack_handled list_iter list_iter_laws (λ m, m = rto_mgr demo_sender ∨ m = demo_rto) demo_sack 0 demo_sender).
  - exact demo_sending.
  - exact demo_honest.
  - left. reflexivity.
  - exact demo_measurable.
  - left. reflexivity.
  - exact demo_roomy.
Defined.
