(* ===== verification/AssocReliable.v ===== *)
(** * Reliable messages

    Partial reliability gives messages up, but only those that were written
    with a limit.  A message without one never gets a deadline, is never given
    up, and goes through every expiry check of the sender unharmed. *)

From stdpp Require Import base list gmap numbers sets.
From Stdlib Require Import ZArith Lia ZifyBool.
From S2P Require Import Prelude Bytes Util Params Chunks Packet PayloadQueue PayloadRun PendingQueue OutboundQueue.
From S2P Require Import ReassemblyQueue Shared Stream Monad Timer Config Association AssocReset AssocRecv AssocSend AssocControl.
From S2P Require Import AssocFrame AssocData AssocAck AssocSack AssocSackHandle.

(** ** Chunks that are never given up *)

Definition dependable (c : ChunkPayloadData) : Prop :=
  abandoned c = false ∧ deadline c = None ∧ ∃ v, reliability c = Some (Reliable, v).

(** A chunk that waits to be sent for the first time. *)
Definition waiting_chunk (c : ChunkPayloadData) : Prop := acked c = false ∧ dependable c.

Definition pristine (p : PendingQueue) : Prop :=
  Forall waiting_chunk (unordered_queue p) ∧ Forall waiting_chunk (ordered_queue p).

Lemma pn_push_pristine p c : pristine p → waiting_chunk c → pristine (pn_push p c).
Proof.
  intros [Hu Ho] Hc. unfold pn_push. destruct (unordered c); split; cbn; try done; apply Forall_app_2; try done; by apply Forall_singleton.
Qed.

Lemma oq_push_pristine q cs q' :
  pristine (pending q) → Forall waiting_chunk cs → oq_push q cs = Ok q' → pristine (pending q').
Proof.
  intros Hp Hc. unfold oq_push. destruct cs as [|c0 cs0] eqn:Ecs; [by intros [= <-]|]. rewrite <- Ecs in *. clear Ecs.
  intros (next & _ & [= <-])%bind_Ok. cbn. clear -Hp Hc. revert Hp. generalize (pending q) as p.
  induction Hc as [|c cs Hc _ IH]; intros p Hp; [done|]. cbn. by apply IH, pn_push_pristine.
Qed.

(** No deadline is set. *)
Lemma start_timed_waiting now c : waiting_chunk c → start_timed now c = c.
Proof. intros (_ & _ & _ & v & Hr). unfold start_timed. destruct (_ || _); [done|]. by rewrite Hr. Qed.

Lemma start_suffix_waiting id now l : Forall waiting_chunk l → start_suffix id now l = l.
Proof.
  intros H. unfold start_suffix. rewrite <- (rev_involutive l) at 2. f_equal. apply Forall_rev in H. revert H.
  generalize (rev l). clear l. induction 1 as [|c l Hc Hl IH]; [done|]. cbn. case_match; [|done].
  by rewrite start_timed_waiting, IH.
Qed.

Lemma start_timed_pristine q now : pristine (pending q) →
  pending (start_timed_messages q now) = pending q ∧ inflight (start_timed_messages q now) = inflight q.
Proof.
  intros [Hu Ho]. unfold start_timed_messages. destruct (negb _); [|done]. cbn. split; [|done].
  destruct (pending q) as [uq oq n b sel un]. cbn in Hu, Ho.
  change (mkPendingQueue (start_suffix (next_unstarted_message_id q) now uq) (start_suffix (next_unstarted_message_id q) now oq)
    n b sel un = mkPendingQueue uq oq n b sel un). by rewrite !start_suffix_waiting.
Qed.

Lemma pn_pop_pristine p b u r p' :
  pristine p → pn_pop p b u = Ok (r, p') → pristine p' ∧ ∀ c, r = Some c → waiting_chunk c.
Proof.
  intros [Hu Ho]. unfold pn_pop. destruct (negb _ && _); [by intros [= <- <-]|].
  assert (∀ un, pristine (pop_front un p).2 ∧ ∀ c, (pop_front un p).1 = Some c → waiting_chunk c) as Hf.
  { intros un. unfold pop_front, pristine. destruct un; cbn.
    - destruct Hu; cbn; (split; [by auto|]); [done|]. by intros ? [= <-].
    - destruct Ho; cbn; (split; [by auto|]); [done|]. by intros ? [= <-]. }
  destruct (selected p); [specialize (Hf (unordered_is_selected p))|specialize (Hf u)];
    destruct (pop_front _ p) as [[c|] q]; cbn in Hf; destruct Hf as [Hq Hc];
    try (by intros [= <- <-]); intros (n & _ & (k & _ & [= <- <-])%bind_Ok)%bind_Ok;
    (split; [|by auto]); case_match; done.
Qed.

Lemma send_next_pristine q nt now r nt' q' :
  pristine (pending q) → send_next q nt now = Ok (r, nt', q') →
  pristine (pending q') ∧ ∀ c, r = Some c → waiting_chunk c.
Proof.
  intros Hp. unfold send_next. destruct (start_timed_pristine q now Hp) as [Ep _].
  assert (pristine (pending (start_timed_messages q now))) as Hp' by (by rewrite Ep).
  destruct (pn_peek _) as [c0|]; [|by intros [= <- _ <-]]. intros ([popped p1] & Hpop & H)%bind_Ok.
  destruct (pn_pop_pristine _ _ _ _ _ Hp' Hpop) as [Hp1 Hc]. destruct popped as [c|]; injection H as <- _ <-; [|done].
  split; [done|]. intros ? [= <-]. by apply (Hc c).
Qed.

(** ** Expiry finds nothing *)

Lemma dependable_deadline now c : dependable c → past_deadline now c = false.
Proof. intros (_ & Hd & _). unfold past_deadline. by rewrite Hd. Qed.

Lemma peek_pristine p c : pristine p → pn_peek p = Some c → waiting_chunk c.
Proof.
  intros [Hu Ho] Hc%pn_peek_elem. apply elem_of_app in Hc as [Hc|Hc]; [rewrite Forall_forall in Hu|rewrite Forall_forall in Ho]; auto.
Qed.

Lemma expire_pending_pristine q now : pristine (pending q) → expire_pending q now = Ok (None, q).
Proof.
  intros Hp. unfold expire_pending. destruct (pn_peek _) as [c|] eqn:Ec; [|done]. apply (peek_pristine _ _ Hp) in Ec as [_ Hd].
  by rewrite (dependable_deadline _ _ Hd), orb_true_r.
Qed.

Lemma expire_pending_tail_pristine q now nt : pristine (pending q) → expire_pending_tail q now nt = Ok (None, nt, q).
Proof.
  intros Hp. unfold expire_pending_tail. destruct (pn_peek _) as [c|] eqn:Ec; [|done]. apply (peek_pristine _ _ Hp) in Ec as [_ Hd].
  by rewrite (dependable_deadline _ _ Hd), orb_true_r.
Qed.

(** An association all of whose messages are reliable. *)
Record steadfast (a : Association) : Prop := mk_steadfast {
  sf_pending : pristine (pending (outbound_queue a));
  sf_flight t c : chunk_map (flight a) !! t = Some c → dependable c;
}.

Lemma expired_inflight_steadfast a now : steadfast a → expired_inflight (outbound_queue a) now = [].
Proof.
  intros Hs. unfold expired_inflight. apply elem_of_nil_inv. intros t [Ht _]%list_elem_of_filter. revert Ht. unfold pq_get. fold (flight a).
  destruct (chunk_map (flight a) !! t) as [c|] eqn:Ec; [|done].
  by rewrite (dependable_deadline _ _ (sf_flight _ Hs _ _ Ec)), andb_false_r.
Qed.

Section Reliable.
Context {I : MapIter} (now : Instant).

Lemma abandon_steadfast t a : steadfast a → abandon_if_needed t now a = ROk false a.
Proof.
  intros Hs. unfold abandon_if_needed, oq_get, pq_get. run. fold (flight a). destruct (chunk_map (flight a) !! t) as [c|] eqn:Ec; [|done].
  destruct (sf_flight _ Hs _ _ Ec) as (Ha & _ & v & Hr). rewrite Ha, Hr. destruct (negb _); [done|]. by destruct (bool_decide _).
Qed.

(** The queue after looking for expired messages: nothing but a counter changed. *)
Definition looked (a a' : Association) : Prop :=
  ∃ q, a' = a <| outbound_queue := q |> ∧ pending q = pending (outbound_queue a) ∧ inflight q = inflight (outbound_queue a).

Lemma expire_inflight_steadfast a :
  steadfast a → holds False (expire_inflight_messages now) (λ _ a', looked a a') (λ _ _, False) a.
Proof.
  intros Hs. unfold expire_inflight_messages. apply holds_bind, holds_self, holds_when; intros _.
  2:{ exists (outbound_queue a). split; [by destruct a|done]. }
  destruct (start_timed_pristine (outbound_queue a) now (sf_pending _ Hs)) as [Ep Ei].
  apply holds_bind, holds_modify. set (a1 := a <| outbound_queue ::= _ |>).
  assert (steadfast a1) as Hs1.
  { constructor; [change (pristine (pending (start_timed_messages (outbound_queue a) now))); rewrite Ep; apply (sf_pending _ Hs)|].
    intros t c Hc. apply (sf_flight _ Hs t). change (flight a1) with (inflight (start_timed_messages (outbound_queue a) now)) in Hc.
    by rewrite Ei in Hc. }
  assert (looked a a1) as Hl by (exists (outbound_queue a1); done).
  apply holds_bind, holds_gets. rewrite (expired_inflight_steadfast _ _ Hs1). cbn [abandon_all].
  apply holds_bind, holds_ret, holds_bind, holds_gets. unfold pending_fuel. cbn [expire_tails].
  do 2 apply holds_bind; apply holds_self. rewrite (expire_pending_tail_pristine _ _ _ (sf_pending _ Hs1)).
  apply holds_bind, holds_ret, holds_bind, holds_modify, holds_ret. apply holds_ret.
  destruct Hl as (q & E & E1 & E2). exists q. rewrite E. split; [by destruct a|done].
Qed.
End Reliable.
