(* ===== verification/AssocPoll.v ===== *)
(** * Polling for new data

    What a poll puts into the flight: exactly the chunks it returns, under the
    TSNs that follow, so that a flight without gaps stays one. *)

From stdpp Require Import base list gmap numbers sets.
From Stdlib Require Import ZArith Lia ZifyBool.
From S2P Require Import Prelude Bytes Util Params Chunks Packet PayloadQueue PayloadRun PendingQueue OutboundQueue.
From S2P Require Import ReassemblyQueue Shared Stream Monad Timer Config Association AssocReset AssocRecv AssocSend AssocControl.
From S2P Require Import AssocFrame AssocData AssocAck AssocSack AssocSackHandle AssocReliable.

(** ** Sending *)

(** The acknowledgement points and the choice of partial reliability stay. *)
Definition settled (a a' : Association) : Prop :=
  cumulative_tsn_ack_point a' = cumulative_tsn_ack_point a ∧ use_forward_tsn a' = use_forward_tsn a ∧
  advanced_peer_tsn_ack_point a' = advanced_peer_tsn_ack_point a.

#[export] Instance settled_refl : Reflexive settled.
Proof. done. Qed.
#[export] Instance settled_trans : Transitive settled.
Proof. intros a b c (? & ? & ?) (? & ? & ?). split_and!; congruence. Qed.

(** The flight takes exactly the chunks [cs], under the TSNs that follow. *)
Record flew (a : Association) (cs : list ChunkPayloadData) (a' : Association) : Prop := mk_flew {
  fw_tsns (i : nat) c : cs !! i = Some c → tsn c = wrapping_add 32 (my_next_tsn a) (Z.of_nat i);
  fw_next : my_next_tsn a' = wrapping_add 32 (my_next_tsn a) (len cs);
  fw_held c : c ∈ cs → chunk_map (flight a') !! tsn c = Some c;
  fw_kept t c : chunk_map (flight a) !! t = Some c → chunk_map (flight a') !! t = Some c;
  fw_only t c : chunk_map (flight a') !! t = Some c → c ∈ cs ∨ chunk_map (flight a) !! t = Some c;
  fw_new c : c ∈ cs → waiting_chunk c;
  fw_count : len cs + pending_len (outbound_queue a') <= pending_len (outbound_queue a);
}.

Section Send.
Context {I : MapIter}.

Lemma pop_pending_settled fuel now : preserves settled (pop_pending_loop fuel now).
Proof.
  induction fuel as [|fuel IH]; cbn [pop_pending_loop]; [preserves|].
  unfold release_stream_buffer, push_event, send_next_data_chunk. preserves; done.
Qed.

Lemma pop_pending_pristine fuel now : ∀ a, pristine (pending (outbound_queue a)) →
  holds True (pop_pending_loop fuel now)
    (λ cs a', pristine (pending (outbound_queue a')) ∧ ∀ c, c ∈ cs → waiting_chunk c) (λ _ _, True) a.
Proof.
  induction fuel as [|fuel IH]; intros a Hp; cbn [pop_pending_loop]; [done|]. apply holds_bind, holds_self, holds_bind.
  assert ((if use_forward_tsn a then expire_pending (outbound_queue a) now else Ok (None, outbound_queue a)) = Ok (None, outbound_queue a)) as ->
    by (destruct (use_forward_tsn a); [by apply expire_pending_pristine|done]).
  apply holds_ret, holds_bind, holds_modify. assert (∀ c : ChunkPayloadData, c ∈ [] → waiting_chunk c) as Hnil by set_solver.
  destruct (peek_pending _) as [c0|]; [|apply holds_ret; split; [done|exact Hnil]].
  do 2 (case_match; [apply holds_ret; split; [done|exact Hnil]|]).
  apply holds_bind, holds_modify, holds_bind. unfold send_next_data_chunk. apply holds_bind, holds_self, holds_bind, holds_lift; [|done..].
  intros [[r nt'] q'] Hs. destruct (send_next_pristine _ _ _ _ _ _ Hp Hs) as [Hp' Hc].
  apply holds_bind, holds_modify, holds_ret, holds_bind. eapply holds_mono; [by apply IH| |done].
  intros cs a' [Ha Hcs]. apply holds_ret. split; [done|]. destruct r as [c|]; [|done].
  intros x [->|Hx]%elem_of_cons; auto.
Qed.

Lemma sending_queue a : sending a → (∃ st, pn_inv (pending (outbound_queue a)) st) →
  oq_inv (cumulative_tsn_ack_point a) (my_next_tsn a) (outbound_queue a).
Proof.
  intros Hs Hp. split; [apply (sd_queue _ Hs)|done|apply (sd_next _ Hs)|]. intros t Ht.
  pose proof (inv_u32 _ _ (sd_queue _ Hs) _ Ht) as Hu. apply (inv_dom _ _ (sd_queue _ Hs)) in Ht.
  apply (proj1 (sd_run _ Hs t Hu) Ht).
Qed.

Lemma sent_within_flew a cs a' : sent_within a cs a' → (∀ c, c ∈ cs → waiting_chunk c) → flew a cs a'.
Proof. intros [H1 H2 _ H4 H5 H6 H7 _ _ _ _] Hc. by constructor. Qed.

Lemma flew_none a a' : uN 32 (my_next_tsn a) → my_next_tsn a' = my_next_tsn a → flight a' = flight a →
  pending_len (outbound_queue a') = pending_len (outbound_queue a) → flew a [] a'.
Proof.
  intros Hu En Ef El. constructor; rewrite ?En, ?Ef; try done; try (by intros ? ?%elem_of_nil); [|by right|unfold len; cbn; lia].
  unfold wrapping_add, len. cbn. rewrite Z.add_0_r. symmetry. by apply wrap_small.
Qed.

Lemma send_next_empty base nt q now :
  oq_inv base nt q → pending_len q = 0 → send_next q nt now = Ok (None, nt, start_timed_messages q now).
Proof.
  intros Hq Hl. pose proof (start_timed_messages_inv _ _ _ now Hq) as Hq'. unfold send_next.
  assert (pending_len (start_timed_messages q now) = 0) as Hl' by (unfold start_timed_messages; by destruct (negb _)).
  rewrite (pending_count_len _ _ _ Hq') in Hl'. unfold pending_count in Hl'.
  destruct (pn_peek _) as [c|] eqn:Ec; [|done]. apply pn_peek_elem in Ec. destruct (_ ++ _); [by apply not_elem_of_nil in Ec|cbn in Hl'; lia].
Qed.

(** The probe, when nothing is in flight and the window is closed. *)
Definition probed (r : option ChunkPayloadData) : list ChunkPayloadData := match r with Some c => [c] | None => [] end.

Lemma probe_flew base now a :
  oq_inv base (my_next_tsn a) (outbound_queue a) → dist32 base (my_next_tsn a) < 2 ^ 31 →
  pristine (pending (outbound_queue a)) →
  holds False (send_next_data_chunk now)
    (λ r a', flew a (probed r) a' ∧ settled a a' ∧ rwnd a' = rwnd a ∧
       oq_inv base (my_next_tsn a') (outbound_queue a') ∧ pristine (pending (outbound_queue a'))) (λ _ _, False) a.
Proof.
  intros Hq Hd Hp. pose proof (oi_next _ _ _ Hq) as Hn. unfold send_next_data_chunk. apply holds_bind, holds_self, holds_bind.
  destruct (decide (pending_len (outbound_queue a) = 0)) as [Hl|Hl].
  { pose proof (send_next_empty _ _ _ now Hq Hl) as Hs. destruct (send_next_pristine _ _ _ _ _ _ Hp Hs) as [Hp' _].
    rewrite Hs. apply holds_ret, holds_bind, holds_modify, holds_ret. split_and!; [|done|done|by apply start_timed_messages_inv|done].
    apply flew_none; [done|done|..].
    - change (inflight (start_timed_messages (outbound_queue a) now) = flight a). unfold start_timed_messages. by destruct (negb _).
    - change (pending_len (start_timed_messages (outbound_queue a) now) = pending_len (outbound_queue a)).
      unfold start_timed_messages. by destruct (negb _). }
  assert (0 < pending_len (outbound_queue a)) as Hl' by (rewrite (pending_count_len _ _ _ Hq) in *; lia).
  destruct (send_next_Ok base _ _ now Hq Hd Hl') as (c & q' & Hs & _ & Hq' & Hnone & Hget & _ & _ & Hlen).
  destruct (send_next_pristine _ _ _ _ _ _ Hp Hs) as [Hp' Hc].
  rewrite Hs. apply holds_ret, holds_bind, holds_modify, holds_ret.
  set (c' := as_sent (my_next_tsn a) now c) in *. assert (tsn c' = my_next_tsn a) as Et by done. clearbody c'.
  split; [|done]. cbn [probed]. specialize (Hc _ eq_refl). match goal with |- flew _ _ ?s => set (a1 := s) end.
  assert (∀ t, chunk_map (flight a1) !! t = if t =? my_next_tsn a then Some c' else chunk_map (flight a) !! t) as Hmap by exact Hget.
  change (chunk_map (flight a) !! my_next_tsn a = None) in Hnone. assert (my_next_tsn a1 = wrapping_add 32 (my_next_tsn a) 1) as En by done.
  assert (pending_len (outbound_queue a1) = pending_len (outbound_queue a) - 1) as El by (rewrite Hlen; change (outbound_queue a1) with q'; lia).
  clearbody a1. constructor.
  - intros [|i] x Hx; [|done]. injection Hx as <-. unfold wrapping_add. rewrite Z.add_0_r, Et. symmetry. by apply wrap_small.
  - done.
  - intros x ->%list_elem_of_singleton. by rewrite Hmap, Et, Z.eqb_refl.
  - intros t x Hx. rewrite Hmap. destruct (Z.eqb_spec t (my_next_tsn a)); [congruence|done].
  - intros t x. rewrite Hmap. destruct (t =? _); [intros [= <-]; left; left|by right].
  - by intros x ->%list_elem_of_singleton.
  - unfold len. cbn. lia.
Qed.

Lemma flew_nil_l a cs a' a1 : flew a [] a1 → uN 32 (my_next_tsn a) → flew a1 cs a' → flew a cs a'.
Proof.
  intros [_ E _ Hk Ho _ Hc] Hu [H1 H2 H3 H4 H5 H6 H7]. assert (my_next_tsn a1 = my_next_tsn a) as En.
  { rewrite E. unfold wrapping_add, len. cbn. rewrite Z.add_0_r. by apply wrap_small. }
  rewrite En in *. constructor; try done; [auto| |].
  - intros t c [?|[Hn|?]%Ho]%H5; auto. by apply not_elem_of_nil in Hn.
  - unfold len in *. cbn in Hc. lia.
Qed.

(** The part of the poll after the expired messages are dealt with. *)
Lemma send_pending_flew base now a :
  oq_inv base (my_next_tsn a) (outbound_queue a) →
  dist32 base (my_next_tsn a) + pending_len (outbound_queue a) < 2 ^ 31 → 0 <= rwnd a → pristine (pending (outbound_queue a)) →
  holds False
    (a ← self;
     if pending_len (outbound_queue a) =? 0 then mret []
     else
       chunks ← pop_pending_loop (pending_fuel a) now;
       a ← self;
       if bool_decide (chunks = []) && (inflight_len (outbound_queue a) =? 0) then
         probe ← send_next_data_chunk now;
         mret (match probe with Some c => [c] | None => [] end)
       else mret chunks)
    (λ cs a', flew a cs a' ∧ settled a a' ∧ 0 <= rwnd a' ∧ oq_inv base (my_next_tsn a') (outbound_queue a') ∧
       pristine (pending (outbound_queue a'))) (λ _ _, False) a.
Proof.
  intros Hq Hd Hr Hp. apply holds_bind, holds_self.
  pose proof (pending_count_len _ _ _ Hq) as Hl. destruct (pending_len (outbound_queue a) =? 0) eqn:E0.
  { apply holds_ret. split_and!; try done. by apply flew_none; [apply (oi_next _ _ _ Hq)|..]. }
  assert (pending_count (outbound_queue a) < pending_fuel a)%nat as Hfuel.
  { unfold pending_count, pending_fuel. rewrite length_app. lia. }
  pose proof (pop_pending_loop_Ok base _ now a Hq Hfuel ltac:(lia) Hr) as Hloop.
  pose proof (holds_both _ _ _ _ _ _ _ Hloop (pop_pending_pristine (pending_fuel a) now a Hp)) as H1.
  pose proof (holds_both _ _ _ _ _ _ _ H1 (pop_pending_settled (pending_fuel a) now a)) as H2. clear Hloop H1.
  apply holds_bind. eapply holds_mono; [exact H2| |by intros ?? [[[] _] _]].
  intros cs a1 [[[Hw Hq1] [Hp1 Hcs]] Hset]. cbv beta in Hset. pose proof (sent_within_flew _ _ _ Hw Hcs) as Hfl.
  destruct (sn_rwnd _ _ _ Hw) as [_ Hr1]. apply holds_bind, holds_self.
  destruct (_ && _) eqn:Eb; [|by apply holds_ret]. apply andb_true_iff in Eb as [->%bool_decide_eq_true _].
  pose proof (fw_next _ _ _ Hfl) as En. assert (my_next_tsn a1 = my_next_tsn a) as En1.
  { rewrite En. unfold wrapping_add, len. cbn. rewrite Z.add_0_r. apply wrap_small, (oi_next _ _ _ Hq). }
  apply holds_bind. eapply holds_mono; [apply (probe_flew base)| |done]; [done|rewrite En1; lia|done|].
  intros r a2 (Hfl2 & Hset2 & Hr2 & Hq2 & Hp2). apply holds_ret. fold (probed r). split_and!; try done; [|by etrans|lia].
  by eapply flew_nil_l, Hfl2; [|apply (oi_next _ _ _ Hq)].
Qed.

(** A poll of an association whose messages are reliable. *)
Lemma poll_data_flew base now a :
  oq_inv base (my_next_tsn a) (outbound_queue a) →
  dist32 base (my_next_tsn a) + pending_len (outbound_queue a) < 2 ^ 31 → 0 <= rwnd a → steadfast a →
  holds False (pop_pending_data_chunks_to_send now)
    (λ cs a', flew a cs a' ∧ settled a a' ∧ 0 <= rwnd a' ∧ oq_inv base (my_next_tsn a') (outbound_queue a') ∧
       pristine (pending (outbound_queue a'))) (λ _ _, False) a.
Proof.
  intros Hq Hd Hr Hf. unfold pop_pending_data_chunks_to_send. apply holds_bind.
  eapply holds_mono; [by apply expire_inflight_steadfast| |done]. intros [] a1 (q & -> & Ep & Ei).
  assert (oq_inv base (my_next_tsn a) q) as Hq1 by (destruct Hq; constructor; rewrite ?Ei, ?Ep; done).
  assert (pending_len q = pending_len (outbound_queue a)) as El by (unfold pending_len; by rewrite Ep).
  set (a1 := a <| outbound_queue := q |>).
  eapply holds_mono; [apply (send_pending_flew base now a1); [done|by rewrite <- El in Hd|done|]| |done].
  - change (pristine (pending q)). rewrite Ep. apply (sf_pending _ Hf).
  - intros cs a' (Hfl & Hset & H). split; [|done]. eapply (flew_nil_l a cs a' a1); [|apply (oi_next _ _ _ Hq)|done].
    by apply flew_none; [apply (oi_next _ _ _ Hq)|..].
Qed.

(** The flight has no gap after sending, if it had none before. *)
Lemma flew_contiguous base a cs a' :
  contiguous base (my_next_tsn a) (flight a) → 0 < dist32 base (my_next_tsn a) →
  dist32 base (my_next_tsn a) + len cs <= 2 ^ 31 → uN 32 (my_next_tsn a) →
  oq_inv base (my_next_tsn a') (outbound_queue a') → flew a cs a' →
  dist32 base (my_next_tsn a') = dist32 base (my_next_tsn a) + len cs ∧ contiguous base (my_next_tsn a') (flight a').
Proof.
  intros Hc H0 Hw Hu Hq [H1 H2 H3 H4 H5 _ _]. pose proof (inv_base _ _ (oi_inflight _ _ _ Hq)) as Hb. pose proof (len_nonneg cs) as Hlen.
  assert (∀ i, 0 <= i <= len cs → dist32 base (wrapping_add 32 (my_next_tsn a) i) = dist32 base (my_next_tsn a) + i) as Hadd.
  { intros i Hi. clear -Hi Hw Hb Hu. sna. }
  assert (dist32 base (my_next_tsn a') = dist32 base (my_next_tsn a) + len cs) as En by (rewrite H2; apply Hadd; lia).
  split; [done|]. intros t Ht. rewrite En. split.
  - intros [c Hct]. assert (t ∈ sorted (flight a')) as Hin by (apply (inv_dom _ _ (oi_inflight _ _ _ Hq)); eauto).
    pose proof (oi_sent _ _ _ Hq t Hin) as Hlt. split; [|lia]. destruct (H5 t c Hct) as [Hcs|Hold].
    + apply list_elem_of_lookup in Hcs as [i Hi]. rewrite <- (inv_key _ _ (oi_inflight _ _ _ Hq) t c Hct), (H1 _ _ Hi).
      apply lookup_lt_Some in Hi. rewrite Hadd by (unfold len; lia). lia.
    + apply (Hc t Ht). eauto.
  - intros Hr. destruct (Z.lt_ge_cases (dist32 base t) (dist32 base (my_next_tsn a))) as [Hlt|Hge].
    + destruct (proj2 (Hc t Ht)) as [c Hct]; [lia|]. eauto.
    + destruct (lookup_lt_is_Some_2 cs (Z.to_nat (dist32 base t - dist32 base (my_next_tsn a)))) as [c Hi]; [unfold len in Hr; lia|].
      assert (tsn c = t) as <-; [|exists c; apply H3, list_elem_of_lookup; eauto].
      rewrite (H1 _ _ Hi), Z2Nat.id by lia. apply (dist32_inj base); [by apply wrap_uN|done|]. rewrite Hadd by lia. lia.
Qed.
End Send.
