(* ===== verification/AssocRetransmit.v ===== *)
(** * Retransmission

    When the T3 timer expires every outstanding chunk is to be sent again; the
    next poll walks over the flight and sends as much as the windows allow.
    For an association with reliable messages the walk always ends, sends
    only what is in flight, changes nothing but the chunks' counters, and always
    sends the oldest outstanding chunk. *)

From stdpp Require Import base list gmap numbers sets.
From Stdlib Require Import ZArith Lia ZifyBool.
From S2P Require Import Prelude Bytes Util Params Chunks Packet PayloadQueue PayloadRun PendingQueue OutboundQueue.
From S2P Require Import ReassemblyQueue Shared Stream Monad Timer Config Association AssocReset AssocRecv AssocSend AssocControl.
From S2P Require Import AssocFrame AssocData AssocAck AssocSack AssocSackHandle AssocReliable.

(** ** The DATA chunks of packets *)

Definition packet_data (p : Packet) : list ChunkPayloadData :=
  omap (λ c, match c with CPayloadData d => Some d | _ => None end) (chunks p).

Definition packets_data (ps : list Packet) : list ChunkPayloadData := ps ≫= packet_data.

Lemma packet_data_created a cs : packet_data (create_packet a (CPayloadData <$> cs)) = cs.
Proof. unfold packet_data. cbn. induction cs; cbn; by f_equal. Qed.

Lemma bundle_loop_data a cs : ∀ to_send n, packets_data (bundle_loop a cs to_send n) = to_send ++ cs.
Proof.
  unfold packets_data. induction cs as [|c cs IH]; intros to_send n; cbn [bundle_loop].
  - case_bool_decide as E; [by rewrite E|]. rewrite bind_cons, packet_data_created. done.
  - destruct (_ >? _); [rewrite bind_cons, packet_data_created, IH; done|]. by rewrite IH, <- app_assoc.
Qed.

(** ** Walking over the flight *)

(** Nothing but the counters of the chunks' transmissions changes. *)
Definition resent_only (c c' : ChunkPayloadData) : Prop := ∃ n r, c' = c <| nsent := n |> <| retransmit := r |>.

#[export] Instance resent_only_refl : Reflexive resent_only.
Proof. intros c. exists (nsent c), (retransmit c). by destruct c. Qed.
#[export] Instance resent_only_trans : Transitive resent_only.
Proof. intros c ? ? (n & r & ->) (n' & r' & ->). by exists n', r'. Qed.

Section Retransmit.
Context {I : MapIter} (p : Prop) (now : Instant).

(** The [i]-th TSN past the acknowledgement point. *)
Definition nth_tsn (a : Association) (i : Z) : u32 := wrapping_add 32 (wrapping_add 32 (cumulative_tsn_ack_point a) i) 1.

Lemma nth_tsn_next a i : next_tsn (nth_tsn a i) = nth_tsn a (i + 1).
Proof.
  unfold next_tsn, nth_tsn, wrapping_add, wrap. rewrite !Zplus_mod_idemp_l, <- !Z.add_assoc, !Zplus_mod_idemp_l. f_equal. lia.
Qed.

Lemma retransmit_loop_Ok a : sending a → steadfast a → ∀ fuel i cs bytes,
  (left_from (cumulative_tsn_ack_point a) (nth_tsn a i) (flight a) < fuel)%nat →
  holds False (retransmit_loop fuel i now cs bytes)
    (λ cs' a', a' = a ∧ (∀ c, c ∈ cs' → c ∈ cs ∨ oq_get (outbound_queue a) (tsn c) = Some c) ∧
       (∀ c, c ∈ cs → c ∈ cs') ∧
       (length cs' <= length cs + left_from (cumulative_tsn_ack_point a) (nth_tsn a i) (flight a))%nat) (λ _ _, False) a.
Proof.
  intros Hs Hf. induction fuel as [|fuel IH]; intros i cs bytes Hl; [lia|]. cbn [retransmit_loop]. apply holds_bind, holds_self.
  fold (nth_tsn a i). unfold oq_get at 1, pq_get at 1. fold (flight a). destruct (chunk_map (flight a) !! nth_tsn a i) as [c|] eqn:Ec.
  2:{ apply holds_ret. split_and!; auto with lia. }
  pose proof (left_from_next _ (nth_tsn a i) _ (sd_queue _ Hs) (mk_is_Some _ _ Ec)) as Hn. rewrite nth_tsn_next in Hn.
  assert (oq_get (outbound_queue a) (tsn c) = Some c) as Hc by (by rewrite (inv_key _ _ (sd_queue _ Hs) _ _ Ec)).
  destruct (negb _).
  { eapply holds_mono; [apply IH; lia| |done]. intros cs' a' (-> & Hin & Hkeep & Hlen). split_and!; auto with lia. }
  apply holds_bind. unfold holds at 1. rewrite abandon_steadfast by done. apply holds_bind, holds_self.
  unfold oq_get at 1, pq_get at 1. fold (flight a). rewrite Ec.
  assert (∀ x, x ∈ cs ++ [c] → x ∈ cs ∨ oq_get (outbound_queue a) (tsn x) = Some x) as Hadd
    by (intros x [?| ->%list_elem_of_singleton]%elem_of_app; auto).
  assert (∀ x, x ∈ cs → x ∈ cs ++ [c]) as Hsub by (intros x Hx; apply elem_of_app; by left).
  assert (length (cs ++ [c]) = S (length cs)) as Hlen by (rewrite length_app; cbn; lia).
  destruct (_ && _); [apply holds_ret; split_and!; [done|done|done|lia]|].
  destruct (_ >? _); [apply holds_ret; split_and!; auto with lia|]. eapply holds_mono; [apply IH; lia| |done].
  intros cs' a' (-> & Hin & Hkeep & Hle). split_and!; [done| |auto|lia]. intros x Hx. destruct (Hin x Hx); auto.
Qed.

(** The first chunk of the flight, once it is to be sent again, is among those selected. *)
Lemma retransmit_loop_first a c fuel :
  sending a → steadfast a → chunk_map (flight a) !! nth_tsn a 0 = Some c →
  retransmit c = true → data_len c <= cwnd a → data_len c < 2 ^ 32 →
  (left_from (cumulative_tsn_ack_point a) (nth_tsn a 0) (flight a) < fuel)%nat →
  holds False (retransmit_loop fuel 0 now [] 0) (λ cs' a', c ∈ cs') (λ _ _, False) a.
Proof.
  intros Hs Hf Ec Hr Hw Hu Hl. destruct fuel as [|fuel]; [lia|]. cbn [retransmit_loop]. apply holds_bind, holds_self.
  fold (nth_tsn a 0). unfold oq_get at 1, pq_get at 1. fold (flight a). rewrite Ec, Hr. cbn [negb].
  apply holds_bind. unfold holds at 1. rewrite abandon_steadfast by done. apply holds_bind, holds_self.
  unfold oq_get at 1, pq_get at 1. fold (flight a). rewrite Ec. pose proof (data_len_nonneg c) as H0. rewrite (wrap_small 32 (data_len c)) by done.
  destruct (_ && _) eqn:Eb; [apply holds_ret; left|]. destruct (_ >? _) eqn:Ew; [exfalso; lia|].
  pose proof (left_from_next _ (nth_tsn a 0) _ (sd_queue _ Hs) (mk_is_Some _ _ Ec)) as Hn. rewrite nth_tsn_next in Hn.
  eapply holds_mono; [apply retransmit_loop_Ok; [done|done|lia]| |done]. intros cs' a' (_ & _ & Hkeep & _).
  apply Hkeep. left.
Qed.

(** ** Counting the transmissions *)

Record resent (a : Association) (a' : Association) : Prop := mk_resent {
  rs_only : a' = a <| outbound_queue := outbound_queue a' |>;
  rs_pending : pending (outbound_queue a') = pending (outbound_queue a);
  rs_inv base : pq_inv base (flight a) → pq_inv base (flight a');
  rs_chunks : chunkwise resent_only (flight a) (flight a');
}.

Lemma resent_looked a a' : looked a a' → resent a a'.
Proof.
  intros (q & -> & Ep & Ei). split; [reflexivity|done|..]; change (flight (a <| outbound_queue := q |>)) with (inflight q);
    rewrite Ei; [done|reflexivity].
Qed.

#[export] Instance resent_refl : Reflexive resent.
Proof. intros a. apply resent_looked. exists (outbound_queue a). split; [by destruct a|done]. Qed.

#[export] Instance resent_trans : Transitive resent.
Proof.
  intros a a1 a2 [E1 P1 I1 C1] [E2 P2 I2 C2]. split; [|congruence|auto|by etrans]. rewrite E2, E1 at 1. reflexivity.
Qed.

Lemma resent_one a t n :
  resent a (a <| outbound_queue ::= λ q, oq_get_mut q t (λ c, c <| retransmit := false |> <| nsent := n |>) |>).
Proof.
  split; [reflexivity|reflexivity|intros base Hq; by apply pq_get_mut_inv|]. apply (chunkwise_alter resent_only). intros c _. by exists n, false.
Qed.

Definition again (c c' : ChunkPayloadData) : Prop := ∃ n, c' = c <| nsent := n |>.

Lemma mark_retransmitted_Ok cs : ∀ a k,
  (∀ c, c ∈ cs → is_Some (chunk_map (flight a) !! tsn c)) →
  p ∨ (len cs <= k ∧ ∀ t c, chunk_map (flight a) !! t = Some c → nsent c + k < 2 ^ 32) →
  holds p (mark_retransmitted cs) (λ cs' a', Forall2 again cs cs' ∧ resent a a') (λ _ _, False) a.
Proof.
  induction cs as [|c cs IH]; intros a k Hin Hk; cbn [mark_retransmitted]; [apply holds_ret; by split|].
  apply holds_bind, holds_self. destruct (Hin c ltac:(left)) as [c0 Hc0]. unfold oq_get, pq_get. fold (flight a). rewrite Hc0.
  pose proof (len_nonneg cs) as Hlen. apply holds_checked; [destruct Hk as [?|[Hl Hb]]; [by left|right; specialize (Hb _ _ Hc0)]|].
  { unfold len in *. cbn in Hl. lia. }
  apply holds_bind, holds_modify. pose proof (resent_one a (tsn c) (nsent c0 + 1)) as H1.
  match type of H1 with resent _ ?s => set (a1 := s) in * end.
  assert (∀ t x, chunk_map (flight a1) !! t = Some x → ∃ y, chunk_map (flight a) !! t = Some y ∧ nsent x <= nsent y + 1) as Hn.
  { intros t x Hx. change (alter (λ c, c <| retransmit := false |> <| nsent := nsent c0 + 1 |>) (tsn c) (chunk_map (flight a)) !! t = Some x) in Hx.
    destruct (decide (t = tsn c)) as [->|Hne].
    - rewrite lookup_alter_eq, Hc0 in Hx. injection Hx as <-. exists c0. split; [done|]. cbn. lia.
    - rewrite lookup_alter_ne in Hx by done. exists x. split; [done|lia]. }
  clearbody a1. apply holds_bind. eapply holds_mono; [apply (IH a1 (k - 1))| |done].
  - intros x Hx. rewrite (chunkwise_Some _ _ _ _ (rs_chunks _ _ H1)). apply Hin. by right.
  - destruct Hk as [?|[Hl Hb]]; [by left|right]. split; [unfold len in *; cbn in Hl; lia|]. intros t x (y & Hy & ?)%Hn. specialize (Hb _ _ Hy). lia.
  - intros cs' a' [Hf Hr]. apply holds_ret. split; [|by etrans]. constructor; [by exists (nsent c0 + 1)|done].
Qed.

Lemma resent_steadfast a a' : resent a a' → steadfast a → steadfast a'.
Proof.
  intros [_ Hp _ Hc] [H1 H2]. constructor; [by rewrite Hp|]. intros t c' Hc'.
  destruct (chunkwise_lookup _ _ _ _ _ Hc Hc') as (c & Ec & n & r & ->). exact (H2 t c Ec).
Qed.

Lemma resent_sending a a' : resent a a' → sending a → sending a'.
Proof.
  intros [E _ Hi Hc] [H1 H2 H3 H4].
  assert (cumulative_tsn_ack_point a' = cumulative_tsn_ack_point a ∧ my_next_tsn a' = my_next_tsn a ∧
    use_forward_tsn a' = use_forward_tsn a ∧ advanced_peer_tsn_ack_point a' = advanced_peer_tsn_ack_point a)
    as (E1 & E2 & E3 & E4) by (rewrite E; done).
  constructor; rewrite ?E1, ?E2, ?E3, ?E4; [auto|done|by eapply chunkwise_contiguous, H3|done].
Qed.

(** ** The poll *)

(** The packets carry chunks of the flight, as they are there. *)
Definition carries (a : Association) (ps : list Packet) : Prop :=
  ∀ c, c ∈ packets_data ps → ∃ c0, chunk_map (flight a) !! tsn c = Some c0 ∧ resent_only c0 c.

Lemma inflight_fuel_enough a : (left_from (cumulative_tsn_ack_point a) (nth_tsn a 0) (flight a) < inflight_fuel a)%nat.
Proof.
  pose proof (left_from_len (cumulative_tsn_ack_point a) (nth_tsn a 0) (flight a)). unfold inflight_fuel, pending_fuel. fold (flight a). lia.
Qed.

Lemma get_data_packets_Ok a (K : list ChunkPayloadData → Prop) :
  sending a → steadfast a →
  p ∨ (∀ t c, chunk_map (flight a) !! t = Some c → nsent c + len (sorted (flight a)) < 2 ^ 32) →
  (∀ a1, looked a a1 → sending a1 → steadfast a1 →
    holds False (retransmit_loop (inflight_fuel a1) 0 now [] 0) (λ cs _, K cs) (λ _ _, False) a1) →
  holds p (get_data_packets_to_retransmit now)
    (λ ps a', resent a a' ∧ carries a ps ∧ ∃ cs, K cs ∧ Forall2 again cs (packets_data ps)) (λ _ _, False) a.
Proof.
  intros Hs Hf Hn HK. unfold get_data_packets_to_retransmit. pose proof (expire_inflight_steadfast now a Hf) as He. unfold holds in He.
  apply holds_bind. unfold holds at 1. destruct (expire_inflight_messages now a) as [[] a1| | |]; try done.
  pose proof (resent_looked _ _ He) as H1. pose proof (resent_sending _ _ H1 Hs) as Hs1. pose proof (resent_steadfast _ _ H1 Hf) as Hf1.
  assert (flight a1 = flight a) as Efl by (by destruct He as (q & -> & _ & Ei)).
  apply holds_bind, holds_gets, holds_bind.
  pose proof (holds_and _ _ _ _ _ _ _ (HK a1 He Hs1 Hf1)
    (retransmit_loop_Ok a1 Hs1 Hf1 (inflight_fuel a1) 0 [] 0 (inflight_fuel_enough a1))) as H.
  unfold holds in H. unfold holds at 1. destruct (retransmit_loop _ _ _ _ _ a1) as [cs a2|e a2| |]; [|by destruct H..].
  destruct H as (HKcs & -> & Hin & _ & Hlen). assert (∀ c, c ∈ cs → chunk_map (flight a) !! tsn c = Some c) as Hcs.
  { intros c Hc. rewrite <- Efl. destruct (Hin c Hc) as [Hnil|]; [by apply not_elem_of_nil in Hnil|done]. }
  apply holds_bind. eapply holds_mono; [apply (mark_retransmitted_Ok cs a1 (len (sorted (flight a1))))| |done].
  - intros c Hc%Hcs. rewrite Efl. exact (mk_is_Some _ _ Hc).
  - destruct Hn as [?|Hn]; [by left|right]. split; [|by rewrite Efl]. cbn in Hlen.
    pose proof (left_from_len (cumulative_tsn_ack_point a1) (nth_tsn a1 0) (flight a1)). unfold len. lia.
  - intros cs' a' [Hf2 Hr]. apply holds_bind, holds_self, holds_ret.
    assert (packets_data (bundle_data_chunks_into_packets a' cs') = cs') as E by (apply bundle_loop_data).
    split; [by etrans|]. unfold carries. rewrite E. split; [|eauto]. intros c' (i & Hi)%list_elem_of_lookup.
    destruct (Forall2_lookup_r _ _ _ _ _ Hf2 Hi) as (c & Hc & n & ->). exists c.
    split; [|exists n, (retransmit c); by destruct c]. apply (Hcs c), list_elem_of_lookup. eauto.
Qed.

(** ** The timeout *)

Definition to_resend (c : ChunkPayloadData) : ChunkPayloadData :=
  if negb (acked c) && negb (abandoned c) then c <| retransmit := true |> else c.

Record timed_out (a a' : Association) : Prop := mk_timed_out {
  to_point : cumulative_tsn_ack_point a' = cumulative_tsn_ack_point a;
  to_next : my_next_tsn a' = my_next_tsn a;
  to_pending : pending (outbound_queue a') = pending (outbound_queue a);
  to_flight : flight a' = pq_mark_all_to_retransmit (flight a);
  to_rwnd : rwnd a' = rwnd a;
  to_cwnd : cwnd a' = mtu a;
  to_forward : use_forward_tsn a' = use_forward_tsn a ∧
    (use_forward_tsn a = true → forward_ok (cumulative_tsn_ack_point a) (my_next_tsn a) a');
}.

Lemma sending_nonempty a : sending a → use_forward_tsn a = true → 0 < dist32 (cumulative_tsn_ack_point a) (my_next_tsn a).
Proof.
  intros Hs Hf. destruct (sd_forward _ Hs Hf) as [_ H].
  pose proof (dist32_bounds (cumulative_tsn_ack_point a) (advanced_peer_tsn_ack_point a)). lia.
Qed.

Lemma timeout_Ok a :
  sending a → p ∨ 4 * mtu a < 2 ^ 32 →
  holds p (on_retransmission_timeout T3RTX) (λ _ a', timed_out a a') (λ _ _, False) a.
Proof.
  intros Hs Hm. unfold on_retransmission_timeout. apply holds_bind, holds_self, holds_bind. unfold checked_mul.
  destruct (Z.ltb_spec (4 * mtu a) (2 ^ 32)); [|by destruct Hm; [|lia]].
  apply holds_ret, holds_bind, holds_modify. set (a1 := a <| stats ::= _ |> <| ssthresh := _ |> <| cwnd := _ |>). apply holds_bind.
  apply (holds_mono _ _ (λ _ a2, skipped a1 a2 ∧ (use_forward_tsn a = true → forward_ok (cumulative_tsn_ack_point a) (my_next_tsn a) a2)) _ (λ _ _, False)); [| |done].
  - apply holds_when; intros Hf; [|split; [done|congruence]]. apply holds_bind.
    eapply holds_mono; [apply (advance_peer_Ok p (cumulative_tsn_ack_point a) (my_next_tsn a) a1)| |done];
      [done|apply (sd_queue _ Hs)|apply (sd_run _ Hs)|by apply sending_nonempty|left; exact (sd_forward _ Hs Hf)|].
    intros [] a2 [H2 F2]. apply holds_modify. destruct (sna32gt _ _); [|done]. split; [|done]. etrans; [exact H2|done].
  - intros [] a2 [[C2 W2 _ R2 Q2] F2]. apply holds_modify.
    split; try done; [apply (cm_point _ _ C2)|apply (cm_next _ _ C2)|..].
    + change (pending (outbound_queue a2) = pending (outbound_queue a)). by rewrite Q2.
    + change (pq_mark_all_to_retransmit (inflight (outbound_queue a2)) = pq_mark_all_to_retransmit (flight a)). by rewrite Q2.
    + split; [apply (cm_forward _ _ C2)|done].
Qed.

Lemma timed_out_lookup a a' t : timed_out a a' → chunk_map (flight a') !! t = to_resend <$> chunk_map (flight a) !! t.
Proof.
  intros H. rewrite (to_flight _ _ H). change (chunk_map (pq_mark_all_to_retransmit (flight a))) with (to_resend <$> chunk_map (flight a)).
  apply lookup_fmap.
Qed.

Lemma to_resend_only c : resent_only c (to_resend c).
Proof. unfold to_resend. destruct (_ && _); [|reflexivity]. exists (nsent c), true. by destruct c. Qed.

Lemma timed_out_chunks a a' : timed_out a a' → chunkwise resent_only (flight a) (flight a').
Proof.
  intros H t. rewrite (timed_out_lookup _ _ _ H). destruct (chunk_map (flight a) !! t) as [c|]; cbn; [apply to_resend_only|done].
Qed.

Lemma timed_out_sending a a' : timed_out a a' → sending a → sending a'.
Proof.
  intros Ht [H1 H2 H3 H4]. pose proof (timed_out_chunks _ _ Ht) as Hc. destruct Ht as [E1 E2 _ E3 _ _ [E4 E5]].
  constructor; rewrite ?E1, ?E2, ?E4; [rewrite E3; by apply pq_mark_all_inv|done|by eapply chunkwise_contiguous, H3|done].
Qed.

Lemma timed_out_steadfast a a' : timed_out a a' → steadfast a → steadfast a'.
Proof.
  intros Ht [H1 H2]. constructor; [by rewrite (to_pending _ _ Ht)|]. intros t c'. rewrite (timed_out_lookup _ _ _ Ht).
  intros (c & Hc & ->)%fmap_Some. unfold to_resend. destruct (_ && _); exact (H2 t c Hc).
Qed.

(** The oldest chunk is selected by the poll that follows. *)
Lemma timed_out_selects a a1 c a2 :
  timed_out a a1 → sending a1 → steadfast a1 → looked a1 a2 →
  chunk_map (flight a) !! next_tsn (cumulative_tsn_ack_point a) = Some c → acked c = false → data_len c <= mtu a → data_len c < 2 ^ 32 →
  sending a2 → steadfast a2 →
  holds False (retransmit_loop (inflight_fuel a2) 0 now [] 0) (λ cs _, to_resend c ∈ cs) (λ _ _, False) a2.
Proof.
  intros Ht Hs1 Hf1 Hl Hc Ha Hw Hu Hs2 Hf2. assert (flight a2 = flight a1 ∧ cwnd a2 = cwnd a1 ∧
    cumulative_tsn_ack_point a2 = cumulative_tsn_ack_point a1) as (Efl & Ecw & Ept) by (by destruct Hl as (q & -> & _ & Ei)).
  assert (chunk_map (flight a1) !! next_tsn (cumulative_tsn_ack_point a) = Some (to_resend c)) as Hc1
    by (rewrite (timed_out_lookup _ _ _ Ht), Hc; done).
  assert (data_len (to_resend c) = data_len c) as El by (unfold to_resend; by destruct (_ && _)).
  apply retransmit_loop_first; [done|done| | |by rewrite El, Ecw, (to_cwnd _ _ Ht)|by rewrite El|apply inflight_fuel_enough].
  - assert (nth_tsn a2 0 = next_tsn (cumulative_tsn_ack_point a)) as ->; [|by rewrite Efl].
    unfold nth_tsn, next_tsn, wrapping_add, wrap. by rewrite Ept, (to_point _ _ Ht), Zplus_mod_idemp_l, Z.add_0_r.
  - assert (abandoned c = false) as Hab.
    { destruct (sf_flight _ Hf1 _ _ Hc1) as [Hab _]. unfold to_resend in Hab. by destruct (_ && _). }
    unfold to_resend. by rewrite Ha, Hab.
Qed.
End Retransmit.

Section Timeout.
Context {I : MapIter}.

(** Claim C9.  A timeout resends the oldest outstanding chunk: on an association whose messages are reliable,
    with counters and MTU away from their limits, the expiry of T3 and the poll for
    retransmissions after it always succeed; the packets carry only chunks that are in flight, as
    they are there, and among them the one after the acknowledgement point unless it was
    acknowledged already; nothing is acknowledged, forgotten or renumbered, and the congestion window
    is one MTU. *)
Theorem timeout_resends_oldest now a c :
  sending a → steadfast a → 4 * mtu a < 2 ^ 32 →
  (∀ t c, oq_get (outbound_queue a) t = Some c → nsent c + len (sorted (inflight (outbound_queue a))) < 2 ^ 32) →
  oq_get (outbound_queue a) (next_tsn (cumulative_tsn_ack_point a)) = Some c → acked c = false → data_len c <= mtu a →
  ∃ ps a', (on_retransmission_timeout T3RTX;; get_data_packets_to_retransmit now) a = ROk ps a' ∧
    carries a ps ∧ (∃ c', c' ∈ packets_data ps ∧ tsn c' = tsn c ∧ user_data c' = user_data c) ∧
    sending a' ∧ chunkwise resent_only (flight a) (flight a') ∧ cwnd a' = mtu a.
Proof.
  intros Hs Hf Hm Hn Hc Ha Hl. pose proof (timeout_Ok False a Hs (or_intror Hm)) as Hto. unfold holds in Hto.
  destruct (on_retransmission_timeout T3RTX a) as [[] a1| | |] eqn:Eto; try done.
  pose proof (timed_out_sending _ _ Hto Hs) as Hs1. pose proof (timed_out_steadfast _ _ Hto Hf) as Hf1. pose proof (timed_out_chunks _ _ Hto) as Hch.
  assert (holds False (get_data_packets_to_retransmit now)
    (λ ps a', resent a1 a' ∧ carries a1 ps ∧ ∃ cs, to_resend c ∈ cs ∧ Forall2 again cs (packets_data ps)) (λ _ _, False) a1) as Hget.
  { apply (get_data_packets_Ok False now a1 (λ cs, to_resend c ∈ cs)); [done|done| |].
    - right. intros t x Hx. rewrite (timed_out_lookup _ _ _ Hto) in Hx. apply fmap_Some in Hx as (y & Hy & ->). rewrite (to_flight _ _ Hto).
      assert (nsent (to_resend y) = nsent y) as -> by (unfold to_resend; by destruct (_ && _)). exact (Hn t y Hy).
    - intros a2 Hlk Hs2 Hf2. eapply (timed_out_selects now a a1 c a2); try done. lia. }
  unfold holds in Hget. destruct (get_data_packets_to_retransmit now a1) as [ps a'| | |] eqn:Eg; try done.
  destruct Hget as (Hr & Hcar & cs & Hin & Hf2). exists ps, a'. split_and!.
  - unfold mbind, M_bind. rewrite Eto. exact Eg.
  - intros x Hx. destruct (Hcar x Hx) as (y & Hy & Hxy). destruct (chunkwise_lookup _ _ _ _ _ Hch Hy) as (z & Hz & Hyz).
    exists z. split; [exact Hz|by etrans].
  - apply list_elem_of_lookup in Hin as [i Hi]. destruct (Forall2_lookup_l _ _ _ _ _ Hf2 Hi) as (c' & Hc' & n & ->).
    eexists. split; [apply list_elem_of_lookup; eauto|]. unfold to_resend. by destruct (_ && _).
  - by eapply resent_sending.
  - etrans; [exact Hch|apply Hr].
  - rewrite (rs_only _ _ Hr). apply (to_cwnd _ _ Hto).
Qed.
End Timeout.

Lemma demo_steadfast : steadfast demo_sender.
Proof. constructor; [by split; constructor|]. intros t c ->%demo_flight_chunk. split; [done|]. split; [done|]. by exists 0. Qed.

Lemma timeout_resends_oldest_witness :
  ∃ ps a', (on_retransmission_timeout T3RTX;; get_data_packets_to_retransmit 0) demo_sender = ROk ps a' ∧
    carries demo_sender ps ∧ (∃ c', c' ∈ packets_data ps ∧ tsn c' = 10 ∧ user_data c' = [10; 10]) ∧
    sending a' ∧ chunkwise resent_only (flight demo_sender) (flight a') ∧ cwnd a' = 1228.
Proof.
  apply (timeout_resends_oldest 0 demo_sender (demo_sent 10)).
  - exact demo_sending.
  - exact demo_steadfast.
  - by vm_compute.
  - intros t c Hc. change (chunk_map (flight demo_sender) !! t = Some c) in Hc. apply demo_flight_chunk in Hc as ->. by vm_compute.
  - reflexivity.
  - reflexivity.
  - by vm_compute.
Defined.
