(* ===== verification/AssocLink.v ===== *)
(** * Two associations and the network between them

    One association sends, the other receives; the network holds every DATA
    chunk ever sent and every SACK ever built, and may deliver any of them at
    any time, again or never.  However sending, delivery and acknowledgement
    interleave, the sender forgets only what the receiver has, and believes to
    be received only what was. *)

From stdpp Require Import base list gmap numbers sets relations.
From Stdlib Require Import ZArith Lia ZifyBool.
From S2P Require Import Prelude Bytes Util Params Chunks Packet PayloadQueue PayloadRun PendingQueue OutboundQueue.
From S2P Require Import ReassemblyQueue Shared Stream Monad Timer Config Association AssocReset AssocRecv AssocSend AssocControl.
From S2P Require Import AssocFrame AssocMachine AssocHandshake AssocData AssocAck AssocSack AssocSackHandle AssocReliable AssocPoll AssocRetransmit.

Record Link := mkLink {
  sender : Association;
  receiver : Association;
  data : list ChunkPayloadData;
  sacks : list ChunkSelectiveAck;
}.

Section Link.
Context {I : MapIter} {IL : MapIterLaws I} (base : u32).

(** The TSN space does not wrap during the run. *)
Definition in_space (a : Association) : Prop := dist32 base (my_next_tsn a) + pending_len (outbound_queue a) < 2 ^ 31.

Definition ends {A} (m : AM A) (a a' : Association) : Prop := (∃ r, m a = ROk r a') ∨ (∃ e, m a = RErr e a').

Inductive link_step : Link → Link → Prop :=
| link_write a b ds ss u message a' :
    fragmented u message → Forall waiting_chunk message → next_message_id (outbound_queue a) + 1 < 2 ^ 64 →
    ends (send_payload_data message) a a' → link_step (mkLink a b ds ss) (mkLink a' b ds ss)
| link_send a b ds ss now cs a' :
    in_space a → pop_pending_data_chunks_to_send now a = ROk cs a' →
    link_step (mkLink a b ds ss) (mkLink a' b (ds ++ cs) ss)
| link_timeout a b ds ss a' :
    ends (on_retransmission_timeout T3RTX) a a' → link_step (mkLink a b ds ss) (mkLink a' b ds ss)
| link_resend a b ds ss now ps a' :
    get_data_packets_to_retransmit now a = ROk ps a' →
    link_step (mkLink a b ds ss) (mkLink a' b (ds ++ packets_data ps) ss)
| link_data a b ds ss d b' :
    d ∈ ds → queued_bytes b + data_len d < 2 ^ 32 → ends (handle_data d) b b' →
    link_step (mkLink a b ds ss) (mkLink a b' ds ss)
| link_acknowledge a b ds ss s b' :
    create_selective_ack_chunk b = ROk s b' → link_step (mkLink a b ds ss) (mkLink a b' ds (ss ++ [s]))
| link_sack a b ds ss s now a' :
    s ∈ ss → ends (handle_sack s now) a a' → link_step (mkLink a b ds ss) (mkLink a' b ds ss).

(** ** The invariant *)

Definition ahead (x : u32) : Z := dist32 base x.

(** What the receiver has. *)
Definition has (b : Association) (t : u32) : Prop := would_ack base b t.

Record sack_true (b : Association) (next : u32) (s : ChunkSelectiveAck) : Prop := mk_sack_true {
  st_u32 : uN 32 (cumulative_tsn_ack s);
  st_cum : ahead (cumulative_tsn_ack s) <= ahead (peer_last_tsn b);
  st_gaps t : t ∈ gap_tsns s → has b t ∧ ahead (cumulative_tsn_ack s) < ahead t < ahead next;
}.

(** The sender still has the chunk, unless it is done with it. *)
Definition keeps (a : Association) (d : ChunkPayloadData) : Prop :=
  ahead (tsn d) <= ahead (cumulative_tsn_ack_point a) ∨
  ∃ c, chunk_map (flight a) !! tsn d = Some c ∧ (acked c = true ∨ user_data c = user_data d).

Record link_inv (l : Link) : Prop := mk_link_inv {
  li_base : uN 32 base;
  li_sending : sending (sender l);
  li_pending : ∃ st, pn_inv (pending (outbound_queue (sender l))) st;
  li_rwnd : 0 <= rwnd (sender l);
  li_steadfast : steadfast (sender l);
  li_receiving : receiving (receiver l);
  li_undisturbed : undisturbed (receiver l);
  li_order : ahead (cumulative_tsn_ack_point (sender l)) <= ahead (peer_last_tsn (receiver l))
             < ahead (my_next_tsn (sender l));
  li_space : ahead (my_next_tsn (sender l)) <= 2 ^ 31;
  li_data d : d ∈ data l → uN 32 (tsn d) ∧ 0 < ahead (tsn d) < ahead (my_next_tsn (sender l));
  li_queue t : is_Some (chunk_map (payload_queue (receiver l)) !! t) →
    uN 32 t ∧ 0 < ahead t < ahead (my_next_tsn (sender l));
  li_sacks s : s ∈ sacks l → sack_true (receiver l) (my_next_tsn (sender l)) s;
  li_acked t c : chunk_map (flight (sender l)) !! t = Some c → acked c = true → has (receiver l) t;
  li_keeps d : d ∈ data l → keeps (sender l) d;
}.

Lemma ahead_pos x : 0 <= ahead x.
Proof. apply dist32_bounds. Qed.

(** Distances add up as long as they stay below the half circle. *)
Lemma ahead_add x y : uN 32 base → uN 32 x → uN 32 y → ahead x < 2 ^ 31 → dist32 x y < 2 ^ 31 → ahead y = ahead x + dist32 x y.
Proof. unfold ahead. intros. sna. Qed.

Lemma ahead_sub x y : uN 32 base → uN 32 x → uN 32 y → ahead x <= ahead y → dist32 x y = ahead y - ahead x.
Proof. unfold ahead. intros. sna. Qed.

(** ** Every step keeps it *)

Lemma has_u32 l t : link_inv l → has (receiver l) t → uN 32 t → 0 < ahead t < ahead (my_next_tsn (sender l)).
Proof. intros Hl [H|H] Ht; [|by apply (li_queue _ Hl) in H as [_ ?]]. pose proof (li_order _ Hl). unfold ahead in *. lia. Qed.

Lemma sender_space l : link_inv l →
  uN 32 (cumulative_tsn_ack_point (sender l)) ∧ uN 32 (my_next_tsn (sender l)) ∧
  dist32 (cumulative_tsn_ack_point (sender l)) (my_next_tsn (sender l)) =
    ahead (my_next_tsn (sender l)) - ahead (cumulative_tsn_ack_point (sender l)).
Proof.
  intros Hl. pose proof (li_sending _ Hl) as Hs. pose proof (inv_base _ _ (sd_queue _ Hs)). pose proof (sd_next _ Hs).
  split_and!; [done..|]. apply ahead_sub; try done; [apply (li_base _ Hl)|]. pose proof (li_order _ Hl). lia.
Qed.

(** A step of the sender that leaves the receiver and the network alone. *)
Lemma sender_step a b ds ss a' :
  link_inv (mkLink a b ds ss) → sending a' → (∃ st, pn_inv (pending (outbound_queue a')) st) → 0 <= rwnd a' →
  steadfast a' → my_next_tsn a' = my_next_tsn a →
  ahead (cumulative_tsn_ack_point a') <= ahead (peer_last_tsn b) →
  (∀ t c, chunk_map (flight a') !! t = Some c → acked c = true → has b t) →
  (∀ d, d ∈ ds → keeps a d → keeps a' d) → link_inv (mkLink a' b ds ss).
Proof.
  intros [] ???? En Hp Ha Hk. constructor; cbn in *; rewrite ?En; try done; [lia|auto].
Qed.

(** The copies survive what keeps the data of the chunks. *)
Lemma keeps_chunkwise (R : ChunkPayloadData → ChunkPayloadData → Prop) a a' d :
  (∀ c c', R c c' → acked c' = acked c ∧ user_data c' = user_data c) → chunkwise R (flight a) (flight a') →
  cumulative_tsn_ack_point a' = cumulative_tsn_ack_point a → keeps a d → keeps a' d.
Proof.
  intros HR Hch Hp [H|(c & Hc & H)]; [left; by rewrite Hp|right]. specialize (Hch (tsn d)). rewrite Hc in Hch.
  destruct (chunk_map (flight a') !! tsn d) as [c'|]; [|done]. destruct (HR _ _ Hch) as [Ea Eu]. exists c'. by rewrite Ea, Eu.
Qed.

Lemma link_write_inv a b ds ss u message a' :
  fragmented u message → Forall waiting_chunk message → next_message_id (outbound_queue a) + 1 < 2 ^ 64 →
  ends (send_payload_data message) a a' → link_inv (mkLink a b ds ss) → link_inv (mkLink a' b ds ss).
Proof.
  intros Hf Hm Hid He Hl. pose proof (li_sending _ Hl) as Hs. cbn in Hs.
  destruct (oq_push_Ok _ _ _ u message (sending_queue a Hs (li_pending _ Hl)) Hf Hid) as (q' & Hq & Hinv & _ & _ & Hin).
  assert (a' = a ∨ a' = a <| outbound_queue := q' |>) as [->| ->]; [|done|].
  { unfold ends, send_payload_data in He. revert He. run. destruct (negb _); [intros [[? H]|[? H]]; by simplify_eq; auto|].
    rewrite Hq. intros [[? H]|[? H]]; [injection H as _ <-; auto|done]. }
  assert (flight (a <| outbound_queue := q' |>) = flight a) as Ef by exact Hin. destruct Hs as [S1 S2 S3 S4].
  apply (sender_step a); [done| |apply (oi_pending _ _ _ Hinv)|apply (li_rwnd _ Hl)| |done|apply (li_order _ Hl)|..].
  - constructor; rewrite ?Ef; done.
  - pose proof (li_steadfast _ Hl) as [F1 F2]. constructor; [by eapply oq_push_pristine|]. rewrite Ef. exact F2.
  - rewrite Ef. apply (li_acked _ Hl).
  - intros d _ Hk. unfold keeps in *. by rewrite Ef.
Qed.

Lemma link_send_inv a b ds ss now cs a' :
  in_space a → pop_pending_data_chunks_to_send now a = ROk cs a' → link_inv (mkLink a b ds ss) → link_inv (mkLink a' b (ds ++ cs) ss).
Proof.
  intros Hsp He Hl. pose proof (li_sending _ Hl) as Hs. pose proof (li_order _ Hl) as Ho. cbn in Hs, Ho.
  destruct (sender_space _ Hl) as (Hp & Hn & Hd). cbn in Hp, Hn, Hd. pose proof (dist32_bounds base (cumulative_tsn_ack_point a)) as Hb0.
  unfold in_space in Hsp. fold (ahead (my_next_tsn a)) (ahead (cumulative_tsn_ack_point a)) in Hsp, Hb0.
  pose proof (poll_data_flew _ now a (sending_queue a Hs (li_pending _ Hl)) ltac:(lia) (li_rwnd _ Hl) (li_steadfast _ Hl)) as H.
  unfold holds in H. rewrite He in H. destruct H as (Hfl & (Hpt & Hrel & Hadv) & Hr & Hq' & Hpr).
  pose proof (fw_count _ _ _ Hfl) as Hcount. pose proof (pending_count_len _ _ _ Hq') as Hlen'. pose proof (len_nonneg cs) as Hlen.
  destruct (flew_contiguous _ a cs a' (sd_run _ Hs) ltac:(lia) ltac:(lia) Hn Hq' Hfl) as [En Hc].
  assert (ahead (my_next_tsn a') = ahead (my_next_tsn a) + len cs) as En'.
  { rewrite (fw_next _ _ _ Hfl). unfold ahead in *. pose proof (li_base _ Hl) as Hb. clear -Hsp Hcount Hlen' Hlen Hb Hn. sna. }
  destruct Hl as [L1 L2 L3 L4 L5 L6 L7 L8 L9 L10 L11 L12 L13 L14]. cbn in *. constructor; cbn; try done.
  - constructor; rewrite ?Hpt; [apply (oi_inflight _ _ _ Hq')|apply (oi_next _ _ _ Hq')|done|].
    rewrite Hrel, Hadv. intros Hx. destruct (sd_forward _ Hs Hx) as [Hau Had]. split; [done|lia].
  - apply (oi_pending _ _ _ Hq').
  - constructor; [done|]. intros t c Hct. destruct (fw_only _ _ _ Hfl t c Hct) as [Hcs|Hold]; [apply (fw_new _ _ _ Hfl c Hcs)|by eapply (sf_flight _ L5)].
  - rewrite Hpt. lia.
  - lia.
  - intros d [Hdd|Hdc]%elem_of_app; [specialize (L10 d Hdd); split; [apply L10|lia]|].
    apply list_elem_of_lookup in Hdc as [i Hi]. pose proof (lookup_lt_Some _ _ _ Hi). rewrite (fw_tsns _ _ _ Hfl _ _ Hi).
    split; [by apply wrap_uN|]. assert (ahead (wrapping_add 32 (my_next_tsn a) (Z.of_nat i)) = ahead (my_next_tsn a) + Z.of_nat i) as ->.
    { unfold ahead in *. unfold len in *. clear -Hsp Hcount Hlen' Hlen L1 Hn H. sna. }
    unfold len in *. lia.
  - intros t Ht. specialize (L11 t Ht). split; [apply L11|lia].
  - intros s' Hs'. destruct (L12 s' Hs') as [T1 T2 T3]. constructor; [done|done|]. intros t Ht. specialize (T3 t Ht). split; [apply T3|lia].
  - intros t c Hct Hac. destruct (fw_only _ _ _ Hfl t c Hct) as [Hcs|Hold]; [|eauto]. destruct (fw_new _ _ _ Hfl c Hcs). congruence.
  - intros d [Hd'|Hd']%elem_of_app; [|right; exists d; split; [by apply (fw_held _ _ _ Hfl)|by right]].
    destruct (L14 d Hd') as [H|(c & Hc' & H)]; [left; by rewrite Hpt|right]. exists c. split; [by apply (fw_kept _ _ _ Hfl)|done].
Qed.

(** Retransmission changes only what [resent_only] allows. *)
Lemma resent_acked q q' b :
  chunkwise resent_only q q' → (∀ t c, chunk_map q !! t = Some c → acked c = true → has b t) →
  ∀ t c, chunk_map q' !! t = Some c → acked c = true → has b t.
Proof.
  intros Hch Hq t c Hc Ha. destruct (chunkwise_lookup _ _ _ _ _ Hch Hc) as (c0 & Hc0 & n & r & ->). by eapply Hq.
Qed.

Lemma link_timeout_inv a b ds ss a' :
  ends (on_retransmission_timeout T3RTX) a a' → link_inv (mkLink a b ds ss) → link_inv (mkLink a' b ds ss).
Proof.
  intros He Hl. pose proof (timeout_Ok True a (li_sending _ Hl) (or_introl Logic.I)) as H.
  assert (timed_out a a') as Ht by (unfold holds in H; destruct He as [[r E]|[e E]]; by rewrite E in H). clear He H.
  pose proof Hl as [L1 L2 L3 L4 L5 L6 L7 L8 L9 L10 L11 L12 L13 L14]. cbn in *. pose proof (timed_out_chunks _ _ Ht) as Hch.
  apply (sender_step a); [done|by eapply timed_out_sending|by rewrite (to_pending _ _ Ht)|by rewrite (to_rwnd _ _ Ht)
    |by eapply timed_out_steadfast|apply (to_next _ _ Ht)|rewrite (to_point _ _ Ht); apply L8|by eapply resent_acked, L13|].
  intros d _. eapply keeps_chunkwise, (to_point _ _ Ht); [|done]. by intros c c' (n & r & ->).
Qed.

Lemma link_resend_inv a b ds ss now ps a' :
  get_data_packets_to_retransmit now a = ROk ps a' → link_inv (mkLink a b ds ss) →
  link_inv (mkLink a' b (ds ++ packets_data ps) ss).
Proof.
  intros He Hl. pose proof (li_sending _ Hl) as Hs. cbn in Hs.
  pose proof (get_data_packets_Ok True now a (λ _, True) Hs (li_steadfast _ Hl) (or_introl Logic.I)) as H.
  unfold holds in H at 2. rewrite He in H. destruct H as (Hr & Hcar & _).
  { intros a1 _ Hs1 Hf1. eapply holds_mono; [apply retransmit_loop_Ok; [done|done|apply inflight_fuel_enough]|done|done]. }
  clear He.
  assert (link_inv (mkLink a' b ds ss)) as Hl'.
  { pose proof Hl as [L1 L2 L3 L4 L5 L6 L7 L8 L9 L10 L11 L12 L13 L14]. cbn in *. pose proof (rs_only _ _ Hr) as E.
    assert (rwnd a' = rwnd a ∧ my_next_tsn a' = my_next_tsn a ∧ cumulative_tsn_ack_point a' = cumulative_tsn_ack_point a)
      as (E2 & E4 & E5) by (rewrite E; done). clear E.
    apply (sender_step a); [done|by eapply resent_sending|by rewrite (rs_pending _ _ Hr)|by rewrite E2|by eapply resent_steadfast|done
      |rewrite E5; apply L8|..].
    - eapply resent_acked, L13. apply (rs_chunks _ _ Hr).
    - intros d _. eapply keeps_chunkwise, E5; [|apply (rs_chunks _ _ Hr)]. by intros c c' (n & r & ->). }
  pose proof (li_data _ Hl') as Hold. cbn in Hold.
  assert (my_next_tsn a' = my_next_tsn a) as En by (rewrite (rs_only _ _ Hr); done).
  destruct Hl' as [L1 L2 L3 L4 L5 L6 L7 L8 L9 L10 L11 L12 L13 L14]. constructor; try done; cbn in *.
  2:{ intros d [Hd|Hd]%elem_of_app; [by apply L14|]. destruct (Hcar d Hd) as (c0 & Hc0 & n & r & Ed). right.
      pose proof (rs_chunks _ _ Hr (tsn d)) as Hch. rewrite Hc0 in Hch. destruct (chunk_map (flight a') !! tsn d) as [c'|]; [|done].
      destruct Hch as (n' & r' & ->). eexists. split; [done|]. right. by rewrite Ed. }
  intros d [Hd|Hd]%elem_of_app; [by apply L10|]. destruct (Hcar d Hd) as (c0 & Hc0 & _). rewrite En.
  pose proof (inv_base _ _ (sd_queue _ Hs)) as Hp. assert (tsn d ∈ sorted (flight a)) as Hin by (apply (inv_dom _ _ (sd_queue _ Hs)); eauto).
  pose proof (inv_u32 _ _ (sd_queue _ Hs) _ Hin) as Hu. split; [done|].
  pose proof (proj1 (sd_run _ Hs _ Hu) (mk_is_Some _ _ Hc0)) as Hr'. destruct (sender_space _ Hl) as (_ & _ & Hsp). cbn in Hsp.
  pose proof (li_order _ Hl) as Ho. pose proof (li_space _ Hl) as Hsp'. cbn in Ho, Hsp'.
  pose proof (ahead_pos (cumulative_tsn_ack_point a)). pose proof (inv_window _ _ (sd_queue _ Hs) _ Hin).
  rewrite (ahead_add _ _ L1 Hp Hu) by lia. lia.
Qed.

(** What the receiver has, seen from [base] instead of its own cumulative TSN. *)
Lemma has_after a b ds ss d b' taken t :
  link_inv (mkLink a b ds ss) → after_data d b b' taken → uN 32 t →
  ahead (peer_last_tsn b') = ahead (peer_last_tsn b) + dist32 (peer_last_tsn b) (peer_last_tsn b') ∧
  (has b t → has b' t) ∧ (has b' t → has b t ∨ (taken = true ∧ t = tsn d)).
Proof.
  intros Hl Had Ht. pose proof (li_base _ Hl) as Hb. pose proof (li_order _ Hl) as Ho. pose proof (li_space _ Hl) as Hsp. cbn in Ho, Hsp.
  pose proof (inv_base _ _ (rv_queue _ (li_receiving _ Hl))) as Hp. pose proof (inv_base _ _ (rv_queue _ (ad_receiving _ _ _ _ Had))) as Hp'.
  cbn in Hp. pose proof (ahead_add _ _ Hb Hp Hp' ltac:(lia) (ad_ahead _ _ _ _ Had)) as E. split; [done|].
  pose proof (ad_ack _ _ _ _ Had t Ht) as Hack. rewrite would_ack_self in Hack. unfold has, would_ack in *.
  fold (ahead t) (ahead (peer_last_tsn b)) (ahead (peer_last_tsn b')). pose proof (dist32_bounds (peer_last_tsn b) (peer_last_tsn b')) as Hbd.
  pose proof (ad_ahead _ _ _ _ Had) as Hw. split.
  - intros [H|H]; [left; lia|]. destruct (proj2 Hack (or_introl H)) as [Hr|Hr]; [|by right]. left.
    rewrite (ahead_add (peer_last_tsn b) t) by (done || lia). pose proof (ahead_pos (peer_last_tsn b)). lia.
  - intros H. destruct (decide (0 < ahead t <= ahead (peer_last_tsn b))) as [|Hn]; [by left; left|].
    assert (0 < dist32 (peer_last_tsn b) t <= dist32 (peer_last_tsn b) (peer_last_tsn b') ∨ is_Some (chunk_map (payload_queue b') !! t)) as H'.
    { destruct H as [H|H]; [left|by right]. rewrite (ahead_sub (peer_last_tsn b) t) by (done || lia). lia. }
    apply Hack in H' as [H'|H']; [by left; right|by right].
Qed.

Lemma link_data_inv a b ds ss d b' :
  d ∈ ds → queued_bytes b + data_len d < 2 ^ 32 → ends (handle_data d) b b' →
  link_inv (mkLink a b ds ss) → link_inv (mkLink a b' ds ss).
Proof.
  intros Hd Hfit He Hl. destruct (li_data _ Hl d Hd) as [Hu Hr]. cbn in Hr.
  pose proof (li_order _ Hl) as Ho. pose proof (li_space _ Hl) as Hsp. pose proof (li_base _ Hl) as Hb. cbn in Ho, Hsp.
  pose proof (inv_base _ _ (rv_queue _ (li_receiving _ Hl))) as Hp. cbn in Hp.
  assert (tsn d ≠ wrapping_add 32 (peer_last_tsn b) (2 ^ 31)) as Hfar.
  { pose proof (dist32_bounds base (peer_last_tsn b)). unfold ahead in *. clear -Hr Ho Hsp Hb Hp Hu. sna. }
  pose proof (handle_data_after d b (li_receiving _ Hl) (li_undisturbed _ Hl) Hu Hfar Hfit) as H.
  assert (∃ taken, after_data d b b' taken) as [taken Had].
  { unfold holds in H. destruct He as [[r E]|[e E]]; by rewrite E in H. }
  clear H He. pose proof (has_after _ _ _ _ _ _ _ (peer_last_tsn b') Hl Had) as Hp'.
  pose proof (inv_base _ _ (rv_queue _ (ad_receiving _ _ _ _ Had))) as Hup. destruct (Hp' Hup) as (E & _ & Hown). clear Hp'.
  assert (∀ t, uN 32 t → has b' t → 0 < ahead t < ahead (my_next_tsn a)) as Hnew.
  { intros t Ht Hh. destruct (has_after _ _ _ _ _ _ _ t Hl Had Ht) as (_ & _ & [Hh'|[_ ->]]); [done| |done].
    exact (has_u32 _ t Hl Hh' Ht). }
  assert (ahead (peer_last_tsn b') < ahead (my_next_tsn a)) as Hlt.
  { destruct (decide (ahead (peer_last_tsn b') = 0)) as [->|Hne]; [pose proof (ahead_pos (peer_last_tsn b)); lia|].
    apply Hnew; [done|]. left. pose proof (ahead_pos (peer_last_tsn b')). unfold ahead in *. lia. }
  pose proof (dist32_bounds (peer_last_tsn b) (peer_last_tsn b')) as Hbd.
  destruct Hl as [L1 L2 L3 L4 L5 L6 L7 L8 L9 L10 L11 L12 L13 L14] eqn:El. clear El. cbn in *. constructor; cbn; try done.
  - apply (ad_receiving _ _ _ _ Had).
  - apply (ad_undisturbed _ _ _ _ Had).
  - lia.
  - intros t Ht. assert (uN 32 t) as Hut.
    { pose proof (rv_queue _ (ad_receiving _ _ _ _ Had)) as Hq. by apply (inv_u32 _ _ Hq), (inv_dom _ _ Hq). }
    split; [done|]. apply Hnew; [done|by right].
  - intros s' Hs'. destruct (L12 s' Hs') as [T1 T2 T3]. constructor; [done|lia|]. intros t Ht. destruct (T3 t Ht) as [Hh Hrg].
    split; [|done]. eapply (has_after a b); [|done|by eapply gap_tsns_u32|done]. by constructor.
  - intros t c Hct Hac. assert (uN 32 t) as Hut.
    { pose proof (sd_queue _ L2) as Hq. apply (inv_u32 _ _ Hq), (inv_dom _ _ Hq). eauto. }
    eapply (has_after a b); [|done|done|eauto]. by constructor.
Qed.

Lemma link_acknowledge_inv a b ds ss s b' :
  create_selective_ack_chunk b = ROk s b' → link_inv (mkLink a b ds ss) → link_inv (mkLink a b' ds (ss ++ [s])).
Proof.
  intros He Hl. unfold create_selective_ack_chunk in He. revert He. run. destruct (get_my_receiver_window_credit b); [|done..].
  cbn [pop_duplicates]. set (q := payload_queue b <| dup_tsn := [] |>). intros H. injection H as <- <-.
  match goal with |- link_inv (mkLink _ ?x _ _) => set (b' := x) end.
  assert (∀ t, chunk_map (payload_queue b') !! t = chunk_map (payload_queue b) !! t) as Em by done.
  assert (peer_last_tsn b' = peer_last_tsn b) as Ep by done.
  destruct (li_receiving _ Hl) as [R1 R2 R3]. cbn in R1, R2, R3. assert (receiving b') as Hrv by (constructor; [by destruct R1|done..]).
  assert (undisturbed b') as Hud by (by destruct (li_undisturbed _ Hl)).
  assert (∀ t, has b' t ↔ has b t) as Hhas by (intros t; unfold has, would_ack; by rewrite Em, Ep).
  pose proof Hl as [L1 L2 L3 L4 L5 L6 L7 L8 L9 L10 L11 L12 L13 L14]. cbn in L12, L13, L11, L8, L9. clearbody b'. constructor; cbn; try done.
  - by rewrite Ep.
  - intros t. rewrite Em. apply L11.
  - intros s' [Hs'|Hs']%elem_of_app.
    { destruct (L12 s' Hs') as [T1 T2 T3]. constructor; [done|by rewrite Ep|]. intros t. rewrite Hhas. apply T3. }
    apply list_elem_of_singleton in Hs' as ->. constructor; [apply R1|by rewrite Ep|]. intros t Ht. rewrite Hhas.
    apply gap_tsns_covers in Ht as (o & -> & Hc). cbn in Hc. apply (proj1 (gap_blocks_exact _ _ R1)) in Hc as [Ho [c Hc]].
    unfold pq_get in Hc. cbn [cumulative_tsn_ack]. split; [by right; eauto|]. destruct (L11 (wrapping_add 32 (peer_last_tsn b) o)) as [Hu Hr]; [eauto|].
    split; [|lia]. pose proof (inv_base _ _ R1) as Hp. rewrite (ahead_add (peer_last_tsn b) (wrapping_add 32 (peer_last_tsn b) o)); try done.
    + assert (dist32 (peer_last_tsn b) (wrapping_add 32 (peer_last_tsn b) o) = o) as ->; [clear -Hp Ho; sna|lia].
    + lia.
    + clear -Hp Ho. sna.
  - intros t c Hct Hac. rewrite Hhas. eauto.
Qed.

(** No measurement of a round trip is an error. *)
Lemma measurable_any now q : measurable True now (λ _, True) q.
Proof.
  intros m t c s _ _ _. pose proof (λ e, set_new_rtt_no_error m (rtt_millis now s) e) as H.
  destruct (set_new_rtt _ _) as [[]| | |]; try done. by eapply H.
Qed.

(** A SACK that was built is honest, unless it is outdated. *)
Lemma link_honest a b ds ss s :
  s ∈ ss → link_inv (mkLink a b ds ss) → ahead (cumulative_tsn_ack_point a) <= ahead (cumulative_tsn_ack s) → honest s a.
Proof.
  intros Hs Hl Hle. destruct (li_sacks _ Hl s Hs) as [T1 T2 T3]. cbn in T2, T3. destruct (sender_space _ Hl) as (Hp & Hn & Hd). cbn in Hp, Hn, Hd.
  pose proof (li_order _ Hl) as Ho. pose proof (li_space _ Hl) as Hsp. pose proof (li_base _ Hl) as Hb. cbn in Ho, Hsp.
  pose proof (ahead_sub _ _ Hb Hp T1 Hle) as E. pose proof (ahead_pos (cumulative_tsn_ack_point a)).
  constructor; rewrite ?E, ?Hd; [done|lia|lia|]. intros t Ht. destruct (T3 t Ht) as [_ Hr].
  rewrite (ahead_sub _ t Hb Hp (gap_tsns_u32 _ _ Ht)) by lia. lia.
Qed.

Lemma handled_link a b ds ss s a' :
  s ∈ ss → link_inv (mkLink a b ds ss) → ahead (cumulative_tsn_ack_point a) <= ahead (cumulative_tsn_ack s) →
  sack_handled s a a' → link_inv (mkLink a' b ds ss).
Proof.
  intros Hs Hl Hle [H1 H2 H3 Hf H4 H5 H6 H7 H8]. destruct (li_sacks _ Hl s Hs) as [T1 T2 T3]. cbn in T2, T3.
  apply (sender_step a); [done|done|rewrite H3; apply (li_pending _ Hl)|rewrite H7; unfold saturating_sub; lia| |done|by rewrite H1|..].
  - destruct (li_steadfast _ Hl) as [F1 F2]. constructor; [by rewrite H3|]. intros t c Hc. specialize (H5 t). rewrite Hc in H5.
    destruct (left_over s a t) as [c0|] eqn:El; [|done]. destruct H5 as [n ->]. unfold left_over in El. case_decide; [done|].
    case_decide; [|exact (F2 t c0 El)]. apply fmap_Some in El as (c1 & Hc1 & ->). unfold sacked. destruct (acked c1); exact (F2 t c1 Hc1).
  - intros t c Hc Ha. specialize (H5 t). rewrite Hc in H5. destruct (left_over s a t) as [c0|] eqn:El; [|done]. destruct H5 as [n ->].
    unfold left_over in El. case_decide as Hd; [done|]. case_decide as Hg; [by apply T3|]. by eapply (li_acked _ Hl).
  - intros d Hd Hk. unfold keeps in *. rewrite H1. destruct Hk as [Hk|(c & Hc & Hk)]; [left; lia|]. specialize (H5 (tsn d)).
    pose proof (sd_queue _ (li_sending _ Hl)) as Hq. cbn in Hq. pose proof (inv_base _ _ Hq) as Hp. pose proof (li_base _ Hl) as Hb.
    assert (tsn d ∈ sorted (flight a)) as Hin by (apply (inv_dom _ _ Hq); eauto). pose proof (li_order _ Hl) as Ho. pose proof (li_space _ Hl) as Hsp.
    cbn in Ho, Hsp. pose proof (ahead_sub _ _ Hb Hp T1 Hle) as E. unfold left_over in H5. case_decide as Hd'.
    + left. rewrite (ahead_add _ (tsn d) Hb Hp (inv_u32 _ _ Hq _ Hin) ltac:(lia) (inv_window _ _ Hq _ Hin)). lia.
    + right. rewrite Hc in H5. destruct (chunk_map (flight a') !! tsn d) as [c'|]; [|by case_decide]. exists c'. split; [done|].
      case_decide; destruct H5 as [n ->]; [left; apply acked_sacked|done].
Qed.

Lemma link_sack_ends a b ds ss s now :
  s ∈ ss → link_inv (mkLink a b ds ss) →
  holds True (handle_sack s now) (λ _ a', link_inv (mkLink a' b ds ss)) (λ _ _, False) a.
Proof.
  intros Hs Hl. pose proof (inv_base _ _ (sd_queue _ (li_sending _ Hl))) as Hp. pose proof (li_base _ Hl) as Hb. cbn in Hp.
  destruct (li_sacks _ Hl s Hs) as [T1 T2 _]. pose proof (li_order _ Hl) as Ho. pose proof (li_space _ Hl) as Hsp. cbn in T2, Ho, Hsp.
  destruct (negb (bool_decide (state a = Established)) && negb (bool_decide (state a = ShutdownPending))
     && negb (bool_decide (state a = ShutdownReceived))) eqn:Est.
  { unfold handle_sack. apply holds_bind, holds_self. rewrite Est. by apply holds_ret. }
  destruct (Z.le_gt_cases (ahead (cumulative_tsn_ack_point a)) (ahead (cumulative_tsn_ack s))) as [Hle|Hgt].
  - eapply holds_mono; [apply (handle_sack_Ok True now (λ _, True) s a)| |done];
      [apply (li_sending _ Hl)|by eapply link_honest| |apply measurable_any|done|by left|].
    + unfold takes_sacks. by destruct (state a); auto.
    + intros r a' [_ Hh]. by eapply handled_link.
  - unfold handle_sack. apply holds_bind, holds_self. rewrite Est. apply holds_bind, holds_modify.
    assert (sna32gt (cumulative_tsn_ack_point a) (cumulative_tsn_ack s) = true) as -> by (unfold ahead in *; clear -Hp Hb T1 T2 Ho Hsp Hgt; sna).
    apply holds_ret. pose proof Hl as [L1 L2 L3 L4 L5 L6 L7 L8 L9 L10 L11 L12 L13 L14]. cbn in *.
    apply (sender_step a); try done; [by destruct L2|by destruct L5|apply Ho].
Qed.

Lemma link_step_inv l l' : link_step l l' → link_inv l → link_inv l'.
Proof.
  destruct 1 as [| | | | | |a b ds ss s now a' Hs He]; intros Hl.
  - by eapply link_write_inv.
  - by eapply link_send_inv.
  - by eapply link_timeout_inv.
  - by eapply link_resend_inv.
  - by eapply link_data_inv.
  - by eapply link_acknowledge_inv.
  - pose proof (link_sack_ends a b ds ss s now Hs Hl) as H. unfold holds in H. destruct He as [[r E]|[e E]]; by rewrite E in H.
Qed.

(** Right after the handshake: nothing sent, nothing received, the receiver expects the sender's next TSN. *)
Record fresh_link (a b : Association) : Prop := mk_fresh_link {
  fl_base : uN 32 base;
  fl_point : cumulative_tsn_ack_point a = base ∧ advanced_peer_tsn_ack_point a = base ∧ my_next_tsn a = next_tsn base ∧
    peer_last_tsn b = base;
  fl_outbound : outbound_queue a = OutboundQueue_default;
  fl_queue : payload_queue b = PayloadQueue_new;
  fl_window : 0 <= rwnd a;
  fl_undisturbed : undisturbed b;
}.

Lemma fresh_link_inv a b : fresh_link a b → link_inv (mkLink a b [] []).
Proof.
  intros [Hb (Hp & Hadv & Hn & Hq) Ho Hpq Hw Hu]. assert (flight a = PayloadQueue_new) as Hf by (unfold flight; by rewrite Ho). assert (ahead base = 0) as E0 by apply dist32_self.
  assert (ahead (next_tsn base) = 1) as E1 by (unfold ahead, next_tsn; clear -Hb; sna).
  constructor; cbn; rewrite ?Hp, ?Hn, ?Hq, ?E0, ?E1; try done; try lia.
  - constructor; rewrite ?Hp, ?Hn, ?Hf, ?Hadv; [by apply pq_inv_new|apply next_tsn_u32| |].
    + intros t Ht. cbn. rewrite lookup_empty. fold (ahead t) (ahead (next_tsn base)). rewrite E1. split; [by intros []|lia].
    + intros _. fold (ahead base) (ahead (next_tsn base)). rewrite E0, E1. done.
  - rewrite Ho. exists None. apply pn_inv_new.
  - constructor; [rewrite Ho; by split; constructor|]. intros t c. rewrite Hf. cbn. by rewrite lookup_empty.
  - constructor; rewrite ?Hq, ?Hpq; [by apply pq_inv_new|done..].
  - by intros d ?%elem_of_nil.
  - intros t. rewrite Hpq. cbn. rewrite lookup_empty. by intros [].
  - by intros d ?%elem_of_nil.
  - intros t c. rewrite Hf. cbn. by rewrite lookup_empty.
  - by intros d ?%elem_of_nil.
Qed.

Lemma link_reachable_inv a b l : fresh_link a b → rtc link_step (mkLink a b [] []) l → link_inv l.
Proof.
  intros Hf Hr. apply fresh_link_inv in Hf. revert Hf. remember (mkLink a b [] []) as l0 eqn:E. clear E.
  induction Hr as [|l0 l1 l2 Hs _ IH]; [done|]. intros Hf. apply IH. by eapply link_step_inv.
Qed.

(** What holds of the two ends all along. *)
Record lossless (l : Link) : Prop := mk_lossless {
  (** Every TSN that was assigned is in flight or was received. *)
  ll_tsns t : uN 32 t → 0 < dist32 base t < dist32 base (my_next_tsn (sender l)) →
    is_Some (oq_get (outbound_queue (sender l)) t) ∨ would_ack base (receiver l) t;
  (** What was sent and not received is still there to be sent again. *)
  ll_data d : d ∈ data l → would_ack base (receiver l) (tsn d) ∨
    ∃ c, oq_get (outbound_queue (sender l)) (tsn d) = Some c ∧ acked c = false ∧ user_data c = user_data d;
  (** What is marked as acknowledged was received. *)
  ll_acked t c : oq_get (outbound_queue (sender l)) t = Some c → acked c = true → would_ack base (receiver l) t;
  (** The cumulative points are in order. *)
  ll_order : dist32 base (cumulative_tsn_ack_point (sender l)) <= dist32 base (peer_last_tsn (receiver l))
             < dist32 base (my_next_tsn (sender l));
  (** No SACK the receiver built is an error to the sender. *)
  ll_sacks s now e a' : s ∈ sacks l → handle_sack s now (sender l) ≠ RErr e a';
}.

Lemma link_inv_lossless l : link_inv l → lossless l.
Proof.
  intros Hl. destruct l as [a1 b1 ds ss].
  destruct (sender_space _ Hl) as (Hp & Hn & Hd). pose proof (li_order _ Hl) as Ho. cbn in Hp, Hn, Hd, Ho.
  pose proof (li_base _ Hl) as Hb. constructor; cbn [sender receiver data sacks].
  - intros t Ht Hr'. fold (ahead t) in Hr'. destruct (Z.le_gt_cases (ahead t) (ahead (cumulative_tsn_ack_point a1))) as [Hle|Hgt].
    + right. left. unfold ahead in *. lia.
    + left. apply (sd_run _ (li_sending _ Hl)); [done|]. cbn. rewrite (ahead_sub _ t Hb Hp Ht), Hd by lia. unfold ahead in *. lia.
  - intros d Hdd. destruct (li_data _ Hl d Hdd) as [Hu Hr']. cbn in Hr'. destruct (li_keeps _ Hl d Hdd) as [Hk|(c & Hc & Hk)].
    + left. left. cbn in Hk. unfold ahead in *. lia.
    + destruct (acked c) eqn:Ea; [left; by eapply (li_acked _ Hl)|right]. exists c. destruct Hk; [congruence|done].
  - apply (li_acked _ Hl).
  - apply Ho.
  - intros s now e a' Hs E. pose proof (link_sack_ends a1 b1 ds ss s now Hs Hl) as H. unfold holds in H. by rewrite E in H.
Qed.
End Link.

(** ** From the handshake on *)

Lemma connected_fresh c s c0 s0 cfg_c cfg_s tag_c tag_s tsn_c tsn_s :
  connected c s → connected s c → same_end c0 c → same_end s0 s → new_end cfg_c tag_c tsn_c c0 → new_end cfg_s tag_s tsn_s s0 →
  uN 32 tsn_c → 0 <= tc_max_receive_buffer_size cfg_s → fresh_link (wrapping_sub 32 tsn_c 1) c s.
Proof.
  intros Cc Cs Ec Es Nc Ns Hu Hb. pose proof (cn_knows _ _ Cc) as Kc. pose proof (cn_knows _ _ Cs) as Ks.
  destruct (n_data _ _ _ _ Nc) as (D1 & _ & D3 & D4). destruct (n_data _ _ _ _ Ns) as (_ & D2 & _).
  destruct (n_own _ _ _ _ Nc) as (_ & O1 & _). destruct (n_own _ _ _ _ Ns) as (_ & _ & O2). destruct (n_resets _ _ _ _ Ns) as (R1 & R2 & R3 & R4).
  assert (my_next_tsn c = tsn_c) as En by (by rewrite (e_tsn _ _ Ec)).
  constructor.
  - by apply wrap_uN.
  - rewrite (e_point _ _ Ec), (e_advanced _ _ Ec), (k_tsn _ _ Ks), En. split_and!; [done|done| |done].
    unfold next_tsn. clear -Hu. sna.
  - by rewrite (e_outbound _ _ Ec).
  - by rewrite (e_queue _ _ Es).
  - rewrite (k_rwnd _ _ Kc), (e_buf _ _ Es), O2. done.
  - constructor; [rewrite (e_requests _ _ Es)|rewrite (e_retiring _ _ Es)|rewrite (e_deferred _ _ Es)|rewrite (e_forward _ _ Es)]; done.
Qed.

Section Connected.
Context {I : MapIter} {IL : MapIterLaws I} (fresh_cookie : Bytes).

(** Claim C1.  Two connected ends lose nothing: after the handshake of a client and a server with usable
    configurations, in either direction, however writes of reliable messages, polls, timeouts,
    retransmissions, the delivery of DATA (in any order, repeated or never) and the building and
    delivery of SACKs (just as unreliable) interleave, as long as the TSNs of the run do not wrap:
    every TSN that was assigned is in flight at the sender or was received; whatever the peer
    lacks of what was sent the sender still has, unacknowledged and with its data; a chunk is
    marked as acknowledged only if the peer has it; the cumulative points never overtake each
    other; and no SACK the peer builds is an error to the sender. *)
Theorem connected_ends_lose_nothing cfg_c cfg_s mp_c mp_s tag_c tag_s addr_c addr_s ip_c ip_s tsn_c tsn_s t0 t1 t2 t3 t4 c0 s0 :
  Association_new false cfg_c mp_c tag_c addr_s ip_c tsn_c t0 = Ok c0 →
  Association_new true cfg_s mp_s tag_s addr_c ip_s tsn_s t0 = Ok s0 →
  config_ok cfg_c tag_c → config_ok cfg_s tag_s → uN 32 tsn_c → uN 32 tsn_s →
  returns (Instant_add t2 (calculate_next_timeout (tc_rto_initial_ms cfg_c) 0 (tc_rto_max_ms cfg_c))) →
  ∃ c s, handshake fresh_cookie t1 t2 t3 t4 c0 s0 = Some (c, s) ∧
    (∀ l, rtc (link_step (wrapping_sub 32 tsn_c 1)) (mkLink c s [] []) l → lossless (wrapping_sub 32 tsn_c 1) l) ∧
    (∀ l, rtc (link_step (wrapping_sub 32 tsn_s 1)) (mkLink s c [] []) l → lossless (wrapping_sub 32 tsn_s 1) l).
Proof.
  intros Hc Hs Kc Ks Hu Hu' Ht. pose proof Hc as (Nc & _)%new_client_end. pose proof Hs as (Ns & _)%new_server_end.
  pose proof (co_buffer _ _ Kc). pose proof (co_buffer _ _ Ks).
  destruct (handshake_connects fresh_cookie _ _ _ _ _ _ _ _ _ _ _ _ t0 t1 t2 t3 t4 c0 s0 Hc Hs Kc Ks Ht) as (c & s & E & C1 & C2 & E1 & E2).
  exists c, s. split; [done|]. split; intros l Hl; eapply link_inv_lossless, link_reachable_inv, Hl.
  - eapply (connected_fresh c s c0 s0); try done. lia.
  - eapply (connected_fresh s c s0 c0); try done. lia.
Qed.
End Connected.

(** ** One message across *)

Definition demo_message : list ChunkPayloadData :=
  [ChunkPayloadData_default <| beginning_fragment := true |> <| ending_fragment := true |> <| stream_identifier := 7 |>
     <| user_data := [1; 2; 3] |> <| reliability := Some (Reliable, 0) |>].

Section Demo.
Context {I : MapIter} (base : u32).

(** Write, send, receive, acknowledge. *)
Definition demo_round (c s : Association) : option Link :=
  match send_payload_data demo_message c with
  | ROk _ c1 =>
      match pop_pending_data_chunks_to_send 50 c1 with
      | ROk ds c2 =>
          match ds with
          | d :: _ =>
              match handle_data d s with
              | ROk _ s1 =>
                  match create_selective_ack_chunk s1 with
                  | ROk k s2 =>
                      match handle_sack k 60 c2 with
                      | ROk _ c3 =>
                          if (next_message_id (outbound_queue c) + 1 <? 2 ^ 64)
                             && (dist32 base (my_next_tsn c1) + pending_len (outbound_queue c1) <? 2 ^ 31)
                             && (queued_bytes s + data_len d <? 2 ^ 32)
                          then Some (mkLink c3 s2 ds [k]) else None
                      | _ => None
                      end
                  | _ => None
                  end
              | _ => None
              end
          | [] => None
          end
      | _ => None
      end
  | _ => None
  end.

Lemma demo_round_reaches c s l : demo_round c s = Some l → rtc (link_step base) (mkLink c s [] []) l.
Proof.
  unfold demo_round. destruct (send_payload_data demo_message c) as [r1 c1| | |] eqn:E1; try done.
  destruct (pop_pending_data_chunks_to_send 50 c1) as [ds c2| | |] eqn:E2; try done. destruct ds as [|d ds]; [done|].
  destruct (handle_data d s) as [r3 s1| | |] eqn:E3; try done.
  destruct (create_selective_ack_chunk s1) as [k s2| | |] eqn:E4; try done. destruct (handle_sack k 60 c2) as [r5 c3| | |] eqn:E5; try done.
  destruct (_ && _) eqn:Eg; [|done]. intros [= <-]. apply andb_true_iff in Eg as [[G1 G2]%andb_true_iff G3].
  eapply rtc_l; [apply (link_write _ c s [] [] false demo_message c1)|eapply rtc_l; [apply (link_send _ c1 s [] [] 50 (d :: ds) c2)|
    eapply rtc_l; [apply (link_data _ c2 s (d :: ds) [] d s1)|eapply rtc_l; [apply (link_acknowledge _ c2 s1 (d :: ds) [] k s2)|
    apply rtc_once, (link_sack _ c2 s2 (d :: ds) [k] k 60 c3)]]]]; unfold ends, in_space; eauto; try lia; try (by left).
  - split; [by repeat constructor|]. by intros [|[]] x [= <-].
  - repeat constructor. by exists 0.
Qed.
End Demo.

Lemma connected_ends_lose_nothing_witness :
  ∃ c s l, @handshake list_iter [1; 2; 3] 10 20 30 40 (demo_end false 77 5) (demo_end true 88 4294967295) = Some (c, s) ∧
    rtc (@link_step list_iter 4) (mkLink c s [] []) l ∧ @lossless list_iter 4 l.
Proof.
  destruct (@connected_ends_lose_nothing list_iter list_iter_laws [1; 2; 3] _ _ _ _ _ _ _ _ _ _ _ _ _ 10 20 30 40 _ _ demo_client demo_server)
    as (c & s & E & H & _).
  - by apply demo_config_ok.
  - by apply demo_config_ok.
  - by vm_compute.
  - by vm_compute.
  - vm_compute. exact Logic.I.
  - assert (match @handshake list_iter [1; 2; 3] 10 20 30 40 (demo_end false 77 5) (demo_end true 88 4294967295) with
            | Some (c, s) => bool_decide (is_Some (@demo_round list_iter 4 c s)) | None => false end = true) as Hrun by (vm_compute; reflexivity).
    rewrite E in Hrun. apply bool_decide_eq_true in Hrun as [l Hl]. apply demo_round_reaches in Hl. exists c, s, l.
    split; [exact E|]. split; [exact Hl|]. apply H. exact Hl.
Defined.
