(* ===== verification/AssocWire.v ===== *)
(** * Two associations on a wire

    One end is polled for datagrams ([poll_transmit]); every datagram is
    decoded by the endpoint's first step and handed to the other end
    ([handle_event]), which finishes the decoding and dispatches the chunks.
    This composes the send path, the codec and the receive path: what an end
    sends as a packet with one chunk is what the handler of that chunk gets. *)

From stdpp Require Import base list gmap numbers strings sets.
From Stdlib Require Import ZArith Lia ZifyBool.
From S2P Require Import Prelude Bytes Util Params Chunks ChunksRoundtrip Packet PayloadQueue PendingQueue OutboundQueue.
From S2P Require Import ReassemblyQueue Shared Stream Monad Timer Config Association AssocReset AssocRecv AssocSend AssocControl.
From S2P Require Import AssocFrame AssocMachine AssocHandshake AssocSack AssocReliable.

Section Wire.
Context {I : MapIter} {B : BufApi} (crc : Bytes → u32) (fresh_cookie : Bytes).

(** A datagram from [remote] reaches the association it is routed to. *)
Definition carry (remote : SocketAddr) (now : Instant) (raw : Bytes) : AM unit :=
  match PartialDecode_unmarshal crc raw with
  | Ok pd => handle_event fresh_cookie (mkAssociationEvent (Datagram (mkTransmit now remote None None (PayloadPartialDecode pd))))
  | Err _ => mret tt
  | Panic => lift Panic
  | Stuck => lift Stuck
  end.

Definition payload_datagrams (p : Payload) : list Bytes :=
  match p with PayloadRawEncode l => l | PayloadPartialDecode _ => [] end.

(** [a] is polled once and the network delivers to [b] what it sends. *)
Definition hand_over (now : Instant) (a b : Association) : option (Association * Association) :=
  match poll_transmit crc now a with
  | ROk None a' => Some (a', b)
  | ROk (Some t) a' =>
      match for_each (payload_datagrams (t_payload t)) (carry (remote_addr b) now) b with
      | ROk _ b' => Some (a', b')
      | _ => None
      end
  | _ => None
  end.

Context {BL : BufLaws B} (Hcrc : ∀ b, uN 32 (crc b)).

(** An end whose packets can be encoded and pass the receiver's checks. *)
Definition addressed (a : Association) : Prop :=
  0 < a_source_port a < 2 ^ 16 ∧ 0 < a_destination_port a < 2 ^ 16 ∧ uN 32 (peer_verification_tag a).

(** Chunks that travel alone and arrive as they are. *)
Definition travels (c : Chunk) : Prop :=
  Chunk_wf c ∧ Chunk_view c = c ∧ match c with CInit _ | CHeartbeatAck _ => False | _ => True end.

Lemma created_wf a c : addressed a → travels c → Packet_wf (create_packet a [c]).
Proof.
  intros (? & ? & ?) (Hwf & _ & Hk). unfold Packet_wf, create_packet, uN in *. cbn. split_and!; try lia.
  constructor; [|done]. split; [done|]. by destruct c.
Qed.

Lemma created_view a c : travels c → Packet_view (create_packet a [c]) = create_packet a [c].
Proof. intros (_ & Hv & _). unfold Packet_view, create_packet. cbn. by rewrite Hv. Qed.

Lemma created_checked a c : addressed a → travels c → check_packet (create_packet a [c]) = Ok tt.
Proof. intros (? & ? & _) (_ & _ & Hk). apply check_packet_single; cbn; [lia|lia|]. by destruct c. Qed.

(** The octets of a packet with one chunk. *)
Definition datagram (a : Association) (c : Chunk) : Bytes :=
  packet_bytes crc (common_header (create_packet a [c])) (flat_map padded_chunk [c]).

Lemma marshal_onto_single raws a c :
  addressed a → travels c → marshal_onto crc raws (create_packet a [c]) = Ok (true, raws ++ [datagram a c]).
Proof. intros Ha Hc. unfold marshal_onto. by rewrite Packet_marshal_bytes by by apply created_wf. Qed.

(** The other end handles the chunk. *)
Lemma carry_single a c remote now b (Q : Association → Prop) :
  addressed a → travels c →
  holds False (handle_chunk fresh_cookie (create_packet a [c]) c now)
    (λ _ b', immediate_ack_triggered b' = false ∧ delayed_ack_triggered b' = false ∧ Q b') (λ _ _, False) (ready b) →
  holds False (carry remote now (datagram a c)) (λ _, Q) (λ _ _, False) b.
Proof.
  intros Ha Hc Hh. unfold carry, datagram.
  change [c] with (chunks (create_packet a [c])).
  rewrite (PartialDecode_wire crc (create_packet a [c]) c []) by (done || by apply created_wf).
  unfold handle_event. cbn [ae_inner t_payload t_now].
  rewrite PartialDecode_finish_wire by by apply created_wf. rewrite created_view by done.
  apply holds_bind, holds_attempt, holds_ret, holds_bind, holds_attempt.
  eapply holds_mono; [eapply inbound_single; [by apply created_checked|done|exact Hh]|done|done].
Qed.

Lemma hand_over_single now a a' b c remote ecn ip (Q : Association → Prop) :
  addressed a → travels c →
  poll_transmit crc now a = ROk (Some (mkTransmit now remote ecn ip (PayloadRawEncode [datagram a c]))) a' →
  holds False (handle_chunk fresh_cookie (create_packet a [c]) c now)
    (λ _ b', immediate_ack_triggered b' = false ∧ delayed_ack_triggered b' = false ∧ Q b') (λ _ _, False) (ready b) →
  ∃ b', hand_over now a b = Some (a', b') ∧ Q b'.
Proof.
  intros Ha Hc Hp Hh. pose proof (carry_single a c (remote_addr b) now b Q Ha Hc Hh) as H. unfold hand_over. rewrite Hp.
  cbn [t_payload payload_datagrams for_each]. unfold holds in H. unfold mbind, M_bind.
  destruct (carry (remote_addr b) now (datagram a c) b) as [[] b'| | |]; [|done..]. by exists b'.
Qed.
End Wire.
