(* ===== verification/AssocForward.v ===== *)
(** * Giving up data on both ends

    A sender that gave up the oldest chunks in flight tells the receiver with a
    FORWARD TSN to stop waiting for them.  The first part is the receiver: what
    the chunk does to its cumulative TSN, its streams and its events.  The
    second part is the sender: how far its advanced point goes and which
    sequence numbers the chunk lists.  The third part runs the chunk from one
    end to the other and its acknowledgement back. *)

From stdpp Require Import base list gmap numbers strings sets sorting.
From Stdlib Require Import ZArith Lia ZifyBool.
From S2P Require Import Prelude Bytes Util Params Chunks Packet PayloadQueue PayloadRun PendingQueue OutboundQueue.
From S2P Require Import ReassemblyQueue Shared Stream Monad Timer Config Association AssocReset AssocRecv AssocSend.
From S2P Require Import AssocFrame AssocAck AssocSack AssocSackHandle AssocWire.

Section Receiver.
Context {I : MapIter} {IL : MapIterLaws I}.

(** ** One stream *)

(** The sequence number up to which a stream is told to stop waiting. *)
Definition target (fs : list ChunkForwardTsnStream) (id : u16) : option u16 :=
  fs_sequence <$> List.find (λ f, fs_identifier f =? id) fs.

Definition skip_ordered (o : option u16) (q : ReassemblyQueue) : ReassemblyQueue :=
  match o with Some n => forward_tsn_for_ordered q n | None => q end.

Definition with_queue (f : ReassemblyQueue → ReassemblyQueue) (s : StreamState) : StreamState :=
  s <| reassembly_queue ::= f |>.

(** The stream had nothing to read and has something once it stops waiting. *)
Definition wakes (m : gmap Z StreamState) (f : ChunkForwardTsnStream) : bool :=
  match m !! fs_identifier f with
  | Some s => negb (is_readable (reassembly_queue s)) && is_readable (forward_tsn_for_ordered (reassembly_queue s) (fs_sequence f))
  | None => false
  end.

Definition wake_event (f : ChunkForwardTsnStream) : Event.t := Event.Stream (StreamEvent.Readable (fs_identifier f)).

Lemma alter_found {A} (f : A → A) (i : Z) (m : gmap Z A) x : m !! i = Some x → alter f i m = <[i := f x]> m.
Proof.
  intros Hx. apply map_eq. intros j. destruct (decide (i = j)) as [<-|Hne].
  - by rewrite lookup_alter_eq, lookup_insert_eq, Hx.
  - by rewrite lookup_alter_ne, lookup_insert_ne.
Qed.

Lemma with_queue_id s : with_queue (λ q, q) s = s.
Proof. by destruct s. Qed.

Lemma applies_undisturbed a id : undisturbed a → forward_tsn_applies_to_current_generation a id = true.
Proof.
  intros Hu. unfold forward_tsn_applies_to_current_generation, current_reset_boundary. by rewrite (ud_retiring _ Hu), lookup_empty.
Qed.

(** ** The loops over the streams *)

(** Nothing but streams and events changes. *)
Definition restreamed (a a' : Association) (m : gmap Z StreamState) (ev : list Event.t) : Prop :=
  a' = a <| streams := m |> <| events ::= λ l, l ++ ev |>.

Lemma no_events a : a <| events ::= λ l, l ++ [] |> = a.
Proof. change (a <| events := events a ++ [] |> = a). rewrite app_nil_r. by destruct a. Qed.

Lemma restreamed_undisturbed a a' m ev : restreamed a a' m ev → undisturbed a → undisturbed a'.
Proof. intros -> []. by constructor. Qed.

Lemma skip_one f t a :
  undisturbed a →
  holds False (apply_or_defer_ordered_forward_tsn (fs_identifier f) (fs_sequence f) t)
    (λ _ a', restreamed a a' (alter (with_queue (λ q, forward_tsn_for_ordered q (fs_sequence f))) (fs_identifier f) (streams a))
       (if wakes (streams a) f then [wake_event f] else [])) (λ _ _, False) a.
Proof.
  intros Hu. unfold apply_or_defer_ordered_forward_tsn, restreamed, wakes. apply holds_bind, holds_self.
  rewrite applies_undisturbed by done. cbn [negb]. destruct (streams a !! fs_identifier f) as [s|] eqn:E.
  - rewrite (alter_found _ _ _ _ E). apply holds_bind, holds_modify. unfold push_event.
    destruct (_ && _); [apply holds_modify; reflexivity|]. apply holds_ret. by rewrite no_events.
  - rewrite alter_absent by done. apply holds_ret. rewrite no_events. by destruct a.
Qed.

Lemma restreamed_trans a a1 a2 m m' ev ev' :
  restreamed a a1 m ev → restreamed a1 a2 m' ev' → restreamed a a2 m' (ev ++ ev').
Proof.
  unfold restreamed. intros -> ->.
  change (a <| streams := m' |> <| events := (events a ++ ev) ++ ev' |> = a <| streams := m' |> <| events := events a ++ (ev ++ ev') |>).
  by rewrite app_assoc.
Qed.

(** Other streams wake as they would have. *)
Lemma wakes_alter m g i (fs : list ChunkForwardTsnStream) :
  i ∉ fs_identifier <$> fs → filter (λ f, wakes (alter g i m) f = true) fs = filter (λ f, wakes m f = true) fs.
Proof.
  induction fs as [|f fs IH]; [done|]. rewrite fmap_cons, not_elem_of_cons. intros [Hne Hi]. rewrite !filter_cons, IH by done.
  assert (wakes (alter g i m) f = wakes m f) as ->; [|done]. unfold wakes. by rewrite lookup_alter_ne.
Qed.

Lemma skip_all fs t : ∀ a,
  NoDup (fs_identifier <$> fs) → undisturbed a →
  holds False (for_each fs (λ f, apply_or_defer_ordered_forward_tsn (fs_identifier f) (fs_sequence f) t))
    (λ _ a', ∃ m, restreamed a a' m (wake_event <$> filter (λ f, wakes (streams a) f = true) fs) ∧
       ∀ id, m !! id = with_queue (skip_ordered (target fs id)) <$> streams a !! id) (λ _ _, False) a.
Proof.
  induction fs as [|f fs IH]; intros a Hnd Hu; cbn [for_each].
  { apply holds_ret. exists (streams a). split; [unfold restreamed; cbn; rewrite no_events; by destruct a|].
    intros id. destruct (streams a !! id); [by destruct s|done]. }
  cbn in Hnd. apply NoDup_cons in Hnd as [Hni Hnd]. apply holds_bind.
  eapply holds_mono; [by apply skip_one| |done]. intros [] a1 H1.
  eapply holds_mono; [apply IH; [done|by eapply restreamed_undisturbed]| |done].
  intros [] a2 (m & H2 & Hm). exists m.
  assert (streams a1 = alter (with_queue (λ q, forward_tsn_for_ordered q (fs_sequence f))) (fs_identifier f) (streams a)) as Es by (by rewrite H1).
  rewrite Es in H2, Hm. split.
  - rewrite filter_cons. rewrite wakes_alter in H2 by done.
    pose proof (restreamed_trans _ _ _ _ _ _ _ H1 H2) as H. by destruct (wakes (streams a) f).
  - intros id. rewrite Hm. unfold target. cbn [List.find]. destruct (Z.eqb_spec (fs_identifier f) id) as [<-|Hne].
    + rewrite lookup_alter_eq. destruct (List.find _ fs) as [f'|] eqn:Ef; [|by destruct (streams a !! _) as [[]|]].
      apply find_some in Ef as [Hin He]. exfalso. apply Hni. apply list_elem_of_fmap. exists f'. split; [lia|by apply list_elem_of_In].
    + by rewrite lookup_alter_ne.
Qed.

Lemma drop_all ids t : ∀ a,
  NoDup ids → undisturbed a →
  holds False (for_each ids (λ id, apply_or_defer_unordered_forward_tsn id t))
    (λ _ a', ∃ m, restreamed a a' m [] ∧
       ∀ id, m !! id = with_queue (λ q, if bool_decide (id ∈ ids) then forward_tsn_for_unordered q t else q) <$> streams a !! id)
    (λ _ _, False) a.
Proof.
  induction ids as [|i ids IH]; intros a Hnd Hu; cbn [for_each].
  { apply holds_ret. exists (streams a). split; [unfold restreamed; rewrite no_events; by destruct a|].
    intros id. rewrite bool_decide_false by apply not_elem_of_nil. by destruct (streams a !! id) as [[]|]. }
  apply NoDup_cons in Hnd as [Hni Hnd]. apply holds_bind. unfold apply_or_defer_unordered_forward_tsn at 1.
  apply holds_bind, holds_self. rewrite applies_undisturbed by done. cbn [negb]. apply holds_modify.
  match goal with |- holds _ _ _ _ ?x => set (a1 := x) end.
  assert (restreamed a a1 (alter (with_queue (λ q, forward_tsn_for_unordered q t)) i (streams a)) []) as H1.
  { unfold restreamed. by rewrite no_events. }
  eapply holds_mono; [apply IH; [done|by eapply restreamed_undisturbed]| |done].
  intros [] a2 (m & H2 & Hm). exists m. split; [exact (restreamed_trans _ _ _ _ _ _ _ H1 H2)|]. intros id. rewrite Hm.
  change (streams a1) with (alter (with_queue (λ q, forward_tsn_for_unordered q t)) i (streams a)).
  destruct (decide (i = id)) as [<-|Hne].
  - rewrite lookup_alter_eq, (bool_decide_false (i ∈ ids)), bool_decide_true by (done || by left). by destruct (streams a !! i) as [[]|].
  - rewrite lookup_alter_ne by done. rewrite (bool_decide_ext (id ∈ ids) (id ∈ i :: ids)); [done|]. rewrite elem_of_cons. naive_solver.
Qed.

(** ** Bytes to read *)

Lemma subtract_bytes q n : 0 <= n → 0 <= rq_n_bytes q → 0 <= rq_n_bytes (subtract_num_bytes q n) <= rq_n_bytes q.
Proof.
  intros. change (rq_n_bytes (subtract_num_bytes q n)) with (if rq_n_bytes q >=? n then rq_n_bytes q - n else 0).
  destruct (Z.geb_spec (rq_n_bytes q) n); lia.
Qed.

Lemma skip_ordered_bytes o q : 0 <= rq_n_bytes q → 0 <= rq_n_bytes (skip_ordered o q) <= rq_n_bytes q.
Proof.
  intros Hq. destruct o as [n|]; [|cbn; lia]. cbn [skip_ordered]. rewrite forward_ordered_eq. cbn -[subtract_num_bytes sum_with filter].
  apply subtract_bytes; [apply sum_sets_nonneg|done].
Qed.

Lemma forward_unordered_bytes q t : 0 <= rq_n_bytes q → 0 <= rq_n_bytes (forward_tsn_for_unordered q t) <= rq_n_bytes q.
Proof.
  intros Hq. unfold forward_tsn_for_unordered. set (l := take _ _). clearbody l.
  change (0 <= rq_n_bytes (fold_left (λ q c, subtract_num_bytes q (data_len c)) l q) <= rq_n_bytes q).
  revert q Hq. induction l as [|c l IH]; intros q Hq; cbn [fold_left]; [lia|].
  pose proof (subtract_bytes q (data_len c) (data_len_nonneg c) Hq) as H. pose proof (IH _ (proj1 H)). lia.
Qed.

(** What the streams of an association hold, counted without overflow. *)
Definition countable (a : Association) : Prop :=
  (∀ id s, streams a !! id = Some s → 0 <= get_num_bytes_in_reassembly_queue s) ∧
  map_sum get_num_bytes_in_reassembly_queue (streams a) < 2 ^ 32.

(** What they hold. *)
Definition held_bytes (a : Association) : Z := map_sum get_num_bytes_in_reassembly_queue (streams a).

(** The counts can only fall. *)
Lemma held_shrunk a m (f : u16 → ReassemblyQueue → ReassemblyQueue) :
  countable a → (∀ id q, 0 <= rq_n_bytes q → 0 <= rq_n_bytes (f id q) <= rq_n_bytes q) →
  (∀ id, m !! id = with_queue (f id) <$> streams a !! id) →
  map_sum (λ s, wrap 32 (get_num_bytes_in_reassembly_queue s)) m <= held_bytes a.
Proof.
  intros [Hn _] Hf Hm. unfold held_bytes. set (g := λ s, Z.max 0 (get_num_bytes_in_reassembly_queue s)).
  assert (map_sum g (streams a) = map_sum get_num_bytes_in_reassembly_queue (streams a)) as Hg.
  { apply map_sum_ext. intros id s Hs. specialize (Hn id s Hs). unfold g. lia. }
  assert (map_sum (λ s, wrap 32 (get_num_bytes_in_reassembly_queue s)) m <= map_sum g m) as H1.
  { rewrite <- (map_sum_ext (λ s, wrap 32 (g s)) _ m).
    - apply map_sum_le. intros s. apply wrap_le; [done|unfold g; lia].
    - intros id s Hs. rewrite Hm in Hs. apply fmap_Some in Hs as (s0 & Hs0 & ->). specialize (Hn id s0 Hs0).
      pose proof (Hf id (reassembly_queue s0) Hn) as H. unfold g. rewrite Z.max_r; [done|apply H]. }
  assert (map_sum g m <= map_sum g (streams a)); [|lia]. apply map_sum_sub; [unfold g; lia|].
  intros id s Hs. rewrite Hm in Hs. apply fmap_Some in Hs as (s0 & Hs0 & ->). exists s0. split; [done|].
  pose proof (Hf id (reassembly_queue s0) (Hn id s0 Hs0)) as H. unfold g.
  change (get_num_bytes_in_reassembly_queue (with_queue (f id) s0)) with (rq_n_bytes (f id (reassembly_queue s0))).
  change (get_num_bytes_in_reassembly_queue s0) with (rq_n_bytes (reassembly_queue s0)). lia.
Qed.

Lemma countable_shrunk a m (f : u16 → ReassemblyQueue → ReassemblyQueue) :
  countable a → (∀ id q, 0 <= rq_n_bytes q → 0 <= rq_n_bytes (f id q) <= rq_n_bytes q) →
  (∀ id, m !! id = with_queue (f id) <$> streams a !! id) → map_sum (λ s, wrap 32 (get_num_bytes_in_reassembly_queue s)) m < 2 ^ 32.
Proof. intros Ha Hf Hm. pose proof (held_shrunk a m f Ha Hf Hm) as H. destruct Ha as [_ Hlt]. unfold held_bytes in H. lia. Qed.

(** ** The acknowledgement state *)

Lemma pop_up_to_receives base q cum :
  pq_inv base q → chunk_map q !! base = None → uN 32 cum → 0 < dist32 base cum < 2 ^ 31 →
  pq_inv cum (pop_up_to q cum) ∧ chunk_map (pop_up_to q cum) !! cum = None ∧
  ∀ t, uN 32 t → is_Some (chunk_map (pop_up_to q cum) !! t) ↔ is_Some (chunk_map q !! t) ∧ dist32 base cum < dist32 base t.
Proof.
  intros Hq Hb Hu Hd. destruct (pop_up_to_sorted _ _ cum Hq) as [_ Hm]. split_and!.
  - apply (pop_up_to_advance base); (done || lia).
  - rewrite Hm. assert (sna32lte cum cum = true) as -> by (clear -Hu; sna). done.
  - intros t Ht. rewrite Hm. destruct (chunk_map q !! t) as [c|] eqn:E; [|by destruct (sna32lte t cum); (split; [intros []|intros [[] _]])].
    assert (t ∈ sorted q) as Hin by (apply (inv_dom _ _ Hq); eauto). pose proof (inv_window _ _ Hq t Hin) as Hw.
    pose proof (inv_base _ _ Hq) as Hbu. pose proof (sna32lte_window base t cum Hbu Ht Hu Hw ltac:(lia)) as Hiff.
    destruct (sna32lte t cum); split; [by intros []|intros [_ ?]; lia|intros _; split; [eauto|]|eauto].
    destruct (Z.lt_ge_cases (dist32 base cum) (dist32 base t)) as [|Hle]; [done|]. by apply Hiff in Hle.
Qed.

(** Seen from the point before the jump. *)
Lemma jump_drained base q cum p q' :
  pq_inv base q → chunk_map q !! base = None → uN 32 cum → 0 < dist32 base cum < 2 ^ 31 →
  drained cum (pop_up_to q cum) p q' →
  dist32 base cum <= dist32 base p < 2 ^ 31 ∧
  ∀ t, uN 32 t → 0 < dist32 base t <= dist32 base p ∨ is_Some (chunk_map q' !! t) ↔
    0 < dist32 base t <= dist32 base cum ∨ is_Some (chunk_map q !! t).
Proof.
  intros Hq Hb Hu Hd Hdr. destruct (pop_up_to_receives _ _ _ Hq Hb Hu Hd) as (_ & _ & Hpop).
  pose proof (inv_base _ _ Hq) as Hbu. pose proof (po_inv _ _ _ _ (dr_popped _ _ _ _ Hdr)) as Hq'. pose proof (inv_base _ _ Hq') as Hpu.
  assert (dist32 base p = dist32 base cum + dist32 cum p ∧ dist32 base p < 2 ^ 31) as [Ep Hp].
  { destruct (decide (dist32 cum p = 0)) as [E0|Hne].
    - assert (p = cum) as -> by (clear -Hu Hpu E0; sna). lia.
    - pose proof (dist32_bounds cum p). destruct (proj1 (Hpop p Hpu)) as [Hs Hlt].
      { apply (po_taken _ _ _ _ (dr_popped _ _ _ _ Hdr)); [done|lia]. }
      apply (inv_dom _ _ Hq), (inv_window _ _ Hq) in Hs. split; [|done]. clear -Hbu Hu Hpu Hlt Hs. sna. }
  pose proof (dist32_bounds cum p). split; [lia|]. intros t Ht. pose proof (drained_ack cum _ p q' t Hdr Ht) as Ha. rewrite (Hpop t Ht) in Ha.
  destruct (Z.le_gt_cases (dist32 base t) (dist32 base cum)) as [Hle|Hgt].
  - destruct (decide (dist32 base t = 0)) as [E0|Hne]; [|pose proof (dist32_bounds base t); split; intros _; left; lia].
    assert (t = base) as -> by (clear -Hbu Ht E0; sna). rewrite Hb. split; intros [?|Hs]; [lia| |lia|by destruct Hs].
    destruct (proj1 Ha (or_intror Hs)) as [Hs' _]. rewrite Hb in Hs'. by destruct Hs'.
  - assert (dist32 cum t = dist32 base t - dist32 base cum) as Et by (clear -Hbu Hu Ht Hgt; sna).
    assert (0 < dist32 base t <= dist32 base p ↔ 0 < dist32 cum t <= dist32 cum p) as -> by lia. rewrite Ha. intuition lia.
Qed.

(** ** The handler *)

(** What the chunk does to the queue of a stream. *)
Definition skips (c : ChunkForwardTsn) (id : u16) (q : ReassemblyQueue) : ReassemblyQueue :=
  forward_tsn_for_unordered (skip_ordered (target (ft_streams c) id) q) (new_cumulative_tsn c).

Record forwarded (c : ChunkForwardTsn) (a a' : Association) : Prop := mk_forwarded {
  fw_receiving : receiving a';
  fw_undisturbed : undisturbed a';
  fw_point : dist32 (peer_last_tsn a) (new_cumulative_tsn c) <= dist32 (peer_last_tsn a) (peer_last_tsn a') < 2 ^ 31;
  fw_ack t : uN 32 t → would_ack (peer_last_tsn a) a' t ↔
    0 < dist32 (peer_last_tsn a) t <= dist32 (peer_last_tsn a) (new_cumulative_tsn c) ∨ would_ack (peer_last_tsn a) a t;
  fw_streams id : streams a' !! id = with_queue (skips c id) <$> streams a !! id;
  fw_events : events a' = events a ++ (wake_event <$> filter (λ f, wakes (streams a) f = true) (ft_streams c));
}.

(** An association that takes FORWARD TSN chunks and can count what it holds. *)
Record forwardable (a : Association) : Prop := mk_forwardable {
  fa_receiving : receiving a;
  fa_undisturbed : undisturbed a;
  fa_use : use_forward_tsn a = true;
  fa_countable : countable a;
}.

Lemma keys_complete {A} (m : gmap Z A) id : id ∈ keys m ↔ is_Some (m !! id).
Proof.
  unfold keys. rewrite (entries_law A m), list_elem_of_fmap. split.
  - intros ([k x] & -> & H%elem_of_map_to_list). eauto.
  - intros [x Hx]. exists (id, x). split; [done|]. by apply elem_of_map_to_list.
Qed.

Lemma streams_forwarded c a :
  NoDup (fs_identifier <$> ft_streams c) → undisturbed a →
  holds False
    (for_each (ft_streams c) (λ f, apply_or_defer_ordered_forward_tsn (fs_identifier f) (fs_sequence f) (new_cumulative_tsn c));;
     apply_unordered_forward_tsn_to_current_streams (new_cumulative_tsn c))
    (λ _ a', ∃ m, restreamed a a' m (wake_event <$> filter (λ f, wakes (streams a) f = true) (ft_streams c)) ∧
       ∀ id, m !! id = with_queue (skips c id) <$> streams a !! id) (λ _ _, False) a.
Proof.
  intros Hnd Hu. apply holds_bind. eapply holds_mono; [by apply skip_all| |done]. intros [] a1 (m & H1 & Hm).
  unfold apply_unordered_forward_tsn_to_current_streams. apply holds_bind, holds_gets.
  assert (streams a1 = m) as Es by (by rewrite H1).
  eapply holds_mono; [apply drop_all; [apply entries_keys_NoDup|by eapply restreamed_undisturbed]| |done].
  intros [] a2 (m' & H2 & Hm'). exists m'. split; [pose proof (restreamed_trans _ _ _ _ _ _ _ H1 H2) as H; by rewrite app_nil_r in H|].
  intros id. rewrite Hm', Es, Hm. destruct (streams a !! id) as [s|] eqn:E; [|done]. cbn.
  rewrite bool_decide_true by (apply keys_complete; rewrite Hm, E; eauto). done.
Qed.

Lemma handle_forward_after c a :
  forwardable a → NoDup (fs_identifier <$> ft_streams c) → uN 32 (new_cumulative_tsn c) →
  0 < dist32 (peer_last_tsn a) (new_cumulative_tsn c) < 2 ^ 31 →
  holds False (handle_forward_tsn c) (λ _, forwarded c a)
    (λ e a', forwarded c a a' ∧ e = ErrReceiveBufferExhausted ∧ max_receive_buffer_size a <= held_bytes a) a.
Proof.
  intros [[Hq Hb _] Hu Huse Hcnt] Hnd Hcu Hd. pose proof (inv_base _ _ Hq) as Hbu. unfold handle_forward_tsn. apply holds_bind, holds_self.
  rewrite Huse. cbn [negb]. assert (sna32lte (new_cumulative_tsn c) (peer_last_tsn a) = false) as -> by (clear -Hbu Hcu Hd; sna).
  apply holds_bind, holds_modify. match goal with |- holds _ _ _ _ ?x => set (a1 := x) end.
  assert (undisturbed a1) as Hu1 by (by destruct Hu).
  pose proof (streams_forwarded c a1 Hnd Hu1) as Hst. unfold holds in Hst at 1 |- *. unfold mbind, M_bind in Hst |- *.
  destruct (for_each _ _ a1) as [[] a2| | |]; try done. destruct (apply_unordered_forward_tsn_to_current_streams _ a2) as [[] a3| | |]; try done.
  destruct Hst as (m & H3 & Hm). pose proof (restreamed_undisturbed _ _ _ _ H3 Hu1) as Hu3.
  unfold reevaluate_pending_reset_requests, mbind, M_bind, gets, values. rewrite (ud_requests _ Hu3), entries_empty. cbn [fmap list_fmap reevaluate_requests].
  unfold mret at 1, M_ret at 1.
  assert (peer_last_tsn a3 = new_cumulative_tsn c ∧ payload_queue a3 = pop_up_to (payload_queue a) (new_cumulative_tsn c) ∧ streams a3 = m ∧
    events a3 = events a ++ (wake_event <$> filter (λ f, wakes (streams a) f = true) (ft_streams c))) as (Ep & Eq & Es & Ee) by (by rewrite H3).
  destruct (pop_up_to_receives _ _ _ Hq Hb Hcu Hd) as (Hq1 & Hb1 & _).
  pose proof (acknowledge_receives a3 false) as Hack. rewrite Ep, Eq in Hack. specialize (Hack Hq1 Hb1 Hu3).
  assert (queued_bytes a3 <= held_bytes a) as Hheld.
  { unfold queued_bytes. rewrite Es. apply (held_shrunk a m (skips c)); [done| |done]. intros id q H0. unfold skips.
    pose proof (skip_ordered_bytes (target (ft_streams c) id) q H0) as H1. pose proof (forward_unordered_bytes _ (new_cumulative_tsn c) (proj1 H1)). lia. }
  assert (queued_bytes a3 < 2 ^ 32) as Hlt by (destruct Hcnt as [_ H]; unfold held_bytes in Hheld; lia).
  assert (max_receive_buffer_size a3 = max_receive_buffer_size a) as Em by (by rewrite H3).
  assert (∀ a', silently a3 a' → forwarded c a a') as Hdone.
  { intros a' ([Hdr Hb' Hu'] & Es' & Ee' & _). rewrite Ep, Eq in Hdr. destruct (jump_drained _ _ _ _ _ Hq Hb Hcu Hd Hdr) as [Hp Ha].
    split; [|done|done| |by rewrite Es', Es|by rewrite Ee', Ee].
    - split; [apply (po_inv _ _ _ _ (dr_popped _ _ _ _ Hdr))|done|apply (dr_stops _ _ _ _ Hdr)].
    - intros t Ht. rewrite would_ack_self. unfold would_ack. by apply Ha. }
  specialize (Hack Hlt). unfold holds in Hack. destruct (handle_peer_last_tsn_and_acknowledgement false a3); try done; [by apply Hdone|].
  destruct Hack as (Hsil & Hmax & ->). split; [by apply Hdone|]. split; [done|]. lia.
Qed.

Lemma subtract_next q n : next_ssn (subtract_num_bytes q n) = next_ssn q.
Proof. done. Qed.

(** The number a stream waits for afterwards is past the one it was told. *)
Lemma skips_past c id n q :
  target (ft_streams c) id = Some n → uN 16 n → uN 16 (next_ssn q) → sna16gt (next_ssn (skips c id q)) n = true.
Proof.
  intros Ht Hn Hq. unfold skips. rewrite Ht. cbn [skip_ordered]. set (q1 := forward_tsn_for_ordered q n).
  assert (next_ssn (forward_tsn_for_unordered q1 (new_cumulative_tsn c)) = next_ssn q1) as ->.
  { unfold forward_tsn_for_unordered. set (l := take _ _). clearbody l.
    change (next_ssn (fold_left (λ q c, subtract_num_bytes q (data_len c)) l q1) = next_ssn q1).
    clearbody q1. revert q1. induction l as [|x l IH]; intros q1; cbn [fold_left]; [done|]. by rewrite IH, subtract_next. }
  subst q1. rewrite forward_ordered_eq.
  change (sna16gt (if sna16lte (next_ssn q) n then wrapping_add 16 n 1 else next_ssn q) n = true).
  destruct (sna16lte (next_ssn q) n) eqn:E; [clear -Hn; sna|]. by rewrite sna16gt_negb_lte, E.
Qed.

(** Claim C15.  A FORWARD TSN from ahead is always handled (while no stream reset is under way): the receiver
    then acknowledges what it acknowledged before and everything up to the chunk's TSN, and the
    cumulative TSN does not stop before a TSN that was received; each stream the chunk names
    drops its partial messages up to the given number, keeps complete ones and waits for a later
    number, every stream drops unordered fragments up to the TSN, and nothing else changes in any
    stream; and exactly the streams that this gives something to read are reported as readable, once
    and in the order of the chunk.  The handler returns; only a receiver whose streams held as much as
    its receive buffer or more may report, after all this, that its buffer is exhausted. *)
Theorem forward_tsn_handled c a :
  forwardable a → NoDup (fs_identifier <$> ft_streams c) → uN 32 (new_cumulative_tsn c) →
  0 < dist32 (peer_last_tsn a) (new_cumulative_tsn c) < 2 ^ 31 →
  ∃ a', ((∃ r, handle_forward_tsn c a = ROk r a') ∨
      (handle_forward_tsn c a = RErr ErrReceiveBufferExhausted a' ∧ max_receive_buffer_size a <= held_bytes a)) ∧ forwarded c a a' ∧
    ∀ id n s s', target (ft_streams c) id = Some n → uN 16 n → streams a !! id = Some s → uN 16 (next_ssn (reassembly_queue s)) →
      streams a' !! id = Some s' → sna16gt (next_ssn (reassembly_queue s')) n = true.
Proof.
  intros Ha Hnd Hu Hd. pose proof (handle_forward_after c a Ha Hnd Hu Hd) as H. unfold holds in H.
  assert (∀ a', forwarded c a a' → ∀ id n s s', target (ft_streams c) id = Some n → uN 16 n → streams a !! id = Some s →
    uN 16 (next_ssn (reassembly_queue s)) → streams a' !! id = Some s' → sna16gt (next_ssn (reassembly_queue s')) n = true) as Hpast.
  { intros a' Hf id n s s' Ht Hn Hs Hnx Hs'. rewrite (fw_streams _ _ _ Hf), Hs in Hs'. injection Hs' as <-. by apply skips_past. }
  destruct (handle_forward_tsn c a) as [r a'|e a'| |]; try done; exists a'; [eauto 6|]. destruct H as (Hf & -> & Hx). eauto 6.
Qed.
End Receiver.

(** ** How far the sender's point goes *)

(** The last TSN of the abandoned chunks that follow [p] without a gap. *)
Record gives_up_to (a : Association) (p p' : u32) : Prop := mk_gives_up_to {
  gu_u32 : uN 32 p';
  gu_range : dist32 (cumulative_tsn_ack_point a) p <= dist32 (cumulative_tsn_ack_point a) p'
    < dist32 (cumulative_tsn_ack_point a) (my_next_tsn a);
  gu_given t : uN 32 t → dist32 (cumulative_tsn_ack_point a) p < dist32 (cumulative_tsn_ack_point a) t <= dist32 (cumulative_tsn_ack_point a) p' →
    is_abandoned (outbound_queue a) t = true;
  gu_stops : is_abandoned (outbound_queue a) (next_tsn p') = false;
}.

Definition at_point (a : Association) (p : u32) : Association := a <| advanced_peer_tsn_ack_point := p |>.

Lemma at_point_self a : at_point a (advanced_peer_tsn_ack_point a) = a.
Proof. by destruct a. Qed.

Lemma abandoned_in_flight a t : is_abandoned (outbound_queue a) t = true → is_Some (chunk_map (flight a) !! t).
Proof. unfold is_abandoned, pq_get, flight. by destruct (chunk_map _ !! t). Qed.

Section Sender.
Context (a : Association) (Hs : sending a) (Hf : use_forward_tsn a = true).

Lemma skip_abandoned_exact fuel : ∀ p,
  uN 32 p → dist32 (cumulative_tsn_ack_point a) p < dist32 (cumulative_tsn_ack_point a) (my_next_tsn a) →
  (left_from (cumulative_tsn_ack_point a) (next_tsn p) (flight a) <= fuel)%nat →
  ∃ p', skip_abandoned fuel (at_point a p) = ROk tt (at_point a p') ∧ gives_up_to a p p'.
Proof.
  pose proof (inv_base _ _ (sd_queue _ Hs)) as Hb. pose proof (contiguous_window _ _ _ (sd_queue _ Hs) (sd_run _ Hs)) as Hw.
  induction fuel as [|fuel IH]; intros p Hp Hd Hl; cbn [skip_abandoned]; run; fold (next_tsn p);
    change (advanced_peer_tsn_ack_point (at_point a p)) with p; fold (next_tsn p); change (outbound_queue (at_point a p)) with (outbound_queue a);
    destruct (is_abandoned (outbound_queue a) (next_tsn p)) eqn:Ea; cbn [negb].
  2,4: exists p; split; [done|]; split; [done|lia|intros; lia|done].
  all: pose proof (abandoned_in_flight _ _ Ea) as Hin; pose proof (left_from_next _ _ _ (sd_queue _ Hs) Hin) as Hn.
  { exfalso. clear -Hn Hl. lia. }
  apply (sd_run _ Hs) in Hin; [|apply next_tsn_u32].
  assert (dist32 (cumulative_tsn_ack_point a) (next_tsn p) = dist32 (cumulative_tsn_ack_point a) p + 1) as E1
    by (clear -Hb Hp Hd Hw; unfold next_tsn; sna).
  destruct (IH (next_tsn p)) as (p' & E & [Gu Gr Gg Gs]); [apply next_tsn_u32|lia|clear -Hn Hl; lia|].
  exists p'. split; [exact E|]. split; [done|lia| |done]. intros t Ht Hr.
  destruct (decide (t = next_tsn p)) as [->|Hne]; [done|]. apply Gg; [done|]. split; [|lia]. clear -Hb Hp Hd Hw Ht Hne Hr E1. unfold next_tsn in *. sna.
Qed.

Lemma advance_exact :
  ∃ p, advance_peer_tsn_ack_point a = ROk tt (at_point a p) ∧ gives_up_to a (advanced_peer_tsn_ack_point a) p.
Proof.
  destruct (sd_forward _ Hs Hf) as [Hu Hd]. pose proof (inv_base _ _ (sd_queue _ Hs)) as Hb.
  pose proof (contiguous_window _ _ _ (sd_queue _ Hs) (sd_run _ Hs)) as Hw.
  unfold advance_peer_tsn_ack_point. run.
  assert (sna32lt (advanced_peer_tsn_ack_point a) (cumulative_tsn_ack_point a) = false) as -> by (clear -Hu Hd Hb Hw; sna).
  destruct (skip_abandoned_exact (length (sorted (flight a))) (advanced_peer_tsn_ack_point a)) as (p & E & H);
    [done|done|apply left_from_len|]. rewrite at_point_self in E. by exists p.
Qed.
End Sender.

(** ** What the sender lists *)

(** An ordered chunk in flight. *)
Definition ordered_at (a : Association) (id : u16) (t : u32) (n : u16) : Prop :=
  ∃ c, chunk_map (flight a) !! t = Some c ∧ unordered c = false ∧ stream_identifier c = id ∧ stream_sequence_number c = n.

(** The sequence numbers of a stream in flight are less than half a circle apart. *)
Definition close_sequences (a : Association) : Prop :=
  ∀ id, ∃ first, uN 16 first ∧ ∀ t n, ordered_at a id t n → uN 16 n ∧ dist16 first n < 2 ^ 15.

(** [m] has the last sequence number of each ordered stream with a chunk among the first [k] in flight. *)
Record lists (a : Association) (k : Z) (m : gmap Z u16) : Prop := mk_lists {
  ls_sound id n : m !! id = Some n → ∃ t, uN 32 t ∧ 0 < dist32 (cumulative_tsn_ack_point a) t <= k ∧ ordered_at a id t n;
  ls_last id t n : uN 32 t → 0 < dist32 (cumulative_tsn_ack_point a) t <= k → ordered_at a id t n →
    ∃ n', m !! id = Some n' ∧ sna16lte n n' = true;
}.

Section Listing.
Context (a : Association) (Hs : sending a) (Hc : close_sequences a).

(** The map after one chunk. *)
Definition note (c : ChunkPayloadData) (m : gmap Z u16) : gmap Z u16 :=
  if unordered c then m
  else match m !! stream_identifier c with
       | Some n => if sna16lt n (stream_sequence_number c) then <[stream_identifier c := stream_sequence_number c]> m else m
       | None => <[stream_identifier c := stream_sequence_number c]> m
       end.

(** Noting a chunk leaves the later of its number and the number before. *)
Lemma note_lookup c m id :
  note c m !! id = m !! id ∨ (unordered c = false ∧ stream_identifier c = id ∧ note c m !! id = Some (stream_sequence_number c) ∧
    ∀ n, m !! id = Some n → sna16lt n (stream_sequence_number c) = true).
Proof.
  unfold note. destruct (unordered c) eqn:Eu; [by left|]. destruct (m !! stream_identifier c) as [n|] eqn:En; [destruct (sna16lt n _) eqn:El; [|by left]|];
    (destruct (decide (stream_identifier c = id)) as [<-|Hne]; [|left; by rewrite lookup_insert_ne]); right;
    rewrite lookup_insert_eq, En; naive_solver.
Qed.

Lemma note_own c m : unordered c = false → ∃ n, note c m !! stream_identifier c = Some n ∧ (n = stream_sequence_number c ∨
  (m !! stream_identifier c = Some n ∧ sna16lt n (stream_sequence_number c) = false)).
Proof.
  intros Eu. unfold note. rewrite Eu. destruct (m !! stream_identifier c) as [n|] eqn:En; [destruct (sna16lt n _) eqn:El|];
    rewrite ?lookup_insert_eq; eauto.
Qed.

Lemma lists_note k i c m :
  uN 32 i → dist32 (cumulative_tsn_ack_point a) i = k + 1 → 0 <= k → chunk_map (flight a) !! i = Some c → lists a k m → lists a (k + 1) (note c m).
Proof.
  intros Hi Ei Hk Hci [L1 L2]. split.
  - intros id n Hn. destruct (note_lookup c m id) as [E|(Eu & Eid & E & _)]; rewrite E in Hn.
    + destruct (L1 id n Hn) as (t & ? & ? & ?). exists t. split_and!; (done || lia).
    + injection Hn as <-. exists i. split_and!; [done|lia|lia|]. by exists c.
  - intros id t n Ht Hr Ho. destruct (Hc id) as (first & Hfu & Hfirst). destruct (Hfirst t n Ho) as [Hnu Hnd].
    destruct (decide (t = i)) as [->|Hne].
    + destruct Ho as (c' & Hc' & Eu & <- & <-). assert (c' = c) as -> by congruence.
      destruct (note_own c m Eu) as (n' & E & Hn'). exists n'. split; [done|]. destruct Hn' as [-> | [Hm Hlt]]; [clear -Hnu; sna|].
      destruct (L1 _ _ Hm) as (t' & _ & _ & Ho'). destruct (Hfirst t' n' Ho') as [? ?]. clear -Hlt Hnu Hnd H H0 Hfu. sna.
    + destruct (L2 id t n Ht) as (n1 & Hm & Hle); [|done|].
      { assert (dist32 (cumulative_tsn_ack_point a) t ≠ k + 1); [|lia]. intros E. apply Hne. pose proof (inv_base _ _ (sd_queue _ Hs)).
        eapply dist32_inj; [done|done|]. by rewrite Ei. }
      destruct (note_lookup c m id) as [E|(Eu & Eid & E & Hlt)]; [exists n1; by rewrite E|].
      exists (stream_sequence_number c). split; [done|]. specialize (Hlt n1 Hm).
      destruct (L1 _ _ Hm) as (t' & _ & _ & Ho'). destruct (Hfirst t' n1 Ho') as [? ?].
      destruct (Hfirst i (stream_sequence_number c)) as [? ?]; [by exists c|]. clear -Hlt Hle Hnu Hnd H H0 H1 H2 Hfu. sna.
Qed.

Context (Hp : uN 32 (advanced_peer_tsn_ack_point a))
  (Hr : dist32 (cumulative_tsn_ack_point a) (advanced_peer_tsn_ack_point a) < dist32 (cumulative_tsn_ack_point a) (my_next_tsn a)).

Lemma forward_streams_Ok fuel : ∀ i k m,
  uN 32 i → dist32 (cumulative_tsn_ack_point a) i = k + 1 → 0 <= k <= dist32 (cumulative_tsn_ack_point a) (advanced_peer_tsn_ack_point a) →
  dist32 (cumulative_tsn_ack_point a) (advanced_peer_tsn_ack_point a) - k <= Z.of_nat fuel → lists a k m →
  ∃ m', forward_streams fuel a i m = Ok m' ∧ lists a (dist32 (cumulative_tsn_ack_point a) (advanced_peer_tsn_ack_point a)) m'.
Proof.
  pose proof (inv_base _ _ (sd_queue _ Hs)) as Hb. pose proof (contiguous_window _ _ _ (sd_queue _ Hs) (sd_run _ Hs)) as Hw.
  set (d := dist32 (cumulative_tsn_ack_point a) (advanced_peer_tsn_ack_point a)) in *.
  induction fuel as [|fuel IH]; intros i k m Hi Ei Hk Hf Hl; cbn [forward_streams];
    (destruct (sna32lte i (advanced_peer_tsn_ack_point a)) eqn:Ele; cbn [negb];
      [|exists m; split; [done|]; assert (k = d) as <-; [|done]; clear -Hb Hp Hi Ei Hk Hr Hw Ele; subst d; sna]).
  all: assert (k + 1 <= d) as Hlt by (clear -Hb Hp Hi Ei Hk Hr Hw Ele; subst d; sna).
  { clear -Hlt Hf. lia. }
  destruct (proj2 (sd_run _ Hs i Hi)) as [c Hci]; [rewrite Ei; lia|].
  unfold oq_get, pq_get. fold (flight a). rewrite Hci. apply (IH _ (k + 1) (note c m)); [by apply wrap_uN| |lia|lia|].
  2:{ apply (lists_note k i); (done || lia). }
  clear -Hb Hi Ei Hlt Hr Hw. sna.
Qed.
End Listing.

Section Create.
Context {I : MapIter} {IL : MapIterLaws I}.

(** The chunk lists, for exactly the ordered streams with data given up, the last sequence number given up. *)
Record announces (a : Association) (c : ChunkForwardTsn) : Prop := mk_announces {
  an_point : new_cumulative_tsn c = advanced_peer_tsn_ack_point a;
  an_once : NoDup (fs_identifier <$> ft_streams c);
  an_sound id n : target (ft_streams c) id = Some n → ∃ t, uN 32 t ∧
    0 < dist32 (cumulative_tsn_ack_point a) t <= dist32 (cumulative_tsn_ack_point a) (advanced_peer_tsn_ack_point a) ∧ ordered_at a id t n;
  an_last id t n : uN 32 t →
    0 < dist32 (cumulative_tsn_ack_point a) t <= dist32 (cumulative_tsn_ack_point a) (advanced_peer_tsn_ack_point a) → ordered_at a id t n →
    ∃ n', target (ft_streams c) id = Some n' ∧ sna16lte n n' = true;
}.

(** The list of a map, looked up. *)
Lemma target_entries (l : list (Z * u16)) id : NoDup l.*1 →
  target ((λ '(id, n), mkChunkForwardTsnStream id n) <$> l) id = (list_to_map l : gmap Z u16) !! id.
Proof.
  induction l as [|[i n] l IH]; [done|]. cbn. intros [_ Hnd]%NoDup_cons. unfold target in *. cbn [List.find fs_identifier].
  destruct (Z.eqb_spec i id) as [->|Hne]; [by rewrite lookup_insert_eq|]. rewrite lookup_insert_ne by done. by apply IH.
Qed.

Lemma entries_map {A} (m : gmap Z A) : list_to_map (entries m) = m.
Proof.
  rewrite <- (list_to_map_to_list m) at 2. apply list_to_map_proper; [apply entries_keys_NoDup|apply entries_law].
Qed.

Lemma create_announces a :
  sending a → close_sequences a → uN 32 (advanced_peer_tsn_ack_point a) →
  dist32 (cumulative_tsn_ack_point a) (advanced_peer_tsn_ack_point a) < dist32 (cumulative_tsn_ack_point a) (my_next_tsn a) →
  ∃ c, create_forward_tsn a = Ok c ∧ announces a c.
Proof.
  intros Hs Hc Hp Hr. pose proof (inv_base _ _ (sd_queue _ Hs)) as Hb.
  pose proof (contiguous_len _ _ _ (sd_queue _ Hs) (sd_run _ Hs)) as Hlen. unfold pq_len in Hlen. rewrite <- (inv_size _ _ (sd_queue _ Hs)) in Hlen.
  pose proof (dist32_bounds (cumulative_tsn_ack_point a) (advanced_peer_tsn_ack_point a)).
  destruct (forward_streams_Ok a Hs Hc Hp Hr (S (length (sorted (flight a)))) (next_tsn (cumulative_tsn_ack_point a)) 0 ∅) as (m & E & [L1 L2]).
  - apply next_tsn_u32.
  - clear -Hb. unfold next_tsn. sna.
  - lia.
  - lia.
  - split; [by intros id n Hn; rewrite lookup_empty in Hn|lia].
  - unfold create_forward_tsn. fold (flight a) (next_tsn (cumulative_tsn_ack_point a)). rewrite E. cbn [mbind Outcome_bind].
    eexists. split; [done|]. assert (∀ id, target ((λ '(id, n), mkChunkForwardTsnStream id n) <$> entries m) id = m !! id) as Et.
    { intros id. rewrite target_entries by apply entries_keys_NoDup. by rewrite entries_map. }
    split; cbn [new_cumulative_tsn ft_streams]; [done| |intros id n; rewrite Et; apply L1|].
    + rewrite <- list_fmap_compose. rewrite (list_fmap_ext _ fst _); [apply entries_keys_NoDup|by intros i [] _].
    + intros id t n. rewrite Et. apply L2.
Qed.
End Create.

(** ** Sending it *)

Section Gather.
Context {I : MapIter} {IL : MapIterLaws I} {B : BufApi} {BL : BufLaws B} (crc : Bytes → u32).

(** The sender after the FORWARD TSN for [p] was sent. *)
Definition told (a : Association) (p : u32) : Association :=
  a <| advanced_peer_tsn_ack_point := p |> <| will_send_forward_tsn := false |>.

Lemma gather_forward raws a :
  sending a → use_forward_tsn a = true → close_sequences a →
  is_abandoned (outbound_queue a) (next_tsn (cumulative_tsn_ack_point a)) = true →
  (∀ t, uN 32 t → 0 < dist32 (cumulative_tsn_ack_point a) t <= dist32 (cumulative_tsn_ack_point a) (advanced_peer_tsn_ack_point a) →
     is_abandoned (outbound_queue a) t = true) →
  will_send_forward_tsn a = true ∨ is_abandoned (outbound_queue a) (next_tsn (advanced_peer_tsn_ack_point a)) = true →
  ∃ p c, gives_up_to a (cumulative_tsn_ack_point a) p ∧ 0 < dist32 (cumulative_tsn_ack_point a) p ∧ announces (told a p) c ∧
    gather_outbound_forward_tsn_packets crc raws a =
      match marshal_onto crc raws (create_packet (told a p) [CForwardTsn c]) with
      | Ok (_, raws') => ROk raws' (told a p) | Err e => RErr e (told a p) | Panic => RPanic | Stuck => RStuck
      end.
Proof.
  intros Hs Hf Hc Hn Hold Hwill. destruct (advance_exact a Hs Hf) as (p & Ea & [Gu Gr Gg Gs]). pose proof (inv_base _ _ (sd_queue _ Hs)) as Hb.
  destruct (sd_forward _ Hs Hf) as [Hau Had]. pose proof (contiguous_window _ _ _ (sd_queue _ Hs) (sd_run _ Hs)) as Hw.
  assert (0 < dist32 (cumulative_tsn_ack_point a) p) as Hpos.
  { pose proof (dist32_bounds (cumulative_tsn_ack_point a) p). destruct (decide (dist32 (cumulative_tsn_ack_point a) p = 0)) as [E0|]; [|lia].
    assert (p = cumulative_tsn_ack_point a) as -> by (clear -Gu Hb E0; sna). congruence. }
  exists p. assert (sna32gt p (cumulative_tsn_ack_point a) = true) as Hgt by (clear -Gu Hb Hpos Gr Hw; sna).
  assert (will_send_forward_tsn a = true ∨ sna32gt p (advanced_peer_tsn_ack_point a) = true) as Hflag.
  { destruct Hwill as [?|Hab]; [by left|right]. destruct (decide (p = advanced_peer_tsn_ack_point a)) as [->|Hne]; [congruence|].
    clear -Gu Hau Hb Gr Hw Hne. sna. }
  assert (∀ a0, a0 <| will_send_forward_tsn := false |> = told a p → ∃ c, create_forward_tsn a0 = Ok c ∧ announces (told a p) c) as Hcreate.
  { intros a0 E0. assert (sending (told a p)) as [S1 S2 S3 S4] by (destruct Hs as [H1 H2 H3 _]; exact (mk_sending (told a p) H1 H2 H3 (λ _, conj Gu (proj2 Gr)))). rewrite <- E0 in S1, S2, S3, S4.
    destruct (create_announces a0) as (c & Ec & [A1 A2 A3 A4]); [exact (mk_sending a0 S1 S2 S3 S4)| | | |].
    - assert (close_sequences (told a p)) as H by exact Hc. rewrite <- E0 in H. exact H.
    - assert (uN 32 (advanced_peer_tsn_ack_point (told a p))) as H by exact Gu. rewrite <- E0 in H. exact H.
    - apply S4. assert (use_forward_tsn (told a p) = true) as H by exact Hf. rewrite <- E0 in H. exact H.
    - exists c. split; [done|]. rewrite <- E0. constructor; [exact A1|exact A2|exact A3|exact A4]. }
  unfold gather_outbound_forward_tsn_packets. run. rewrite Hf, Ea.
  assert (gives_up_to a (cumulative_tsn_ack_point a) p) as Hup.
  { split; [done|rewrite dist32_self; lia| |done]. intros t Ht Hr. rewrite dist32_self in Hr.
    destruct (Z.le_gt_cases (dist32 (cumulative_tsn_ack_point a) t) (dist32 (cumulative_tsn_ack_point a) (advanced_peer_tsn_ack_point a)));
      [apply Hold; [done|lia]|apply Gg; [done|lia]]. }
  change (advanced_peer_tsn_ack_point (at_point a p)) with p. change (cumulative_tsn_ack_point (at_point a p)) with (cumulative_tsn_ack_point a).
  rewrite Hgt, andb_true_r. destruct (sna32gt p (advanced_peer_tsn_ack_point a)) eqn:Eg.
  - set (af := at_point a p <| will_send_forward_tsn := true |>).
    destruct (Hcreate af eq_refl) as (c & Ec & Hann). exists c. split; [done|]. split; [done|]. split; [done|].
    change (will_send_forward_tsn af) with true. cbn [negb].
    change (sna32gt (advanced_peer_tsn_ack_point af) (cumulative_tsn_ack_point af)) with (sna32gt p (cumulative_tsn_ack_point a)).
    rewrite Hgt, Ec. cbn [mbind Outcome_bind]. change (create_packet af) with (create_packet (told a p)).
    by destruct (marshal_onto _ _ _) as [[]| | |].
  - destruct Hflag as [Hflag|]; [|done]. destruct (Hcreate (at_point a p) eq_refl) as (c & Ec & Hann). exists c.
    split; [done|]. split; [done|]. split; [done|].
    change (will_send_forward_tsn (at_point a p)) with (will_send_forward_tsn a). rewrite Hflag. cbn [negb].
    change (sna32gt (advanced_peer_tsn_ack_point (at_point a p)) (cumulative_tsn_ack_point (at_point a p))) with (sna32gt p (cumulative_tsn_ack_point a)).
    rewrite Hgt, Ec. cbn [mbind Outcome_bind]. change (create_packet (at_point a p)) with (create_packet (told a p)).
    by destruct (marshal_onto _ _ _) as [[]| | |].
Qed.
End Gather.

(** ** To the receiver and back *)

(** [b] has received nothing that [a] did not send. *)
Record knows_only (a b : Association) : Prop := mk_knows_only {
  ko_point : dist32 (cumulative_tsn_ack_point a) (peer_last_tsn b) < dist32 (cumulative_tsn_ack_point a) (my_next_tsn a);
  ko_queue t : is_Some (chunk_map (payload_queue b) !! t) →
    dist32 (cumulative_tsn_ack_point a) (peer_last_tsn b) < dist32 (cumulative_tsn_ack_point a) t < dist32 (cumulative_tsn_ack_point a) (my_next_tsn a);
}.

(** The receiver after the chunk, as far as its next SACK is concerned. *)
Record stopped_waiting (a : Association) (p : u32) (b : Association) : Prop := mk_stopped_waiting {
  sw_receiving : receiving b;
  sw_undisturbed : undisturbed b;
  sw_bytes : queued_bytes b < 2 ^ 32;
  sw_knows : knows_only a b;
  sw_point : dist32 (cumulative_tsn_ack_point a) p <= dist32 (cumulative_tsn_ack_point a) (peer_last_tsn b);
}.

Section RoundTrip.
Context {I : MapIter} {IL : MapIterLaws I}.

Lemma queue_u32 b t : receiving b → is_Some (chunk_map (payload_queue b) !! t) → uN 32 t ∧ 0 < dist32 (peer_last_tsn b) t < 2 ^ 31.
Proof.
  intros [Hq Hb _] Ht. assert (t ∈ sorted (payload_queue b)) as Hin by (by apply (inv_dom _ _ Hq)).
  pose proof (inv_u32 _ _ Hq t Hin) as Hu. pose proof (inv_window _ _ Hq t Hin) as Hw. pose proof (inv_base _ _ Hq) as Hbu. split; [done|].
  pose proof (dist32_bounds (peer_last_tsn b) t). destruct (decide (dist32 (peer_last_tsn b) t = 0)) as [E|]; [|lia].
  assert (t = peer_last_tsn b) as -> by (clear -Hu Hbu E; sna). rewrite Hb in Ht. by destruct Ht.
Qed.

Lemma forwarded_stopped a b c p b1 :
  sending a → forwardable b → knows_only a b → new_cumulative_tsn c = p → uN 32 p →
  dist32 (cumulative_tsn_ack_point a) (peer_last_tsn b) < dist32 (cumulative_tsn_ack_point a) p < dist32 (cumulative_tsn_ack_point a) (my_next_tsn a) →
  forwarded c b b1 → stopped_waiting a p b1.
Proof.
  intros Hs Hb Hk Ep Hp Hlt Hf. destruct Hf as [F1 F2 F3 F4 F5 F6]. rewrite Ep in *.
  pose proof (inv_base _ _ (sd_queue _ Hs)) as Hau. pose proof (contiguous_window _ _ _ (sd_queue _ Hs) (sd_run _ Hs)) as Hw.
  pose proof (inv_base _ _ (rv_queue _ (fa_receiving _ Hb))) as Hbu. pose proof (inv_base _ _ (rv_queue _ F1)) as Hb1u.
  assert (∀ t, uN 32 t → 0 < dist32 (peer_last_tsn b) t <= dist32 (peer_last_tsn b) p ∨ is_Some (chunk_map (payload_queue b) !! t) →
    dist32 (cumulative_tsn_ack_point a) t < dist32 (cumulative_tsn_ack_point a) (my_next_tsn a)) as Hin.
  { intros t Ht [Hr|Hr]; [|by apply (ko_queue _ _ Hk)]. clear -Hau Hbu Hp Ht Hw Hlt Hr. sna. }
  assert (∀ t, uN 32 t → would_ack (peer_last_tsn b) b1 t → dist32 (cumulative_tsn_ack_point a) t < dist32 (cumulative_tsn_ack_point a) (my_next_tsn a)) as Hsent.
  { intros t Ht Ha. apply (F4 t Ht) in Ha. rewrite would_ack_self in Ha. by apply Hin. }
  assert (dist32 (cumulative_tsn_ack_point a) (peer_last_tsn b1) < dist32 (cumulative_tsn_ack_point a) (my_next_tsn a)) as Hpl.
  { destruct (decide (dist32 (peer_last_tsn b) (peer_last_tsn b1) = 0)) as [E0|Hne].
    - assert (peer_last_tsn b1 = peer_last_tsn b) as -> by (clear -Hbu Hb1u E0; sna). apply (ko_point _ _ Hk).
    - apply Hsent; [done|]. left. pose proof (dist32_bounds (peer_last_tsn b) (peer_last_tsn b1)). lia. }
  split; [done|done| | |].
  - unfold queued_bytes. apply (countable_shrunk b _ (skips c)); [apply (fa_countable _ Hb)| |done]. intros id q H0. unfold skips.
    pose proof (skip_ordered_bytes (target (ft_streams c) id) q H0) as H1. pose proof (forward_unordered_bytes _ (new_cumulative_tsn c) (proj1 H1)). lia.
  - split; [done|]. intros t Ht. destruct (queue_u32 _ _ F1 Ht) as [Htu Htd]. pose proof (Hsent t Htu (or_intror Ht)) as H.
    split; [|done]. clear -Hau Hb1u Htu Htd H Hpl Hw. sna.
  - clear -Hau Hbu Hb1u Hp Hlt F3 Hpl Hw. sna.
Qed.

Lemma receiver_stops a b c p :
  sending a → forwardable b → knows_only a b → NoDup (fs_identifier <$> ft_streams c) → new_cumulative_tsn c = p → uN 32 p →
  0 < dist32 (cumulative_tsn_ack_point a) p < dist32 (cumulative_tsn_ack_point a) (my_next_tsn a) →
  held_bytes b < max_receive_buffer_size b →
  holds False (handle_forward_tsn c) (λ _, stopped_waiting a p) (λ _ _, False) b.
Proof.
  intros Hs Hb Hk Hnd Ep Hp Hd Hroom. pose proof (inv_base _ _ (sd_queue _ Hs)) as Hau. pose proof (contiguous_window _ _ _ (sd_queue _ Hs) (sd_run _ Hs)) as Hw.
  pose proof (inv_base _ _ (rv_queue _ (fa_receiving _ Hb))) as Hbu. pose proof (ko_point _ _ Hk) as Hkp.
  destruct (Z.lt_ge_cases (dist32 (cumulative_tsn_ack_point a) (peer_last_tsn b)) (dist32 (cumulative_tsn_ack_point a) p)) as [Hlt|Hge].
  - eapply holds_mono; [apply handle_forward_after; rewrite ?Ep; try done; clear -Hau Hbu Hp Hd Hw Hlt; sna| |].
    + cbv beta. intros r b1 Hf. by apply (forwarded_stopped a b c p b1 Hs Hb Hk Ep Hp (conj Hlt (proj2 Hd))).
    + cbv beta. intros e b1 (_ & _ & Hx). lia.
  - unfold handle_forward_tsn. apply holds_bind, holds_self. rewrite (fa_use _ Hb). cbn [negb]. rewrite Ep.
    assert (sna32lte p (peer_last_tsn b) = true) as -> by (clear -Hau Hbu Hp Hd Hw Hge Hkp; sna).
    unfold ack_out_of_date_forward_tsn. apply holds_bind, holds_modify. unfold stop_timer. apply holds_bind, holds_modify, holds_ret.
    destruct Hb as [[] [] _ [Hn Hlt]], Hk. split; [by constructor|by constructor| |by constructor|done].
    assert (queued_bytes b < 2 ^ 32) as H; [|exact H]. apply (countable_shrunk b _ (λ _ q, q)); [by split|intros; lia|].
    intros id. by destruct (streams b !! id) as [[]|].
Qed.

(** The SACK it builds next. *)
Lemma stopped_sack a p b :
  sending a → stopped_waiting a p b → ∃ s b', create_selective_ack_chunk b = ROk s b' ∧ honest s a ∧ cumulative_tsn_ack s = peer_last_tsn b.
Proof.
  intros Hs [[Hq Hb Hn] Hu Hlt Hk _]. unfold create_selective_ack_chunk. run. rewrite credit_returns by done.
  eexists _, _. split; [reflexivity|]. split; [|done]. pose proof (inv_base _ _ Hq) as Hbu.
  pose proof (contiguous_window _ _ _ (sd_queue _ Hs) (sd_run _ Hs)) as Hw. pose proof (ko_point _ _ Hk) as Hp.
  split; cbn [cumulative_tsn_ack]; [done|lia|done|].
  intros t (o & -> & Hc)%gap_tsns_covers. cbn [cumulative_tsn_ack gap_ack_blocks] in *.
  apply (proj1 (gap_blocks_exact _ _ Hq)) in Hc as [Ho [x Hx]]. apply (ko_queue _ _ Hk). eauto.
Qed.
End RoundTrip.

Section GivingUp.
Context {I : MapIter} {IL : MapIterLaws I} {B : BufApi} {BL : BufLaws B} (crc : Bytes → u32).

(** A sender with given-up data at the head of its flight, able to tell and to handle the answer. *)
Record gave_up (E : RtoManager → Prop) (now : Instant) (a : Association) : Prop := mk_gave_up {
  gv_sending : sending a;
  gv_use : use_forward_tsn a = true;
  gv_close : close_sequences a;
  gv_addressed : addressed a;
  gv_first : is_abandoned (outbound_queue a) (next_tsn (cumulative_tsn_ack_point a)) = true;
  gv_told t : uN 32 t →
    0 < dist32 (cumulative_tsn_ack_point a) t <= dist32 (cumulative_tsn_ack_point a) (advanced_peer_tsn_ack_point a) →
    is_abandoned (outbound_queue a) t = true;
  gv_news : will_send_forward_tsn a = true ∨ is_abandoned (outbound_queue a) (next_tsn (advanced_peer_tsn_ack_point a)) = true;
  gv_state : takes_sacks (state a);
  gv_measurable : measurable False now E (flight a);
  gv_rto : E (rto_mgr a);
  gv_roomy : roomy now a;
}.

(** Claim C10.  Given-up data does not block the association.  When the oldest chunks in flight were given up, the
    next poll sends a FORWARD TSN (as one more datagram, if it fits one) that carries the last TSN
    before the first chunk still wanted and, for exactly the ordered streams with data given up, the
    last sequence number given up; the receiver, wherever it is in the flight, with room in its
    receive buffer and no stream reset under way, handles it without error and builds a SACK; and
    the sender handles this SACK: its flight then starts past all given-up chunks, still without a
    gap, and keeps every chunk past the receiver's cumulative TSN. *)
Theorem given_up_data_is_skipped E now raws a b :
  gave_up E now a → forwardable b → held_bytes b < max_receive_buffer_size b → knows_only a b →
  ∃ p c a1 r b1 s b2 a2,
    gives_up_to a (cumulative_tsn_ack_point a) p ∧ announces a1 c ∧ new_cumulative_tsn c = p ∧
    (travels (CForwardTsn c) → gather_outbound_forward_tsn_packets crc raws a = ROk (raws ++ [datagram crc a (CForwardTsn c)]) a1) ∧
    handle_forward_tsn c b = ROk r b1 ∧
    create_selective_ack_chunk b1 = ROk s b2 ∧ handle_sack s now a1 = ROk [] a2 ∧ sending a2 ∧
    dist32 (cumulative_tsn_ack_point a) p <= dist32 (cumulative_tsn_ack_point a) (cumulative_tsn_ack_point a2) ∧
    ∀ t, is_Some (chunk_map (flight a2) !! t) ↔ is_Some (chunk_map (flight a) !! t) ∧
      ¬ 0 < dist32 (cumulative_tsn_ack_point a) t <= dist32 (cumulative_tsn_ack_point a) (cumulative_tsn_ack_point a2).
Proof.
  intros [Hs Hf Hc Had Hn Hold Hwill Hst Hm HE Hr] Hb Hroom Hk.
  destruct (gather_forward crc raws a Hs Hf Hc Hn Hold Hwill) as (p & c & Hg & Hpos & Hann & Hgather).
  pose proof (gu_u32 _ _ _ Hg) as Hpu. pose proof (gu_range _ _ _ Hg) as Hpr. rewrite dist32_self in Hpr.
  assert (new_cumulative_tsn c = p) as Ep by exact (an_point _ _ Hann).
  pose proof (receiver_stops a b c p Hs Hb Hk (an_once _ _ Hann) Ep Hpu (conj Hpos (proj2 Hpr)) Hroom) as Hh. unfold holds in Hh.
  destruct (handle_forward_tsn c b) as [r b1| | |] eqn:Eb; try done. rename Hh into Hw.
  destruct (stopped_sack a p b1 Hs Hw) as (s & b2 & Es & [N1 N2 N3 N4] & Ec).
  set (a1 := told a p). assert (sending a1) as Hs1.
  { destruct Hs as [S1 S2 S3 _]. exact (mk_sending a1 S1 S2 S3 (λ _, conj Hpu (proj2 Hpr))). }
  assert (honest s a1) as Hh1 by exact (mk_honest s a1 N1 N2 N3 N4).
  assert (roomy now a1) as Hr1 by (destruct Hr as [R1 R2 R3 R4]; exact (mk_roomy now a1 R1 R2 R3 R4)).
  pose proof (handle_sack_Ok False now E s a1 Hs1 Hh1 Hst Hm HE (or_intror Hr1)) as Ha. unfold holds in Ha.
  destruct (handle_sack s now a1) as [r' a2| | |] eqn:Esack; try done. destruct Ha as [-> Hdone].
  assert (dist32 (cumulative_tsn_ack_point a) p <= dist32 (cumulative_tsn_ack_point a) (cumulative_tsn_ack_point a2)) as Hmoved.
  { rewrite (sh_point _ _ _ Hdone), Ec. apply Hw. }
  exists p, c, a1, r, b1, s, b2, a2. split_and!; try done; [|apply Hdone|].
  - intros Ht. rewrite Hgather. assert (addressed (told a p)) as Had' by exact Had.
    by rewrite (marshal_onto_single crc raws (told a p) (CForwardTsn c) Had' Ht).
  - intros t. rewrite (sh_point _ _ _ Hdone). change (chunk_map (flight a) !! t) with (chunk_map (flight a1) !! t).
    change (cumulative_tsn_ack_point a) with (cumulative_tsn_ack_point a1). rewrite <- (left_over_Some s a1 t).
    pose proof (sh_flight _ _ _ Hdone t) as H. destruct (left_over s a1 t), (chunk_map (flight a2) !! t); naive_solver.
Qed.
End GivingUp.

(** ** Two of three chunks given up, the third received *)

Definition demo_lost (t : u32) : ChunkPayloadData :=
  demo_sent t <| stream_identifier := 3 |> <| stream_sequence_number := t - 10 |> <| abandoned := t <? 12 |>
    <| beginning_fragment := true |> <| ending_fragment := true |>.

Definition demo_quitter : Association :=
  Association_default <| state := Established |> <| cumulative_tsn_ack_point := 9 |> <| advanced_peer_tsn_ack_point := 9 |>
    <| my_next_tsn := 13 |> <| outbound_queue ::= λ q, q <| inflight := demo_run demo_lost |> |> <| mtu := 1228 |> <| cwnd := 4380 |>
    <| use_forward_tsn := true |> <| a_source_port := 5000 |> <| a_destination_port := 5000 |> <| peer_verification_tag := 7 |>.

Lemma demo_lost_tsn t : tsn (demo_lost t) = t.
Proof. done. Qed.

(** The stream waits for its first message and has the third. *)
Definition demo_stream : StreamState :=
  StreamState_new Server 3 1200 65536 Binary
    <| reassembly_queue ::= λ q, match rq_push q (demo_lost 12) with Ok (_, q') => q' | _ => q end |>.

Definition demo_waiter : Association :=
  Association_default <| state := Established |> <| peer_last_tsn := 9 |> <| max_receive_buffer_size := 65536 |> <| use_forward_tsn := true |>
    <| payload_queue := push_no_check PayloadQueue_new (demo_lost 12) |> <| streams := {[ 3 := demo_stream ]} |>.

Lemma demo_forwardable : forwardable demo_waiter.
Proof.
  constructor; [constructor|constructor| |constructor]; try reflexivity.
  - apply push_no_check_inv; [apply pq_inv_new; by vm_compute|done|by vm_compute..].
  - intros id s Hs. change (streams demo_waiter) with ({[ 3 := demo_stream ]} : gmap Z StreamState) in Hs.
    apply lookup_singleton_Some in Hs as [_ <-]. by vm_compute.
Qed.

Lemma demo_waiter_roomy : held_bytes demo_waiter < max_receive_buffer_size demo_waiter.
Proof. vm_compute. reflexivity. Qed.

Lemma demo_quitter_chunk t c : chunk_map (flight demo_quitter) !! t = Some c → c = demo_lost t ∧ (t = 10 ∨ t = 11 ∨ t = 12).
Proof. apply (demo_run_chunk demo_lost), demo_lost_tsn. Qed.

Lemma demo_gave_up : gave_up (λ m, m = rto_mgr demo_quitter ∨ m = demo_rto) 0 demo_quitter.
Proof.
  destruct (demo_run_ok demo_lost demo_lost_tsn) as [Hq Hc]. constructor.
  - exact (mk_sending demo_quitter Hq ltac:(by vm_compute) Hc ltac:(by vm_compute)).
  - done.
  - intros id. exists 0. split; [done|]. intros t n (c & [-> Ht]%demo_quitter_chunk & _ & _ & <-).
    destruct Ht as [-> | [-> | ->]]; by vm_compute.
  - by vm_compute.
  - by vm_compute.
  - intros t _ Hr. change (0 < dist32 9 t <= 0) in Hr. lia.
  - right. by vm_compute.
  - by left.
  - intros m t c s Hm [-> _]%demo_quitter_chunk [= <-]. destruct Hm as [-> | ->]; vm_compute; right; reflexivity.
  - by left.
  - constructor; [by vm_compute..|]. intros i Hi. by apply early_instant.
Qed.

Lemma demo_knows : knows_only demo_quitter demo_waiter.
Proof.
  assert (chunk_map (payload_queue demo_waiter) = <[12 := demo_lost 12]> (∅ : gmap Z ChunkPayloadData)) as E by (vm_compute; reflexivity).
  constructor; [by vm_compute|]. intros t Ht. rewrite E in Ht. clear E.
  rewrite lookup_insert_is_Some, lookup_empty in Ht. destruct Ht as [<-|[_ []]]; [by vm_compute|done].
Qed.

Lemma forward_tsn_handled_witness :
  let c := mkChunkForwardTsn 11 [mkChunkForwardTsnStream 3 1] in
  ∃ a', (∃ r, @handle_forward_tsn list_iter c demo_waiter = ROk r a') ∧
    forwarded c demo_waiter a' ∧ wakes (streams demo_waiter) (mkChunkForwardTsnStream 3 1) = true ∧ would_ack 9 a' 12.
Proof.
  intros c. destruct (@forward_tsn_handled list_iter list_iter_laws c demo_waiter) as (a' & E & Hf & _).
  - exact demo_forwardable.
  - by apply NoDup_singleton.
  - by vm_compute.
  - by vm_compute.
  - assert (∃ r, @handle_forward_tsn list_iter c demo_waiter = ROk r a') as E'.
    { destruct E as [E|[_ E]]; [exact E|]. pose proof demo_waiter_roomy as Hr. lia. }
    exists a'. split_and!; [exact E'|exact Hf|vm_compute; reflexivity|]. apply (fw_ack _ _ _ Hf); [by vm_compute|]. right. right. exists (demo_lost 12). vm_compute. reflexivity.
Defined.

Lemma given_up_data_is_skipped_witness :
  ∃ p c a1 r b1 s b2 a2, gives_up_to demo_quitter (cumulative_tsn_ack_point demo_quitter) p ∧ announces a1 c ∧ new_cumulative_tsn c = p ∧
    (travels (CForwardTsn c) → @gather_outbound_forward_tsn_packets list_iter list_buf crc32c [] demo_quitter
       = ROk ([] ++ [datagram crc32c demo_quitter (CForwardTsn c)]) a1) ∧
    @handle_forward_tsn list_iter c demo_waiter = ROk r b1 ∧
    create_selective_ack_chunk b1 = ROk s b2 ∧ @handle_sack list_iter s 0 a1 = ROk [] a2 ∧ sending a2 ∧
    dist32 (cumulative_tsn_ack_point demo_quitter) p <= dist32 (cumulative_tsn_ack_point demo_quitter) (cumulative_tsn_ack_point a2) ∧
    ∀ t, is_Some (chunk_map (flight a2) !! t) ↔ is_Some (chunk_map (flight demo_quitter) !! t) ∧
      ¬ 0 < dist32 (cumulative_tsn_ack_point demo_quitter) t <= dist32 (cumulative_tsn_ack_point demo_quitter) (cumulative_tsn_ack_point a2).
Proof.
  exact (@given_up_data_is_skipped list_iter list_iter_laws list_buf list_buf_laws crc32c _ 0 [] demo_quitter demo_waiter
    demo_gave_up demo_forwardable demo_waiter_roomy demo_knows).
Defined.
