(* ===== verification/AssocMessage.v ===== *)
(** * A message from one application to the other

    The write of a message, the poll that sends it, the arrival of its chunks
    in any order and the read, each by the method the application or the
    network calls.  The first part follows the message through the sender's
    pending queue into the flight, the second follows its chunks into the
    receiver's stream, the third puts both together. *)

From stdpp Require Import base list gmap numbers strings sets sorting.
From Stdlib Require Import ZArith Lia ZifyBool.
From S2P Require Import Prelude Bytes Util Params Chunks ChunksRoundtrip Packet PayloadQueue PayloadRun PendingQueue OutboundQueue.
From S2P Require Import ReassemblyQueue Shared Stream Monad Timer Config Association AssocReset AssocRecv AssocSend AssocControl.
From S2P Require Import AssocFrame AssocAck AssocSack AssocReliable AssocForward.

(** ** Through the pending queue *)

(** Ordered, reliable messages one after the other; of the first one perhaps only the rest. *)
Definition rest_of_messages (fs : list ChunkPayloadData) : Prop :=
  Forall (λ c, unordered c = false ∧ waiting_chunk c) fs ∧
  ∀ (i : nat) c c', fs !! i = Some c → fs !! S i = Some c' → ending_fragment c = true → beginning_fragment c' = true.

Lemma rest_cons f fs : rest_of_messages (f :: fs) →
  unordered f = false ∧ waiting_chunk f ∧
  (ending_fragment f = true → ∀ c, head fs = Some c → beginning_fragment c = true) ∧ rest_of_messages fs.
Proof.
  intros [Hall He]. apply Forall_cons in Hall as [[Hu Hw] Hall]. split_and!; [done|done| |].
  - intros Hf c Hc. apply (He 0%nat f c); [done| |done]. by destruct fs.
  - split; [done|]. intros i c c' Hc Hc'. exact (He (S i) c c' Hc Hc').
Qed.

Lemma rest_app fs gs :
  rest_of_messages fs → rest_of_messages gs → (∀ c, head gs = Some c → beginning_fragment c = true) → rest_of_messages (fs ++ gs).
Proof.
  intros Hf Hg Hb. induction fs as [|f fs IH]; [done|]. destruct (rest_cons _ _ Hf) as (Hu & Hw & He & Hrest). specialize (IH Hrest).
  split; [constructor; [done|apply IH]|]. intros [|i] c c' Hc Hc' Hend; [|by eapply (proj2 IH i)]. injection Hc as <-.
  destruct fs as [|f' fs]; cbn in Hc'; [by apply Hb; destruct gs|]. injection Hc' as <-. by apply He.
Qed.

(** Nothing else is pending, and it is the turn of these. *)
Record queued (p : PendingQueue) (fs : list ChunkPayloadData) : Prop := mk_queued {
  qd_ordered : ordered_queue p = fs;
  qd_unordered : unordered_queue p = [];
  qd_len : queue_len p = len fs;
  qd_bytes : pn_n_bytes p = sum_with data_len fs;
  qd_turn : if selected p then unordered_is_selected p = false else ∀ c, head fs = Some c → beginning_fragment c = true;
}.

Lemma queued_pristine p fs : rest_of_messages fs → queued p fs → pristine p.
Proof.
  intros [Hall _] [Ho Hu _ _ _]. unfold pristine. rewrite Ho, Hu. split; [done|]. refine (List.Forall_impl _ _ Hall). by intros c [_ ?].
Qed.

Lemma pop_queued p f fs :
  rest_of_messages (f :: fs) → queued p (f :: fs) →
  pn_peek p = Some f ∧ ∃ p', pn_pop p (beginning_fragment f) (unordered f) = Ok (Some f, p') ∧ queued p' fs.
Proof.
  intros (Hu & _ & He & _)%rest_cons [Ho Hun Hl Hb Ht]. destruct p as [uq oq n b sel us]. cbn -[sum_with len] in Ho, Hun, Hl, Hb, Ht. subst uq oq.
  unfold pn_peek, pn_pop. cbn [selected unordered_queue ordered_queue unordered_is_selected head].
  pose proof (data_len_nonneg f) as Hd. pose proof (sum_with_nonneg data_len fs ltac:(intros; apply data_len_nonneg)) as Hs.
  assert (checked_sub b (data_len f) = Ok (sum_with data_len fs)) as Eb.
  { rewrite Hb, sum_with_cons. unfold checked_sub. rewrite (proj2 (Z.leb_le _ _)) by lia. f_equal. lia. }
  assert (checked_sub n 1 = Ok (len fs)) as El.
  { rewrite Hl, len_cons. unfold checked_sub. pose proof (len_nonneg fs). rewrite (proj2 (Z.leb_le _ _)) by lia. f_equal. lia. }
  assert (∀ (sel' us' : bool), (if sel' then us' = false else ∀ c, head fs = Some c → beginning_fragment c = true) →
    queued (mkPendingQueue [] fs (len fs) (sum_with data_len fs) sel' us') fs) as Hq by (intros; by constructor).
  destruct sel; (split; [by try rewrite Ht|]); rewrite ?(Ht f eq_refl), ?Hu; cbn [negb andb pop_front ordered_queue head];
    rewrite ?Ht; unfold upd_selected, upd_ordered_queue, upd_queue_len, upd_pn_n_bytes, upd_unordered_is_selected;
    cbn -[checked_sub data_len len sum_with]; destruct (ending_fragment f) eqn:Ef; cbn -[checked_sub data_len len sum_with]; rewrite Eb; cbn [mbind Outcome_bind];
    rewrite El; cbn [mbind Outcome_bind]; (eexists; split; [reflexivity|]); apply Hq; auto.
Qed.

Lemma send_queued q nt now f fs :
  rest_of_messages (f :: fs) → queued (pending q) (f :: fs) →
  ∃ q', send_next q nt now = Ok (Some (as_sent nt now f), wrapping_add 32 nt 1, q') ∧ queued (pending q') fs ∧
    inflight q' = push_no_check (inflight q) (as_sent nt now f).
Proof.
  intros Hf Hq. destruct (start_timed_pristine q now (queued_pristine _ _ Hf Hq)) as [Ep Ei].
  destruct (pop_queued _ _ _ Hf Hq) as (Hpeek & p' & Hpop & Hq'). unfold send_next. rewrite Ep, Hpeek, Hpop. cbn [mbind Outcome_bind].
  eexists. split; [reflexivity|]. split; [exact Hq'|]. cbn. by rewrite Ei.
Qed.

(** The chunks as they go out. *)
Fixpoint sent_from (nt : u32) (now : Instant) (fs : list ChunkPayloadData) : list ChunkPayloadData :=
  match fs with
  | [] => []
  | f :: fs' => as_sent nt now f :: sent_from (wrapping_add 32 nt 1) now fs'
  end.

Section Send.
Context {I : MapIter} (now : Instant).

Lemma pop_loop_queued fuel : ∀ fs a,
  rest_of_messages fs → queued (pending (outbound_queue a)) fs → (length fs < fuel)%nat →
  inflight_bytes (outbound_queue a) + sum_with data_len fs <= cwnd a → sum_with data_len fs <= rwnd a →
  ∃ a', pop_pending_loop fuel now a = ROk (sent_from (my_next_tsn a) now fs) a'.
Proof.
  induction fuel as [|fuel IH]; intros fs a Hf Hq Hl Hc Hr; [lia|]. cbn [pop_pending_loop]. run.
  assert ((if use_forward_tsn a then expire_pending (outbound_queue a) now else Ok (None, outbound_queue a)) = Ok (None, outbound_queue a)) as ->.
  { destruct (use_forward_tsn a); [|done]. apply expire_pending_pristine. by eapply queued_pristine. }
  destruct fs as [|f fs].
  { assert (peek_pending (outbound_queue a) = None) as ->; [|by eexists]. unfold peek_pending, pn_peek. destruct Hq as [-> -> _ _ Ht].
    destruct (selected _); [by rewrite Ht|done]. }
  destruct (pop_queued _ _ _ Hf Hq) as [Hpeek _]. unfold peek_pending at 1. rewrite Hpeek.
  pose proof (sum_with_nonneg data_len fs ltac:(intros; apply data_len_nonneg)) as Hs. rewrite sum_with_cons in Hc, Hr.
  destruct (Z.gtb_spec (inflight_bytes (outbound_queue a) + data_len f) (cwnd a)); [lia|].
  change (rwnd (a <| outbound_queue := outbound_queue a |>)) with (rwnd a).
  destruct (Z.gtb_spec (data_len f) (rwnd a)); [lia|].
  unfold send_next_data_chunk. run.
  match goal with |- context [send_next ?q ?n now] => change q with (outbound_queue a); change n with (my_next_tsn a) end.
  destruct (send_queued (outbound_queue a) (my_next_tsn a) now f fs Hf Hq) as (q' & -> & Hq' & Ei).
  match goal with |- context [pop_pending_loop fuel now ?x] => set (a1 := x) end.
  destruct (IH fs a1) as (a' & E).
  - by apply rest_cons in Hf as (_ & _ & _ & ?).
  - exact Hq'.
  - cbn in Hl. lia.
  - change (inflight_bytes (outbound_queue a1)) with (inflight_bytes q'). change (cwnd a1) with (cwnd a). unfold inflight_bytes at 1. rewrite Ei.
    change (pq_get_num_bytes (push_no_check (inflight (outbound_queue a)) (as_sent (my_next_tsn a) now f)))
      with (inflight_bytes (outbound_queue a) + data_len f). lia.
  - change (rwnd a1) with (rwnd a - data_len f). lia.
  - rewrite E. exists a'. reflexivity.
Qed.
End Send.

(** ** Into the receiver's stream *)

Section Receive.
Context {I : MapIter} {IL : MapIterLaws I}.

Record delivered (d : ChunkPayloadData) (s : StreamState) (ok : bool) (q : ReassemblyQueue) (b b' : Association) : Prop := mk_delivered {
  dl_receiving : receiving b';
  dl_undisturbed : undisturbed b';
  dl_ahead : dist32 (peer_last_tsn b) (peer_last_tsn b') < 2 ^ 31;
  dl_ack t : uN 32 t → would_ack (peer_last_tsn b) b' t ↔ would_ack (peer_last_tsn b) b t ∨ t = tsn d;
  dl_streams : streams b' = <[stream_identifier d := s <| reassembly_queue := q |>]> (streams b);
  dl_events : events b' = events b ++ Event.DatagramReceived ::
    (if ok && is_readable q then [Event.Stream (StreamEvent.Readable (stream_identifier d))] else []);
  dl_buffer : max_receive_buffer_size b' = max_receive_buffer_size b;
}.

Context (d : ChunkPayloadData) (b : Association) (s : StreamState) (ok : bool) (q : ReassemblyQueue).
Context (Hrv : receiving b) (Hud : undisturbed b) (Hu32 : uN 32 (tsn d)) (Hfar : tsn d ≠ wrapping_add 32 (peer_last_tsn b) (2 ^ 31)).
Context (Hs : streams b !! stream_identifier d = Some s) (Hpush : rq_push (reassembly_queue s) d = Ok (ok, q)).
Context (Hcan : can_push (payload_queue b) d (peer_last_tsn b) = true).
Context (Hroom : queued_bytes b + data_len d < max_receive_buffer_size b) (Hmax : max_receive_buffer_size b <= 2 ^ 32).

(** The stream takes the chunk and the queue of TSNs its TSN. *)
Definition taken (b : Association) : Association :=
  b <| streams := <[stream_identifier d := s <| reassembly_queue := q |>]> (streams b) |>
    <| payload_queue := (pq_push (payload_queue b) d (peer_last_tsn b)).2 |>.

Lemma taken_bytes b1 : streams b1 = streams (taken b) → queued_bytes b1 <= queued_bytes b + data_len d.
Proof using Hs Hpush.
  clear Hcan. intros Es. unfold queued_bytes at 1. rewrite Es. change (streams (taken b)) with (<[stream_identifier d := s <| reassembly_queue := q |>]> (streams b)).
  rewrite (map_sum_replace _ _ _ _ _ Hs). fold (queued_bytes b). pose proof (data_len_nonneg d).
  change (get_num_bytes_in_reassembly_queue (s <| reassembly_queue := q |>)) with (rq_get_num_bytes q).
  change (get_num_bytes_in_reassembly_queue s) with (rq_get_num_bytes (reassembly_queue s)).
  pose proof (wrap_add_le (rq_get_num_bytes (reassembly_queue s)) (data_len d)). destruct (push_bytes _ _ _ _ Hpush) as [->| ->]; lia.
Qed.

Lemma acknowledge_delivered b1 immediately :
  peer_last_tsn b1 = peer_last_tsn b → payload_queue b1 = payload_queue (taken b) → streams b1 = streams (taken b) → undisturbed b1 →
  max_receive_buffer_size b1 = max_receive_buffer_size b →
  events b1 = events b ++ Event.DatagramReceived ::
    (if ok && is_readable q then [Event.Stream (StreamEvent.Readable (stream_identifier d))] else []) →
  holds False (handle_peer_last_tsn_and_acknowledgement immediately) (λ _, delivered d s ok q b) (λ _ _, False) b1.
Proof.
  intros Ep Eq Es Hu Em Ee. pose proof (taken_bytes b1 Es) as Hb. pose proof (data_len_nonneg d) as Hd.
  destruct (push_receives _ _ _ (rv_queue _ Hrv) (rv_base _ Hrv) Hu32 Hfar Hcan) as (Hinv & Hmap & Hbase).
  change (payload_queue (taken b)) with (pq_push (payload_queue b) d (peer_last_tsn b)).2 in Eq.
  eapply holds_mono; [apply acknowledge_receives; rewrite ?Eq, ?Ep; try done; lia| |].
  - intros r b' (Hr & E1 & E2 & E3).
    assert (after_data d b b' true) as [A1 A2 A3 A4 _ _].
    { revert Hr. apply received_after; [done| |done..]. intros t. rewrite Eq, Hmap, lookup_insert_is_Some.
      split; [intros [->|[_ ?]]; auto|intros [?|[_ ->]]; [|auto]; destruct (decide (tsn d = t)); auto]. }
    split; [done|done|done| |by rewrite E1, Es|by rewrite E2, Ee|by rewrite E3, Em]. intros t Ht. rewrite (A4 t Ht). intuition.
  - intros e b' [_ Hex]. lia.
Qed.

Lemma handle_data_delivered : holds False (handle_data d) (λ _, delivered d s ok q b) (λ _ _, False) b.
Proof.
  pose proof (data_len_nonneg d) as Hd. unfold handle_data, admit_data. apply holds_bind, holds_modify. set (b0 := b <| stats ::= inc_datas |>).
  assert (undisturbed b0) as Hu0 by (by destruct Hud). do 2 apply holds_bind. apply holds_self.
  rewrite (not_above_reset d b0 Hu0), andb_false_r. change (payload_queue b0) with (payload_queue b). change (peer_last_tsn b0) with (peer_last_tsn b).
  rewrite Hcan. unfold get_or_create_stream. apply holds_bind, holds_bind, holds_gets. change (streams b0) with (streams b).
  rewrite bool_decide_true by (rewrite Hs; eauto). apply holds_ret. cbn [negb]. apply holds_bind, holds_self, holds_bind.
  change (get_my_receiver_window_credit b0) with (get_my_receiver_window_credit b). rewrite credit_returns by (done || lia).
  apply holds_ret, holds_ret. unfold saturating_sub. assert ((Z.max 0 (max_receive_buffer_size b - queued_bytes b) >? 0) = true) as -> by lia. cbn [orb].
  apply holds_bind, holds_self. change (streams b0) with (streams b). rewrite Hs. apply holds_bind, holds_bind.
  unfold handle_stream_data. rewrite Hpush. cbn [mbind Outcome_bind]. apply holds_ret, holds_bind, holds_modify.
  set (b1 := b0 <| streams ::= _ |> <| payload_queue := _ |>).
  assert (undisturbed b1) as Hu1 by (by destruct Hu0). unfold push_event. apply holds_bind, holds_modify.
  change (is_readable (reassembly_queue (s <| reassembly_queue := q |>))) with (is_readable q).
  assert (∀ b2 x, apply_deferred_forward_tsns x b2 = ROk tt b2 ∨ deferred_forward_tsns b2 ≠ ∅) as Hnone.
  { intros b2 x. destruct (decide (deferred_forward_tsns b2 = ∅)) as [E|]; [left|by right]. unfold apply_deferred_forward_tsns. run.
    rewrite E, lookup_empty. by destruct (streams b2 !! x). }
  assert (∀ b2, deferred_forward_tsns b2 = ∅ → ∀ m Q E, holds False m Q E b2 → holds False (apply_deferred_forward_tsns (stream_identifier d);; m : AM (list Packet)) Q E b2) as Hskip.
  { intros b2 E m Q Er H. unfold holds, mbind, M_bind. destruct (Hnone b2 (stream_identifier d)) as [-> | Hne]; [exact H|done]. }
  apply holds_when; intros Eok; [apply holds_modify|]; (apply Hskip; [exact (ud_forward _ Hu1)|]); apply acknowledge_delivered; try reflexivity;
    try (by destruct Hu1); rewrite Eok; [|reflexivity].
  change ((events b ++ [Event.DatagramReceived]) ++ [Event.Stream (StreamEvent.Readable (stream_identifier d))] =
    events b ++ [Event.DatagramReceived; Event.Stream (StreamEvent.Readable (stream_identifier d))]). by rewrite <- app_assoc.
Qed.
End Receive.

(** ** All chunks of a message *)

(** What [b] would acknowledge lies within half a circle of [base], and its cumulative TSN too. *)
Record within (base : u32) (b : Association) : Prop := mk_within {
  wi_base : uN 32 base;
  wi_point : dist32 base (peer_last_tsn b) < 2 ^ 31;
  wi_ack t : uN 32 t → would_ack base b t → 0 < dist32 base t < 2 ^ 31;
}.

Lemma dist32_past base x t :
  uN 32 base → uN 32 x → uN 32 t → dist32 base x <= dist32 base t → dist32 x t = dist32 base t - dist32 base x.
Proof. intros. sna. Qed.

(** The acknowledgement state, seen from a fixed point. *)
Lemma delivered_within base d s ok q b b' :
  within base b → receiving b → uN 32 (tsn d) → dist32 base (peer_last_tsn b) < dist32 base (tsn d) < 2 ^ 31 →
  delivered d s ok q b b' →
  within base b' ∧ ∀ t, uN 32 t → would_ack base b' t ↔ would_ack base b t ∨ t = tsn d.
Proof.
  intros [Hb Hx Hack] Hrv Hd Hdd Hdl. pose proof (inv_base _ _ (rv_queue _ Hrv)) as Hxu. pose proof (inv_base _ _ (rv_queue _ (dl_receiving _ _ _ _ _ _ Hdl))) as Hyu.
  pose proof (dl_ack _ _ _ _ _ _ Hdl) as Hst. pose proof (dist32_bounds base (peer_last_tsn b)) as Hx0.
  set (x := peer_last_tsn b) in *. set (y := peer_last_tsn b') in *.
  assert (∀ t, uN 32 t → would_ack x b' t ↔ is_Some (chunk_map (payload_queue b) !! t) ∨ t = tsn d) as Hst' by (intros t Ht; rewrite (Hst t Ht); pose proof (would_ack_self b t) as Hself; fold x in Hself; by rewrite Hself).
  assert (∀ t, uN 32 t → is_Some (chunk_map (payload_queue b) !! t) ∨ t = tsn d → dist32 base x < dist32 base t < 2 ^ 31) as Hnew.
  { intros t Ht [Hin| ->]; [|done]. pose proof (Hack t Ht (or_intror Hin)) as Hr. destruct (queue_u32 b t Hrv Hin) as [_ Hw]. fold x in Hw.
    split; [|lia]. clear -Hb Hxu Ht Hr Hw Hx. sna. }
  assert (dist32 base x <= dist32 base y < 2 ^ 31) as Hy.
  { destruct (decide (dist32 x y = 0)) as [E0|Hne]; [assert (y = x) as -> by (clear -Hxu Hyu E0; sna); lia|].
    pose proof (dist32_bounds x y). assert (would_ack x b' y) as Hwy by (left; fold y; lia). apply (Hst' y Hyu) in Hwy. pose proof (Hnew y Hyu Hwy). lia. }
  pose proof (dist32_past base x y Hb Hxu Hyu (proj1 Hy)) as Exy.
  assert (∀ t, uN 32 t → would_ack base b' t ↔ would_ack base b t ∨ t = tsn d) as Hiff.
  { intros t Ht. pose proof (dist32_bounds x t) as Hxt. split.
    - intros Hw. destruct (Z.le_gt_cases (dist32 base t) (dist32 base x)) as [Hle|Hgt].
      + destruct Hw as [Hw|Hw]; [left; left; fold x; lia|].
        assert (would_ack x b' t) as Hw' by (by right). apply (Hst' t Ht) in Hw'. pose proof (Hnew t Ht Hw'). lia.
      + assert (would_ack x b' t) as Hw'.
        { destruct Hw as [Hw|Hw]; [left; fold y in Hw |- *|by right]. rewrite (dist32_past base x t Hb Hxu Ht) by lia. lia. }
        apply (Hst' t Ht) in Hw' as [Hw'|Hw']; [left; by right|by right].
    - intros Hw. destruct (decide (0 < dist32 base t <= dist32 base x)) as [Hr|Hr]; [left; fold y; lia|].
      assert (is_Some (chunk_map (payload_queue b) !! t) ∨ t = tsn d) as Hw' by (destruct Hw as [[?|?]|?]; [done|by left|by right]).
      pose proof (Hnew t Ht Hw') as Hr'. apply (Hst' t Ht) in Hw' as [Hw'|Hw']; [|by right]. left. fold y in Hw' |- *.
      rewrite (dist32_past base x t Hb Hxu Ht) in Hw' by lia. lia. }
  split; [|done]. split; [done|fold y; lia|]. intros t Ht Hw. apply (Hiff t Ht) in Hw as [Hw| ->]; [by apply Hack|lia].
Qed.

Section Arrive.
Context {I : MapIter} {IL : MapIterLaws I}.

(** The chunks reach the association one after the other. *)
Definition arrive (l : list ChunkPayloadData) : AM unit := for_each l (λ d, handle_data d ≫= λ _, mret tt).

Context (b0 : Association) (s : StreamState) (n : u16) (t0 : u32) (cs : list ChunkPayloadData).
Let q0 := reassembly_queue s.
Let base := peer_last_tsn b0.
Context (Hmsg : message_of (si q0) n t0 cs) (Hup : caught_up q0 (si q0) n (rq_max_message_size q0)) (Hsize : sum_with data_len cs <= rq_max_message_size q0).
Context (Hs : streams b0 !! si q0 = Some s).
Context (Hfresh : ∀ c, c ∈ cs → 0 < dist32 base (tsn c) < 2 ^ 31 ∧ ¬ would_ack base b0 (tsn c)).
Context (Hroom : queued_bytes b0 + sum_with data_len cs < max_receive_buffer_size b0) (Hmax : max_receive_buffer_size b0 <= 2 ^ 32).

(** After some of the chunks. *)
Record arrived (P : list ChunkPayloadData) (q : ReassemblyQueue) (b : Association) : Prop := mk_arrived {
  ar_receiving : receiving b;
  ar_undisturbed : undisturbed b;
  ar_within : within base b;
  ar_ack t : uN 32 t → would_ack base b t ↔ would_ack base b0 t ∨ t ∈ tsn <$> P;
  ar_streams : streams b = <[si q0 := s <| reassembly_queue := q |>]> (streams b0);
  ar_bytes : queued_bytes b <= queued_bytes b0 + sum_with data_len P;
  ar_buffer : max_receive_buffer_size b = max_receive_buffer_size b0;
  ar_collecting : collecting (si q0) n t0 cs P q0 q;
}.

Lemma message_ssn : sna16lt n (next_ssn q0) = false.
Proof. destruct Hup as (_ & -> & _). unfold sna16lt. lia. Qed.

Lemma message_tsn c : c ∈ cs → uN 32 (tsn c) ∧ stream_identifier c = si q0.
Proof.
  intros Hc. split.
  - apply list_elem_of_lookup in Hc as [i Hi]. exact (proj2 (place_lookup _ _ _ _ Hmsg i c Hi)).
  - pose proof (mo_stream _ _ _ _ Hmsg) as H. rewrite Forall_forall in H. by apply H.
Qed.

Lemma message_tsn_inj (P R : list ChunkPayloadData) c : P ++ c :: R ≡ₚ cs → tsn c ∉ tsn <$> P.
Proof.
  intros HP Hin. assert (NoDup (tsn <$> cs)) as Hnd.
  { apply NoDup_alt. intros i j t Hi Hj. rewrite list_lookup_fmap in Hi, Hj.
    destruct (cs !! i) as [x|] eqn:Ei; [|done]. destruct (cs !! j) as [y|] eqn:Ej; [|done]. cbn in Hi, Hj.
    destruct (place_lookup _ _ _ _ Hmsg i x Ei) as [Px _]. destruct (place_lookup _ _ _ _ Hmsg j y Ej) as [Py _]. unfold place in *.
    assert (tsn x = tsn y) as E by congruence. rewrite E in Px. lia. }
  rewrite <- HP in Hnd. rewrite fmap_app, fmap_cons in Hnd. apply NoDup_app in Hnd as (_ & Hd & _). by apply (Hd (tsn c) Hin); left.
Qed.

Lemma arrive_one P c R q b :
  arrived P q b → P ++ c :: R ≡ₚ cs →
  ∃ q', holds False (handle_data c) (λ _ b', arrived (P ++ [c]) q' b' ∧ events b' = events b ++ Event.DatagramReceived ::
    (if bool_decide (R = []) && is_readable q' then [Event.Stream (StreamEvent.Readable (si q0))] else [])) (λ _ _, False) b.
Proof.
  intros [Hr Hu Hw Ha Es Hb Em Hc] HP. assert (c ∈ cs) as Hin by (rewrite <- HP; set_solver).
  destruct (message_tsn c Hin) as [Hcu Hci]. destruct (Hfresh c Hin) as [Hcd Hcn].
  destruct (push_fragment _ _ _ _ Hmsg message_ssn Hsize P c R q Hc HP) as (q' & Hpush & Hc'). exists q'.
  assert (¬ would_ack base b (tsn c)) as Hno.
  { rewrite (Ha _ Hcu). intros [?|?]; [done|]. by apply (message_tsn_inj P R c HP). }
  pose proof (wi_base _ _ Hw) as Hbu. pose proof (wi_point _ _ Hw) as Hwp. pose proof (inv_base _ _ (rv_queue _ Hr)) as Hxu.
  assert (dist32 base (peer_last_tsn b) < dist32 base (tsn c)) as Hlt.
  { destruct (Z.lt_ge_cases (dist32 base (peer_last_tsn b)) (dist32 base (tsn c))) as [|Hge]; [done|]. destruct Hno. left. lia. }
  assert (can_push (payload_queue b) c (peer_last_tsn b) = true) as Hcan.
  { unfold can_push. rewrite negb_true_iff, orb_false_iff, contains_key_false. split; [|clear -Hbu Hxu Hcu Hlt Hcd; sna].
    apply eq_None_not_Some. intros H. apply Hno. by right. }
  assert (sum_with data_len P + data_len c <= sum_with data_len cs) as Hsum.
  { rewrite <- (sum_with_Permutation _ _ _ HP), sum_with_app, sum_with_cons.
    pose proof (sum_with_nonneg data_len R ltac:(intros; apply data_len_nonneg)). lia. }
  set (s1 := s <| reassembly_queue := q |>).
  assert (streams b !! stream_identifier c = Some s1) as Hs1 by (by rewrite Hci, Es, lookup_insert_eq).
  assert (rq_push (reassembly_queue s1) c = Ok (bool_decide (R = []), q')) as Hp1 by exact Hpush.
  eapply holds_mono; [apply (handle_data_delivered c b s1 (bool_decide (R = [])) q' Hr Hu Hcu); try done; [clear -Hbu Hxu Hcu Hlt Hcd; sna|lia|lia]| |done].
  intros r b' Hdl. destruct (delivered_within base c _ _ _ b b' Hw Hr Hcu ltac:(lia) Hdl) as [Hw' Ha'].
  destruct Hdl as [D1 D2 D3 D4 D5 D6 D7]. rewrite Hci in D5, D6. split; [|done]. split; [done|done|done| | | |congruence|done].
  - intros t Ht. rewrite (Ha' t Ht), (Ha t Ht), fmap_app, elem_of_app. cbn [fmap list_fmap]. rewrite list_elem_of_singleton. tauto.
  - rewrite D5, Es. by rewrite insert_insert_eq.
  - pose proof (taken_bytes c b s1 (bool_decide (R = [])) q' Hs1 Hp1 b' ltac:(by rewrite D5, <- Hci)) as Hq. rewrite sum_with_app, sum_with_cons.
    change (sum_with data_len []) with 0. lia.
Qed.

Lemma arrive_rest R : ∀ P q b,
  arrived P q b → P ++ R ≡ₚ cs → R ≠ [] →
  holds False (arrive R) (λ _ b', ∃ q', arrived cs q' b' ∧ events b' = events b ++ replicate (length R) Event.DatagramReceived ++
    (if is_readable q' then [Event.Stream (StreamEvent.Readable (si q0))] else [])) (λ _ _, False) b.
Proof.
  induction R as [|c R IH]; intros P q b Ha HP Hne; [done|]. destruct (arrive_one P c R q b Ha HP) as (q1 & H1).
  unfold arrive. cbn [for_each]. apply holds_bind, holds_bind. eapply holds_mono; [exact H1| |done]. intros r b1 [Ha1 Ee1]. apply holds_ret.
  destruct R as [|c' R].
  - apply holds_ret. exists q1. rewrite Ee1. split; [|done]. destruct Ha1 as [? ? ? Hack ? Hb ? Hc]. split; try done.
    + intros t Ht. rewrite (Hack t Ht), HP. done.
    + by rewrite <- (sum_with_Permutation _ _ _ HP).
    + by apply (collecting_all _ _ _ _ (P ++ [c])).
  - eapply holds_mono; [apply (IH (P ++ [c]) q1 b1 Ha1); [by rewrite <- app_assoc|done]| |done].
    intros [] b2 (q2 & Ha2 & Ee2). exists q2. split; [done|]. rewrite Ee2, Ee1. rewrite bool_decide_false by done. cbn [andb].
    by rewrite <- app_assoc.
Qed.

(** The whole message. *)
Lemma message_arrives l :
  receiving b0 → undisturbed b0 → within base b0 → l ≡ₚ cs → cs ≠ [] →
  holds False (arrive l) (λ _ b', ∃ q', arrived cs q' b' ∧ events b' = events b0 ++ replicate (length l) Event.DatagramReceived ++
    [Event.Stream (StreamEvent.Readable (si q0))]) (λ _ _, False) b0.
Proof.
  intros Hr Hu Hw Hl Hne. eapply holds_mono; [apply (arrive_rest l [] q0 b0)| |done]; [| |by intros ->; apply Permutation_nil in Hl|].
  - destruct Hup as (_ & _ & Ho & _). split; try done.
    + intros t _. cbn. rewrite elem_of_nil. tauto.
    + rewrite insert_id; [done|]. rewrite Hs. f_equal. unfold q0. by destruct s.
    + change (sum_with data_len []) with 0. lia.
    + split; try done; unfold set_chunks; rewrite ?Ho; cbn; [done|constructor|apply NoDup_nil_2|lia].
  - done.
  - intros [] b' (q' & Ha & Ee). exists q'. split; [done|].
    destruct (collected_reads (si q0) n t0 cs q0 q' Hmsg Hup (ar_collecting _ _ _ Ha) Hne) as [Hread _]. by rewrite Ee, Hread.
Qed.
End Arrive.

(** ** The calls of the two applications *)

Section Calls.
Context {I : MapIter} {IL : MapIterLaws I} {B : BufApi} {BL : BufLaws B}.

(** Reading a message that is there, when the window has room. *)
Lemma read_message id b s m q :
  streams b !! id = Some s → can_read s = true → undisturbed b → rq_read (reassembly_queue s) = (Some m, q) →
  map_sum (λ s, wrap 32 (get_num_bytes_in_reassembly_queue s)) (<[id := s <| reassembly_queue := q |>]> (streams b)) < max_receive_buffer_size b →
  max_receive_buffer_size b <= 2 ^ 32 →
  ∃ b' s', read_sctp id b = ROk (Some m) b' ∧ streams b' = <[id := s']> (streams b) ∧ reassembly_queue s' = q ∧ events b' = events b ∧
    peer_last_tsn b' = peer_last_tsn b ∧ payload_queue b' = payload_queue b ∧ undisturbed b' ∧
    max_receive_buffer_size b' = max_receive_buffer_size b ∧ can_read s' = can_read s.
Proof.
  intros Hs Hcan Hu Hread Hroom Hmax. unfold read_sctp, get_stream. run. rewrite Hs, Hcan. cbn [negb]. rewrite Hread.
  unfold put_stream. run. set (b1 := b <| streams ::= _ |>).
  assert (undisturbed b1) as Hu1 by (by destruct Hu).
  assert ((if rq_get_num_bytes q =? 0 then finish_retiring_stream id else mret tt) b1 = ROk tt b1) as E1.
  { destruct (_ =? 0); [|done]. unfold finish_retiring_stream. run. by rewrite (ud_retiring _ Hu1), lookup_empty. }
  unfold mret, M_ret in E1. rewrite E1. unfold abort_if_exhausted. run.
  assert (queued_bytes b1 < max_receive_buffer_size b1) as Hlt by exact Hroom.
  unfold receive_capacity_exhausted. rewrite credit_returns by (done || (change (max_receive_buffer_size b1) with (max_receive_buffer_size b) in Hlt; lia)).
  cbn [mbind Outcome_bind]. assert ((saturating_sub (max_receive_buffer_size b1) (queued_bytes b1) =? 0) = false) as -> by (unfold saturating_sub; lia).
  cbn [andb]. unfold count_received. run. change (streams b1) with (<[id := s <| reassembly_queue := q |>]> (streams b)). rewrite lookup_insert_eq.
  change (ss_stats (s <| reassembly_queue := q |>)) with (ss_stats s). rewrite Z.eqb_refl. unfold put_stream. run.
  eexists _, (s <| reassembly_queue := q |> <| ss_stats ::= λ st, stats_received st (ppi m) (Chunks_len m) |>).
  split; [reflexivity|]. split; [|split_and!; try done; by destruct Hu1].
  change (<[id := s <| reassembly_queue := q |> <| ss_stats ::= λ st, stats_received st (ppi m) (Chunks_len m) |>]>
    (<[id := s <| reassembly_queue := q |>]> (streams b)) = <[id := s <| reassembly_queue := q |> <| ss_stats ::= λ st, stats_received st (ppi m) (Chunks_len m) |>]> (streams b)).
  by rewrite insert_insert_eq.
Qed.

(** The write of a message: its fragments wait to be sent. *)
Definition reliable_fragments (s : StreamState) (cs : list ChunkPayloadData) : list ChunkPayloadData :=
  (λ c, c <| reliability := Some (reliability_type s, reliability_value s) |>) <$> cs.

Record wrote (id : u16) (s : StreamState) (fs : list ChunkPayloadData) (a a' : Association) : Prop := mk_wrote {
  wr_pushed : ∃ q, oq_push (outbound_queue a) fs = Ok q ∧ outbound_queue a' = q;
  wr_next : my_next_tsn a' = my_next_tsn a;
  wr_cwnd : cwnd a' = cwnd a;
  wr_rwnd : rwnd a' = rwnd a;
  wr_state : state a' = state a ∧ max_send_message_size a' = max_send_message_size a ∧
    stream_reset_blocked a' id = stream_reset_blocked a id;
  wr_stream : ∃ st, streams a' !! id = Some (s <| ss_stats := st |>);
}.

Lemma write_message id a s raw ppi :
  state a = Established → stream_is_writable a id = true → streams a !! id = Some s → raw ≠ [] → len raw <= max_send_message_size a →
  0 < ss_max_payload_size s → next_message_id (outbound_queue a) + 1 < 2 ^ 64 →
  ∃ cs high a', packetize s raw ppi = Ok (high, cs, packetize_after s raw (sends_unordered s ppi)) ∧
    write_source id raw ppi a = ROk (len raw, []) a' ∧ wrote id (packetize_after s raw (sends_unordered s ppi)) (reliable_fragments s cs) a a'.
Proof.
  intros Hst Hw Hs Hraw Hlen Hmax Hid. destruct (packetize_fragments s raw ppi Hmax) as (cs & high & Hp & _ & Hd & _).
  set (s1 := packetize_after s raw (sends_unordered s ppi)) in *. exists cs, high.
  assert (cs ≠ []) as Hne by (intros ->; by destruct Hraw).
  assert (ByteSlice_pop_chunk raw (max_send_message_size a) = (raw, 1, [])) as Hpop.
  { unfold ByteSlice_pop_chunk. rewrite Z.min_r by lia. destruct (Z.eqb_spec (len raw) 0) as [E|_]; [destruct raw; [done|unfold len in E; cbn in E; lia]|].
    assert (Z.to_nat (len raw) = length raw) as -> by (unfold len; lia). rewrite take_ge by done. by rewrite drop_ge by done. }
  assert (∃ q, oq_push (outbound_queue a) (reliable_fragments s cs) = Ok q) as [q Hq].
  { unfold oq_push, reliable_fragments. destruct cs as [|c cs]; [done|]. cbn [fmap list_fmap]. unfold checked_add. rewrite (proj2 (Z.ltb_lt _ _) Hid). cbn [mbind Outcome_bind]. eauto. }
  unfold write_source, get_stream, put_stream. run. rewrite Hw. cbn [negb src_remaining ByteSlice_source]. unfold ByteSlice_remaining.
  destruct (Z.gtb_spec (len raw) (max_send_message_size a)); [lia|]. rewrite Hst. cbn [is_closing src_pop_chunk ByteSlice_source]. rewrite Hpop, Hs, Hp.
  unfold send_payload_data. run.
  match goal with |- context [state ?x] => change (state x) with (state a) end. rewrite Hst. rewrite bool_decide_true by done. cbn [negb].
  match goal with |- context [oq_push _ ?l] => change l with (reliable_fragments s1 cs) end.
  assert (reliable_fragments s1 cs = reliable_fragments s cs) as -> by (subst s1; unfold packetize_after; by destruct (sends_unordered s ppi)).
  match goal with |- context [oq_push ?x _] => change x with (outbound_queue a) end. rewrite Hq. rewrite bool_decide_false by done. cbn [negb].
  match goal with |- context [match streams ?x !! id with _ => _ end] => set (a1 := x) end.
  change (streams a1) with (<[id := s1]> (streams a)). rewrite lookup_insert_eq.
  set (a2 := a1 <| streams ::= _ |>).
  assert (wrote id s1 (reliable_fragments s cs) a a2) as [W1 W2 W3 W4 W5 W6].
  { split; try done; [by exists q|].
    exists (stats_sent (ss_stats s1) ppi (len raw)). change (streams a2) with
      (<[id := s1 <| ss_stats ::= λ st, stats_sent st ppi (len raw) |>]> (<[id := s1]> (streams a))). by rewrite lookup_insert_eq. }
  destruct high; eexists; (split; [done|]); (split; [reflexivity|]); 
    (constructor; [exact W1|exact W2|exact W3|exact W4|exact W5|exact W6]).
Qed.
End Calls.

(** ** From write to read *)

(** The sender: an open, ordered and reliable stream, nothing else pending, and room in both windows. *)
Record writer (id : u16) (s : StreamState) (raw : Bytes) (a : Association) : Prop := mk_writer {
  wt_state : state a = Established;
  wt_open : stream_is_writable a id = true;
  wt_stream : streams a !! id = Some s;
  wt_id : ss_stream_identifier s = id;
  wt_payload : 0 < ss_max_payload_size s;
  wt_ordered : ss_unordered s = false;
  wt_reliable : reliability_type s = Reliable;
  wt_size : raw ≠ [] ∧ len raw <= max_send_message_size a;
  wt_idle : queued (pending (outbound_queue a)) [];
  wt_flight t c : chunk_map (flight a) !! t = Some c → dependable c;
  wt_message_id : next_message_id (outbound_queue a) + 1 < 2 ^ 64;
  wt_cwnd : inflight_bytes (outbound_queue a) + len raw <= cwnd a;
  wt_rwnd : len raw <= rwnd a;
}.

(** The receiver: the stream is open, has handed out what came before, and there is room. *)
Record reader (id : u16) (s : StreamState) (n : u16) (raw : Bytes) (b : Association) : Prop := mk_reader {
  rd_receiving : receiving b;
  rd_undisturbed : undisturbed b;
  rd_stream : streams b !! id = Some s;
  rd_open : can_read s = true;
  rd_ready : caught_up (reassembly_queue s) id n (rq_max_message_size (reassembly_queue s));
  rd_size : len raw <= rq_max_message_size (reassembly_queue s);
  rd_bytes : 0 <= rq_n_bytes (reassembly_queue s);
  rd_room : queued_bytes b + len raw < max_receive_buffer_size b <= 2 ^ 32;
}.

(** ** The fragments on the wire *)

Lemma wire_sent now g : (∀ c t, wire_view (as_sent t now (g c)) = wire_view (c <| tsn := t |>)) → ∀ cs t0, uN 32 t0 →
  wire_view <$> sent_from t0 now (g <$> cs) = wire_view <$> numbered t0 cs.
Proof.
  intros Hg. unfold numbered. induction cs as [|c cs IH]; intros t0 Ht; [done|]. rewrite fmap_cons. cbn [sent_from]. rewrite imap_cons, !fmap_cons.
  rewrite Hg, IH by by apply wrap_uN. f_equal.
  - assert (wrapping_add 32 t0 (Z.of_nat 0) = t0) as -> by (clear -Ht; sna). done.
  - f_equal. apply imap_ext. intros i x _. unfold compose.
    assert (wrapping_add 32 (wrapping_add 32 t0 1) (Z.of_nat i) = wrapping_add 32 t0 (Z.of_nat (S i))) as ->; [|done].
    unfold wrapping_add, wrap. rewrite Zplus_mod_idemp_l. f_equal. lia.
Qed.

Lemma message_data_wire cs : message_data (wire_view <$> cs) = message_data cs.
Proof. induction cs as [|c cs IH]; [done|]. unfold message_data in *. cbn [fmap list_fmap flat_map]. by f_equal. Qed.

Lemma message_of_wire sid n t0 cs : message_of sid n t0 cs → message_of sid n t0 (wire_view <$> cs).
Proof.
  intros [[Hu Hf] Ht Hs H0 Hl]. split; [split| | |done|by unfold len; rewrite length_fmap].
  - by apply Forall_fmap.
  - intros i c Hc. rewrite length_fmap. rewrite list_lookup_fmap in Hc. destruct (cs !! i) as [x|] eqn:E; [|done]. injection Hc as <-. exact (Hf i x E).
  - intros i c Hc. rewrite list_lookup_fmap in Hc. destruct (cs !! i) as [x|] eqn:E; [|done]. injection Hc as <-. exact (Ht i x E).
  - by apply Forall_fmap.
Qed.

Section Written.
Context {I : MapIter} {IL : MapIterLaws I} {B : BufApi} {BL : BufLaws B}.

(** New chunks are told apart from what was received by their TSNs. *)
Lemma fresh_tsns a b (cs : list ChunkPayloadData) :
  sending a → receiving b → knows_only a b → consecutive_tsns (my_next_tsn a) cs →
  dist32 (cumulative_tsn_ack_point a) (my_next_tsn a) + len cs <= 2 ^ 31 →
  within (peer_last_tsn b) b ∧ ∀ c, c ∈ cs → 0 < dist32 (peer_last_tsn b) (tsn c) < 2 ^ 31 ∧ ¬ would_ack (peer_last_tsn b) b (tsn c).
Proof.
  intros Hs Hr Hk Hcs Hsp. pose proof (inv_base _ _ (sd_queue _ Hs)) as Hau. pose proof (inv_base _ _ (rv_queue _ Hr)) as Hbu.
  pose proof (sd_next _ Hs) as Hnu. pose proof (ko_point _ _ Hk) as Hkp. split.
  - split; [done|by rewrite dist32_self|]. intros t Ht Hw. rewrite would_ack_self in Hw. by destruct (queue_u32 b t Hr Hw).
  - intros c [i Hi]%list_elem_of_lookup. pose proof (Hcs i c Hi) as Hp. pose proof (lookup_lt_Some _ _ _ Hi) as Hlt. unfold len in Hsp.
    assert (uN 32 (tsn c)) as Hcu by (rewrite Hp; by apply wrap_uN).
    assert (dist32 (cumulative_tsn_ack_point a) (tsn c) = dist32 (cumulative_tsn_ack_point a) (my_next_tsn a) + Z.of_nat i) as Ed
      by (clear -Hau Hnu Hcu Hp Hlt Hsp; rewrite Hp; sna).
    rewrite would_ack_self. split; [|intros Hin; pose proof (ko_queue _ _ Hk _ Hin); lia].
    rewrite (dist32_past (cumulative_tsn_ack_point a) (peer_last_tsn b) (tsn c)) by (done || lia).
    pose proof (dist32_bounds (cumulative_tsn_ack_point a) (peer_last_tsn b)). lia.
Qed.

(** What waits to be sent after the write. *)
Definition as_pushed (s : StreamState) (id : u64) (c : ChunkPayloadData) : ChunkPayloadData :=
  c <| reliability := Some (reliability_type s, reliability_value s) |> <| message_id := id |>.

Lemma pushed_message fs0 s raw ppi cs high s' q q' :
  packetize s raw ppi = Ok (high, cs, s') → 0 < ss_max_payload_size s → sends_unordered s ppi = false → reliability_type s = Reliable →
  queued (pending q) fs0 → oq_push q (reliable_fragments s cs) = Ok q' → raw ≠ [] →
  let fs := as_pushed s (next_message_id q) <$> cs in
  rest_of_messages fs ∧ (∀ c, head fs = Some c → beginning_fragment c = true) ∧ queued (pending q') (fs0 ++ fs) ∧ inflight q' = inflight q ∧
  sum_with data_len fs = len raw ∧ fs ≠ [] ∧ next_message_id q' = next_message_id q + 1.
Proof.
  intros Hp Hmax Hu Hrel Hq Hpush Hraw fs. destruct (packetize_fragments s raw ppi Hmax) as (cs' & high' & Hp' & _ & Hd & [Hun Hf] & Hall).
  rewrite Hp in Hp'. injection Hp' as _ <- _. rewrite Hu in *.
  assert (cs ≠ []) as Hne by (intros ->; by destruct Hraw).
  assert (∀ (i : nat) c, fs !! i = Some c → beginning_fragment c = bool_decide (i = 0%nat) ∧ ending_fragment c = bool_decide (S i = length cs)) as Hfs.
  { intros i c Hc. unfold fs in Hc. rewrite list_lookup_fmap in Hc. destruct (cs !! i) as [x|] eqn:E; [|done]. injection Hc as <-. exact (Hf i x E). }
  assert (rest_of_messages fs) as Hrest.
  { split.
    - apply Forall_fmap. refine (List.Forall_impl _ _ Hall). intros c (_ & _ & _ & _ & H1 & H2 & H3 & _ & H4). split; [done|]. split; [done|].
      split; [done|]. split; [done|]. cbn. rewrite Hrel. eauto.
    - intros i c c' Hc Hc' He. destruct (Hfs i c Hc) as [_ E]. rewrite He in E. symmetry in E. apply bool_decide_eq_true in E.
      apply lookup_lt_Some in Hc'. unfold fs in Hc'. rewrite length_fmap in Hc'. lia. }
  assert (∀ c, head fs = Some c → beginning_fragment c = true) as Hhead.
  { intros c Hc. rewrite head_lookup in Hc. by destruct (Hfs 0%nat c Hc) as [-> _]. }
  assert (sum_with data_len fs = len raw) as Hsum.
  { rewrite <- Hd, len_message_data. unfold fs. clear. induction cs as [|c cs IH]; [done|]. rewrite fmap_cons, !sum_with_cons. by rewrite IH. }
  assert (fs ≠ []) as Hfne by (unfold fs; by destruct cs).
  split; [done|]. split; [done|].
  assert (pending q' = fold_left pn_push fs (pending q) ∧ inflight q' = inflight q ∧ next_message_id q' = next_message_id q + 1) as (Ep & Ei & En).
  { unfold oq_push, reliable_fragments in Hpush. unfold fs. clear -Hpush Hne. destruct cs as [|c0 cs0]; [done|]. cbn [fmap list_fmap] in Hpush |- *.
    apply bind_Ok in Hpush as (nx & Hnx & [= <-]). unfold checked_add in Hnx. destruct (_ <? _) in Hnx; [|done]. injection Hnx as <-.
    cbn. split; [|done]. by rewrite <- list_fmap_compose. }
  split; [|by rewrite Ei]. rewrite Ep.
  rewrite (pn_push_all false) by (refine (List.Forall_impl _ _ (proj1 Hrest)); by intros c [? _]).
  destruct Hq as [-> -> -> -> Ht]. split; cbn -[sum_with len]; [done|done|by rewrite len_app|by rewrite sum_with_app|].
  destruct (selected (pending q)); [done|]. intros c Hc. destruct fs0 as [|c0 fs0]; [by apply Hhead|by apply Ht].
Qed.

(** The poll after the write sends the whole message. *)
Lemma poll_message now fs a :
  rest_of_messages fs → queued (pending (outbound_queue a)) fs → (∀ t c, chunk_map (flight a) !! t = Some c → dependable c) → fs ≠ [] →
  inflight_bytes (outbound_queue a) + sum_with data_len fs <= cwnd a → sum_with data_len fs <= rwnd a →
  ∃ a', pop_pending_data_chunks_to_send now a = ROk (sent_from (my_next_tsn a) now fs) a'.
Proof.
  intros Hf Hq Hd Hne Hc Hr. assert (steadfast a) as Hst by (split; [by eapply queued_pristine|done]).
  pose proof (expire_inflight_steadfast now a Hst) as He. unfold holds in He. unfold pop_pending_data_chunks_to_send. run.
  destruct (expire_inflight_messages now a) as [[] a1| | |]; try done. destruct He as (q & -> & Ep & Ei).
  set (a1 := a <| outbound_queue := q |>). change (outbound_queue a1) with q.
  assert (pending_len q =? 0 = false) as ->.
  { unfold pending_len, pn_len. rewrite Ep, (qd_len _ _ Hq). destruct fs; [done|]. rewrite len_cons. pose proof (len_nonneg fs). lia. }
  assert (queued (pending q) fs) as Hq1 by (by rewrite Ep).
  destruct (pop_loop_queued now (pending_fuel a1) fs a1) as (a' & E); try done.
  - unfold pending_fuel. change (outbound_queue a1) with q. rewrite (qd_ordered _ _ Hq1), (qd_unordered _ _ Hq1). rewrite ?length_app. cbn. lia.
  - change (inflight_bytes (outbound_queue a1)) with (pq_get_num_bytes (inflight q)). rewrite Ei. exact Hc.
  - change (my_next_tsn a1) with (my_next_tsn a) in E. rewrite E. rewrite bool_decide_false by (by destruct fs). exists a'. reflexivity.
Qed.

(** Claim C2.  A message written on one end is read on the other.  On an open, ordered and reliable stream,
    with nothing else pending and room in the windows of both ends: the write takes the whole
    message, the next poll sends it as chunks with consecutive TSNs, and in whatever order the peer
    receives them, as the wire carries them, it reports the stream as readable once, after the last
    one, and the next read gives exactly the message; the peer then acknowledges these
    chunks besides what it did before, and the stream waits for the next message. *)
Theorem written_message_is_read id s sb raw ppi now a b :
  sending a → writer id s raw a → reader id sb (sequence_number s) raw b → knows_only a b →
  dist32 (cumulative_tsn_ack_point a) (my_next_tsn a) + len raw <= 2 ^ 31 → len raw < 2 ^ 31 →
  ∃ a1 cs a2, write_source id raw ppi a = ROk (len raw, []) a1 ∧ pop_pending_data_chunks_to_send now a1 = ROk cs a2 ∧
    ∀ l, l ≡ₚ wire_view <$> cs → ∃ b1 m b2 s',
      arrive l b = ROk tt b1 ∧
      events b1 = events b ++ replicate (length l) Event.DatagramReceived ++ [Event.Stream (StreamEvent.Readable id)] ∧
      (∀ t, uN 32 t → would_ack (peer_last_tsn b) b1 t ↔ would_ack (peer_last_tsn b) b t ∨ t ∈ tsn <$> cs) ∧
      read_sctp id b1 = ROk (Some m) b2 ∧ message_data (cs_chunks m) = raw ∧
      streams b2 = <[id := s']> (streams b) ∧
      caught_up (reassembly_queue s') id (wrapping_add 16 (sequence_number s) 1) (rq_max_message_size (reassembly_queue sb)).
Proof.
  intros Hs Hw Hr Hk Hsp Hshort. destruct (wt_size _ _ _ _ Hw) as [Hraw Hlen].
  assert (sends_unordered s ppi = false) as Hun by (unfold sends_unordered; rewrite (wt_ordered _ _ _ _ Hw); by destruct (bool_decide _)).
  destruct (write_message id a s raw ppi (wt_state _ _ _ _ Hw) (wt_open _ _ _ _ Hw) (wt_stream _ _ _ _ Hw) Hraw Hlen (wt_payload _ _ _ _ Hw)
    (wt_message_id _ _ _ _ Hw)) as (ps & high & a1 & Hp & Ew & [(q1 & Eq1 & Eo) Wn Wc Wr _ _]).
  rewrite Hun in Hp. set (fs := as_pushed s (next_message_id (outbound_queue a)) <$> ps).
  destruct (pushed_message [] s raw ppi ps high _ (outbound_queue a) q1 Hp (wt_payload _ _ _ _ Hw) Hun (wt_reliable _ _ _ _ Hw) (wt_idle _ _ _ _ Hw) Eq1 Hraw)
    as (Hf & _ & Hq & Ei & Hsum & Hne & _). fold fs in Hf, Hq, Hsum, Hne. cbn [app] in Hq.
  pose proof (sd_next _ Hs) as Hnu.
  destruct (poll_message now fs a1 Hf) as (a2 & E2); rewrite ?Eo, ?Wc, ?Wr, ?Hsum.
  { done. }
  { intros t c. unfold flight. rewrite Eo, Ei. apply (wt_flight _ _ _ _ Hw). }
  { done. }
  { unfold inflight_bytes. rewrite Ei. apply (wt_cwnd _ _ _ _ Hw). }
  { apply (wt_rwnd _ _ _ _ Hw). }
  rewrite Wn in E2. exists a1, (sent_from (my_next_tsn a) now fs), a2. split; [done|]. split; [done|]. intros l Hl.
  assert (wire_view <$> sent_from (my_next_tsn a) now fs = wire_view <$> numbered (my_next_tsn a) ps) as Ewire by (by apply wire_sent).
  set (ws := wire_view <$> numbered (my_next_tsn a) ps) in *. rewrite Ewire in Hl.
  assert (message_of id (sequence_number s) (my_next_tsn a) ws) as Hmsg.
  { apply message_of_wire. rewrite <- (wt_id _ _ _ _ Hw). eapply packetize_message_of; try done. apply (wt_payload _ _ _ _ Hw). }
  assert (message_data ws = raw) as Hd.
  { unfold ws. rewrite message_data_wire, message_data_numbered.
    destruct (packetize_fragments s raw ppi (wt_payload _ _ _ _ Hw)) as (? & ? & Hp' & _ & Hd & _). rewrite Hun, Hp in Hp'. by injection Hp' as _ <-. }
  assert (sum_with data_len ws = len raw ∧ ws ≠ []) as [Hws Hwne] by (split; [by rewrite <- len_message_data, Hd|intros E; rewrite E in Hd; by destruct Hraw]).
  assert (len ws <= len raw) as Hcount.
  { assert (len ws = len ps) as -> by (unfold ws, numbered, len; by rewrite length_fmap, length_imap). by apply (packetize_count s raw ppi ps high _ Hp (wt_payload _ _ _ _ Hw)). }
  destruct (fresh_tsns a b ws Hs (rd_receiving _ _ _ _ _ Hr) Hk (mo_tsns _ _ _ _ Hmsg)) as [Hwi Hfresh]; [lia|].
  destruct Hr as [R1 R2 R3 R4 R5 R6 R7 R8]. pose proof R5 as (Esi & _).
  rewrite <- Esi in Hmsg, R5. rewrite <- Hws in R6.
  pose proof (message_arrives b sb (sequence_number s) (my_next_tsn a) ws Hmsg R5 R6 ltac:(by rewrite Esi) Hfresh ltac:(lia) ltac:(lia) l R1 R2 Hwi Hl Hwne) as Ha.
  unfold holds in Ha. destruct (arrive l b) as [[] b1| | |]; try done. destruct Ha as (q' & [A1 A2 A3 A4 A5 A6 A7 A8] & Ee). rewrite Esi in A5, Ee.
  destruct (collected_reads _ _ _ _ _ q' Hmsg R5 A8 Hwne) as (_ & m & q2 & Hread & Hm & Hcu & Hby). specialize (Hby R7).
  destruct (read_message id b1 (sb <| reassembly_queue := q' |>) m q2) as (b2 & s' & Er & Es & Eq & _); try done.
  { by rewrite A5, lookup_insert_eq. }
  { rewrite A5, insert_insert_eq, (map_sum_replace _ _ _ _ _ R3), A7. fold (queued_bytes b). pose proof (len_nonneg raw).
    change (get_num_bytes_in_reassembly_queue (sb <| reassembly_queue := q' |> <| reassembly_queue := q2 |>)) with (rq_n_bytes q2).
    change (get_num_bytes_in_reassembly_queue sb) with (rq_n_bytes (reassembly_queue sb)). rewrite Hby. lia. }
  { rewrite A7. lia. }
  exists b1, m, b2, s'. split; [done|]. split; [done|]. split.
  { intros t Ht. rewrite (A4 t Ht). f_equiv. assert (tsn <$> sent_from (my_next_tsn a) now fs = tsn <$> ws) as ->; [|done].
    rewrite <- Ewire, <- list_fmap_compose. done. }
  split; [done|]. split; [by rewrite Hm|]. split; [by rewrite Es, A5, insert_insert_eq|]. rewrite Eq, <- Esi. exact Hcu.
Qed.
End Written.

(** ** Five bytes in three chunks *)

Definition demo_writer : Association :=
  Association_default <| state := Established |> <| cumulative_tsn_ack_point := 9 |> <| advanced_peer_tsn_ack_point := 9 |> <| my_next_tsn := 10 |>
    <| cwnd := 4380 |> <| rwnd := 1000 |> <| max_send_message_size := 65536 |> <| streams := {[ 5 := sample_stream ]} |>.

Definition demo_reader : Association :=
  Association_default <| state := Established |> <| peer_last_tsn := 9 |> <| max_receive_buffer_size := 65536 |>
    <| streams := {[ 5 := StreamState_new Server 5 1200 65536 Binary ]} |>.

Lemma demo_writer_sending : sending demo_writer.
Proof.
  refine (mk_sending demo_writer _ _ _ _); [apply pq_inv_new; by vm_compute|by vm_compute| |by vm_compute].
  intros t _. change (is_Some ((∅ : gmap Z ChunkPayloadData) !! t) ↔ 0 < dist32 9 t < 1). rewrite lookup_empty. split; [by intros []|lia].
Qed.

Lemma demo_writer_ready : writer 5 sample_stream [1; 2; 3; 4; 5] demo_writer.
Proof. constructor; try reflexivity; by vm_compute. Qed.

Lemma demo_reader_ready : reader 5 (StreamState_new Server 5 1200 65536 Binary) 0 [1; 2; 3; 4; 5] demo_reader.
Proof.
  constructor; try reflexivity; try (by vm_compute). constructor; [apply pq_inv_new; by vm_compute|reflexivity..].
Qed.

Lemma written_message_is_read_witness :
  ∃ a1 cs a2, @write_source list_buf Bytes ByteSlice_source 5 [1; 2; 3; 4; 5] Binary demo_writer = ROk (len [1; 2; 3; 4; 5], []) a1 ∧
    pop_pending_data_chunks_to_send 0 a1 = ROk cs a2 ∧ ∀ l, l ≡ₚ wire_view <$> cs → ∃ b1 m b2,
      @arrive list_iter l demo_reader = ROk tt b1 ∧ @read_sctp list_iter 5 b1 = ROk (Some m) b2 ∧ message_data (cs_chunks m) = [1; 2; 3; 4; 5].
Proof.
  destruct (@written_message_is_read list_iter list_iter_laws list_buf list_buf_laws 5 sample_stream (StreamState_new Server 5 1200 65536 Binary)
    [1; 2; 3; 4; 5] Binary 0 demo_writer demo_reader) as (a1 & cs & a2 & E1 & E2 & H).
  - exact demo_writer_sending.
  - exact demo_writer_ready.
  - exact demo_reader_ready.
  - constructor; [by vm_compute|]. intros t [c Hc]. change ((∅ : gmap Z ChunkPayloadData) !! t = Some c) in Hc. by rewrite lookup_empty in Hc.
  - by vm_compute.
  - by vm_compute.
  - exists a1, cs, a2. split; [exact E1|]. split; [exact E2|]. intros l Hl. destruct (H l Hl) as (b1 & m & b2 & s' & H1 & _ & _ & H2 & H3 & _).
    exists b1, m, b2. exact (conj H1 (conj H2 H3)).
Defined.
