(* ===== verification/AssocOrder.v ===== *)
(** * Messages in order

    Several messages written on one stream, sent together, their chunks lost,
    repeated and reordered on the way while the peer's application reads.
    The first part follows the receiver through such a run, the second the
    sender through the writes and the poll, the third puts both together. *)

From stdpp Require Import base list gmap numbers strings sets sorting.
From Stdlib Require Import ZArith Lia ZifyBool.
From S2P Require Import Prelude Bytes Util Params Chunks ChunksRoundtrip Packet PayloadQueue PayloadRun PendingQueue OutboundQueue.
From S2P Require Import ReassemblyQueue ReassemblyOrder Shared Stream Monad Timer Config Association AssocReset AssocRecv AssocSend AssocControl.
From S2P Require Import AssocFrame AssocAck AssocSack AssocReliable AssocForward AssocMessage.

(** ** The receiver *)

(** What happens at the receiver, in order: a DATA chunk comes in, or the application reads. *)
Inductive happening := Arrives (d : ChunkPayloadData) | Reads.

Section Receiver.
Context {I : MapIter} {IL : MapIterLaws I}.

(** The messages the application got. *)
Fixpoint receive (id : u16) (l : list happening) : AM (list Bytes) :=
  match l with
  | [] => mret []
  | Arrives d :: l => handle_data d;; receive id l
  | Reads :: l =>
      o ← read_sctp id;
      got ← receive id l;
      mret (match o with Some m => message_data (cs_chunks m) :: got | None => got end)
  end.

(** A chunk that is there already changes nothing but what a SACK is sent for. *)
Lemma repeated_data d b :
  receiving b → undisturbed b → can_push (payload_queue b) d (peer_last_tsn b) = false →
  queued_bytes b < max_receive_buffer_size b → max_receive_buffer_size b <= 2 ^ 32 →
  holds False (handle_data d) (λ _ b', receiving b' ∧ undisturbed b' ∧ peer_last_tsn b' = peer_last_tsn b ∧
    (∀ t, uN 32 t → is_Some (chunk_map (payload_queue b') !! t) ↔ is_Some (chunk_map (payload_queue b) !! t)) ∧
    streams b' = streams b ∧ max_receive_buffer_size b' = max_receive_buffer_size b) (λ _ _, False) b.
Proof.
  intros Hrv Hud Hcan Hroom Hmax. unfold handle_data, admit_data. apply holds_bind, holds_modify. set (b0 := b <| stats ::= inc_datas |>).
  assert (undisturbed b0) as Hu0 by (by destruct Hud). apply holds_bind, holds_bind, holds_self.
  rewrite (not_above_reset d b0 Hu0), andb_false_r. change (payload_queue b0) with (payload_queue b). change (peer_last_tsn b0) with (peer_last_tsn b).
  rewrite Hcan. apply holds_ret.
  eapply holds_mono; [apply (acknowledge_receives b0); [exact (rv_queue _ Hrv)|exact (rv_base _ Hrv)|done|]| |].
  - change (queued_bytes b0) with (queued_bytes b). lia.
  - intros r b' (Hr & E1 & _ & E3).
    assert (after_data d b b' false) as [A1 A2 A3 A4 _ _] by (revert Hr; apply received_after; [done|naive_solver|done|intros [? _]; congruence]).
    pose proof (inv_base _ _ (rv_queue _ Hrv)) as Hxu. pose proof (inv_base _ _ (rv_queue _ A1)) as Hyu.
    assert (peer_last_tsn b' = peer_last_tsn b) as Ep.
    { destruct (decide (dist32 (peer_last_tsn b) (peer_last_tsn b') = 0)) as [E0|Hne]; [clear -Hxu Hyu E0; sna|].
      pose proof (dist32_bounds (peer_last_tsn b) (peer_last_tsn b')). exfalso.
      assert (would_ack (peer_last_tsn b) b (next_tsn (peer_last_tsn b))) as Hw.
      { assert (dist32 (peer_last_tsn b) (next_tsn (peer_last_tsn b)) = 1) as E1' by (unfold next_tsn; clear -Hxu; sna).
        destruct (proj1 (A4 (next_tsn (peer_last_tsn b)) ltac:(by apply wrap_uN))) as [?|[? _]]; [|done..]. left. rewrite E1'. lia. }
      rewrite would_ack_self, (rv_next _ Hrv) in Hw. by destruct Hw. }
    split_and!; try done. intros t Ht. pose proof (A4 t Ht) as Hw. rewrite <- Ep in Hw at 1. rewrite would_ack_self, would_ack_self in Hw. naive_solver.
  - intros e b' [_ Hex]. change (queued_bytes b0) with (queued_bytes b) in Hex. change (max_receive_buffer_size b0) with (max_receive_buffer_size b) in Hex. lia.
Qed.
Context (b0 : Association) (id n : u16) (s0 : StreamState) (Ms : list (u32 * list ChunkPayloadData)).
Let q0 := reassembly_queue s0.
Let base := peer_last_tsn b0.
Let all := concat Ms.*2.
Context (Hn : uN 16 n) (Hcount : Z.of_nat (length Ms) <= 2 ^ 15).
Context (Hmsgs : ∀ k t M, Ms !! k = Some (t, M) → message_of id (nth_ssn n k) t M ∧ M ≠ [] ∧ sum_with data_len M <= rq_max_message_size q0).
Context (Hinj : ∀ c c', c ∈ all → c' ∈ all → tsn c = tsn c' → c = c').
Context (Hfresh : ∀ c, c ∈ all → 0 < dist32 base (tsn c) < 2 ^ 31 ∧ ¬ would_ack base b0 (tsn c)).
Context (Hs : streams b0 !! id = Some s0) (Hbytes : 0 <= rq_n_bytes q0 < 2 ^ 32).
Context (Hroom : queued_bytes b0 + sum_with data_len all < max_receive_buffer_size b0) (Hmax : max_receive_buffer_size b0 <= 2 ^ 32).

(** The first [r] messages are read, the chunks [P] have come in. *)
Record taking (r : nat) (P : list ChunkPayloadData) (b : Association) : Prop := mk_taking {
  tk_receiving : receiving b;
  tk_undisturbed : undisturbed b;
  tk_within : within base b;
  tk_ack t : uN 32 t → would_ack base b t ↔ would_ack base b0 t ∨ t ∈ tsn <$> P;
  tk_stream : ∃ s, streams b = <[id := s]> (streams b0) ∧ can_read s = true ∧
    holding id n (rq_max_message_size q0) Ms (rq_n_bytes q0) r P (reassembly_queue s);
  tk_bytes : queued_bytes b <= queued_bytes b0 + sum_with data_len P;
  tk_buffer : max_receive_buffer_size b = max_receive_buffer_size b0;
  tk_nodup : NoDup P;
  tk_all c : c ∈ P → c ∈ all;
}.

Lemma all_message c : c ∈ all ↔ ∃ k t M, Ms !! k = Some (t, M) ∧ c ∈ M.
Proof.
  unfold all. rewrite list_elem_of_In, in_concat. split.
  - intros (M & HM & Hc). apply list_elem_of_In in HM, Hc. apply list_elem_of_fmap in HM as ([t M'] & -> & HM).
    apply list_elem_of_lookup in HM as [k Hk]. eauto.
  - intros (k & t & M & HM & Hc). exists M. rewrite <- !list_elem_of_In. split; [|done]. apply list_elem_of_fmap. exists (t, M). split; [done|].
    by eapply list_elem_of_lookup_2.
Qed.

Lemma all_u32 c : c ∈ all → uN 32 (tsn c).
Proof.
  intros (k & t & M & HM & Hc)%all_message. destruct (Hmsgs k t M HM) as [Hmsg _]. by destruct (place_in _ _ _ _ Hmsg c Hc).
Qed.

Lemma taking_room r P b : taking r P b → queued_bytes b < max_receive_buffer_size b ∧ max_receive_buffer_size b <= 2 ^ 32.
Proof.
  intros Ht. rewrite (tk_buffer _ _ _ Ht). split; [|done]. pose proof (tk_bytes _ _ _ Ht).
  pose proof (sum_part P all (tk_nodup _ _ _ Ht) (tk_all _ _ _ Ht)). lia.
Qed.

Lemma taking_start :
  receiving b0 → undisturbed b0 → within base b0 → can_read s0 = true → caught_up q0 id n (rq_max_message_size q0) → taking 0 [] b0.
Proof.
  intros Hr Hu Hw Hcan (E1 & E2 & E3 & E4 & _). split; try done.
  - intros t _. cbn. rewrite elem_of_nil. tauto.
  - exists s0. split; [by rewrite insert_id|]. split; [done|]. apply holding_new; (done || lia).
  - change (sum_with data_len []) with 0. lia.
  - apply NoDup_nil_2.
  - intros c ?%elem_of_nil. done.
Qed.

(** A chunk that was received before. *)
Lemma take_again r P b d :
  taking r P b → d ∈ P → holds False (handle_data d) (λ _ b', taking r P b') (λ _ _, False) b.
Proof.
  intros Ht Hd. destruct (taking_room r P b Ht) as [Hlt Hm]. pose proof (all_u32 d (tk_all _ _ _ Ht d Hd)) as Hdu.
  destruct Ht as [Hr Hu Hw Ha Hst Hb Em Hnd Hall].
  assert (would_ack base b (tsn d)) as Hwd by (apply Ha; [done|]; right; by apply list_elem_of_fmap_2).
  assert (can_push (payload_queue b) d (peer_last_tsn b) = false) as Hcan.
  { apply not_true_iff_false. intros [Hnone Hl]%can_push_true. destruct Hwd as [Hwd|[x Hx]]; [|congruence].
    pose proof (wi_base _ _ Hw) as Hbu. pose proof (wi_point _ _ Hw) as Hwp. pose proof (inv_base _ _ (rv_queue _ Hr)) as Hxu. clear -Hl Hwd Hbu Hwp Hxu Hdu. sna. }
  eapply holds_mono; [by apply repeated_data| |done]. intros _ b' (R1 & R2 & R3 & R4 & R5 & R6).
  assert (∀ t, uN 32 t → would_ack base b' t ↔ would_ack base b t) as Hsame by (intros t Hut; unfold would_ack; by rewrite R3, (R4 t Hut)).
  split; try done; [|by intros t Hut; rewrite (Hsame t Hut); apply Ha|by rewrite R5|unfold queued_bytes; by rewrite R5|congruence].
  destruct Hw as [W1 W2 W3]. split; [done|by rewrite R3|]. intros t Hut. rewrite (Hsame t Hut). by apply W3.
Qed.

(** A chunk that is new. *)
Lemma take_new r P b d :
  taking r P b → d ∈ all → d ∉ P → holds False (handle_data d) (λ _ b', taking r (P ++ [d]) b') (λ _ _, False) b.
Proof.
  intros Ht Hd HdP. pose proof (all_u32 d Hd) as Hdu. destruct (Hfresh d Hd) as [Hdd Hdn]. destruct Ht as [Hr Hu Hw Ha (s & Es & Hcan & Hq) Hb Em Hnd Hall].
  destruct (proj1 (all_message d) Hd) as (k & t & M & HM & HdM). destruct (Hmsgs k t M HM) as (Hmsg & _ & _).
  pose proof (mo_stream _ _ _ _ Hmsg) as Hms. rewrite Forall_forall in Hms. destruct (Hms d HdM) as [Hid _].
  destruct (holding_push _ _ _ _ _ Hn Hcount Hmsgs r P _ k t M d Hq HM HdM HdP) as (ok & q' & Hpush & Hq').
  assert (NoDup (P ++ [d])) as Hnd'.
  { apply NoDup_app. split; [done|]. split; [|apply NoDup_singleton]. intros x Hx. rewrite list_elem_of_singleton. by intros ->. }
  assert (∀ c, c ∈ P ++ [d] → c ∈ all) as Hall' by (intros c; rewrite elem_of_app, list_elem_of_singleton; intros [?| ->]; auto).
  pose proof (sum_part (P ++ [d]) all Hnd' Hall') as Hsum. rewrite sum_with_app, sum_with_cons in Hsum. change (sum_with data_len []) with 0 in Hsum.
  assert (¬ would_ack base b (tsn d)) as Hno.
  { rewrite (Ha _ Hdu). intros [?|(c & E & Hc)%list_elem_of_fmap]; [done|]. destruct HdP. by rewrite (Hinj d c Hd (Hall c Hc) E). }
  pose proof (wi_base _ _ Hw) as Hbu. pose proof (wi_point _ _ Hw) as Hwp. pose proof (inv_base _ _ (rv_queue _ Hr)) as Hxu.
  assert (dist32 base (peer_last_tsn b) < dist32 base (tsn d)) as Hlt.
  { destruct (Z.lt_ge_cases (dist32 base (peer_last_tsn b)) (dist32 base (tsn d))) as [|Hge]; [done|]. destruct Hno. left. lia. }
  assert (can_push (payload_queue b) d (peer_last_tsn b) = true) as Hcp.
  { unfold can_push. rewrite negb_true_iff, orb_false_iff, contains_key_false. split; [|clear -Hbu Hxu Hdu Hlt Hdd; sna].
    apply eq_None_not_Some. intros H. apply Hno. by right. }
  assert (streams b !! stream_identifier d = Some s) as Hs1 by (by rewrite Hid, Es, lookup_insert_eq).
  eapply holds_mono; [apply (handle_data_delivered d b s ok q' Hr Hu Hdu); try done; [clear -Hbu Hxu Hdu Hlt Hdd; sna|lia|lia]| |done].
  intros rp b' Hdl. destruct (delivered_within base d _ _ _ b b' Hw Hr Hdu ltac:(lia) Hdl) as [Hw' Ha'].
  destruct Hdl as [D1 D2 D3 D4 D5 D6 D7]. split; [done|done|done| | | |congruence|done|done].
  - intros x Hx. rewrite (Ha' x Hx), (Ha x Hx), fmap_app, elem_of_app. cbn [fmap list_fmap]. rewrite list_elem_of_singleton. tauto.
  - exists (s <| reassembly_queue := q' |>). rewrite D5, Hid, Es, insert_insert_eq. done.
  - pose proof (taken_bytes d b s ok q' Hs1 Hpush b' ltac:(by rewrite D5)) as Hb'. rewrite sum_with_app, sum_with_cons.
    change (sum_with data_len []) with 0. lia.
Qed.
(** A read that finds nothing. *)
Lemma read_nothing b s :
  streams b !! id = Some s → can_read s = true → rq_read (reassembly_queue s) = (None, reassembly_queue s) →
  ∃ b', read_sctp id b = ROk None b' ∧ b' = b.
Proof.
  intros Es Hcan Hread. unfold read_sctp, get_stream. run. rewrite Es, Hcan. cbn [negb]. rewrite Hread. unfold put_stream. run.
  eexists. split; [reflexivity|].
  assert (<[id := s <| reassembly_queue := reassembly_queue s |>]> (streams b) = streams b) as E.
  { apply insert_id. rewrite Es. f_equal. by destruct s. }
  transitivity (b <| streams := <[id := s <| reassembly_queue := reassembly_queue s |>]> (streams b) |>); [done|]. rewrite E. by destruct b.
Qed.

(** The next message when all of it is there, nothing before. *)
Lemma take_read r P b :
  taking r P b →
  holds False (read_sctp id) (λ o b', match o with
    | None => taking r P b' ∧ ∀ t M, Ms !! r = Some (t, M) → ∃ c, c ∈ M ∧ c ∉ P
    | Some m => ∃ t M, Ms !! r = Some (t, M) ∧ cs_chunks m = M ∧ taking (S r) P b'
    end) (λ _ _, False) b.
Proof.
  intros Ht. destruct (taking_room r P b Ht) as [Hlt Hm]. pose proof (sum_part P all (tk_nodup _ _ _ Ht) (tk_all _ _ _ Ht)) as Hsum.
  destruct (tk_stream _ _ _ Ht) as (s & Es & Hcan & Hq).
  assert (streams b !! id = Some s) as Hsb by (by rewrite Es, lookup_insert_eq).
  destruct (holding_read _ _ _ _ _ Hn Hcount Hmsgs r P _ Hq) as [[Hread Hmiss]|(t & M & m & q' & HM & Hread & Hcs & Hq' & Hle)].
  { destruct (read_nothing b s Hsb Hcan Hread) as (b' & E & ->). unfold holds. by rewrite E. }
  assert (get_num_bytes_in_reassembly_queue (s <| reassembly_queue := q' |>) = rq_n_bytes q' ∧
    get_num_bytes_in_reassembly_queue s = rq_n_bytes (reassembly_queue s)) as [G1 G2] by done.
  assert (map_sum (λ s, wrap 32 (get_num_bytes_in_reassembly_queue s)) (<[id := s <| reassembly_queue := q' |>]> (streams b)) <= queued_bytes b) as Hsm.
  { rewrite (map_sum_replace _ _ _ _ _ Hsb). fold (queued_bytes b). rewrite G1, G2.
    pose proof (ho_bytes _ _ _ _ _ _ _ _ Hq). pose proof (ho_bytes _ _ _ _ _ _ _ _ Hq').
    assert (wrap 32 (rq_n_bytes q0) <= queued_bytes b0) as Hq0.
    { unfold queued_bytes. rewrite (map_sum_delete _ _ _ _ Hs). change (get_num_bytes_in_reassembly_queue s0) with (rq_n_bytes q0).
      pose proof (map_sum_nonneg (λ s, wrap 32 (get_num_bytes_in_reassembly_queue s)) (delete id (streams b0)) ltac:(intros x; apply wrap_uN; lia)). lia. }
    rewrite wrap_small in Hq0 by (unfold uN; lia). rewrite !wrap_small by (unfold uN; lia). lia. }
  destruct (read_message id b s m q' Hsb Hcan (tk_undisturbed _ _ _ Ht) Hread) as (b' & s' & Er & S1 & S2 & _ & S4 & S5 & S6 & S7 & S8); [lia|lia|].
  unfold holds. rewrite Er. exists t, M. split; [done|]. split; [done|]. destruct Ht as [Hr Hu Hw Ha _ Hb Em Hnd Hall].
  split; try done.
  - split; rewrite S4, S5; by destruct Hr.
  - destruct Hw as [W1 W2 W3]. split; [done|by rewrite S4|]. intros x Hx. unfold would_ack. rewrite S4, S5. by apply W3.
  - intros x Hx. rewrite <- (Ha x Hx). unfold would_ack. by rewrite S4, S5.
  - exists s'. rewrite S1, Es, insert_insert_eq. split; [done|]. split; [congruence|]. by rewrite S2.
  - assert (queued_bytes b' = map_sum (λ s, wrap 32 (get_num_bytes_in_reassembly_queue s)) (<[id := s <| reassembly_queue := q' |>]> (streams b))) as ->; [|lia].
    unfold queued_bytes. rewrite S1, !(map_sum_replace _ _ _ _ _ Hsb). f_equal. f_equal.
    change (get_num_bytes_in_reassembly_queue s') with (rq_n_bytes (reassembly_queue s')). by rewrite S2.
  - congruence.
Qed.

Let written := message_data <$> Ms.*2.

Lemma take_more r t M : Ms !! r = Some (t, M) → take (S r) written = take r written ++ [message_data M].
Proof. intros HM. apply take_S_r. unfold written. by rewrite !list_lookup_fmap, HM. Qed.

(** Any arrivals and reads. *)
Lemma receive_prefix l : ∀ r P b,
  taking r P b → (r <= length Ms)%nat → (∀ d, Arrives d ∈ l → d ∈ all) →
  holds False (receive id l) (λ got b', ∃ r' P', taking r' P' b' ∧ (r' <= length Ms)%nat ∧ take r' written = take r written ++ got ∧
    ∀ c, c ∈ P ∨ Arrives c ∈ l → c ∈ P') (λ _ _, False) b.
Proof.
  induction l as [|[d|] l IH]; intros r P b Ht Hr Hl; cbn [receive].
  - apply holds_ret. exists r, P. rewrite app_nil_r. split_and!; try done. intros c [?|?%elem_of_nil]; done.
  - assert (d ∈ all) as Hd by (apply Hl; left). apply holds_bind.
    assert (∃ P1, (∀ c, c ∈ P ∨ c = d → c ∈ P1) ∧ holds False (handle_data d) (λ _ b', taking r P1 b') (λ _ _, False) b) as (P1 & HP1 & H1).
    { destruct (decide (d ∈ P)) as [Hin|Hnot].
      - exists P. split; [by intros c [?| ->]|by apply take_again].
      - exists (P ++ [d]). split; [intros c; rewrite elem_of_app, list_elem_of_singleton; tauto|by apply take_new]. }
    eapply holds_mono; [exact H1| |done]. cbv beta. intros rp b1 Ht1. eapply holds_mono; [apply (IH r P1 b1 Ht1 Hr); intros; apply Hl; by right| |done].
    intros got b' (r' & P' & ? & ? & ? & HP). exists r', P'. split_and!; try done. intros c [Hc|[Hc|Hc]%elem_of_cons]; apply HP; auto.
    injection Hc as ->. auto.
  - apply holds_bind. eapply holds_mono; [apply (take_read r P b Ht)| |done]. intros o b1 Ho. apply holds_bind.
    assert (∃ r1, taking r1 P b1 ∧ (r1 <= length Ms)%nat ∧ take r1 written = take r written ++ match o with Some m => [message_data (cs_chunks m)] | None => [] end)
      as (r1 & Ht1 & Hr1 & E1).
    { destruct o as [m|]; [|exists r; rewrite app_nil_r; by destruct Ho]. destruct Ho as (t & M & HM & Hcs & Ht1). rewrite Hcs. exists (S r).
      pose proof (lookup_lt_Some _ _ _ HM). split; [done|]. split; [lia|]. by eapply take_more. }
    eapply holds_mono; [apply (IH r1 P b1 Ht1 Hr1); intros; apply Hl; by right| |done].
    intros got b' (r' & P' & H1 & H2 & H3 & HP). apply holds_ret. exists r', P'. split_and!; try done.
    + rewrite H3, E1, <- app_assoc. by destruct o.
    + intros c [Hc|[Hc|Hc]%elem_of_cons]; [by apply HP; left|done|by apply HP; right].
Qed.

(** Once the first [k] messages are there, the reads give them. *)
Lemma receive_rest k P (Hk : (k <= length Ms)%nat) (Hall : ∀ i t M, Ms !! i = Some (t, M) → (i < k)%nat → ∀ c, c ∈ M → c ∈ P) j : ∀ r b,
  taking r P b → (r + j = k)%nat →
  holds False (receive id (replicate j Reads)) (λ got _, got = drop r (take k written)) (λ _ _, False) b.
Proof.
  induction j as [|j IH]; intros r b Ht Hj; cbn [replicate receive].
  - apply holds_ret. symmetry. apply drop_ge. rewrite length_take. lia.
  - apply holds_bind. eapply holds_mono; [apply (take_read r P b Ht)| |done]. intros o b1 Ho. apply holds_bind.
    destruct (lookup_lt_is_Some_2 Ms r ltac:(lia)) as [[t M] HM]. destruct o as [m|].
    + destruct Ho as (t' & M' & HM' & Hm & Ht1). eapply holds_mono; [apply (IH (S r) b1 Ht1); lia| |done].
      intros got b' ->. apply holds_ret. symmetry. apply drop_S. rewrite lookup_take_lt by lia. unfold written.
      rewrite !list_lookup_fmap, HM'. cbn. by rewrite Hm.
    + destruct Ho as [_ Hno]. destruct (Hno t M HM) as (c & Hc & HcP). destruct HcP. apply (Hall r t M HM); [lia|done].
Qed.

Lemma receive_messages l :
  receiving b0 → undisturbed b0 → within base b0 → can_read s0 = true → caught_up q0 id n (rq_max_message_size q0) →
  (∀ d, Arrives d ∈ l → d ∈ all) →
  ∃ got b1, receive id l b0 = ROk got b1 ∧ got `prefix_of` written ∧
    ∀ k, (k <= length Ms)%nat → (∀ i t M, Ms !! i = Some (t, M) → (i < k)%nat → ∀ d, d ∈ M → Arrives d ∈ l) →
      ∃ b2, receive id (replicate (k - length got) Reads) b1 = ROk (drop (length got) (take k written)) b2.
Proof.
  intros H1 H2 H3 H4 H5 Hl. pose proof (taking_start H1 H2 H3 H4 H5) as H0. pose proof (receive_prefix l 0 [] b0 H0 ltac:(lia) Hl) as Hg.
  unfold holds in Hg. destruct (receive id l b0) as [got b1| | |]; try done. destruct Hg as (r & P & Ht & Hr & E & HP). rewrite take_0 in E. cbn [app] in E.
  assert (length written = length Ms) as Hlw by (unfold written; by rewrite !length_fmap).
  assert (length got = r) as Hgot by (rewrite <- E, length_take; lia).
  exists got, b1. split; [done|]. split; [rewrite <- E; apply prefix_take|]. intros k Hk Hall. rewrite Hgot.
  destruct (decide (r <= k)%nat) as [Hle|Hgt].
  - pose proof (receive_rest k P Hk ltac:(intros i t M HM Hi c Hc; apply HP; right; by eapply Hall) (k - r) r b1 Ht ltac:(lia)) as Hrest.
    unfold holds in Hrest. destruct (receive id (replicate (k - r) Reads) b1) as [got' b2| | |]; try done. exists b2. by rewrite Hrest.
  - replace (k - r)%nat with 0%nat by lia. exists b1. rewrite drop_ge; [done|]. rewrite length_take. lia.
Qed.
End Receiver.

(** ** The sender *)

(** [fs] waits as the fragments of message [raw], number [n] of the stream. *)
Record fragments_of (id n : u16) (raw : Bytes) (fs : list ChunkPayloadData) : Prop := mk_fragments_of {
  fo_some : fs ≠ [];
  fo_bytes : sum_with data_len fs = len raw;
  fo_count : len fs <= len raw;
  fo_sent t now : uN 32 t → len raw < 2 ^ 31 →
    message_of id n t (wire_view <$> sent_from t now fs) ∧ message_data (wire_view <$> sent_from t now fs) = raw;
}.

(** Messages one after the other. *)
Inductive cut (id : u16) : u16 → list (Bytes * PayloadProtocolIdentifier) → list (list ChunkPayloadData) → Prop :=
| cut_nil n : cut id n [] []
| cut_cons n raw ppi ms fs fss :
    fragments_of id n raw fs → cut id (wrapping_add 16 n 1) ms fss → cut id n ((raw, ppi) :: ms) (fs :: fss).

Definition total (ms : list (Bytes * PayloadProtocolIdentifier)) : Z := sum_with (λ m, len m.1) ms.

Lemma total_le m ms : m ∈ ms → len m.1 <= total ms.
Proof.
  unfold total. intros Hm. induction ms as [|x ms IH]; [by apply elem_of_nil in Hm|]. rewrite sum_with_cons.
  pose proof (sum_with_nonneg (λ m, len m.1) ms ltac:(intros; apply len_nonneg)). pose proof (len_nonneg x.1).
  apply elem_of_cons in Hm as [->|Hm]; [lia|]. specialize (IH Hm). lia.
Qed.

Section Sender.
Context {I : MapIter} {IL : MapIterLaws I} {B : BufApi} {BL : BufLaws B} (id : u16).

Fixpoint write_all (ms : list (Bytes * PayloadProtocolIdentifier)) : AM (list (usize * Bytes)) :=
  match ms with
  | [] => mret []
  | (raw, ppi) :: ms =>
      r ← write_source id raw ppi;
      rs ← write_all ms;
      mret (r :: rs)
  end.

(** An open, ordered and reliable stream of an established association. *)
Record able (s : StreamState) (a : Association) : Prop := mk_able {
  ab_state : state a = Established;
  ab_open : stream_is_writable a id = true;
  ab_stream : streams a !! id = Some s;
  ab_id : ss_stream_identifier s = id;
  ab_payload : 0 < ss_max_payload_size s;
  ab_ordered : ss_unordered s = false;
  ab_reliable : reliability_type s = Reliable;
}.

(** What the writes leave alone. *)
Record same_windows (a a' : Association) : Prop := mk_same_windows {
  sw_next : my_next_tsn a' = my_next_tsn a;
  sw_cwnd : cwnd a' = cwnd a;
  sw_rwnd : rwnd a' = rwnd a;
  sw_flight : inflight (outbound_queue a') = inflight (outbound_queue a);
  sw_size : max_send_message_size a' = max_send_message_size a;
}.

Lemma wrote_able s raw fs a a' :
  able s a → wrote id (packetize_after s raw false) fs a a' →
  ∃ s', able s' a' ∧ sequence_number s' = wrapping_add 16 (sequence_number s) 1.
Proof.
  intros [A1 A2 A3 A4 A5 A6 A7] [_ _ _ _ (W1 & W2 & W3) (st & Est)]. eexists. split; [split; [congruence| |exact Est|done..]|done].
  unfold stream_is_writable in *. rewrite W3, Est. by rewrite A3 in A2.
Qed.
(** The fragments a write leaves in the pending queue. *)
Lemma pushed_fragments s raw ppi cs high s' k :
  packetize s raw ppi = Ok (high, cs, s') → 0 < ss_max_payload_size s → sends_unordered s ppi = false → ss_stream_identifier s = id → raw ≠ [] →
  fragments_of id (sequence_number s) raw (as_pushed s k <$> cs).
Proof.
  intros Hp Hmax Hu Hid Hraw. destruct (packetize_fragments s raw ppi Hmax) as (cs' & high' & Hp' & _ & Hd & _).
  rewrite Hp in Hp'. injection Hp' as _ <- _. split.
  - destruct cs; [by destruct Hraw|done].
  - rewrite <- Hd, len_message_data. clear. induction cs as [|c cs IH]; [done|]. rewrite fmap_cons, !sum_with_cons. by rewrite IH.
  - unfold len at 1. rewrite length_fmap. by apply (packetize_count s raw ppi cs high s').
  - intros t now Ht Hshort. assert (wire_view <$> sent_from t now (as_pushed s k <$> cs) = wire_view <$> numbered t cs) as -> by (by apply wire_sent).
    split; [|by rewrite message_data_wire, message_data_numbered]. apply message_of_wire. rewrite <- Hid. by eapply packetize_message_of.
Qed.

(** One more message behind those that wait. *)
Lemma write_one s a raw ppi fs0 :
  able s a → raw ≠ [] → len raw <= max_send_message_size a → next_message_id (outbound_queue a) + 1 < 2 ^ 64 →
  rest_of_messages fs0 → queued (pending (outbound_queue a)) fs0 →
  ∃ a' s' fs, write_source id raw ppi a = ROk (len raw, []) a' ∧ able s' a' ∧ sequence_number s' = wrapping_add 16 (sequence_number s) 1 ∧
    same_windows a a' ∧ next_message_id (outbound_queue a') = next_message_id (outbound_queue a) + 1 ∧
    rest_of_messages (fs0 ++ fs) ∧ queued (pending (outbound_queue a')) (fs0 ++ fs) ∧ fragments_of id (sequence_number s) raw fs.
Proof.
  intros Hab Hraw Hlen Hid Hf0 Hq0. pose proof Hab as [A1 A2 A3 A4 A5 A6 A7].
  assert (sends_unordered s ppi = false) as Hun by (unfold sends_unordered; rewrite A6; by destruct (bool_decide _)).
  destruct (write_message id a s raw ppi A1 A2 A3 Hraw Hlen A5 Hid) as (cs & high & a' & Hp & Ew & Hw). rewrite Hun in Hp, Hw.
  destruct (wrote_able s raw _ a a' Hab Hw) as (s' & Hab' & Hseq). destruct Hw as [(q' & Hpush & Eo) Wn Wc Wr (_ & Wm & _) _].
  destruct (pushed_message fs0 s raw ppi cs high _ _ q' Hp A5 Hun A7 Hq0 Hpush Hraw) as (Hf & Hhead & Hq & Ei & _ & _ & En).
  eexists a', s', _. split; [done|]. split; [done|]. split; [done|]. rewrite Eo. split; [split; try done; by rewrite Eo|]. split; [done|].
  split; [by apply rest_app|]. split; [done|]. by eapply pushed_fragments.
Qed.

(** All of them. *)
Lemma write_all_queues ms : ∀ s a fs0,
  able s a → Forall (λ m, m.1 ≠ [] ∧ len m.1 <= max_send_message_size a) ms → next_message_id (outbound_queue a) + len ms < 2 ^ 64 →
  rest_of_messages fs0 → queued (pending (outbound_queue a)) fs0 →
  ∃ a' fss, write_all ms a = ROk ((λ m, (len m.1, [])) <$> ms) a' ∧ same_windows a a' ∧ cut id (sequence_number s) ms fss ∧
    rest_of_messages (fs0 ++ concat fss) ∧ queued (pending (outbound_queue a')) (fs0 ++ concat fss).
Proof.
  induction ms as [|[raw ppi] ms IH]; intros s a fs0 Hab Hms Hid Hf0 Hq0.
  { exists a, []. rewrite app_nil_r. split; [done|]. split; [by split|]. split; [constructor|done]. }
  apply Forall_cons in Hms as [[Hraw Hlen] Hms]. rewrite len_cons in Hid. pose proof (len_nonneg ms).
  destruct (write_one s a raw ppi fs0 Hab Hraw Hlen ltac:(lia) Hf0 Hq0) as (a1 & s1 & fs & Ew & Hab1 & Hseq & Hsw & En & Hf & Hq & Hfo).
  destruct Hsw as [S1 S2 S3 S4 S5].
  destruct (IH s1 a1 (fs0 ++ fs)) as (a' & fss & E & [T1 T2 T3 T4 T5] & Hcut & Hf' & Hq'); [done|by rewrite S5|rewrite En; lia|done|done|].
  exists a', (fs :: fss). cbn [write_all]. unfold mbind, M_bind. rewrite Ew, E. split; [done|]. split; [split; congruence|].
  split; [constructor; [done|by rewrite <- Hseq]|]. cbn [concat]. by rewrite app_assoc.
Qed.
End Sender.

(** ** The chunks on the wire *)

Lemma wrapping_add_add t x y : wrapping_add 32 (wrapping_add 32 t x) y = wrapping_add 32 t (x + y).
Proof. unfold wrapping_add, wrap. rewrite Zplus_mod_idemp_l. f_equal. lia. Qed.

Lemma sent_from_app now fs gs : ∀ t, uN 32 t →
  sent_from t now (fs ++ gs) = sent_from t now fs ++ sent_from (wrapping_add 32 t (len fs)) now gs.
Proof.
  induction fs as [|f fs IH]; intros t Ht; cbn [app sent_from].
  - assert (wrapping_add 32 t (len (@nil ChunkPayloadData)) = t) as -> by (change (len []) with 0; clear -Ht; sna). done.
  - rewrite IH by by apply wrap_uN. by rewrite wrapping_add_add, len_cons.
Qed.

Lemma sent_from_length now fs : ∀ t, length (sent_from t now fs) = length fs.
Proof. induction fs as [|f fs IH]; intros t; cbn; [done|]. by rewrite IH. Qed.

Lemma sent_from_tsns now fs : ∀ t, uN 32 t → consecutive_tsns t (wire_view <$> sent_from t now fs).
Proof.
  unfold consecutive_tsns. induction fs as [|f fs IH]; intros t Ht [|i] c Hc; cbn [sent_from fmap list_fmap lookup list_lookup] in Hc; try done.
  - injection Hc as <-. change (t = wrap 32 (t + Z.of_nat 0)). clear -Ht. sna.
  - rewrite (IH (wrapping_add 32 t 1) ltac:(by apply wrap_uN) i c Hc). unfold wrapping_add, wrap. rewrite Zplus_mod_idemp_l. f_equal. lia.
Qed.

Lemma consecutive_inj t cs c c' :
  consecutive_tsns t cs → len cs < 2 ^ 31 → c ∈ cs → c' ∈ cs → tsn c = tsn c' → c = c'.
Proof.
  intros Hcs Hlen [i Hi]%list_elem_of_lookup [j Hj]%list_elem_of_lookup E. pose proof (lookup_lt_Some _ _ _ Hi). pose proof (lookup_lt_Some _ _ _ Hj).
  unfold len in Hlen. assert (i = j) as ->; [|congruence]. rewrite (Hcs i c Hi), (Hcs j c' Hj) in E. clear -E Hlen H H0. sna.
Qed.

(** The messages, each with its first TSN. *)
Fixpoint on_wire (t : u32) (now : Instant) (fss : list (list ChunkPayloadData)) : list (u32 * list ChunkPayloadData) :=
  match fss with
  | [] => []
  | fs :: fss => (t, wire_view <$> sent_from t now fs) :: on_wire (wrapping_add 32 t (len fs)) now fss
  end.

Lemma on_wire_all now fss : ∀ t, uN 32 t → concat (on_wire t now fss).*2 = wire_view <$> sent_from t now (concat fss).
Proof.
  induction fss as [|fs fss IH]; intros t Ht; [done|]. cbn [on_wire concat fmap list_fmap snd]. rewrite IH by by apply wrap_uN.
  by rewrite sent_from_app, fmap_app.
Qed.

Lemma on_wire_length now fss : ∀ t, length (on_wire t now fss) = length fss.
Proof. induction fss as [|fs fss IH]; intros t; cbn; [done|]. by rewrite IH. Qed.

(** They are the messages that were written. *)
Lemma on_wire_messages id now n ms fss : cut id n ms fss → ∀ t, uN 16 n → uN 32 t → Forall (λ m, len m.1 < 2 ^ 31) ms →
  message_data <$> (on_wire t now fss).*2 = ms.*1 ∧
  ∀ k t' M, on_wire t now fss !! k = Some (t', M) → message_of id (nth_ssn n k) t' M ∧ M ≠ [] ∧ ∃ m, m ∈ ms ∧ message_data M = m.1.
Proof.
  induction 1 as [n|n raw ppi ms fs fss Hfo Hcut IH]; intros t Hn Ht Hms; [done|]. apply Forall_cons in Hms as [Hraw Hms].
  destruct (IH (wrapping_add 32 t (len fs)) ltac:(by apply wrap_uN) ltac:(by apply wrap_uN) Hms) as [E Hk]. destruct (fo_sent _ _ _ _ Hfo t now Ht Hraw) as [Hmsg Hd].
  cbn [on_wire fmap list_fmap fst snd]. split; [by rewrite Hd, E|]. intros [|k] t' M HM; cbn [lookup list_lookup] in HM.
  - injection HM as <- <-. rewrite nth_ssn_0 by done. split; [done|]. pose proof (fo_some _ _ _ _ Hfo). split; [by destruct fs|]. exists (raw, ppi). split; [left|done].
  - rewrite <- nth_ssn_step. destruct (Hk k t' M HM) as (H1 & H2 & m & Hm & H3). split_and!; try done. exists m. split; [by right|done].
Qed.

Lemma cut_bytes id n ms fss : cut id n ms fss → sum_with data_len (concat fss) = total ms ∧ len (concat fss) <= total ms ∧ length fss = length ms.
Proof.
  unfold total. induction 1 as [n|n raw ppi ms fs fss [_ Hb Hc _] Hcut (IH1 & IH2 & IH3)]; [done|]. cbn [concat length].
  rewrite sum_with_app, len_app, sum_with_cons, Hb, IH1, IH3. cbn [fst]. split_and!; lia.
Qed.

Lemma sum_sent now fs : ∀ t, sum_with data_len (wire_view <$> sent_from t now fs) = sum_with data_len fs.
Proof. induction fs as [|f fs IH]; intros t; [done|]. cbn [sent_from]. rewrite fmap_cons, !sum_with_cons, IH. done. Qed.

(** ** From the writes to the reads *)

(** Each message could be written on [a] and read on [b], and there is room for all of them. *)
Record batch (id : u16) (s sb : StreamState) (ms : list (Bytes * PayloadProtocolIdentifier)) (a b : Association) : Prop := mk_batch {
  ba_some : ms ≠ [];
  ba_each : Forall (λ m, writer id s m.1 a ∧ reader id sb (sequence_number s) m.1 b) ms;
  ba_number : uN 16 (sequence_number s);
  ba_count : len ms <= 2 ^ 15;
  ba_ids : next_message_id (outbound_queue a) + len ms < 2 ^ 64;
  ba_windows : inflight_bytes (outbound_queue a) + total ms <= cwnd a ∧ total ms <= rwnd a;
  ba_tsns : dist32 (cumulative_tsn_ack_point a) (my_next_tsn a) + total ms <= 2 ^ 31;
  ba_room : queued_bytes b + total ms < max_receive_buffer_size b;
  ba_bytes : rq_n_bytes (reassembly_queue sb) < 2 ^ 32;
}.

Section Order.
Context {I : MapIter} {IL : MapIterLaws I} {B : BufApi} {BL : BufLaws B}.

(** The writes and the poll. *)
Lemma batch_sent id s sb ms now a b :
  batch id s sb ms a b → ∃ a1 fss a2, write_all id ms a = ROk ((λ m, (len m.1, [])) <$> ms) a1 ∧
    pop_pending_data_chunks_to_send now a1 = ROk (sent_from (my_next_tsn a) now (concat fss)) a2 ∧ cut id (sequence_number s) ms fss.
Proof.
  intros [Hne Heach _ _ Hids [Hcw Hrw] _ _ _]. destruct ms as [|[raw ppi] ms']; [done|]. set (ms := (raw, ppi) :: ms') in *.
  assert (writer id s raw a) as Hw by (apply Forall_cons in Heach as [[? _] _]; done).
  destruct (write_all_queues id ms s a []) as (a1 & fss & Ew & [S1 S2 S3 S4 _] & Hcut & Hf & Hq).
  { by destruct Hw. }
  { refine (List.Forall_impl _ _ Heach). intros m [Hm _]. apply (wt_size _ _ _ _ Hm). }
  { done. }
  { split; [constructor|done]. }
  { apply (wt_idle _ _ _ _ Hw). }
  cbn [app] in Hf, Hq. destruct (cut_bytes _ _ _ _ Hcut) as (Hsum & _ & _).
  destruct (poll_message now (concat fss) a1 Hf Hq) as (a2 & E2).
  - intros t c. unfold flight. rewrite S4. apply (wt_flight _ _ _ _ Hw).
  - subst ms. inversion Hcut as [|? ? ? ? fs fss' Hfo]; subst. pose proof (fo_some _ _ _ _ Hfo). cbn [concat]. by destruct fs.
  - unfold inflight_bytes. by rewrite S4, S2, Hsum.
  - by rewrite S3, Hsum.
  - rewrite S1 in E2. by exists a1, fss, a2.
Qed.

(** Claim C6.  An ordered stream delivers what was written, in the order of the writes.  On an open,
    ordered and reliable stream, with nothing else pending and room for all the messages in the
    windows of both ends: the writes take the messages, the next poll sends them as chunks, and
    whatever subset of these chunks reaches the peer, in whatever order and however often, and
    wherever in between the application reads, no call fails, and what the reads return is the
    written messages in order up to some point, each complete.  Once all chunks of the first [k]
    messages have arrived, whatever else is missing, the reads that are left return these
    messages. *)
Theorem stream_delivers_in_order id s sb ms now a b :
  sending a → knows_only a b → batch id s sb ms a b →
  ∃ a1 cs a2, write_all id ms a = ROk ((λ m, (len m.1, [])) <$> ms) a1 ∧ pop_pending_data_chunks_to_send now a1 = ROk cs a2 ∧
    ∀ l, (∀ d, Arrives d ∈ l → d ∈ wire_view <$> cs) → ∃ got b1,
      receive id l b = ROk got b1 ∧ got `prefix_of` ms.*1 ∧
      ∀ k, (k <= length ms)%nat →
        (∀ d, d ∈ wire_view <$> cs → dist16 (sequence_number s) (stream_sequence_number d) < Z.of_nat k → Arrives d ∈ l) →
        ∃ b2, receive id (replicate (k - length got) Reads) b1 = ROk (drop (length got) (take k ms.*1)) b2.
Proof.
  intros Hs Hk Hb. destruct (batch_sent id s sb ms now a b Hb) as (a1 & fss & a2 & E1 & E2 & Hcut).
  exists a1, (sent_from (my_next_tsn a) now (concat fss)), a2. split; [done|]. split; [done|].
  destruct Hb as [Hne Heach Hn Hcount _ _ Htsn Hroom Hby]. pose proof (sd_next _ Hs) as Hnu. pose proof (ko_point _ _ Hk) as Hkp.
  pose proof (dist32_bounds (cumulative_tsn_ack_point a) (peer_last_tsn b)) as Hpd.
  assert (∃ raw, writer id s raw a ∧ reader id sb (sequence_number s) raw b) as (raw0 & Hw & Hr) by (destruct Heach as [|m ? ? _]; [done|eauto]).
  destruct Hr as [R1 R2 R3 R4 R5 _ R7 [_ R8]]. destruct (cut_bytes _ _ _ _ Hcut) as (Hsum & Hlen & Hfss).
  set (Ms := on_wire (my_next_tsn a) now fss). set (cs := wire_view <$> sent_from (my_next_tsn a) now (concat fss)).
  assert (concat Ms.*2 = cs) as Hall by (by apply on_wire_all).
  destruct (on_wire_messages id now _ ms fss Hcut (my_next_tsn a) Hn Hnu) as [Hdata Hmsgs].
  { apply Forall_forall. intros m Hm. pose proof (total_le m ms Hm). lia. }
  fold Ms in Hdata, Hmsgs.
  assert (∀ k t M, Ms !! k = Some (t, M) → message_of id (nth_ssn (sequence_number s) k) t M ∧ M ≠ [] ∧ sum_with data_len M <= rq_max_message_size (reassembly_queue sb)) as Hmsgs'.
  { intros k t M HM. destruct (Hmsgs k t M HM) as (H1 & H2 & m & Hm & H3). split; [done|]. split; [done|]. rewrite <- len_message_data, H3.
    rewrite Forall_forall in Heach. destruct (Heach m Hm) as [_ Hrd]. apply (rd_size _ _ _ _ _ Hrd). }
  pose proof (sent_from_tsns now (concat fss) (my_next_tsn a) Hnu : consecutive_tsns _ cs) as Hcons.
  assert (len cs = len (concat fss)) as Hlcs by (unfold cs, len; by rewrite length_fmap, sent_from_length).
  destruct (fresh_tsns a b cs Hs R1 Hk Hcons ltac:(lia)) as [Hwi Hfresh].
  rewrite <- Hdata. assert (length ms = length Ms) as -> by (unfold Ms; by rewrite on_wire_length).
  assert (Z.of_nat (length Ms) <= 2 ^ 15) as HcMs by (unfold Ms; rewrite on_wire_length, Hfss; unfold len in Hcount; lia).
  intros l Hl. destruct (receive_messages b id (sequence_number s) sb Ms Hn HcMs Hmsgs') with (l := l) as (got & b1 & Eg & Hpre & Hrest); rewrite ?Hall; try done.
  { intros c c'. apply (consecutive_inj (my_next_tsn a)); [done|]. lia. }
  { unfold cs. rewrite sum_sent. lia. }
  exists got, b1. split; [done|]. split; [done|]. intros k Hkl Harr. apply (Hrest k Hkl). intros i t M HM Hi d Hd.
  destruct (Hmsgs i t M HM) as [Hmsg _]. pose proof (mo_stream _ _ _ _ Hmsg) as Hst. rewrite Forall_forall in Hst. destruct (Hst d Hd) as [_ Hdn].
  apply Harr; [change (d ∈ cs); rewrite <- Hall; apply all_message; eauto|]. rewrite Hdn.
  destruct (nth_ssn_dist (sequence_number s) i Hn ltac:(lia)) as [_ ->]. lia.
Qed.
End Order.

(** ** Two messages, the chunks of the second first *)

Definition demo_messages : list (Bytes * PayloadProtocolIdentifier) := [([1; 2; 3], Binary); ([4; 5; 6; 7; 8], PpString)].

Lemma demo_message raw : raw = [1; 2; 3] ∨ raw = [4; 5; 6; 7; 8] →
  writer 5 sample_stream raw demo_writer ∧ reader 5 (StreamState_new Server 5 1200 65536 Binary) 0 raw demo_reader.
Proof.
  intros [->| ->]; (split; [constructor; try reflexivity; by vm_compute|]); (constructor; try reflexivity; try (by vm_compute));
    (constructor; [apply pq_inv_new; by vm_compute|reflexivity..]).
Qed.

Lemma demo_batch : batch 5 sample_stream (StreamState_new Server 5 1200 65536 Binary) demo_messages demo_writer demo_reader.
Proof.
  constructor; [done|apply Forall_cons; split; [apply demo_message; by left|]; apply Forall_cons; split; [apply demo_message; by right|constructor]|by vm_compute..].
Qed.

Lemma demo_knows_only : knows_only demo_writer demo_reader.
Proof. constructor; [by vm_compute|]. intros t [c Hc]. change ((∅ : gmap Z ChunkPayloadData) !! t = Some c) in Hc. by rewrite lookup_empty in Hc. Qed.

Lemma stream_delivers_in_order_witness :
  ∃ a1 cs a2, @write_all list_buf 5 demo_messages demo_writer = ROk [(3, []); (5, [])] a1 ∧ pop_pending_data_chunks_to_send 0 a1 = ROk cs a2 ∧
    ∃ got b1 b2, @receive list_iter 5 (Reads :: (Arrives <$> rev (wire_view <$> cs))) demo_reader = ROk got b1 ∧
      @receive list_iter 5 (replicate (2 - length got) Reads) b1 = ROk (drop (length got) [[1; 2; 3]; [4; 5; 6; 7; 8]]) b2.
Proof.
  destruct (@stream_delivers_in_order list_iter list_iter_laws list_buf list_buf_laws 5 sample_stream (StreamState_new Server 5 1200 65536 Binary)
    demo_messages 0 demo_writer demo_reader demo_writer_sending demo_knows_only demo_batch) as (a1 & cs & a2 & E1 & E2 & H).
  exists a1, cs, a2. split; [exact E1|]. split; [exact E2|].
  assert (∀ d, Arrives d ∈ Reads :: (Arrives <$> rev (wire_view <$> cs)) ↔ d ∈ wire_view <$> cs) as Hin.
  { intros d. rewrite elem_of_cons, list_elem_of_fmap. setoid_rewrite <- (Permutation_rev (wire_view <$> cs)).
    split; [intros [?|(x & [= ->] & ?)]; done|intros Hd; right; eauto]. }
  destruct (H (Reads :: (Arrives <$> rev (wire_view <$> cs))) (λ d Hd, proj1 (Hin d) Hd)) as (got & b1 & E3 & _ & Hrest).
  destruct (Hrest 2%nat (le_n 2) (λ d Hd _, proj2 (Hin d) Hd)) as (b2 & E4). exists got, b1, b2. exact (conj E3 E4).
Defined.
