(* ===== verification/AssocShutdown.v ===== *)
(** * Graceful shutdown

    [Association::shutdown] on one end, SHUTDOWN, SHUTDOWN ACK and SHUTDOWN
    COMPLETE on the wire.  The end that was asked closes; the end that asked
    stops its timer, sends nothing more, but never leaves SHUTDOWN-SENT. *)

From stdpp Require Import base list gmap numbers strings sets.
From Stdlib Require Import ZArith Lia ZifyBool.
From S2P Require Import Prelude Bytes Util Params Chunks ChunksRoundtrip Packet PayloadQueue PayloadRun PendingQueue OutboundQueue.
From S2P Require Import ReassemblyQueue Shared Stream Monad Timer Config Association AssocReset AssocRecv AssocSend AssocControl.
From S2P Require Import AssocFrame AssocMachine AssocHandshake AssocSack AssocReliable AssocWire.

(** Nothing is in flight and nothing but new data waits to be sent. *)
Record idle (a : Association) : Prop := mk_idle {
  id_addressed : addressed a;
  id_point : uN 32 (cumulative_tsn_ack_point a);
  id_control : control_queue a = [];
  id_flight : chunk_map (flight a) = ∅;
  id_pending : pristine (pending (outbound_queue a));
  id_reset : active_reconfig a = None;
  id_ack : ack_state a ≠ AckImmediate;
  id_fast : will_retransmit_fast a = false;
  id_forward : will_send_forward_tsn a = false;
}.

(** What polling an idle end may touch before it comes to the shutdown packets. *)
Definition still (a a' : Association) : Prop :=
  ∃ q t, a' = a <| outbound_queue := q |> <| advanced_peer_tsn_ack_point := t |> ∧
    pending q = pending (outbound_queue a) ∧ inflight q = flight a.

#[export] Instance still_refl : Reflexive still.
Proof. intros a. exists (outbound_queue a), (advanced_peer_tsn_ack_point a). split_and!; [by destruct a|done..]. Qed.
#[export] Instance still_trans : Transitive still.
Proof.
  intros a ? ? (q & t & -> & H1 & H2) (q' & t' & -> & H3 & H4). exists q', t'.
  split_and!; [done|by etrans; [exact H3|exact H1]|by etrans; [exact H4|exact H2]].
Qed.

Lemma looked_still a a' : looked a a' → still a a'.
Proof.
  intros (q & -> & ? & ?). exists q, (advanced_peer_tsn_ack_point a). split_and!; [by destruct a|done..].
Qed.

Lemma still_idle a a' : still a a' → idle a → idle a'.
Proof.
  intros (q & t & -> & Ep & Ei) []. constructor; try done.
  - change (chunk_map (inflight q) = ∅). by rewrite Ei.
  - change (pristine (pending q)). by rewrite Ep.
Qed.

Lemma idle_steadfast a : idle a → steadfast a.
Proof. intros []. constructor; [done|]. intros t c Hc. by rewrite id_flight0 in Hc. Qed.

Lemma idle_get a t : idle a → oq_get (outbound_queue a) t = None.
Proof. intros Ha. unfold oq_get, pq_get. fold (flight a). by rewrite (id_flight _ Ha). Qed.

(** ** Polling *)

Section Poll.
Context {I : MapIter} {B : BufApi} (crc : Bytes → u32) (now : Instant).

Lemma control_empty raws a :
  control_queue a = [] → active_reconfig a = None → gather_outbound_control_packets crc raws now a = ROk raws a.
Proof.
  intros Hq Hr. unfold gather_outbound_control_packets, restart_reconfig_timer. run. rewrite Hq. cbn [drain_control]. run.
  change (active_reconfig (a <| control_queue := [] |> <| control_queue := [] |>)) with (active_reconfig a).
  rewrite Hr, bool_decide_true by done. cbn [negb]. f_equal. destruct a. cbn in *. by subst.
Qed.

Lemma control_idle raws a : idle a → gather_outbound_control_packets crc raws now a = ROk raws a.
Proof. intros Ha. apply control_empty; apply Ha. Qed.

Lemma retransmit_idle raws a : idle a →
  holds False (gather_data_packets_to_retransmit crc raws now) (λ r a', r = raws ∧ still a a') (λ _ _, False) a.
Proof.
  intros Ha. unfold gather_data_packets_to_retransmit, get_data_packets_to_retransmit. do 2 apply holds_bind.
  eapply holds_mono; [by apply expire_inflight_steadfast, idle_steadfast| |done].
  intros _ a' Hl%looked_still. pose proof (still_idle _ _ Hl Ha) as Ha'.
  apply holds_bind, holds_gets, holds_bind. unfold inflight_fuel, pending_fuel. rewrite Nat.add_succ_r. cbn [retransmit_loop].
  apply holds_bind, holds_self. rewrite (idle_get _ _ Ha'). apply holds_ret. cbn [mark_retransmitted].
  apply holds_bind, holds_ret, holds_bind, holds_self, holds_ret.
  apply holds_lift; [by intros r [= <-]|done|by intros []].
Qed.

Lemma fast_idle raws a : idle a →
  holds False (gather_outbound_fast_retransmission_packets crc raws now) (λ r a', r = raws ∧ still a a') (λ _ _, False) a.
Proof.
  intros Ha. unfold gather_outbound_fast_retransmission_packets. apply holds_bind.
  eapply holds_mono; [by apply expire_inflight_steadfast, idle_steadfast| |done].
  intros _ a' Hl%looked_still. apply holds_bind, holds_self. rewrite (id_fast _ (still_idle _ _ Hl Ha)). by apply holds_ret.
Qed.

Lemma sack_idle raws a : idle a → gather_outbound_sack_packets crc raws a = ROk raws a.
Proof. intros Ha. unfold gather_outbound_sack_packets. run. by rewrite bool_decide_false by apply (id_ack _ Ha). Qed.

Lemma advance_idle a : idle a →
  holds False advance_peer_tsn_ack_point
    (λ _ a', still a a' ∧ (advanced_peer_tsn_ack_point a' = advanced_peer_tsn_ack_point a ∨
                           advanced_peer_tsn_ack_point a' = cumulative_tsn_ack_point a')) (λ _ _, False) a.
Proof.
  intros Ha. unfold advance_peer_tsn_ack_point. apply holds_bind, holds_modify, holds_bind, holds_self.
  set (a1 := if sna32lt _ _ then _ else _).
  assert (still a a1 ∧ (advanced_peer_tsn_ack_point a1 = advanced_peer_tsn_ack_point a ∨
    advanced_peer_tsn_ack_point a1 = cumulative_tsn_ack_point a1)) as [Hs Hp].
  { unfold a1. destruct (sna32lt _ _); [|split; [reflexivity|by left]]. split; [|by right].
    exists (outbound_queue a), (cumulative_tsn_ack_point a). split_and!; [by destruct a|done..]. }
  clearbody a1. pose proof (still_idle _ _ Hs Ha) as Ha1.
  destruct (length _) as [|n]; cbn [skip_abandoned]; apply holds_bind, holds_self;
    (assert (∀ t, is_abandoned (outbound_queue a1) t = false) as -> by
       (intros t; unfold is_abandoned; pose proof (idle_get a1 t Ha1) as E; unfold oq_get in E; by rewrite E)); by apply holds_ret.
Qed.

Lemma forward_idle raws a : idle a →
  holds False (gather_outbound_forward_tsn_packets crc raws) (λ r a', r = raws ∧ still a a') (λ _ _, False) a.
Proof.
  intros Ha. unfold gather_outbound_forward_tsn_packets. apply holds_bind, holds_self, holds_bind.
  eapply (holds_mono _ _ (λ _ a', still a a') _ (λ _ _, False)); [| |done].
  - apply holds_when; intros _; [|reflexivity]. apply holds_bind.
    eapply holds_mono; [by apply advance_idle| |done]. intros _ a1 [Hs Hp]. apply holds_modify.
    replace (_ && _) with false; [done|]. symmetry. apply andb_false_iff.
    destruct Hp as [->| ->]; [left|right]; apply sna32gt_irrefl.
  - intros _ a1 Hs. apply holds_bind, holds_self. rewrite (id_forward _ (still_idle _ _ Hs Ha)). by apply holds_ret.
Qed.

(** Everything a poll sends before the shutdown packets, while the association is shutting down. *)
Lemma shutdown_prefix a (f : list Bytes → AM (list Bytes * bool)) Q :
  idle a → (∀ a', still a a' → holds False (f []) Q (λ _ _, False) a') →
  holds False
    (raw_packets ← gather_data_packets_to_retransmit crc [] now;
     raw_packets ← gather_outbound_fast_retransmission_packets crc raw_packets now;
     raw_packets ← gather_outbound_sack_packets crc raw_packets;
     raw_packets ← gather_outbound_forward_tsn_packets crc raw_packets;
     f raw_packets) Q (λ _ _, False) a.
Proof.
  intros Ha Hf. apply holds_bind. eapply holds_mono; [by apply retransmit_idle| |done]. intros ? a1 [-> H1].
  pose proof (still_idle _ _ H1 Ha) as Ha1. apply holds_bind. eapply holds_mono; [by apply fast_idle| |done].
  intros ? a2 [-> H2]. pose proof (still_idle _ _ H2 Ha1) as Ha2. apply holds_bind. unfold holds at 1.
  rewrite (sack_idle _ _ Ha2). apply holds_bind. eapply holds_mono; [by apply forward_idle| |done].
  intros ? a3 [-> H3]. apply Hf. by do 2 (etrans; [eassumption|]).
Qed.
End Poll.

Section Shutdown.
Context {I : MapIter} {IL : MapIterLaws I} {B : BufApi} {BL : BufLaws B} (crc : Bytes → u32) (Hcrc : ∀ b, uN 32 (crc b)).
Context (fresh_cookie : Bytes).

(** The retransmission timer of the shutdown packets can be armed. *)
Definition can_arm_shutdown (a : Association) (now : Instant) : Prop :=
  returns (timer_start (timers a) T2Shutdown now (get_rto (rto_mgr a))).

Lemma gather_sent now a Q :
  idle a → state a = ShutdownSent →
  (∀ a', still a a' → holds False (gather_outbound_shutdown_packets crc [] now) Q (λ _ _, False) a') →
  holds False (gather_outbound crc now) Q (λ _ _, False) a.
Proof.
  intros Ha Hs Hf. unfold gather_outbound. apply holds_bind. unfold holds at 1. rewrite (control_idle crc now [] a Ha).
  apply holds_bind, holds_gets. rewrite Hs. cbv iota. by apply (shutdown_prefix crc now a (λ r, gather_outbound_shutdown_packets crc r now)).
Qed.

Lemma gather_ack_sent now a Q :
  idle a → state a = ShutdownAckSent →
  holds False (gather_outbound_shutdown_packets crc [] now) Q (λ _ _, False) a →
  holds False (gather_outbound crc now) Q (λ _ _, False) a.
Proof.
  intros Ha Hs Hf. unfold gather_outbound. apply holds_bind. unfold holds at 1. rewrite (control_idle crc now [] a Ha).
  apply holds_bind, holds_gets. by rewrite Hs.
Qed.

(** A poll that sends one packet with one chunk. *)
Definition sends (now : Instant) (a : Association) (c : Chunk) (Q : Association → Prop) : Prop :=
  ∃ a', poll_transmit crc now a =
    ROk (Some (mkTransmit now (remote_addr a) None (local_ip a) (PayloadRawEncode [datagram crc a c]))) a' ∧ Q a'.

Lemma poll_sends now a c (Q : Association → Prop) :
  holds False (gather_outbound crc now)
    (λ r a', r.1 = [datagram crc a c] ∧ remote_addr a' = remote_addr a ∧ local_ip a' = local_ip a ∧ Q a') (λ _ _, False) a →
  sends now a c Q.
Proof.
  intros H. unfold sends, poll_transmit, holds in *. run. destruct (gather_outbound crc now a) as [[raws ok] a'| | |]; try done.
  destruct H as (Hr & -> & -> & HQ). cbn in Hr. subst raws. rewrite bool_decide_false by done. by exists a'.
Qed.

Lemma shutdown_travels t : uN 32 t → travels (CShutdown t).
Proof. intros Ht. split_and!; [|done..]. by split. Qed.

Lemma ack_travels : travels CShutdownAck.
Proof. by repeat split. Qed.

Lemma complete_travels : travels CShutdownComplete.
Proof. by repeat split. Qed.

(** Arming the timer of the shutdown packets leaves the other timers alone. *)
Lemma start_shutdown_timer now a :
  can_arm_shutdown a now →
  holds False (start_timer T2Shutdown now)
    (λ _ a', ∃ tt, a' = a <| timers := tt |> ∧ ∀ t, t ≠ T2Shutdown → timer_get tt t = timer_get (timers a) t) (λ _ _, False) a.
Proof.
  intros Harm. unfold start_timer, with_timers. apply holds_bind, holds_gets, holds_bind, holds_gets, holds_bind.
  unfold can_arm_shutdown, timer_start in *.
  destruct (Instant_add _ _) as [time| | |] eqn:E; [|unfold Instant_add in E; by case_match|done..].
  apply holds_modify. eexists. split; [done|]. by intros [].
Qed.

(** SHUTDOWN leaves, and its timer runs. *)
Lemma poll_shutdown now a :
  idle a → state a = ShutdownSent → will_send_shutdown a = true → can_arm_shutdown a now →
  sends now a (CShutdown (cumulative_tsn_ack_point a))
    (λ a', ∃ a1 tt, still a a1 ∧ a' = a1 <| will_send_shutdown := false |> <| timers := tt |> ∧
       ∀ t, t ≠ T2Shutdown → timer_get tt t = timer_get (timers a) t).
Proof.
  intros Ha Hs Hw Harm. apply poll_sends, gather_sent; [done..|]. intros a1 Hst. pose proof Hst as (q & u & -> & _).
  unfold gather_outbound_shutdown_packets. apply holds_bind, holds_self.
  change (will_send_shutdown _) with (will_send_shutdown a). rewrite Hw.
  apply holds_bind, holds_modify, holds_bind. change (create_packet _ _) with (create_packet a [CShutdown (cumulative_tsn_ack_point a)]).
  rewrite (marshal_onto_single crc [] a _ (id_addressed _ Ha) (shutdown_travels _ (id_point _ Ha))). apply holds_ret, holds_bind. cbn [when].
  eapply holds_mono; [by apply start_shutdown_timer| |done]. intros _ a2 (tt' & -> & Htt). apply holds_ret.
  split_and!; [done..|]. by exists (a <| outbound_queue := q |> <| advanced_peer_tsn_ack_point := u |>), tt'.
Qed.

(** SHUTDOWN ACK leaves, and its timer runs. *)
Lemma poll_shutdown_ack now a :
  idle a → state a = ShutdownAckSent → will_send_shutdown a = false → will_send_shutdown_ack a = true → can_arm_shutdown a now →
  sends now a CShutdownAck (λ a', ∃ tt, a' = a <| will_send_shutdown_ack := false |> <| timers := tt |>).
Proof.
  intros Ha Hs Hw Hw' Harm. apply poll_sends, gather_ack_sent; [done..|].
  unfold gather_outbound_shutdown_packets. apply holds_bind, holds_self. rewrite Hw, Hw'.
  apply holds_bind, holds_modify, holds_bind. rewrite (marshal_onto_single crc [] a _ (id_addressed _ Ha) ack_travels). apply holds_ret, holds_bind. cbn [when].
  eapply holds_mono; [by apply start_shutdown_timer| |done]. intros _ a2 (tt' & -> & _). apply holds_ret.
  split_and!; [done..|]. by exists tt'.
Qed.

(** SHUTDOWN COMPLETE leaves; the state stays SHUTDOWN-SENT. *)
Lemma poll_shutdown_complete now a :
  idle a → state a = ShutdownSent → will_send_shutdown a = false → will_send_shutdown_ack a = false →
  will_send_shutdown_complete a = true →
  sends now a CShutdownComplete (λ a', ∃ a1, still a a1 ∧ a' = a1 <| will_send_shutdown_complete := false |>).
Proof.
  intros Ha Hs Hw Hw' Hw''. apply poll_sends, gather_sent; [done..|]. intros a1 Hst. pose proof Hst as (q & u & -> & _).
  unfold gather_outbound_shutdown_packets. apply holds_bind, holds_self.
  change (will_send_shutdown _) with (will_send_shutdown a). rewrite Hw.
  change (will_send_shutdown_ack _) with (will_send_shutdown_ack a). rewrite Hw'.
  change (will_send_shutdown_complete _) with (will_send_shutdown_complete a). rewrite Hw''.
  apply holds_bind, holds_modify, holds_bind. change (create_packet _ _) with (create_packet a [CShutdownComplete]).
  rewrite (marshal_onto_single crc [] a _ (id_addressed _ Ha) complete_travels). apply holds_ret, holds_ret.
  split_and!; [done..|]. by eexists.
Qed.

(** An idle end in SHUTDOWN-SENT with no shutdown packet to send sends nothing. *)
Lemma poll_nothing now a :
  idle a → state a = ShutdownSent → will_send_shutdown a = false → will_send_shutdown_ack a = false →
  will_send_shutdown_complete a = false → ∃ a', poll_transmit crc now a = ROk None a' ∧ still a a'.
Proof.
  intros Ha Hs Hw Hw' Hw''.
  assert (holds False (gather_outbound crc now) (λ r a', r.1 = [] ∧ still a a') (λ _ _, False) a) as H.
  { apply gather_sent; [done..|]. intros a1 Hst. pose proof Hst as (q & u & -> & _).
    unfold gather_outbound_shutdown_packets. apply holds_bind, holds_self.
    change (will_send_shutdown _) with (will_send_shutdown a). rewrite Hw.
    change (will_send_shutdown_ack _) with (will_send_shutdown_ack a). rewrite Hw'.
    change (will_send_shutdown_complete _) with (will_send_shutdown_complete a). rewrite Hw''. by apply holds_ret. }
  unfold poll_transmit, holds in *. run. destruct (gather_outbound crc now a) as [[raws ok] a'| | |]; try done.
  destruct H as (Hr & Hst). cbn in Hr. subst raws. exists a'. by rewrite bool_decide_true.
Qed.

(** *** Receiving *)

(** What a shutdown chunk never changes at the receiver. *)
Record unmoved (a a' : Association) : Prop := mk_unmoved {
  um_events : events a' = events a;
  um_streams : streams a' = streams a;
  um_rto : rto_mgr a' = rto_mgr a;
  um_endpoint : endpoint_events a' = endpoint_events a;
  um_outbound : outbound_queue a' = outbound_queue a;
}.

Lemma inflight_len_idle a : idle a → inflight_len (outbound_queue a) = 0.
Proof. intros Ha. unfold inflight_len, pq_len. fold (flight a). by rewrite (id_flight _ Ha). Qed.

Lemma receive_shutdown p t now a :
  idle a → state a = Established →
  holds False (handle_chunk fresh_cookie p (CShutdown t) now)
    (λ _ a', immediate_ack_triggered a' = false ∧ delayed_ack_triggered a' = false ∧
       idle a' ∧ unmoved a a' ∧ state a' = ShutdownAckSent ∧ will_send_shutdown_ack a' = true ∧
       will_send_shutdown a' = will_send_shutdown a ∧ timers a' = timers a) (λ _ _, False) (ready a).
Proof.
  intros Ha Hs. unfold handle_chunk, handle_shutdown, enqueue_control. apply holds_bind, holds_ret. do 2 apply holds_bind; apply holds_self.
  change (state (ready a)) with (state a). rewrite Hs. cbv iota.
  change (inflight_len _) with (inflight_len (outbound_queue a)). rewrite (inflight_len_idle a Ha). cbn [negb Z.eqb].
  apply holds_bind, holds_bind, holds_modify, holds_modify, holds_ret, holds_modify.
  split_and!; try done. destruct Ha. constructor; try done. cbn. by rewrite id_control0.
Qed.

Lemma receive_shutdown_ack p now a :
  idle a → state a = ShutdownSent →
  holds False (handle_chunk fresh_cookie p CShutdownAck now)
    (λ _ a', immediate_ack_triggered a' = false ∧ delayed_ack_triggered a' = false ∧
       idle a' ∧ unmoved a a' ∧ state a' = ShutdownSent ∧ will_send_shutdown_complete a' = true ∧
       will_send_shutdown a' = will_send_shutdown a ∧ will_send_shutdown_ack a' = will_send_shutdown_ack a ∧
       ∀ t, timer_get (timers a') t = if decide (t = T2Shutdown) then None else timer_get (timers a) t) (λ _ _, False) (ready a).
Proof.
  intros Ha Hs. unfold handle_chunk, handle_shutdown_ack, enqueue_control, stop_timer. apply holds_bind, holds_ret.
  do 2 apply holds_bind; apply holds_self. change (state (ready a)) with (state a). rewrite Hs. cbn [bool_decide decide when orb].
  apply holds_bind, holds_bind, holds_modify, holds_modify, holds_ret, holds_modify.
  split_and!; try done; try (by intros []). destruct Ha. constructor; try done. cbn. by rewrite id_control0.
Qed.

Definition same_triggers (a a' : Association) : Prop :=
  immediate_ack_triggered a' = immediate_ack_triggered a ∧ delayed_ack_triggered a' = delayed_ack_triggered a ∧
  endpoint_events a' = endpoint_events a.
#[local] Instance same_triggers_refl : Reflexive same_triggers.
Proof. done. Qed.
#[local] Instance same_triggers_trans : Transitive same_triggers.
Proof. intros ??? (? & ? & ?) (? & ? & ?). split_and!; congruence. Qed.

Lemma close_triggers r : preserves same_triggers (close_with_reason r).
Proof.
  unfold close_with_reason, close_all_timers, unregister_stream, remove_stream, queue_stream_finished, stop_timer, set_state, push_event.
  quiet.
Qed.

Lemma receive_shutdown_complete p now a :
  state a = ShutdownAckSent →
  holds False (handle_chunk fresh_cookie p CShutdownComplete now)
    (λ _ a', immediate_ack_triggered a' = false ∧ delayed_ack_triggered a' = false ∧
       closed_down AssociationError.AssociationClosed a a' ∧ endpoint_events a' = endpoint_events a) (λ _ _, False) (ready a).
Proof.
  intros Hs. unfold handle_chunk, handle_shutdown_complete, enqueue_control, stop_timer. apply holds_bind, holds_ret.
  do 2 apply holds_bind; apply holds_self. change (state (ready a)) with (state a). rewrite Hs, bool_decide_true by done. cbn [when].
  apply holds_bind, holds_bind, holds_modify. set (a1 := _ <| timers ::= _ |>). unfold close.
  assert (state a1 ≠ Closed) as Hn by (change (state a1) with (state a); by rewrite Hs).
  eapply holds_mono; [exact (holds_both _ _ _ _ _ _ _ (close_with_reason_holds _ a1 Hn) (close_triggers _ a1))| |by intros ?? []].
  intros _ a' [[] (Ht1 & Ht2 & Ht3)]. apply holds_ret, holds_modify. split_and!; [exact Ht1|exact Ht2| |exact Ht3].
  constructor; try done. cbn. by rewrite cd_control.
Qed.

(** ** The sequence *)

Definition shutdown_sequence (t1 t2 t3 : Instant) (a b : Association) : option (Association * Association) :=
  match shutdown a with
  | ROk _ a =>
      '(a, b) ← hand_over crc fresh_cookie t1 a b;
      '(b, a) ← hand_over crc fresh_cookie t2 b a;
      hand_over crc fresh_cookie t3 a b
  | _ => None
  end.

(** Not yet asked to shut down. *)
Record open_end (a : Association) : Prop := mk_open_end {
  oe_idle : idle a;
  oe_state : state a = Established;
  oe_shutdown : will_send_shutdown a = false;
  oe_ack : will_send_shutdown_ack a = false;
  oe_complete : will_send_shutdown_complete a = false;
  oe_length : inflight_queue_length a = 0;
}.

Lemma start_shutdown a :
  open_end a →
  ∃ a', shutdown a = ROk tt a' ∧
    a' = a <| state := ShutdownSent |> <| will_send_shutdown := true |> <| endpoint_events ::= λ l, l ++ [Drained] |>.
Proof.
  intros []. unfold shutdown, set_state. run. rewrite oe_state0, bool_decide_true by done. cbn [negb].
  rewrite oe_length0. cbn [Z.eqb]. eexists. split; [done|]. by destruct a.
Qed.

(** One poll and one delivery. *)
Lemma exchange now a b c (P Q : Association → Prop) :
  addressed a → travels c → sends now a c P →
  holds False (handle_chunk fresh_cookie (create_packet a [c]) c now)
    (λ _ b', immediate_ack_triggered b' = false ∧ delayed_ack_triggered b' = false ∧ Q b') (λ _ _, False) (ready b) →
  ∃ a' b', hand_over crc fresh_cookie now a b = Some (a', b') ∧ P a' ∧ Q b'.
Proof.
  intros Ha Hc (a' & Hp & HP) Hh. destruct (hand_over_single crc fresh_cookie Hcrc now a a' b c _ _ _ Q Ha Hc Hp Hh) as (b' & E & HQ).
  by exists a', b'.
Qed.

(** The end that asked: it has sent SHUTDOWN COMPLETE and waits for nothing. *)
Record asked (a a' : Association) : Prop := mk_asked {
  as_state : state a' = ShutdownSent;
  as_timers t : timer_get (timers a') t = if decide (t = T2Shutdown) then None else timer_get (timers a) t;
  as_events : events a' = events a;
  as_streams : streams a' = streams a;
  as_endpoint : endpoint_events a' = endpoint_events a ++ [Drained];
  as_silent now : ∃ a'', poll_transmit crc now a' = ROk None a'' ∧ still a' a'';
}.

(** The end that was asked. *)
Record answered (b b' : Association) : Prop := mk_answered {
  an_state : state b' = Closed;
  an_timers t : timer_get (timers b') t = None;
  an_streams : streams b' = ∅;
  an_events : ∃ finals, events b' = events b ++ finals ++ [Event.AssociationLost AssociationError.AssociationClosed] ∧
    finals ≡ₚ (λ e, final_report e.2) <$> map_to_list (streams b);
  an_endpoint : endpoint_events b' = endpoint_events b;
}.

(** Claim C13.  The shutdown sequence runs to its end and closes one side: asked to shut down with nothing in
    flight, an established end sends SHUTDOWN, its peer answers SHUTDOWN ACK and gets SHUTDOWN
    COMPLETE, each as a datagram encoded by one end and decoded and handled by the other.  The
    peer is then closed, without timers or streams, and has reported every stream and the loss of
    the association.  The end that asked has its shutdown timer stopped and nothing left to send,
    but it stays in SHUTDOWN-SENT with its streams, reports nothing to the application, and has
    asked the endpoint to forget it. *)
Theorem shutdown_closes_the_peer_only t1 t2 t3 a b :
  open_end a → open_end b → can_arm_shutdown a t1 → can_arm_shutdown b t2 →
  ∃ a' b', shutdown_sequence t1 t2 t3 a b = Some (a', b') ∧ asked a a' ∧ answered b b'.
Proof.
  intros Oa Ob Ta Tb. destruct (start_shutdown a Oa) as (a1 & Es & ->).
  set (a1 := a <| state := ShutdownSent |> <| will_send_shutdown := true |> <| endpoint_events ::= λ l, l ++ [Drained] |>) in *.
  assert (idle a1) as I1 by (destruct (oe_idle _ Oa); by constructor).
  destruct (exchange t1 a1 b _ _ _ (id_addressed _ I1) (shutdown_travels _ (id_point _ I1)) (poll_shutdown t1 a1 I1 eq_refl eq_refl Ta)
    (receive_shutdown _ _ t1 b (oe_idle _ Ob) (oe_state _ Ob)))
    as (a2 & b1 & E1 & (a2' & tt2 & S2 & -> & Ht2) & Ib1 & Ub1 & Sb1 & Wb1 & Wb1' & Tb1).
  assert (can_arm_shutdown b1 t2) as Tb1' by (unfold can_arm_shutdown; by rewrite Tb1, (um_rto _ _ Ub1)).
  rewrite (oe_shutdown _ Ob) in Wb1'.
  set (a2 := a2' <| will_send_shutdown := false |> <| timers := tt2 |>) in *.
  assert (idle a2) as I2 by (destruct (still_idle _ _ S2 I1); by constructor).
  destruct S2 as (q2 & u2 & -> & _).
  destruct (exchange t2 b1 a2 _ _ _ (id_addressed _ Ib1) ack_travels (poll_shutdown_ack t2 b1 Ib1 Sb1 Wb1' Wb1 Tb1')
    (receive_shutdown_ack _ t2 a2 I2 eq_refl))
    as (b2 & a3 & E2 & (tt3 & ->) & I3 & U3 & S3 & W3 & W3' & W3'' & T3).
  change (will_send_shutdown a2) with false in W3'. change (will_send_shutdown_ack a2) with (will_send_shutdown_ack a) in W3''.
  rewrite (oe_ack _ Oa) in W3''.
  set (b2 := b1 <| will_send_shutdown_ack := false |> <| timers := tt3 |>) in *.
  assert (state b2 = ShutdownAckSent) as Sb2 by exact Sb1.
  destruct (exchange t3 a3 b2 _ _ _ (id_addressed _ I3) complete_travels
    (poll_shutdown_complete t3 a3 I3 S3 W3' W3'' W3) (receive_shutdown_complete _ t3 b2 Sb2))
    as (a4 & b3 & E3 & (a4' & S4 & ->) & C3 & N3).
  exists (a4' <| will_send_shutdown_complete := false |>), b3. split_and!.
  - unfold shutdown_sequence. rewrite Es, E1. cbn [mbind option_bind]. rewrite E2. exact E3.
  - assert (idle (a4' <| will_send_shutdown_complete := false |>)) as I4 by (destruct (still_idle _ _ S4 I3); by constructor).
    destruct S4 as (q4 & u4 & -> & _). constructor; try done.
    + intros t. etrans; [apply T3|]. case_decide; [done|]. by apply Ht2.
    + etrans; [apply (um_events _ _ U3)|done].
    + etrans; [apply (um_streams _ _ U3)|done].
    + etrans; [apply (um_endpoint _ _ U3)|done].
    + intros now. by apply poll_nothing.
  - destruct C3 as [C1 C2 C4 _ _ (fs & C5 & C6) _ _]. constructor; try done.
    + exists fs. cbn in C5, C6. rewrite (um_events _ _ Ub1) in C5. by rewrite (um_streams _ _ Ub1) in C6.
    + rewrite N3. apply (um_endpoint _ _ Ub1).
Qed.
End Shutdown.

(** ** A pair that has just connected *)

Definition demo_pair : Association * Association :=
  default (Association_default, Association_default)
    (@handshake list_iter [1; 2; 3] 10 20 30 40 (demo_end false 77 5) (demo_end true 88 4294967295)).

Ltac evaluate := vm_compute; (reflexivity || (split_and?; (reflexivity || discriminate))).

Lemma demo_pair_open : open_end demo_pair.1 ∧ open_end demo_pair.2.
Proof.
  split; (constructor; [constructor|..]; try evaluate); try (split; apply Forall_nil; done); vm_compute; split; by constructor.
Qed.

Lemma shutdown_closes_the_peer_only_witness :
  ∃ a' b', @shutdown_sequence list_iter list_buf crc32c [1; 2; 3] 50 60 70 demo_pair.1 demo_pair.2 = Some (a', b') ∧
    @asked list_iter list_buf crc32c demo_pair.1 a' ∧ answered demo_pair.2 b'.
Proof.
  refine (@shutdown_closes_the_peer_only list_iter list_iter_laws list_buf list_buf_laws crc32c crc32c_uN [1; 2; 3] 50 60 70 _ _
    (proj1 demo_pair_open) (proj2 demo_pair_open) _ _); vm_compute; exact Logic.I.
Defined.
