(* ===== verification/AssocRetry.v ===== *)
(** * A handshake nobody answers

    The INIT and the COOKIE ECHO are guarded by the timers T1-init and
    T1-cookie.  The application calls [handle_timeout] when [poll_timeout] says
    so and polls for datagrams after it.  This file follows such an end through
    every expiry: what it sends, when the next expiry is due, and how it ends. *)

From stdpp Require Import base list gmap numbers strings sets.
From Stdlib Require Import ZArith Lia ZifyBool.
From S2P Require Import Prelude Bytes Util Params Chunks ChunksRoundtrip Packet PayloadQueue PendingQueue OutboundQueue.
From S2P Require Import ReassemblyQueue Shared Stream Monad Timer Config Association AssocReset AssocRecv AssocSend AssocControl.
From S2P Require Import AssocFrame AssocMachine AssocHandshake AssocSack AssocReliable AssocWire AssocShutdown.

(** ** One timer of [handle_timeout] *)

Section Expiry.
Context {I : MapIter}.

Definition timer_step (now : Instant) (t : Timer) : AM unit :=
  a ← self;
  let '((expired, failure, n_rtos), table) := is_expired (timers a) t now in
  modify (λ a, a <| timers := table |>);;
  when expired
    (modify (λ a, a <| timers ::= λ tt, timer_set tt t None |>);;
     if bool_decide (t = Ack) then on_ack_timeout
     else if (failure : bool) then on_retransmission_failure t
     else on_retransmission_timeout t;; start_timer t now).

Lemma handle_timeout_steps now : handle_timeout now = for_each Timer_VALUES (timer_step now).
Proof. reflexivity. Qed.

Lemma timer_step_unarmed now t a : timer_get (timers a) t = None → timer_step now t a = ROk tt a.
Proof.
  intros H. unfold timer_step, is_expired. unfold timer_get in H. run. rewrite H. f_equal. by destruct a.
Qed.

Lemma steps_unarmed now l a : (∀ t, t ∈ l → timer_get (timers a) t = None) → for_each l (timer_step now) a = ROk tt a.
Proof.
  induction l as [|t l IH]; intros H; [done|]. cbn [for_each]. run.
  rewrite timer_step_unarmed by (apply H; by left). apply IH. intros t' Ht'. apply H. by right.
Qed.

(** With one timer armed, before and after, only that timer counts. *)
Lemma handle_timeout_one now t l1 l2 a a' :
  Timer_VALUES = l1 ++ t :: l2 → (∀ t', t' ≠ t → timer_get (timers a) t' = None) → timer_step now t a = ROk tt a' →
  (∀ t', t' ≠ t → timer_get (timers a') t' = None) → handle_timeout now a = ROk tt a'.
Proof.
  intros El Ha Hs Ha'. rewrite handle_timeout_steps, El.
  assert (t ∉ l1 ∧ t ∉ l2) as [N1 N2].
  { assert (NoDup Timer_VALUES) as Hnd by (by apply (bool_decide_unpack _); vm_compute). rewrite El in Hnd.
    apply NoDup_app in Hnd as (_ & N1 & [N2 _]%NoDup_cons). split; [|done]. intros Hin. apply (N1 _ Hin). by left. }
  assert (∀ l b, for_each (l1 ++ l) (timer_step now) b = (for_each l1 (timer_step now);; for_each l (timer_step now)) b) as Happ.
  { clear. induction l1 as [|u l1 IH]; intros l b; [done|]. cbn [app for_each]. run. destruct (timer_step now u b); [|done..]. apply IH. }
  rewrite Happ. run. rewrite steps_unarmed by (intros t' Ht'; apply Ha; by intros ->). cbn [for_each]. run. rewrite Hs.
  apply steps_unarmed. intros t' Ht'. apply Ha'. by intros ->.
Qed.
End Expiry.

(** ** Waiting for the peer *)

(** The two packets of the handshake that are sent again. *)
Inductive Phase : Type := AwaitsInitAck | AwaitsCookieAck.

Definition phase_timer (ph : Phase) : Timer := match ph with AwaitsInitAck => T1Init | AwaitsCookieAck => T1Cookie end.

Definition phase_state (ph : Phase) : AssociationState :=
  match ph with AwaitsInitAck => CookieWait | AwaitsCookieAck => CookieEchoed end.

Definition phase_error (ph : Phase) : AssociationError.t :=
  AssociationError.HandshakeFailed match ph with AwaitsInitAck => ErrHandshakeInitAck | AwaitsCookieAck => ErrHandshakeCookieEcho end.

Definition phase_chunk (ph : Phase) (a : Association) : option Chunk :=
  match ph with AwaitsInitAck => CInit <$> stored_init a | AwaitsCookieAck => CCookieEcho <$> stored_cookie_echo a end.

(** The interval before the [k]-th expiry after the first. *)
Definition backoff (a : Association) (k : Z) : Z := Z.min (get_rto (rto_mgr a) * 2 ^ k) (tt_rto_max (timers a)).

(** [a] has sent the chunk [c] of phase [ph] and then [k] times again; nothing else goes on, and
    its timer is due at [x]. *)
Record awaiting (ph : Phase) (c : Chunk) (limit : option Z) (k : Z) (x : Instant) (a : Association) : Prop := mk_awaiting {
  aw_state : state a = phase_state ph;
  aw_chunk : phase_chunk ph a = Some c;
  aw_wire : Packet_wf (create_packet a [c]);
  aw_due : timer_get (timers a) (phase_timer ph) = Some x;
  aw_alone : ∀ t, t ≠ phase_timer ph → timer_get (timers a) t = None;
  aw_count : tt_retrans (timers a) (phase_timer ph) = k;
  aw_counted : tt_no_error_count (timers a) (phase_timer ph) = false;
  aw_limit : tt_max_retrans (timers a) (phase_timer ph) = limit;
  aw_rto : 0 < get_rto (rto_mgr a) <= tt_rto_max (timers a) ∧ tt_rto_max (timers a) <= 2 ^ 31;
  aw_nothing : control_queue a = [] ∧ active_reconfig a = None ∧ events a = [] ∧ error a = None;
}.

(** When the [k]-th expiry after the one at [x] is due. *)
Fixpoint due_time (a : Association) (x : Instant) (k : nat) : Instant :=
  match k with O => x | S k' => due_time a x k' + backoff a (Z.of_nat k) * ms end.

(** What the retries leave alone. *)
Record as_before (a a' : Association) : Prop := mk_as_before {
  ab_addresses : remote_addr a' = remote_addr a ∧ local_ip a' = local_ip a;
  ab_tags : a_source_port a' = a_source_port a ∧ a_destination_port a' = a_destination_port a ∧
    peer_verification_tag a' = peer_verification_tag a;
  ab_rto : rto_mgr a' = rto_mgr a ∧ tt_rto_max (timers a') = tt_rto_max (timers a);
  ab_state : state a' = state a ∧ events a' = events a ∧ endpoint_events a' = endpoint_events a;
}.

#[export] Instance as_before_refl : Reflexive as_before.
Proof. by constructor. Qed.
#[export] Instance as_before_trans : Transitive as_before.
Proof.
  intros a b c [[E1 E2] (E3 & E4 & E5) [E6 E7] (E8 & E9 & E10)] [[F1 F2] (F3 & F4 & F5) [F6 F7] (F8 & F9 & F10)].
  constructor; split_and!; congruence.
Qed.

Lemma as_before_backoff a a' k : as_before a a' → backoff a' k = backoff a k.
Proof. intros [_ _ [E1 E2] _]. unfold backoff. by rewrite E1, E2. Qed.

Lemma as_before_due a a' x k : as_before a a' → due_time a' x k = due_time a x k.
Proof. intros H. induction k as [|k IH]; [done|]. cbn [due_time]. by rewrite IH, (as_before_backoff _ _ _ H). Qed.

Lemma due_time_mono ph c limit k x a n m :
  awaiting ph c limit k x a → (n ≤ m)%nat → due_time a x n <= due_time a x m.
Proof.
  intros H. destruct (aw_rto _ _ _ _ _ _ H) as [Hr _]. induction 1 as [|m _ IH]; [lia|]. cbn [due_time].
  assert (0 < backoff a (Z.of_nat (S m))); [|unfold ms; lia]. unfold backoff. assert (0 < 2 ^ Z.of_nat (S m)) by lia. nia.
Qed.

Section Retry.
Context {I : MapIter} {B : BufApi} (crc : Bytes → u32).

(** The application waits until the association is due, tells it and polls it for a datagram. *)
Definition due_round (a : Association) : option (option Transmit * Association) :=
  match poll_timeout a with
  | None => None
  | Some now =>
      match handle_timeout now a with
      | ROk _ a1 => match poll_transmit crc now a1 with ROk t a2 => Some (t, a2) | _ => None end
      | _ => None
      end
  end.

Fixpoint due_rounds (n : nat) (a : Association) : option (list (option Transmit) * Association) :=
  match n with
  | O => Some ([], a)
  | S n' => '(t, a1) ← due_round a; '(ts, a2) ← due_rounds n' a1; Some (t :: ts, a2)
  end.

Lemma due_at ph c limit k x a : awaiting ph c limit k x a → poll_timeout a = Some x.
Proof.
  intros H. unfold poll_timeout. pose proof (next_timeout_spec (timers a)) as Hn. destruct (next_timeout (timers a)) as [y|].
  - destruct Hn as [[t Ht] _]. destruct (decide (t = phase_timer ph)) as [->|Hne]; [by rewrite (aw_due _ _ _ _ _ _ H) in Ht|].
    by rewrite (aw_alone _ _ _ _ _ _ H _ Hne) in Ht.
  - pose proof (Hn (phase_timer ph)) as Hp. by rewrite (aw_due _ _ _ _ _ _ H) in Hp.
Qed.

Lemma handle_timeout_phase ph now a a' :
  (∀ t, t ≠ phase_timer ph → timer_get (timers a) t = None) → timer_step now (phase_timer ph) a = ROk tt a' →
  (∀ t, t ≠ phase_timer ph → timer_get (timers a') t = None) → handle_timeout now a = ROk tt a'.
Proof. destruct ph; [by eapply (handle_timeout_one now T1Init [])|by eapply (handle_timeout_one now T1Cookie [T1Init])]. Qed.

(** The timer table after an expiry that was not one too many. *)
Definition rearmed (tt : TimerTable) (t : Timer) (x : Instant) : TimerTable :=
  timer_set (timer_set (tt <| tt_retrans ::= λ r, set_at t (r t + 1) r |>) t None) t (Some x).

Definition resent (ph : Phase) (c : Chunk) (k : Z) (x : Instant) (a : Association) : Association :=
  a <| control_queue := [create_packet a [c]] |>
    <| timers := rearmed (timers a) (phase_timer ph) (x + backoff a (k + 1) * ms) |>.

Lemma queue_first (a : Association) p :
  control_queue a = [] → a <| control_queue ::= λ q, q ++ [p] |> = a <| control_queue := [p] |>.
Proof. intros E. destruct a. cbn in E. by subst. Qed.

Lemma timer_step_resends ph c limit k x a :
  awaiting ph c limit k x a → 0 <= k → match limit with Some m => k < m | None => True end →
  x + backoff a (k + 1) * ms < INSTANT_LIMIT →
  timer_step x (phase_timer ph) a = ROk tt (resent ph c k x a).
Proof.
  intros H Hk Hl Hi. unfold timer_step. run.
  rewrite (is_expired_armed _ _ x) by (apply H || lia). rewrite (aw_limit _ _ _ _ _ _ H), (aw_count _ _ _ _ _ _ H).
  replace (match limit with Some max => k + 1 >? max | None => false end) with false by (destruct limit; lia). cbv iota.
  replace (bool_decide (phase_timer ph = Ack)) with false by (by destruct ph).
  set (t1 := timers a <| tt_retrans ::= λ r, set_at (phase_timer ph) (r (phase_timer ph) + 1) r |>).
  set (b := a <| timers := t1 |> <| timers ::= λ tt, timer_set tt (phase_timer ph) None |>).
  assert (on_retransmission_timeout (phase_timer ph) b = ROk tt (b <| control_queue := [create_packet a [c]] |>)) as ->.
  { pose proof (aw_chunk _ _ _ _ _ _ H) as Hc. destruct (aw_nothing _ _ _ _ _ _ H) as (Hq & _).
    destruct ph; cbn [phase_timer phase_chunk] in *; unfold on_retransmission_timeout, send_init, send_cookie_echo; run.
    - change (stored_init b) with (stored_init a). destruct (stored_init a); cbn in Hc; [|done]. injection Hc as <-.
      rewrite (queue_first b) by exact Hq. reflexivity.
    - change (stored_cookie_echo b) with (stored_cookie_echo a). destruct (stored_cookie_echo a); cbn in Hc; [|done]. injection Hc as <-.
      rewrite (queue_first b) by exact Hq. reflexivity. }
  unfold start_timer, with_timers, timer_start. run.
  change (tt_retrans _ _) with (set_at (phase_timer ph) (tt_retrans (timers a) (phase_timer ph) + 1) (tt_retrans (timers a)) (phase_timer ph)).
  rewrite set_at_eq, (aw_count _ _ _ _ _ _ H), decide_False by (by destruct ph).
  change (get_rto (rto_mgr _)) with (get_rto (rto_mgr a)). change (tt_rto_max _) with (tt_rto_max (timers a)).
  destruct (aw_rto _ _ _ _ _ _ H) as [Hr Hm].
  destruct (calculate_next_timeout_spec _ (k + 1) _ Hr Hm ltac:(lia)) as [-> _]. fold (backoff a (k + 1)).
  unfold Instant_add, Instant_checked_add. rewrite (proj2 (Z.ltb_lt _ _) Hi). reflexivity.
Qed.

Lemma rearmed_get tt t x t' : timer_get (rearmed tt t x) t' = if decide (t' = t) then Some x else timer_get tt t'.
Proof.
  unfold rearmed, timer_get. cbn. unfold set_at. by repeat case_decide.
Qed.

Context {BL : BufLaws B}.

Lemma control_sent a p now :
  control_queue a = [p] → active_reconfig a = None → packet_reconfig_request_rsn p = None → Packet_wf p →
  gather_outbound_control_packets crc [] now a =
    ROk [packet_bytes crc (common_header p) (flat_map padded_chunk (chunks p))] (a <| control_queue := [] |>).
Proof.
  intros Hq Hr Hp Hw. unfold gather_outbound_control_packets, restart_reconfig_timer. run. rewrite Hq. cbn [drain_control]. run.
  rewrite Hp. unfold marshal_onto. rewrite Packet_marshal_bytes by done.
  change (active_reconfig _) with (active_reconfig a). rewrite Hr, bool_decide_true by done. reflexivity.
Qed.

Lemma phase_not_reconfig ph c a : phase_chunk ph a = Some c → packet_reconfig_request_rsn (create_packet a [c]) = None.
Proof. destruct ph; cbn; [destruct (stored_init a)|destruct (stored_cookie_echo a)]; intros E; by simplify_eq/=. Qed.

Definition resends (a : Association) (c : Chunk) (x : Instant) : Transmit :=
  mkTransmit x (remote_addr a) None (local_ip a) (PayloadRawEncode [datagram crc a c]).

Lemma poll_resends ph c k x a :
  state a = phase_state ph → phase_chunk ph a = Some c → Packet_wf (create_packet a [c]) → active_reconfig a = None →
  poll_transmit crc x (resent ph c k x a) = ROk (Some (resends a c x)) (resent ph c k x a <| control_queue := [] |>).
Proof.
  intros Hs Hc Hw Hr. unfold poll_transmit, gather_outbound. run. set (b := resent ph c k x a).
  rewrite (control_sent b (create_packet a [c]) x) by (done || by eapply phase_not_reconfig). 
  change (state _) with (state a). rewrite Hs. by destruct ph.
Qed.

(** An expiry that is not one too many: the packet goes out again and the next interval is twice
    as long, up to the maximum. *)
Lemma due_round_resends ph c limit k x a :
  awaiting ph c limit k x a → 0 <= k → match limit with Some m => k < m | None => True end →
  x + backoff a (k + 1) * ms < INSTANT_LIMIT →
  ∃ a', due_round a = Some (Some (resends a c x), a') ∧ awaiting ph c limit (k + 1) (x + backoff a (k + 1) * ms) a' ∧ as_before a a'.
Proof.
  intros H Hk Hl Hi. set (a' := resent ph c k x a <| control_queue := [] |>). exists a'.
  pose proof (timer_step_resends _ _ _ _ _ _ H Hk Hl Hi) as Hs. destruct (aw_nothing _ _ _ _ _ _ H) as (_ & Hr & He & Her).
  assert (∀ t, timer_get (timers a') t = if decide (t = phase_timer ph) then Some (x + backoff a (k + 1) * ms) else timer_get (timers a) t)
    as Hg by apply rearmed_get.
  assert (∀ t, t ≠ phase_timer ph → timer_get (timers a') t = None) as Hno.
  { intros t Ht. rewrite Hg, decide_False by done. by apply (aw_alone _ _ _ _ _ _ H). }
  split_and!.
  - unfold due_round. rewrite (due_at _ _ _ _ _ _ H).
    rewrite (handle_timeout_phase ph x a (resent ph c k x a)) by (done || apply H).
    rewrite poll_resends by (done || apply H). reflexivity.
  - refine (mk_awaiting ph c limit _ _ a' _ _ _ _ Hno _ _ _ _ _); try (by apply H); try by split_and!.
    + by rewrite Hg, decide_True.
    + change (set_at (phase_timer ph) (tt_retrans (timers a) (phase_timer ph) + 1) (tt_retrans (timers a)) (phase_timer ph) = k + 1).
      by rewrite set_at_eq, (aw_count _ _ _ _ _ _ H).
  - by constructor.
Qed.

Lemma poll_quiet a : events a = [] → error a = None → poll a = ROk None a.
Proof. intros He Her. unfold poll. run. rewrite He. cbn. by rewrite Her. Qed.

(** ** One expiry too many *)

Definition gave_up (ph : Phase) (a : Association) : Association :=
  a <| error := Some (phase_error ph) |>
    <| timers := timer_set (timers a <| tt_retrans ::= λ r, set_at (phase_timer ph) (r (phase_timer ph) + 1) r |>) (phase_timer ph) None |>.

Lemma timer_step_gives_up ph c m x a :
  awaiting ph c (Some m) m x a → timer_step x (phase_timer ph) a = ROk tt (gave_up ph a).
Proof.
  intros H. unfold timer_step. run.
  rewrite (is_expired_armed _ _ x) by (apply H || lia). rewrite (aw_limit _ _ _ _ _ _ H), (aw_count _ _ _ _ _ _ H).
  replace (m + 1 >? m) with true by lia. by destruct ph.
Qed.

Lemma gave_up_unarmed ph c m k x a : awaiting ph c m k x a → ∀ t, timer_get (timers (gave_up ph a)) t = None.
Proof.
  intros H t. change (set_at (phase_timer ph) None (tt_data (timers a)) t = None). unfold set_at. case_decide; [done|].
  by apply (aw_alone _ _ _ _ _ _ H).
Qed.

Lemma poll_transmit_nothing ph a now :
  state a = phase_state ph → control_queue a = [] → active_reconfig a = None → poll_transmit crc now a = ROk None a.
Proof.
  intros Hs Hq Hr. unfold poll_transmit, gather_outbound. run. rewrite (control_empty crc now [] a Hq Hr), Hs. by destruct ph.
Qed.

Lemma due_round_gives_up ph c m x a : awaiting ph c (Some m) m x a → due_round a = Some (None, gave_up ph a).
Proof.
  intros H. pose proof (gave_up_unarmed _ _ _ _ _ _ H) as Hno. destruct (aw_nothing _ _ _ _ _ _ H) as (Hq & Hr & _).
  unfold due_round. rewrite (due_at _ _ _ _ _ _ H).
  rewrite (handle_timeout_phase ph x a (gave_up ph a) (aw_alone _ _ _ _ _ _ H) (timer_step_gives_up _ _ _ _ _ H) (λ t _, Hno t)).
  rewrite (poll_transmit_nothing ph) by (done || apply H). done.
Qed.

(** ** All expiries *)

Lemma due_rounds_snoc n a ts a' t a'' :
  due_rounds n a = Some (ts, a') → due_round a' = Some (t, a'') → due_rounds (S n) a = Some (ts ++ [t], a'').
Proof.
  revert a ts; induction n as [|n IH]; intros a ts E1 E2.
  - injection E1 as <- ->. cbn. by rewrite E2.
  - cbn [due_rounds] in E1. destruct (due_round a) as [[t1 a1]|] eqn:Er; [|done]. cbn in E1.
    destruct (due_rounds n a1) as [[ts1 a2]|] eqn:Ers; [|done]. injection E1 as <- ->.
    change (('(t, a1) ← due_round a; '(ts, a2) ← due_rounds (S n) a1; Some (t :: ts, a2)) = Some ((t1 :: ts1) ++ [t], a'')).
    rewrite Er. cbn -[due_rounds]. by rewrite (IH _ _ Ers E2).
Qed.

Lemma due_rounds_resend ph c limit x a n :
  awaiting ph c (Z.of_nat <$> limit) 0 x a → (∀ m, limit = Some m → (n ≤ m)%nat) → due_time a x n < INSTANT_LIMIT →
  ∃ a', due_rounds n a = Some ((λ k, Some (resends a c (due_time a x k))) <$> seq 0 n, a') ∧
    awaiting ph c (Z.of_nat <$> limit) (Z.of_nat n) (due_time a x n) a' ∧ as_before a a'.
Proof.
  intros H. induction n as [|n IH]; intros Hl Ht; [by exists a|].
  assert (due_time a x n <= due_time a x (S n)) by (eapply due_time_mono; [exact H|lia]).
  destruct IH as (a1 & E1 & H1 & B1); [intros m Hm; specialize (Hl m Hm); lia|lia|].
  destruct (due_round_resends _ _ _ _ _ _ H1) as (a2 & E2 & H2 & B2).
  - lia.
  - destruct limit as [m|]; [|done]. specialize (Hl m eq_refl). cbn. lia.
  - rewrite (as_before_backoff _ _ _ B1). cbn [due_time] in Ht. by replace (Z.of_nat n + 1) with (Z.of_nat (S n)) by lia.
  - exists a2. rewrite (as_before_backoff _ _ _ B1) in H2. replace (Z.of_nat n + 1) with (Z.of_nat (S n)) in H2 by lia.
    split_and!; [|exact H2|by etrans]. rewrite seq_S, fmap_app. eapply due_rounds_snoc; [exact E1|]. rewrite E2. cbn.
    destruct B1 as [[R1 R2] (P1 & P2 & P3) _ _]. unfold resends, datagram, create_packet. by rewrite R1, R2, P1, P2, P3.
Qed.

(** Claim C11.  An end whose INIT or COOKIE ECHO is never answered sends it again at every expiry of its timer, the
    same packet and nothing else, after the configured initial RTO doubled each time up to the
    maximum, and reports nothing meanwhile: without a limit for ever, with a limit of [m]
    exactly [m] times.  At the next expiry it sends nothing, no timer is left, and the
    application gets one [HandshakeFailed] event with the error of that phase; the state stays as it
    was and the endpoint is not told. *)
Theorem unanswered_handshake_fails ph c limit x a :
  awaiting ph c (Z.of_nat <$> limit) 0 x a →
  (∀ n, (∀ m, limit = Some m → (n ≤ m)%nat) → due_time a x n < INSTANT_LIMIT →
     ∃ a', due_rounds n a = Some ((λ k, Some (resends a c (due_time a x k))) <$> seq 0 n, a') ∧
       poll_timeout a' = Some (due_time a x n) ∧ poll a' = ROk None a') ∧
  (∀ m, limit = Some m → due_time a x m < INSTANT_LIMIT →
     ∃ a' b, due_rounds (S m) a = Some (((λ k, Some (resends a c (due_time a x k))) <$> seq 0 m) ++ [None], a') ∧
       poll_timeout a' = None ∧ (∀ now, poll_transmit crc now a' = ROk None a') ∧
       poll a' = ROk (Some (Event.HandshakeFailed (phase_error ph))) b ∧ poll b = ROk None b ∧
       state b = phase_state ph ∧ endpoint_events b = endpoint_events a).
Proof.
  intros H. split.
  - intros n Hn Ht. destruct (due_rounds_resend _ _ _ _ _ n H Hn Ht) as (a' & E & H' & _). exists a'.
    split_and!; [exact E|by eapply due_at|]. destruct (aw_nothing _ _ _ _ _ _ H') as (_ & _ & He & Her).
    by apply poll_quiet.
  - intros m -> Ht. destruct (due_rounds_resend _ _ _ _ _ m H) as (a1 & E1 & H1 & B1); [by intros ? [= ->]|done|].
    destruct (aw_nothing _ _ _ _ _ _ H1) as (Hq & Hr & He & Her). set (a' := gave_up ph a1).
    pose proof (gave_up_unarmed _ _ _ _ _ _ H1) as Hno. fold a' in Hno.
    exists a', (a' <| error := None |>). split_and!.
    + eapply due_rounds_snoc; [exact E1|by eapply due_round_gives_up].
    + unfold poll_timeout. pose proof (next_timeout_spec (timers a')) as Hn. destruct (next_timeout (timers a')); [|done].
      destruct Hn as [[t Hn] _]. by rewrite Hno in Hn.
    + intros now. apply (poll_transmit_nothing ph); [apply (aw_state _ _ _ _ _ _ H1)|done..].
    + unfold poll. run. change (events a') with (events a1). rewrite He. done.
    + by apply poll_quiet.
    + apply (aw_state _ _ _ _ _ _ H1).
    + apply (ab_state _ _ B1).
Qed.
End Retry.

(** ** A new client *)

Section Client.
Context {I : MapIter} {B : BufApi} {BL : BufLaws B} (crc : Bytes → u32).

(** A configuration whose INIT fits its fields and whose intervals fit the clock. *)
Record timed_config (config : TransportConfig) (tag tsn : u32) : Prop := mk_timed_config {
  tg_wire : uN 32 tag ∧ uN 32 tsn ∧ uN 32 (tc_max_receive_buffer_size config) ∧ uN 16 (tc_max_num_outbound_streams config) ∧
    uN 16 (tc_max_num_inbound_streams config) ∧ uN 16 (tc_local_port config) ∧ uN 16 (tc_remote_port config);
  tg_rto : 0 < tc_rto_initial_ms config <= tc_rto_max_ms config ∧ tc_rto_max_ms config <= 2 ^ 31;
}.

Record armed_client (config : TransportConfig) (now : Instant) (a : Association) : Prop := mk_armed_client {
  ac_stored : stored_init a = Some (offer false a []);
  ac_time : ∃ x, Instant_add now (calculate_next_timeout (tc_rto_initial_ms config) 0 (tc_rto_max_ms config)) = Ok x ∧
    timer_get (timers a) T1Init = Some x;
  ac_counts : tt_retrans (timers a) T1Init = 0 ∧ tt_no_error_count (timers a) T1Init = false ∧
    tt_max_retrans (timers a) T1Init = tc_max_init_retransmits config;
  ac_nothing : active_reconfig a = None ∧ error a = None ∧ peer_verification_tag a = 0;
}.

Lemma new_client_armed config max_payload_size tag remote ip tsn now a :
  Association_new false config max_payload_size tag remote ip tsn now = Ok a → armed_client config now a.
Proof.
  unfold Association_new. intros H. apply bind_Ok in H as (this & Hthis & H).
  change (is_client _) with true in H. cbv iota in H. unfold set_state, send_init, start_timer, with_timers in H. revert H. apply construct_Ok.
  apply holds_bind, holds_modify, holds_bind, holds_modify, holds_bind, holds_ignore, holds_bind, holds_gets, holds_modify.
  apply holds_bind, holds_gets, holds_bind, holds_gets, holds_bind, holds_lift; [|done..].
  unfold new_common in Hthis. do 4 (apply bind_Ok in Hthis as (? & _ & Hthis)). apply Ok_Association_inj in Hthis as <-.
  intros tt' Htt. unfold timer_start in Htt. apply bind_Ok in Htt as (time & Ht & Htt). injection Htt as <-. apply holds_modify.
  constructor; [done| |done..]. by exists time.
Qed.

Lemma offer_wf config tag tsn a :
  new_end config tag tsn a → peer_verification_tag a = 0 → timed_config config tag tsn →
  Packet_wf (create_packet a [CInit (offer false a [])]).
Proof.
  intros [(E1 & E2 & E3) [E4 E5] [E6 E7] _ _ _ _] E8 [(? & ? & ? & ? & ? & ? & ?) _].
  unfold Packet_wf, create_packet, offer. cbn -[Chunk_wf]. rewrite E1, E2, E3, E4, E5, E6, E7, E8.
  split_and!; [done..|]. constructor; [|done]. split; [|done]. split; [done|]. cbn. split_and!; try done. repeat constructor; done.
Qed.

(** Once its INIT is out, a new client waits for the answer. *)
Lemma new_client_awaits config max_payload_size tag remote ip tsn now a :
  Association_new false config max_payload_size tag remote ip tsn now = Ok a → timed_config config tag tsn →
  ∃ a', poll_transmit crc now a = ROk (Some (resends crc a (CInit (offer false a [])) now)) a' ∧
    awaiting AwaitsInitAck (CInit (offer false a [])) (tc_max_init_retransmits config) 0 (now + tc_rto_initial_ms config * ms) a'.
Proof.
  intros E Hc. destruct (new_client_end _ _ _ _ _ _ _ _ E) as (Hn & Hs & Hq & Ht).
  destruct (new_client_armed _ _ _ _ _ _ _ _ E) as [Hst (x & Hx & Hdue) (Hk & Hnc & Hl) (Hr & He & Hp)].
  pose proof (offer_wf _ _ _ _ Hn Hp Hc) as Hw. destruct Hc as [_ [Hr1 Hr2]].
  destruct (n_rto _ _ _ _ Hn) as (Erto & Emax & _). destruct (n_rest _ _ _ _ Hn) as (_ & _ & Hev).
  assert (x = now + tc_rto_initial_ms config * ms) as ->.
  { destruct (calculate_next_timeout_spec _ 0 _ Hr1 Hr2) as [E0 _]; [lia|]. rewrite E0, Z.pow_0_r, Z.min_l in Hx by lia.
    unfold Instant_add, Instant_checked_add in Hx. destruct (_ <? _) in Hx; [|done]. injection Hx as <-. lia. }
  exists (a <| control_queue := [] |>). split.
  - unfold poll_transmit, gather_outbound. run.
    rewrite (control_sent crc a (create_packet a [CInit (offer false a [])]) now);
      [|by rewrite Hq; unfold create_packet; rewrite Hp|done..].
    change (state _) with (state a). by rewrite Hs.
  - refine (mk_awaiting _ _ _ _ _ _ _ _ _ _ _ _ _ _ _ _); try done.
    + change (CInit <$> stored_init a = Some (CInit (offer false a []))). by rewrite Hst.
    + change (0 < get_rto (rto_mgr a) <= tt_rto_max (timers a) ∧ tt_rto_max (timers a) <= 2 ^ 31). by rewrite Erto, Emax.
Qed.
End Client.

(** ** A concrete client, in both phases *)

Definition demo_asking : Association :=
  match @poll_transmit list_iter list_buf crc32c 0 (demo_end false 77 5) with ROk _ a => a | _ => Association_default end.

Lemma demo_asking_awaits :
  awaiting AwaitsInitAck (CInit (offer false (demo_end false 77 5) [])) (Z.of_nat <$> Some 8%nat) 0 (3000 * ms) demo_asking.
Proof.
  destruct (@new_client_awaits list_iter list_buf list_buf_laws crc32c _ _ _ _ _ _ _ _ demo_client) as (a & E & H).
  { constructor; vm_compute; split_and!; done. }
  unfold demo_asking. rewrite E. exact H.
Qed.

(** The client of the handshake between the INIT ACK and the COOKIE ACK, its COOKIE ECHO sent. *)
Definition demo_echoing : Association :=
  match '(c, s) ← @deliver list_iter [1; 2; 3] 10 (demo_end false 77 5) (demo_end true 88 4294967295); '(s, c) ← @deliver list_iter [1; 2; 3] 20 s c; Some c with
  | Some c => c <| control_queue := [] |>
  | None => Association_default
  end.

Lemma demo_echoing_awaits : awaiting AwaitsCookieAck (CCookieEcho [1; 2; 3]) (Z.of_nat <$> Some 8%nat) 0 (20 + 3000 * ms) demo_echoing.
Proof.
  constructor.
  - vm_compute. reflexivity.
  - vm_compute. reflexivity.
  - apply (bool_decide_unpack _). vm_compute. exact Logic.I.
  - vm_compute. reflexivity.
  - intros [] Ht; [|done|..]; vm_compute; reflexivity.
  - vm_compute. reflexivity.
  - vm_compute. reflexivity.
  - vm_compute. reflexivity.
  - vm_compute. split_and!; done.
  - split_and!; vm_compute; reflexivity.
Qed.

Lemma unanswered_handshake_fails_witness :
  (∃ a' b, @due_rounds list_iter list_buf crc32c 9 demo_asking =
      Some (((λ k, Some (resends crc32c demo_asking (CInit (offer false (demo_end false 77 5) [])) (due_time demo_asking (3000 * ms) k)))
              <$> seq 0 8) ++ [None], a') ∧
    @poll a' = ROk (Some (Event.HandshakeFailed (AssociationError.HandshakeFailed ErrHandshakeInitAck))) b) ∧
  (∃ a' b ts, @due_rounds list_iter list_buf crc32c 9 demo_echoing = Some (ts ++ [None], a') ∧
    @poll a' = ROk (Some (Event.HandshakeFailed (AssociationError.HandshakeFailed ErrHandshakeCookieEcho))) b).
Proof.
  split.
  - destruct (@unanswered_handshake_fails list_iter list_buf crc32c list_buf_laws _ _ (Some 8%nat) _ _ demo_asking_awaits) as [_ H].
    destruct (H 8%nat eq_refl) as (a' & b & E & _ & _ & Ep & _); [by vm_compute|]. exists a', b. exact (conj E Ep).
  - destruct (@unanswered_handshake_fails list_iter list_buf crc32c list_buf_laws _ _ (Some 8%nat) _ _ demo_echoing_awaits) as [_ H].
    destruct (H 8%nat eq_refl) as (a' & b & E & _ & _ & Ep & _); [by vm_compute|]. eexists a', b, _. exact (conj E Ep).
Defined.
