(* ===== verification/AssocResetSpec.v ===== *)
(** * Stream reset requests of the peer

    RFC 6525: a request names streams and the last TSN their data can have.
    A receiver that has all data up to that TSN performs the reset: a stream
    whose data the application has read is gone at once, one with unread
    data is retired and stays readable; both are reported as finished, the
    request is answered and the receiver asks for the reset of its own
    direction.  A receiver that lacks data records the request, answers that it is
    in progress, and holds back what arrives from behind the boundary. *)

From stdpp Require Import base list gmap numbers strings sets sorting.
From Stdlib Require Import ZArith Lia ZifyBool.
From S2P Require Import Prelude Bytes Util Params Chunks Packet PayloadQueue PayloadRun PendingQueue OutboundQueue.
From S2P Require Import ReassemblyQueue Shared Stream Monad Timer Config Association AssocReset AssocRecv AssocSend AssocControl.
From S2P Require Import AssocFrame AssocMachine AssocAck.

(** ** The streams a request names, each once *)

Lemma elem_of_dedup x l : x ∈ dedup l ↔ x ∈ l.
Proof.
  induction l as [|y l IH]; [done|]. cbn [dedup]. destruct l as [|z l]; [done|].
  destruct (Z.eqb_spec y z) as [->|]; [rewrite IH; set_solver|]. rewrite !elem_of_cons, IH. set_solver.
Qed.

Lemma dedup_NoDup l : StronglySorted Z.le l → NoDup (dedup l).
Proof.
  induction 1 as [|y l Hl IH Hy]; [constructor|]. cbn [dedup]. destruct l as [|z l]; [repeat constructor; set_solver|].
  destruct (Z.eqb_spec y z) as [->|Hn]; [done|]. constructor; [|done]. rewrite elem_of_dedup. intros Hin.
  inversion_clear Hl as [|? ? _ Hz]. inversion_clear Hy as [|? ? Hyz _].
  apply elem_of_cons in Hin as [->|Hin]; [done|]. rewrite Forall_forall in Hz. specialize (Hz _ Hin). lia.
Qed.

Definition unread (s : StreamState) : bool := can_read s && negb (get_num_bytes_in_reassembly_queue s =? 0).

Section Reset.
Context {I : MapIter} {IL : MapIterLaws I}.

Definition named (p : ParamOutgoingResetRequest) (a : Association) : list u16 :=
  dedup (sort_by Z.ltb (if bool_decide (stream_identifiers p = []) then keys (streams a) else stream_identifiers p)).

Lemma elem_of_named p a id : is_Some (streams a !! id) → id ∈ named p a ↔ reset_request_affects_stream p id = true.
Proof.
  intros Hid. unfold named, reset_request_affects_stream. rewrite elem_of_dedup, sort_by_Permutation, orb_true_iff, !bool_decide_eq_true.
  case_bool_decide as E; [|naive_solver]. rewrite elem_of_keys. naive_solver.
Qed.

Lemma named_decide p a id :
  is_Some (streams a !! id) → bool_decide (id ∈ named p a) = reset_request_affects_stream p id.
Proof.
  intros Hid. pose proof (elem_of_named p a id Hid) as H. destruct (reset_request_affects_stream p id).
  - apply bool_decide_true. by apply H.
  - apply bool_decide_false. intros Hin%H. done.
Qed.

Lemma named_NoDup p a : NoDup (named p a).
Proof.
  apply dedup_NoDup, (sort_by_sorted Z.ltb (λ x, x)). intros x y _ _. apply Z.ltb_lt.
Qed.

(** ** Retiring *)

(** The events about a stream that is reset. *)
Definition farewell (a : Association) (id : u16) : list Event.t :=
  match streams a !! id with
  | Some s => (if unread s then [] else [final_report s]) ++ [Event.Stream (StreamEvent.Finished id)]
  | None => []
  end.

(** What retiring may touch. *)
Definition retouched (a a' : Association) : Prop :=
  ∃ ss rs es ps fs ds, a' = a <| streams := ss |> <| retiring_streams := rs |> <| events := es |>
    <| pending_reset_completions := ps |> <| ready_stream_finishes := fs |> <| deferred_forward_tsns := ds |>.

#[local] Instance retouched_refl : Reflexive retouched.
Proof.
  intros a. exists (streams a), (retiring_streams a), (events a), (pending_reset_completions a), (ready_stream_finishes a),
    (deferred_forward_tsns a). by destruct a.
Qed.
#[local] Instance retouched_trans : Transitive retouched.
Proof. intros a ? ? (?&?&?&?&?&?&->) (s&r&e&p&f&d&->). by exists s, r, e, p, f, d. Qed.

Ltac retouch :=
  match goal with |- retouched _ ?x =>
    exists (streams x), (retiring_streams x), (events x), (pending_reset_completions x), (ready_stream_finishes x),
      (deferred_forward_tsns x); reflexivity
  end.

Record retired (boundary : u32) (ids : list u16) (a a' : Association) : Prop := mk_retired {
  rt_touched : retouched a a';
  rt_streams id : streams a' !! id = (s ← streams a !! id; if bool_decide (id ∈ ids) && negb (unread s) then None else Some s);
  rt_retiring id : retiring_streams a' !! id =
    if bool_decide (id ∈ ids) && match streams a !! id with Some s => unread s | None => false end
    then Some [boundary] else retiring_streams a !! id;
  rt_events : events a' = events a ++ flat_map (farewell a) ids;
  rt_completions : pending_reset_completions a' =
    fold_left prc_insert (filter (λ id, is_Some (streams a !! id)) ids) (pending_reset_completions a);
  rt_forward : deferred_forward_tsns a' = ∅;
}.

Lemma retire_stream_spec id boundary a s :
  streams a !! id = Some s → retiring_streams a !! id = None → deferred_forward_tsns a = ∅ →
  holds False (retire_stream id boundary) (λ _ a', retired boundary [id] a a') (λ _ _, False) a.
Proof.
  intros Hs Hr Hf. unfold retire_stream. apply holds_bind, holds_self. rewrite Hr, Hs. fold (unread s).
  destruct (unread s) eqn:Hu; cbn [negb].
  - unfold close_generation, queue_stream_finished, push_event. do 4 apply holds_bind, holds_modify. apply holds_when; [done|intros _].
    constructor.
    + retouch.
    + intros id'. cbn. destruct (streams a !! id') as [s'|] eqn:Es'; [|done]. cbn. case_bool_decide as E; [|done].
      apply list_elem_of_singleton in E as ->. rewrite Hs in Es'. injection Es' as <-. by rewrite Hu.
    + intros id'. cbn. case_bool_decide as E.
      * apply list_elem_of_singleton in E as ->. by rewrite Hs, Hu, lookup_insert_eq.
      * rewrite lookup_insert_ne by set_solver. done.
    + cbn. unfold farewell. by rewrite Hs, Hu.
    + rewrite filter_cons_True by (rewrite Hs; eauto). reflexivity.
    + cbn. rewrite Hf. apply alter_empty.
  - unfold unregister_stream, remove_stream, queue_stream_finished, push_event. apply holds_bind, holds_modify, holds_bind, holds_bind, holds_gets.
    change (streams _) with (streams a). rewrite Hs. do 2 apply holds_bind, holds_modify. apply holds_ret. cbn [andb when].
    do 2 apply holds_bind, holds_modify. apply holds_modify. constructor.
    + retouch.
    + intros id'. cbn. destruct (decide (id' = id)) as [->|Hn].
      * rewrite lookup_delete_eq, Hs, bool_decide_true by set_solver. cbn. by rewrite Hu.
      * rewrite lookup_delete_ne by done. destruct (streams a !! id') as [s'|]; [|done]. cbn. by rewrite bool_decide_false by set_solver.
    + intros id'. cbn. case_bool_decide as E; [|done]. apply list_elem_of_singleton in E as ->. by rewrite Hs, Hu.
    + cbn. unfold farewell. rewrite Hs, Hu. by rewrite <- app_assoc.
    + rewrite filter_cons_True by (rewrite Hs; eauto). reflexivity.
    + cbn. rewrite Hf. apply delete_empty.
Qed.

Lemma filter_registered_agree {A} (m1 m2 : gmap Z A) (ids : list Z) :
  (∀ id, id ∈ ids → m1 !! id = m2 !! id) →
  filter (λ id, is_Some (m1 !! id)) ids = filter (λ id, is_Some (m2 !! id)) ids.
Proof.
  intros H. induction ids as [|x l IH]; [done|]. rewrite !filter_cons, IH by set_solver. by rewrite H by set_solver.
Qed.

Lemma retired_nil boundary a : deferred_forward_tsns a = ∅ → retired boundary [] a a.
Proof.
  intros Hf. constructor; [reflexivity| | | |done|done].
  - intros id. by destruct (streams a !! id).
  - done.
  - by rewrite app_nil_r.
Qed.

(** A stream that is not registered is skipped. *)
Lemma retired_skip boundary id ids a a' :
  streams a !! id = None → retired boundary ids a a' → retired boundary (id :: ids) a a'.
Proof.
  intros Hs []. constructor; [done| | | | |done].
  - intros id'. rewrite rt_streams0. destruct (streams a !! id') as [s|] eqn:E; [|done]. cbn.
    assert (id' ≠ id) by congruence. by rewrite (bool_decide_ext (id' ∈ ids) (id' ∈ id :: ids)) by set_solver.
  - intros id'. rewrite rt_retiring0. destruct (streams a !! id') as [s|] eqn:E; [|by rewrite !andb_false_r].
    assert (id' ≠ id) by congruence. by rewrite (bool_decide_ext (id' ∈ ids) (id' ∈ id :: ids)) by set_solver.
  - rewrite rt_events0. cbn [flat_map]. unfold farewell at 2. by rewrite Hs.
  - rewrite rt_completions0, filter_cons_False by (rewrite Hs; by intros []). done.
Qed.

Lemma retired_cons boundary id ids a a1 a' :
  id ∉ ids → retired boundary [id] a a1 → retired boundary ids a1 a' → retired boundary (id :: ids) a a'.
Proof.
  intros Hid R1 R2.
  assert (∀ id', id' ∈ ids → streams a1 !! id' = streams a !! id') as Hother.
  { intros id' Hin. rewrite (rt_streams _ _ _ _ R1). destruct (streams a !! id'); [|done]. cbn.
    by rewrite bool_decide_false by set_solver. }
  constructor.
  - by etrans; [apply R1|apply R2].
  - intros id'. rewrite (rt_streams _ _ _ _ R2), (rt_streams _ _ _ _ R1). destruct (streams a !! id') as [s|]; [|done]. cbn.
    destruct (decide (id' = id)) as [->|Hn].
    + rewrite (bool_decide_true (id ∈ [id])), (bool_decide_true (id ∈ id :: ids)), (bool_decide_false (id ∈ ids)) by set_solver.
      by destruct (unread s).
    + rewrite (bool_decide_false (id' ∈ [id])) by set_solver. cbn.
      by rewrite (bool_decide_ext (id' ∈ ids) (id' ∈ id :: ids)) by set_solver.
  - intros id'. rewrite (rt_retiring _ _ _ _ R2), (rt_retiring _ _ _ _ R1). destruct (decide (id' = id)) as [->|Hn].
    + by rewrite (bool_decide_true (id ∈ [id])), (bool_decide_true (id ∈ id :: ids)), (bool_decide_false (id ∈ ids)) by set_solver.
    + rewrite (bool_decide_false (id' ∈ [id])) by set_solver. cbn [andb].
      rewrite (bool_decide_ext (id' ∈ ids) (id' ∈ id :: ids)) by set_solver.
      case_bool_decide as Hin; [|done]. by rewrite Hother by set_solver.
  - rewrite (rt_events _ _ _ _ R2), (rt_events _ _ _ _ R1). cbn [flat_map]. rewrite app_nil_r, <- app_assoc. do 2 f_equal.
    clear -Hother. induction ids as [|x l IH]; [done|]. cbn [flat_map]. unfold farewell at 1 3. rewrite Hother by set_solver. f_equal.
    apply IH. set_solver.
  - rewrite (rt_completions _ _ _ _ R2), (rt_completions _ _ _ _ R1).
    rewrite (filter_cons _ id ids), (filter_cons _ id []), filter_nil.
    assert (filter (λ id, is_Some (streams a1 !! id)) ids = filter (λ id, is_Some (streams a !! id)) ids) as ->.
    { by apply filter_registered_agree. }
    by destruct (decide (is_Some (streams a !! id))).
  - apply R2.
Qed.

Lemma retire_registered_spec boundary ids : ∀ a,
  NoDup ids → (∀ id, id ∈ ids → retiring_streams a !! id = None) → deferred_forward_tsns a = ∅ →
  holds False (retire_registered ids boundary)
    (λ l a', retired boundary ids a a' ∧ l = filter (λ id, is_Some (streams a !! id)) ids) (λ _ _, False) a.
Proof.
  induction ids as [|id ids IH]; intros a Hnd Hr Hf; [split; [by apply retired_nil|done]|].
  apply NoDup_cons in Hnd as [Hid Hnd]. cbn [retire_registered]. apply holds_bind, holds_self.
  destruct (streams a !! id) as [s|] eqn:Es.
  - rewrite bool_decide_true by eauto. apply holds_bind.
    eapply holds_mono; [apply (retire_stream_spec id boundary a s Es); [apply Hr; set_solver|done]| |done]. cbv beta. intros _ a1 R1.
    assert (∀ id', id' ∈ ids → streams a1 !! id' = streams a !! id' ∧ retiring_streams a1 !! id' = retiring_streams a !! id') as Ho.
    { intros id' Hin. rewrite (rt_streams _ _ _ _ R1), (rt_retiring _ _ _ _ R1), bool_decide_false by set_solver. split; [|done].
      by destruct (streams a !! id'). }
    apply holds_bind. eapply holds_mono; [apply IH; [done| |apply R1]| |done].
    + intros id' Hin. rewrite (proj2 (Ho id' Hin)). apply Hr. set_solver.
    + intros l a' [R2 ->]. apply holds_ret. split; [by eapply retired_cons|]. rewrite filter_cons_True by (rewrite Es; eauto). f_equal.
      apply filter_registered_agree. intros x Hx. apply (Ho x Hx).
  - rewrite bool_decide_false by (by intros []). eapply holds_mono; [apply IH; [done| |done]| |done].
    + intros id' Hin. apply Hr. set_solver.
    + intros l a' [R ->]. split; [by apply retired_skip|]. by rewrite filter_cons_False by (rewrite Es; by intros []).
Qed.

Lemma farewell_filter a ids : flat_map (farewell a) ids = flat_map (farewell a) (filter (λ id, is_Some (streams a !! id)) ids).
Proof.
  induction ids as [|x l IH]; [done|]. rewrite filter_cons. cbn [flat_map]. case_decide as H; cbn [flat_map]; rewrite IH; [done|].
  unfold farewell at 1. by rewrite (proj2 (eq_None_not_Some _) H).
Qed.

(** ** A request arrives *)

(** No reset is under way and the request is the next one. *)
Record expects (a : Association) (p : ParamOutgoingResetRequest) : Prop := mk_expects {
  ex_undisturbed : undisturbed a;
  ex_active : active_reconfig a = None;
  ex_sequence : peer_reconfig_rsn_initialized a = true →
    reconfig_request_sequence_number p = wrapping_add 32 (peer_last_reconfig_rsn a) 1;
  ex_new w : max_completed_reconfig_rsn a = Some w → sna32lte (reconfig_request_sequence_number p) w = false;
}.

(** The request for the other direction. *)
Definition reciprocal (a : Association) (p : ParamOutgoingResetRequest) (ids : list u16) : ChunkReconfig :=
  mkChunkReconfig (Some (POutgoingResetRequest (mkParamOutgoingResetRequest (my_next_rsn a) (reconfig_request_sequence_number p)
    (wrapping_sub 32 (my_next_tsn a) 1) (if bool_decide (stream_identifiers p = []) then [] else ids)))) None.

Definition answer (a : Association) (p : ParamOutgoingResetRequest) (r : ReconfigResult) : Packet :=
  reconfig_response a (reconfig_request_sequence_number p) r.

(** The streams that are reset: those the request names and that are registered. *)
Definition reset_ids (p : ParamOutgoingResetRequest) (a : Association) : list u16 :=
  filter (λ id, is_Some (streams a !! id)) (named p a).

Record reset_performed (p : ParamOutgoingResetRequest) (a a' : Association) (reply : list Packet) : Prop := mk_reset_performed {
  rp_streams id : streams a' !! id =
    (s ← streams a !! id; if reset_request_affects_stream p id && negb (unread s) then None else Some s);
  rp_retiring id : retiring_streams a' !! id =
    (s ← streams a !! id; if reset_request_affects_stream p id && unread s then Some [sender_last_tsn p] else None);
  rp_events : events a' = events a ++ flat_map (farewell a) (reset_ids p a);
  rp_reply : reply = (if bool_decide (reset_ids p a = []) then []
                      else [create_packet a [CReconfig (reciprocal a p (reset_ids p a))]]) ++ [answer a p SuccessPerformed];
  rp_requests : reconfig_requests a' = ∅;
  rp_completed : max_completed_reconfig_rsn a' = Some (reconfig_request_sequence_number p);
}.

(** The request waits for data. *)
Record reset_waits (p : ParamOutgoingResetRequest) (a a' : Association) (reply : list Packet) : Prop := mk_reset_waits {
  rw_streams : streams a' = streams a;
  rw_events : events a' = events a;
  rw_reply : reply = [answer a p InProgress];
  rw_requests : reconfig_requests a' = {[ reconfig_request_sequence_number p := p ]};
}.

Lemma retouched_fields a a' : retouched a a' →
  my_next_rsn a' = my_next_rsn a ∧ my_next_tsn a' = my_next_tsn a ∧ (∀ cs, create_packet a' cs = create_packet a cs) ∧
  deferred_reset_data a' = deferred_reset_data a ∧ reconfig_requests a' = reconfig_requests a.
Proof. by intros (?&?&?&?&?&?&->). Qed.

(** With nothing held back there is nothing to release. *)
Lemma release_nothing a : deferred_reset_data a = ∅ → release_deferred_reset_data a = ROk tt a.
Proof.
  intros Hd. unfold release_deferred_reset_data, set_iter, values, keys. run. rewrite Hd, entries_empty. cbn [fmap list_fmap filter list_filter for_each].
  run. cbn [fmap list_fmap list_to_map foldr]. by rewrite entries_empty.
Qed.

(** The request for the other direction, when a stream was reset. *)
Lemma queue_reciprocal_spec p ids a :
  holds False (queue_reciprocal p ids)
    (λ r a', r = (if bool_decide (ids = []) then [] else [create_packet a [CReconfig (reciprocal a p ids)]]) ∧
       streams a' = streams a ∧ retiring_streams a' = retiring_streams a ∧ events a' = events a ∧
       deferred_reset_data a' = deferred_reset_data a ∧ reconfig_requests a' = reconfig_requests a ∧
       ∀ cs, create_packet a' cs = create_packet a cs) (λ _ _, False) a.
Proof.
  unfold queue_reciprocal, generate_next_rsn. case_bool_decide as E; [by apply holds_ret|].
  apply holds_bind, holds_modify, holds_bind, holds_bind, holds_gets, holds_bind, holds_modify, holds_ret, holds_bind, holds_self.
  apply holds_bind, holds_modify, holds_ret. by split_and!.
Qed.

Definition request_outcome (p : ParamOutgoingResetRequest) (a : Association) (reply : list Packet) (a' : Association) : Prop :=
  if sna32lte (sender_last_tsn p) (peer_last_tsn a) then reset_performed p a a' reply else reset_waits p a a' reply.

Lemma reset_streams_spec p a :
  retiring_streams a = ∅ → deferred_reset_data a = ∅ → deferred_forward_tsns a = ∅ →
  reconfig_requests a = {[ reconfig_request_sequence_number p := p ]} →
  holds False (reset_streams_if_any p true)
    (λ reply a', if sna32lte (sender_last_tsn p) (peer_last_tsn a)
       then ∀ b, b = a' <| max_completed_reconfig_rsn := Some (reconfig_request_sequence_number p) |> → reset_performed p a b reply
       else reset_waits p a a' reply) (λ _ _, False) a.
Proof.
  intros Hr Hd Hf Hq. unfold reset_streams_if_any. apply holds_bind, holds_self.
  destruct (sna32lte (sender_last_tsn p) (peer_last_tsn a)) eqn:Hp; apply holds_bind.
  - cbv zeta. fold (named p a). apply holds_bind.
    eapply holds_mono; [apply (retire_registered_spec (sender_last_tsn p) (named p a) a); [apply named_NoDup| |done]| |done].
    { intros id _. by rewrite Hr, lookup_empty. }
    cbv beta. intros l a1 [R ->]. fold (reset_ids p a).
    destruct (retouched_fields _ _ (rt_touched _ _ _ _ R)) as (F1 & F2 & F3 & F4 & F5).
    apply holds_bind, holds_modify, holds_ret, holds_bind. set (a2 := a1 <| reconfig_requests ::= _ |>).
    eapply holds_mono; [apply queue_reciprocal_spec| |done]. cbv beta. intros r a3 (-> & G1 & G2 & G3 & G4 & G5 & G6).
    apply holds_bind. cbn [when]. unfold holds at 1. rewrite release_nothing by (rewrite G4; change (deferred_reset_data a2) with (deferred_reset_data a1); congruence).
    apply holds_bind, holds_self, holds_ret. intros b ->. cbn [orb].
    constructor.
    + intros id. change (streams a3 !! id = (s ← streams a !! id; if reset_request_affects_stream p id && negb (unread s) then None else Some s)).
      rewrite G1. change (streams a2) with (streams a1). rewrite (rt_streams _ _ _ _ R). destruct (streams a !! id) as [s|] eqn:Es; [|done]. cbn.
      by rewrite named_decide by eauto.
    + intros id. change (retiring_streams a3 !! id = (s ← streams a !! id; if reset_request_affects_stream p id && unread s then Some [sender_last_tsn p] else None)).
      rewrite G2. change (retiring_streams a2) with (retiring_streams a1). rewrite (rt_retiring _ _ _ _ R), Hr, lookup_empty.
      destruct (streams a !! id) as [s|] eqn:Es; [|by rewrite andb_false_r]. cbn. by rewrite named_decide by eauto.
    + etrans; [exact G3|]. etrans; [exact (rt_events _ _ _ _ R)|]. f_equal. apply farewell_filter.
    + change (create_packet a2) with (create_packet a1). f_equal.
      * rewrite F3. unfold reciprocal. change (my_next_rsn a2) with (my_next_rsn a1). change (my_next_tsn a2) with (my_next_tsn a1).
        by rewrite F1, F2.
      * unfold answer, reconfig_response. rewrite G6. change (create_packet a2) with (create_packet a1). by rewrite F3.
    + etrans; [exact G5|]. change (delete (reconfig_request_sequence_number p) (reconfig_requests a1) = ∅). rewrite F5, Hq. apply delete_singleton_eq.
    + done.
  - apply holds_ret, holds_bind. unfold queue_reciprocal. rewrite bool_decide_true by done. apply holds_ret, holds_bind. cbn [when].
    apply holds_ret, holds_bind, holds_self, holds_ret. by constructor.
Qed.

Lemma handle_request p a :
  expects a p →
  holds False (handle_reconfig_param (POutgoingResetRequest p)) (λ reply a', request_outcome p a reply a') (λ _ _, False) a.
Proof.
  intros [[Hq Hr Hd Hf] Ha Hs Hn]. unfold handle_reconfig_param, finish_reconfig. apply holds_bind, holds_bind, holds_self.
  rewrite Ha, bool_decide_false by done. cbn [negb]. apply holds_ret, holds_bind, holds_self. cbv zeta.
  rewrite Hq, lookup_empty, (bool_decide_false (is_Some None)) by (by intros []). cbn [negb andb].
  replace (match max_completed_reconfig_rsn a with Some w => _ | None => false end) with false
    by (destruct (max_completed_reconfig_rsn a) eqn:E; [symmetry; by apply Hn|done]).
  rewrite bool_decide_true by done. cbn [negb].
  replace (peer_reconfig_rsn_initialized a && _) with false
    by (destruct (peer_reconfig_rsn_initialized a); [by rewrite Hs, Z.eqb_refl|done]).
  cbn [when]. apply holds_bind, holds_modify, holds_bind, holds_gets. set (a1 := _ <| reconfig_requests ::= _ |>).
  assert (reconfig_requests a1 = {[ reconfig_request_sequence_number p := p ]}) as Hq1
    by (change (reconfig_requests a1) with (<[reconfig_request_sequence_number p := p]> (reconfig_requests a)); by rewrite Hq).
  rewrite Hq1, lookup_singleton_eq. apply holds_bind.
  eapply holds_mono; [by apply (reset_streams_spec p a1)| |done]. cbv beta.
  change (peer_last_tsn a1) with (peer_last_tsn a). intros reply a' H. unfold request_outcome, mark_completed.
  apply holds_bind, holds_modify, holds_ret. destruct (sna32lte _ _).
  - assert (reconfig_requests a' = ∅) as E by (by apply (rp_requests _ _ _ _ (H _ eq_refl))).
    rewrite E, lookup_empty, bool_decide_false by (by intros []). by destruct (H _ eq_refl).
  - rewrite (rw_requests _ _ _ _ H), lookup_singleton_eq, bool_decide_true by eauto. by destruct H.
Qed.

(** ** Data from behind the boundary *)

(** The streams have not seen it. *)
Record held_back (d : ChunkPayloadData) (a a' : Association) : Prop := mk_held_back {
  hb_streams : streams a' = streams a;
  hb_events : events a' = events a;
  hb_point : peer_last_tsn a' = peer_last_tsn a;
  hb_requests : reconfig_requests a' = reconfig_requests a;
  hb_data : deferred_reset_data a' = deferred_reset_data a ∨ deferred_reset_data a' = <[tsn d := d]> (deferred_reset_data a);
}.

Lemma acknowledge_held d a a1 immediately :
  held_back d a a1 → deferred_forward_tsns a1 = ∅ → chunk_map (payload_queue a1) !! next_tsn (peer_last_tsn a1) = None →
  holds True (handle_peer_last_tsn_and_acknowledgement immediately) (λ _ a', held_back d a a') (λ _ a', held_back d a a') a1.
Proof.
  intros H Hf Hn. unfold handle_peer_last_tsn_and_acknowledgement. apply holds_bind, holds_self, holds_bind. cbn [advance_peer_last_tsn].
  apply holds_bind, holds_self. fold (next_tsn (peer_last_tsn a1)).
  assert (∃ q, pq_pop (payload_queue a1) (next_tsn (peer_last_tsn a1)) = (None, q)) as [q ->].
  { unfold pq_pop. destruct (sorted (payload_queue a1)) as [|t rest]; [eauto|]. destruct (_ =? t); [|eauto].
    cbn. rewrite Hn. eauto. }
  apply holds_bind, holds_modify, holds_ret, holds_bind, holds_gets. unfold keys.
  change (deferred_forward_tsns _) with (deferred_forward_tsns a1). rewrite Hf, entries_empty. cbn [fmap list_fmap for_each].
  apply holds_bind, holds_ret, holds_bind, holds_self, holds_bind, holds_lift; [|by destruct H|done].
  intros ex _. destruct ex; [apply holds_throw; by destruct H|]. apply holds_bind.
  case_match; apply holds_modify, holds_ret; by destruct H.
Qed.

Lemma behind_boundary_not_next t boundary point :
  uN 32 t → uN 32 boundary → uN 32 point → sna32gt t boundary = true → sna32lte boundary point = false → t ≠ next_tsn point.
Proof. unfold next_tsn. intros ? ? ? ? ? ->. sna. Qed.

Lemma handle_data_held p seq d a :
  uN 32 (tsn d) → uN 32 (sender_last_tsn p) → uN 32 (peer_last_tsn a) →
  deferred_forward_tsns a = ∅ → chunk_map (payload_queue a) !! next_tsn (peer_last_tsn a) = None →
  reconfig_requests a !! seq = Some p → reset_request_affects_stream p (stream_identifier d) = true →
  sna32gt (tsn d) (sender_last_tsn p) = true → sna32lte (sender_last_tsn p) (peer_last_tsn a) = false →
  holds True (handle_data d) (λ _ a', held_back d a a') (λ _ a', held_back d a a') a.
Proof.
  intros Ud Up Ua Hf Hn Hp Haff Hgt Hwait. pose proof (behind_boundary_not_next _ _ _ Ud Up Ua Hgt Hwait) as Hne.
  unfold handle_data, admit_data. apply holds_bind, holds_modify. set (a1 := a <| stats ::= _ |>).
  assert (held_back d a a1) as H1 by (constructor; by left || done).
  assert (data_is_above_pending_reset a1 d = true) as Habove.
  { unfold data_is_above_pending_reset. apply orb_true_iff. right. unfold any_value. apply existsb_exists. exists (seq, p).
    split; [by apply list_elem_of_In, elem_of_map_to_list|]. cbn. by rewrite Haff, Hgt. }
  assert (∀ b, holds True (handle_peer_last_tsn_and_acknowledgement b) (λ _ a', held_back d a a') (λ _ a', held_back d a a') a1) as Hignore.
  { intros b. by apply acknowledge_held. }
  apply holds_bind, holds_bind, holds_self. rewrite Habove, andb_true_r. destruct (can_push _ _ _); [|apply holds_ret, Hignore].
  apply holds_bind, holds_lift; [|by intros|done]. intros credit _. apply holds_ret. destruct (_ || _); [|apply Hignore].
  apply holds_bind, holds_self, holds_bind, holds_lift; [intros _ _|by intros|done].
  destruct (pq_push _ _ _) as [pushed q] eqn:Eq.
  assert (chunk_map q !! next_tsn (peer_last_tsn a1) = None) as Hq.
  { unfold pq_push in Eq. destruct (_ || _); injection Eq as <- <-; [done|].
    change (<[tsn d := d]> (chunk_map (payload_queue a)) !! next_tsn (peer_last_tsn a) = None). by rewrite lookup_insert_ne. }
  apply holds_bind, holds_modify, holds_bind, holds_when; intros _; [apply holds_modify|]; apply acknowledge_held; try done.
  - constructor; try done. by right.
  - constructor; try done. by left.
Qed.

(** Claim C12.  A reset request of the peer is always answered.  Next in sequence and with no other reset
    under way: if all data up to its last TSN has arrived, exactly the named streams (all of them
    when none is named) are reset, those without unread data are gone and those with unread data
    keep it and are marked as retiring behind that TSN; each is reported as finished once and in
    the order of ids, with its final counters when it is gone; the request counts as completed
    and is answered with success, preceded by the request for the own direction when a stream was
    reset.  If data is missing, nothing happens to the streams, the request is kept and answered as
    in progress. *)
Theorem reset_request_spec p a :
  expects a p →
  ∃ reply a', handle_reconfig (mkChunkReconfig (Some (POutgoingResetRequest p)) None) a = ROk reply a' ∧ request_outcome p a reply a'.
Proof.
  intros Ha. pose proof (handle_request p a Ha) as H. unfold handle_reconfig, holds in *. run. cbn [param_a param_b].
  destruct (handle_reconfig_param (POutgoingResetRequest p) a) as [reply a'| | |]; try done. rewrite app_nil_r. by exists reply, a'.
Qed.

(** Claim C14.  Data sent after a reset never reaches the stream from before it: while a request for a stream
    waits for missing data, a DATA chunk from behind the request's last TSN changes no stream and
    causes no event, however its handling ends; at most it is kept aside for the next
    generation, and the request keeps waiting. *)
Theorem reset_holds_back_data p seq d a :
  uN 32 (tsn d) → uN 32 (sender_last_tsn p) → uN 32 (peer_last_tsn a) →
  deferred_forward_tsns a = ∅ → chunk_map (payload_queue a) !! next_tsn (peer_last_tsn a) = None →
  reconfig_requests a !! seq = Some p → reset_request_affects_stream p (stream_identifier d) = true →
  sna32gt (tsn d) (sender_last_tsn p) = true → sna32lte (sender_last_tsn p) (peer_last_tsn a) = false →
  ∀ a', (∃ r, handle_data d a = ROk r a') ∨ (∃ e, handle_data d a = RErr e a') → held_back d a a'.
Proof.
  intros H1 H2 H3 H4 H5 H6 H7 H8 H9 a'. pose proof (handle_data_held p seq d a H1 H2 H3 H4 H5 H6 H7 H8 H9) as H. unfold holds in H.
  by intros [[r E]|[e E]]; rewrite E in H.
Qed.
End Reset.

(** ** Two streams, one with unread data *)

Definition demo_unread : StreamState :=
  StreamState_new Server 5 1200 65536 Binary
    <| reassembly_queue ::= λ q, q <| rq_n_bytes := 3 |> |>.

Definition demo_receiver : Association :=
  Association_default <| state := Established |> <| peer_last_tsn := 10 |> <| max_receive_buffer_size := 65536 |>
    <| max_receive_message_size := 65536 |>
    <| streams := {[ 3 := StreamState_new Server 3 1200 65536 Binary; 5 := demo_unread; 7 := StreamState_new Server 7 1200 65536 Binary ]} |>.

Definition demo_request (last : u32) : ParamOutgoingResetRequest := mkParamOutgoingResetRequest 100 0 last [5; 3; 5; 9].

Lemma demo_expects last : expects demo_receiver (demo_request last).
Proof. by constructor. Qed.

Lemma reset_request_spec_witness :
  ∃ reply a', @handle_reconfig list_iter (mkChunkReconfig (Some (POutgoingResetRequest (demo_request 10))) None) demo_receiver = ROk reply a' ∧
    @request_outcome list_iter (demo_request 10) demo_receiver reply a' ∧
    @reset_ids list_iter (demo_request 10) demo_receiver = [3; 5] ∧ length reply = 2%nat.
Proof.
  destruct (@reset_request_spec list_iter list_iter_laws (demo_request 10) demo_receiver (demo_expects 10)) as (reply & a' & E & H).
  exists reply, a'. split_and!; [done|done|vm_compute; reflexivity|].
  assert (match @handle_reconfig list_iter (mkChunkReconfig (Some (POutgoingResetRequest (demo_request 10))) None) demo_receiver with
          | ROk reply _ => length reply = 2%nat | _ => False end) as K by (vm_compute; reflexivity).
  rewrite E in K. exact K.
Defined.

(** The same receiver, waiting for TSN 11 and 12, gets TSN 13. *)
Definition demo_waiting : Association := demo_receiver <| reconfig_requests := {[ 100 := demo_request 12 ]} |>.

Definition demo_behind : ChunkPayloadData :=
  ChunkPayloadData_default <| tsn := 13 |> <| stream_identifier := 3 |> <| beginning_fragment := true |> <| ending_fragment := true |>
    <| user_data := [1] |>.

Lemma reset_holds_back_data_witness :
  ∃ r a', @handle_data list_iter demo_behind demo_waiting = ROk r a' ∧ held_back demo_behind demo_waiting a' ∧
    deferred_reset_data a' !! 13 = Some demo_behind.
Proof.
  destruct (@handle_data list_iter demo_behind demo_waiting) as [r a'| | |] eqn:E; [|vm_compute in E; discriminate..].
  exists r, a'. split; [done|]. split.
  - refine (@reset_holds_back_data list_iter list_iter_laws (demo_request 12) 100 demo_behind demo_waiting _ _ _ _ _ _ _ _ _ a' _);
      try (vm_compute; reflexivity); try (vm_compute; split; [discriminate|reflexivity]). left. by exists r.
  - assert (match @handle_data list_iter demo_behind demo_waiting with
            | ROk _ a' => deferred_reset_data a' !! 13 = Some demo_behind | _ => False end) as K by (vm_compute; reflexivity).
    rewrite E in K. exact K.
Defined.
