(* ===== verification/Endpoint.v ===== *)
(** * The endpoint ([src/endpoint/mod.rs])

    An endpoint owns no association; it keeps the tables that route a datagram
    to one (by verification tag, or by the initiate tag of an INIT), creates
    associations for [connect] and for the first packet of a peer, and forgets
    them when they report that they are drained.  The table of associations is
    a [Slab] of the crate [slab]: a class with the operations used here and, as
    laws, what the crate documents.  The id generator is the trait
    [AssociationIdGenerator]; random numbers and the current time are
    arguments.  The field [rng] is seeded and never read, and is left out, as
    is the text of an error inside another error: the error itself stands
    there. *)

From stdpp Require Import base list gmap numbers strings sets relations.
From Stdlib Require Import ZArith Lia ZifyBool.
From S2P Require Import Prelude Bytes Util Params Chunks Packet Shared Monad Timer Config.
From S2P Require Import Association AssocControl.

(** ** The slab *)

Class SlabApi := {
  slab : Type → Type;
  slab_new {T} : slab T;
  slab_get {T} : slab T → usize → option T;
  slab_insert {T} : slab T → T → usize * slab T;
  slab_remove {T} : slab T → usize → Outcome (T * slab T);
  slab_len {T} : slab T → usize;
}.

(** [insert] picks a vacant key and returns it; [remove] gives the value up or panics when the key
    is vacant; [len] counts the values. *)
Class SlabLaws (SL : SlabApi) : Prop := {
  slab_new_law T k : slab_get (@slab_new _ T) k = None;
  slab_len_new_law T : slab_len (@slab_new _ T) = 0;
  slab_insert_vacant T (s : slab T) v : slab_get s (slab_insert s v).1 = None;
  slab_insert_law T (s : slab T) v k :
    slab_get (slab_insert s v).2 k = if decide (k = (slab_insert s v).1) then Some v else slab_get s k;
  slab_len_insert_law T (s : slab T) v : slab_len (slab_insert s v).2 = slab_len s + 1;
  slab_remove_vacant T (s : slab T) k : slab_get s k = None → slab_remove s k = Panic;
  slab_remove_law T (s : slab T) k v : slab_get s k = Some v →
    ∃ s', slab_remove s k = Ok (v, s') ∧ slab_len s' = slab_len s - 1 ∧
      ∀ j, slab_get s' j = if decide (j = k) then None else slab_get s j;
}.

(** ** Errors *)

Inductive SnapSide : Type := Local | Remote.

(** [Display] *)
Definition SnapSide_display (s : SnapSide) : string := match s with Local => "local" | Remote => "remote" end.

Inductive AidCollisionKind : Type :=
| LocalEqualsRemote
| LocalInAssociationIds
| RemoteInAssociationIds
| RemoteInAssociationIdsInit
| LocalInAssociationIdsInit.

Definition AidCollisionKind_display (k : AidCollisionKind) : string :=
  match k with
  | LocalEqualsRemote => "local_aid equals remote_aid"
  | LocalInAssociationIds => "local_aid in association_ids"
  | RemoteInAssociationIds => "remote_aid in association_ids"
  | RemoteInAssociationIdsInit => "remote_aid in association_ids_init"
  | LocalInAssociationIdsInit => "local_aid in association_ids_init"
  end.

Inductive SnapError : Type :=
| ParseFailed (side : SnapSide) (reason : Error)
| InvalidInitAck (side : SnapSide)
| ZeroInitiateTag (side : SnapSide)
| ZeroInitialTsn (side : SnapSide)
| AidCollision (kind : AidCollisionKind) (aid : u32)
| OversizedInit (side : SnapSide) (length : usize)
| InvalidInit (side : SnapSide) (reason : Error)
| AssociationFailed (reason : Error).

Inductive ConnectError : Type :=
| EndpointStopping
| TooManyAssociations
| InvalidDnsName (name : Bytes)
| InvalidRemoteAddress (addr : SocketAddr)
| InvalidSctpPort
| NoDefaultClientConfig
| Snap (e : SnapError).

(** ** State *)

(** [struct AssociationHandle(pub usize)] *)
Abbreviation AssociationHandle := usize (only parsing).

Record AssociationMeta := mkAssociationMeta {
  init_cid : AssociationId;
  cids_issued : u64;
  loc_cids : gmap Z AssociationId;
  initial_remote : SocketAddr;
}.

(** [impl Index<AssociationHandle> for Slab<AssociationMeta>] *)
Definition slab_index {SL : SlabApi} (s : slab AssociationMeta) (ch : AssociationHandle) : Outcome AssociationMeta :=
  match slab_get s ch with Some m => Ok m | None => Panic end.

Inductive DatagramEvent : Type :=
| DatagramAssociationEvent (e : AssociationEvent)
| NewAssociation (a : Association).

Section Endpoint.
Context {I : MapIter} {B : BufApi} {SL : SlabApi} {G : Type} {GEN : AssociationIdGenerator G}.
Context (crc : Bytes → u32).

Record Endpoint := mkEndpoint {
  transmits : list Transmit;
  association_ids_init : gmap Z AssociationHandle;
  association_ids : gmap Z AssociationHandle;
  associations : slab AssociationMeta;
  local_cid_generator : G;
  config : EndpointConfig G;
  server_config : option ServerConfig;
  rejecting : bool;
}.

#[export] Instance Endpoint_eta : Eta Endpoint := λ e,
  mkEndpoint (transmits e) (association_ids_init e) (association_ids e) (associations e) (local_cid_generator e)
    (config e) (server_config e) (rejecting e).
#[export] Instance upd_transmits : Update transmits. Proof. solve_update. Defined.
#[export] Instance upd_association_ids_init : Update association_ids_init. Proof. solve_update. Defined.
#[export] Instance upd_association_ids : Update association_ids. Proof. solve_update. Defined.
#[export] Instance upd_associations : Update associations. Proof. solve_update. Defined.
#[export] Instance upd_local_cid_generator : Update local_cid_generator. Proof. solve_update. Defined.
#[export] Instance upd_server_config : Update server_config. Proof. solve_update. Defined.
#[export] Instance upd_rejecting : Update rejecting. Proof. solve_update. Defined.

Definition Endpoint_new (config : EndpointConfig G) (server_config : option ServerConfig) : Endpoint :=
  mkEndpoint [] ∅ ∅ slab_new (aid_generator_factory config tt) config server_config false.

Abbreviation EM := (M Endpoint) (only parsing).

(** ** Operations that create nothing *)

Definition endpoint_poll_transmit : EM (option Transmit) :=
  l ← gets transmits;
  match l with
  | [] => mret None
  | t :: l => modify (λ e, e <| transmits := l |>);; mret (Some t)
  end.

Definition set_server_config (sc : option ServerConfig) : EM unit := modify (λ e, e <| server_config := sc |>).

Definition reject_new_associations : EM unit := modify (λ e, e <| rejecting := true |>).

Definition endpoint_handle_event (ch : AssociationHandle) (event : EndpointEvent) : EM (option AssociationEvent) :=
  match ee_inner event with
  | Drained =>
      a ← gets associations;
      '(conn, a) ← lift (slab_remove a ch);
      modify (λ e, e <| associations := a |> <| association_ids_init ::= delete (init_cid conn) |>);;
      for_each (values (loc_cids conn)) (λ cid, modify (λ e, e <| association_ids ::= delete cid |>));;
      mret None
  end.

(** Three quarters of the ids: [(u32::MAX >> 1) + (u32::MAX >> 2)]. *)
Definition is_full (e : Endpoint) : bool :=
  Z.shiftr (2 ^ 32 - 1) 1 + Z.shiftr (2 ^ 32 - 1) 2 <? Z.of_nat (size (association_ids e)).

(** ** New associations *)

(** The loop draws ids until one is not in use; [patience] bounds the number of draws. *)
Fixpoint new_aid (patience : nat) : EM AssociationId :=
  match patience with
  | O => λ _, RStuck
  | S patience' =>
      '(aid, g) ← gets (λ e, generate_aid (local_cid_generator e));
      modify (λ e, e <| local_cid_generator := g |>);;
      ids ← gets association_ids;
      if (bool_decide (is_Some (ids !! aid)) : bool) then new_aid patience' else mret aid
  end.

(** [tsn] is the random initial TSN. *)
Definition add_association (tsn : u32) (remote_aid local_aid : AssociationId) (remote_addr : SocketAddr)
    (local_ip : option IpAddr) (now : Instant) (server_config : option ServerConfig)
    (transport_config : TransportConfig) : EM (AssociationHandle * Association) :=
  e ← self;
  conn ← lift (Association_new (bool_decide (is_Some server_config)) transport_config
                 (get_max_payload_size (config e)) local_aid remote_addr local_ip tsn now);
  let '(ch, a) := slab_insert (associations e) (mkAssociationMeta remote_aid 1 {[ 0 := local_aid ]} remote_addr) in
  modify (λ e, e <| associations := a |> <| association_ids ::= <[local_aid := ch]> |>);;
  mret (ch, conn).

Definition handle_first_packet (patience : nat) (tsn : u32) (cookie : Bytes) (now : Instant) (remote : SocketAddr)
    (local_ip : option IpAddr) (ecn : option EcnCodepoint) (partial_decode : PartialDecode)
    : EM (option (AssociationHandle * Association)) :=
  match pd_initiate_tag partial_decode with
  | Some remote_aid =>
      if negb (pd_first_chunk_type partial_decode =? CT_INIT) then mret None else
      e ← self;
      sc ← lift (match server_config e with Some sc => Ok sc | None => Panic end);
      if (concurrent_associations sc <=? slab_len (associations e)) || rejecting e || is_full e then mret None else
      local_aid ← new_aid patience;
      '(ch, conn) ← add_association tsn remote_aid local_aid remote local_ip now (Some sc) (sc_transport sc);
      modify (λ e, e <| association_ids_init ::= <[remote_aid := ch]> |>);;
      conn ← lift (construct conn (handle_event cookie (mkAssociationEvent (Datagram
                (mkTransmit now remote ecn local_ip (PayloadPartialDecode partial_decode))))));
      mret (Some (ch, conn))
  | None => mret None
  end.

(** The association a datagram is for. *)
Definition known_association (e : Endpoint) (partial_decode : PartialDecode) : option AssociationHandle :=
  let dst_cid := verification_tag (pd_common_header partial_decode) in
  if 0 <? dst_cid then association_ids e !! dst_cid
  else if pd_first_chunk_type partial_decode =? CT_INIT then
    match pd_initiate_tag partial_decode with
    | Some tag => association_ids_init e !! tag
    | None => None
    end
  else None.

Definition endpoint_handle (patience : nat) (tsn : u32) (cookie : Bytes) (now : Instant) (remote : SocketAddr)
    (local_ip : option IpAddr) (ecn : option EcnCodepoint) (data : Bytes)
    : EM (option (AssociationHandle * DatagramEvent)) :=
  decoded ← attempt (lift (PartialDecode_unmarshal crc data));
  match decoded with
  | inr _ => mret None
  | inl partial_decode =>
      e ← self;
      match known_association e partial_decode with
      | Some ch =>
          mret (Some (ch, DatagramAssociationEvent (mkAssociationEvent (Datagram
            (mkTransmit now remote ecn local_ip (PayloadPartialDecode partial_decode))))))
      | None =>
          r ← handle_first_packet patience tsn cookie now remote local_ip ecn partial_decode;
          mret (match r with Some (ch, a) => Some (ch, NewAssociation a) | None => None end)
      end
  end.

(** ** Outgoing associations *)

(** [return Err(..)] on a condition, and [.map_err(..)?] on the result of a call. *)
Definition refuse_if {A} (b : bool) (e : ConnectError) (k : EM (A + ConnectError)) : EM (A + ConnectError) :=
  if b then mret (inr e) else k.
Definition or_refuse {A C} (o : Outcome C) (e : Error → ConnectError) (k : C → EM (A + ConnectError))
    : EM (A + ConnectError) :=
  r ← attempt (lift o);
  match r with inl c => k c | inr err => mret (inr (e err)) end.

Definition connect_with_snap (transport : TransportConfig) (remote : SocketAddr)
    (local_snap_bytes remote_snap_bytes : Bytes) : EM ((AssociationHandle * Association) + ConnectError) :=
  refuse_if (MAX_SNAP_INIT_BYTES <? len local_snap_bytes) (Snap (OversizedInit Local (len local_snap_bytes))) $
  refuse_if (MAX_SNAP_INIT_BYTES <? len remote_snap_bytes) (Snap (OversizedInit Remote (len remote_snap_bytes))) $
  or_refuse (ChunkInit_unmarshal local_snap_bytes) (λ err, Snap (ParseFailed Local err)) $ λ local_init,
  or_refuse (ChunkInit_unmarshal remote_snap_bytes) (λ err, Snap (ParseFailed Remote err)) $ λ remote_init,
  refuse_if (is_ack local_init) (Snap (InvalidInitAck Local)) $
  refuse_if (is_ack remote_init) (Snap (InvalidInitAck Remote)) $
  let local_aid := initiate_tag local_init in
  let remote_aid := initiate_tag remote_init in
  refuse_if (local_aid =? 0) (Snap (ZeroInitiateTag Local)) $
  refuse_if (remote_aid =? 0) (Snap (ZeroInitiateTag Remote)) $
  refuse_if (initial_tsn local_init =? 0) (Snap (ZeroInitialTsn Local)) $
  refuse_if (initial_tsn remote_init =? 0) (Snap (ZeroInitialTsn Remote)) $
  or_refuse (ChunkInit_check local_init) (λ err, Snap (InvalidInit Local err)) $ λ _,
  or_refuse (ChunkInit_check remote_init) (λ err, Snap (InvalidInit Remote err)) $ λ _,
  e ← self;
  refuse_if (local_aid =? remote_aid) (Snap (AidCollision LocalEqualsRemote local_aid)) $
  refuse_if (bool_decide (is_Some (association_ids e !! local_aid)))
    (Snap (AidCollision LocalInAssociationIds local_aid)) $
  refuse_if (bool_decide (is_Some (association_ids e !! remote_aid)))
    (Snap (AidCollision RemoteInAssociationIds remote_aid)) $
  refuse_if (bool_decide (is_Some (association_ids_init e !! remote_aid)))
    (Snap (AidCollision RemoteInAssociationIdsInit remote_aid)) $
  refuse_if (bool_decide (is_Some (association_ids_init e !! local_aid)))
    (Snap (AidCollision LocalInAssociationIdsInit local_aid)) $
  or_refuse (new_with_out_of_band_init transport (get_max_payload_size (config e)) remote None local_init remote_init)
    (λ err, Snap (AssociationFailed err)) $ λ conn,
  let '(ch, a) := slab_insert (associations e) (mkAssociationMeta remote_aid 1 {[ 0 := local_aid ]} remote) in
  modify (λ e, e <| associations := a |> <| association_ids ::= <[local_aid := ch]> |>
                 <| association_ids_init ::= <[remote_aid := ch]> |>);;
  mret (inl (ch, conn)).

(** [random_aid] is what the throw-away random generator gives, [now] is [Instant::now()]. *)
Definition connect (patience : nat) (random_aid : AssociationId) (tsn : u32) (now : Instant)
    (client_config : ClientConfig) (remote : SocketAddr) : EM ((AssociationHandle * Association) + ConnectError) :=
  e ← self;
  refuse_if (is_full e) TooManyAssociations $
  refuse_if (port remote =? 0) (InvalidRemoteAddress remote) $
  refuse_if ((tc_local_port (cc_transport client_config) =? 0) || (tc_remote_port (cc_transport client_config) =? 0))
    InvalidSctpPort $
  match local_sctp_init client_config, remote_sctp_init client_config with
  | Some local_init, Some remote_init => connect_with_snap (cc_transport client_config) remote local_init remote_init
  | _, _ =>
      local_aid ← new_aid patience;
      r ← add_association tsn random_aid local_aid remote None now None (cc_transport client_config);
      mret (inl r)
  end.
End Endpoint.

(** ** Concrete endpoints *)

(** A slab as a map with the next key above all keys in use. *)
Definition next_key {T} (m : gmap Z T) : Z := foldr (λ e, Z.max (e.1 + 1)) 0 (map_to_list m).

Definition map_slab : SlabApi := {|
  slab := gmap Z;
  slab_new _ := ∅;
  slab_get _ m k := m !! k;
  slab_insert _ m v := (next_key m, <[next_key m := v]> m);
  slab_remove _ m k := match m !! k with Some v => Ok (v, delete k m) | None => Panic end;
  slab_len _ m := Z.of_nat (size m);
|}.

Lemma next_key_vacant {T} (m : gmap Z T) : m !! next_key m = None.
Proof.
  apply eq_None_not_Some. intros [v Hv]. apply elem_of_map_to_list in Hv. unfold next_key in Hv.
  set (l := map_to_list m) in *. assert (∀ e, e ∈ l → e.1 < foldr (λ e : Z * T, Z.max (e.1 + 1)) 0 l) as Hmax.
  { clear. induction l as [|x l IH]; intros e He; [by apply elem_of_nil in He|]. cbn.
    apply elem_of_cons in He as [->|He]; [lia|]. specialize (IH e He). lia. }
  apply Hmax in Hv. cbn in Hv. lia.
Qed.

Lemma map_slab_laws : SlabLaws map_slab.
Proof.
  split; cbn; intros.
  - apply lookup_empty.
  - done.
  - apply next_key_vacant.
  - case_decide; subst; [by rewrite lookup_insert_eq|by rewrite lookup_insert_ne].
  - rewrite map_size_insert_None by apply next_key_vacant. lia.
  - by rewrite H.
  - rewrite H. eexists. split; [done|]. split.
    + rewrite map_size_delete_Some by eauto. assert (size s ≠ 0%nat) by (apply (map_size_ne_0_lookup_2 s k); eauto). lia.
    + intros j. case_decide; subst; [by rewrite lookup_delete_eq|by rewrite lookup_delete_ne].
Qed.

(** A generator that counts. *)
Definition counter : AssociationIdGenerator Z := {|
  generate_aid n := (n, n + 1);
  aid_lifetime _ := None;
|}.

Definition demo_endpoint (first_aid : Z) (sc : option ServerConfig) : @Endpoint map_slab Z :=
  Endpoint_new (EndpointConfig_new (λ _, first_aid)) sc.

Definition demo_addr : SocketAddr := mkSocketAddr (IpV4 [127; 0; 0; 1]) 5000.

(** An INIT with tag 305419896, as a datagram; the checksum is taken to be zero. *)
Definition demo_init_packet : Bytes :=
  [19; 136; 19; 136; 0; 0; 0; 0; 0; 0; 0; 0; 1; 0; 0; 20; 18; 52; 86; 120; 0; 2; 0; 0; 4; 0; 4; 0; 0; 0; 0; 1].
