(* ===== verification/EndpointRoute.v ===== *)
(** * The endpoint routes datagrams to the right association

    [Demux] is what an endpoint promises, without its tables: a set of live
    associations, each with the id its peer puts on its packets and the tag of
    the peer's INIT, and the rules by which a datagram is handed to one of
    them, starts a new one or is dropped.  The endpoint refines it: every
    sequence of its operations is a sequence of [Demux] steps with the same
    visible results. *)

From stdpp Require Import base list gmap numbers sets relations.
From Stdlib Require Import ZArith Lia ZifyBool.
From S2P Require Import Prelude Bytes Util Params Chunks Packet Shared Monad Timer Config.
From S2P Require Import Association AssocReset AssocRecv AssocSend AssocControl AssocFrame Endpoint.

(** ** An association keeps its own tag *)

Definition own (a a' : Association) : Prop := my_verification_tag a' = my_verification_tag a.
#[local] Instance own_refl : Reflexive own.
Proof. done. Qed.
#[local] Instance own_trans : Transitive own.
Proof. unfold own. intros ???. congruence. Qed.

Lemma quiet_own {A} (m : AM A) : preserves quiet m → preserves own m.
Proof. intros Hm a. eapply holds_mono; [apply Hm|intros ??; apply q_my_tag..]. Qed.

Ltac own :=
  repeat first [ preserves_step
    | solve [auto with quiet]
    | apply quiet_own; solve [auto with quiet]
    | solve [repeat case_match; reflexivity] ].

Section Own.
Context {I : MapIter} {B : BufApi} (fresh_cookie : Bytes).

Lemma close_with_reason_own reason : preserves own (close_with_reason reason).
Proof. unfold close_with_reason, close_all_timers, set_state. own. Qed.
#[local] Hint Resolve close_with_reason_own : quiet.

Lemma set_state_own st : preserves own (set_state st).
Proof. unfold set_state. own. Qed.
#[local] Hint Resolve set_state_own : quiet.

Lemma count_misses_own fuel : ∀ t max_tsn htna, preserves own (count_misses fuel t max_tsn htna).
Proof.
  induction fuel; intros; cbn [count_misses]; unfold enter_fast_recovery; own.
Qed.
#[local] Hint Resolve count_misses_own : quiet.

Lemma handle_sack_own d now : preserves own (handle_sack d now).
Proof.
  unfold handle_sack, postprocess_sack, process_fast_retransmission,
    on_cumulative_tsn_ack_point_advanced. own.
Qed.
#[local] Hint Resolve handle_sack_own : quiet.

Lemma handle_chunk_own p c now : preserves own (handle_chunk fresh_cookie p c now).
Proof.
  unfold handle_chunk, handle_init, handle_init_ack, handle_heartbeat, handle_cookie_echo, handle_cookie_ack,
    handle_shutdown, handle_shutdown_ack, handle_shutdown_complete, handle_abort, close, apply_remote_init_params,
    enqueue_control. own.
Qed.
#[local] Hint Resolve handle_chunk_own : quiet.

(** The method has no result: errors are dealt with inside. *)
Lemma handle_event_own event a :
  holds True (handle_event fresh_cookie event) (λ _, own a) (λ _ _, False) a.
Proof.
  assert (∀ p now, preserves own (handle_inbound fresh_cookie p now)) as Hin.
  { intros. unfold handle_inbound, handle_chunk_start, handle_chunk_end. own. }
  unfold handle_event. repeat case_match; [|by apply holds_ret].
  apply holds_bind, holds_attempt, holds_lift; [|by intros; apply holds_ret|done]. intros pkt _.
  apply holds_bind, holds_attempt. eapply holds_mono; [apply Hin|by intros; apply holds_ret|].
  intros err a' Ha'. cbv beta in Ha'. case_match.
  - unfold abort_receive_capacity. apply holds_bind, holds_ignore.
    eapply holds_mono; [apply close_with_reason_own|..]; intros ? a'' Ha''; apply holds_modify; unfold own in *; cbn; congruence.
  - apply holds_ignore. eapply holds_mono; [apply close_with_reason_own|..]; intros ? a'' Ha''; unfold own in *; congruence.
Qed.
End Own.

(** ** The specification *)

(** [live] maps the handle of an association to its own id and the tag of its peer's INIT; [limit] is
    the number of associations a server accepts, none when this is no server. *)
Record Demux := mkDemux {
  live : gmap Z (Z * Z);
  limit : option Z;
  accepting : bool;
}.

Inductive Label : Type :=
| LRouted (pd : PartialDecode) (ch : AssociationHandle) (payload : Payload)
| LAccepted (pd : PartialDecode) (ch : AssociationHandle) (aid : AssociationId)
| LDropped (pd : PartialDecode)
| LConnected (ch : AssociationHandle) (aid : AssociationId)
| LRemoved (ch : AssociationHandle)
| LLimit (n : option Z)
| LReject
| LIdle.

Definition tag_of (pd : PartialDecode) : Z := verification_tag (pd_common_header pd).

(** The initiate tag of a datagram that starts with an INIT. *)
Definition init_of (pd : PartialDecode) : option Z :=
  if pd_first_chunk_type pd =? CT_INIT then pd_initiate_tag pd else None.

Definition addressed (d : Demux) (pd : PartialDecode) (ch : AssociationHandle) : Prop :=
  ∃ aid tag, live d !! ch = Some (aid, tag) ∧
    ((0 < tag_of pd ∧ aid = tag_of pd) ∨ (tag_of pd <= 0 ∧ init_of pd = Some tag)).

Definition stranger (d : Demux) (pd : PartialDecode) : Prop := 0 < tag_of pd → ∀ ch, ¬ addressed d pd ch.

Definition unused (d : Demux) (aid : AssociationId) : Prop := ∀ ch tag, live d !! ch ≠ Some (aid, tag).

Definition room (d : Demux) : Prop :=
  accepting d = true ∧ (∃ n, limit d = Some n ∧ Z.of_nat (size (live d)) < n) ∧
  Z.of_nat (size (live d)) <= 3221225470.

Inductive demux_step (d : Demux) : Label → Demux → Prop :=
| demux_route pd ch :
    addressed d pd ch → demux_step d (LRouted pd ch (PayloadPartialDecode pd)) d
| demux_accept pd ch aid tag :
    stranger d pd → init_of pd = Some tag → room d → live d !! ch = None → unused d aid →
    demux_step d (LAccepted pd ch aid) (mkDemux (<[ch := (aid, tag)]> (live d)) (limit d) (accepting d))
| demux_drop pd :
    stranger d pd → ¬ (is_Some (init_of pd) ∧ room d) → demux_step d (LDropped pd) d
| demux_connect ch aid tag :
    live d !! ch = None → unused d aid →
    demux_step d (LConnected ch aid) (mkDemux (<[ch := (aid, tag)]> (live d)) (limit d) (accepting d))
| demux_remove ch :
    is_Some (live d !! ch) → demux_step d (LRemoved ch) (mkDemux (delete ch (live d)) (limit d) (accepting d))
| demux_limit n : demux_step d (LLimit n) (mkDemux (live d) n (accepting d))
| demux_reject : demux_step d LReject (mkDemux (live d) (limit d) false)
| demux_idle : demux_step d LIdle d.

(** Runs of a labelled transition system. *)
Inductive trace {S L} (step : S → L → S → Prop) : S → list L → S → Prop :=
| trace_nil s : trace step s [] s
| trace_snoc s ls s' l s'' : trace step s ls s' → step s' l s'' → trace step s (ls ++ [l]) s''.

(** ** The endpoint as a transition system *)

Section Refinement.
Context {I : MapIter} {IL : MapIterLaws I} {B : BufApi} {SL : SlabApi} {SLL : SlabLaws SL}.
Context {G : Type} {GEN : AssociationIdGenerator G} (crc : Bytes → u32).
Abbreviation Endpoint := (@Endpoint SL G) (only parsing).
Abbreviation EM := (M Endpoint) (only parsing).

Definition handle_label (data : Bytes) (r : option (AssociationHandle * DatagramEvent)) : Label :=
  match PartialDecode_unmarshal crc data, r with
  | Ok pd, None => LDropped pd
  | Ok pd, Some (ch, DatagramAssociationEvent e) =>
      match ae_inner e with Datagram t => LRouted pd ch (t_payload t) end
  | Ok pd, Some (ch, NewAssociation a) => LAccepted pd ch (my_verification_tag a)
  | _, _ => LIdle
  end.

Definition connect_label (r : (AssociationHandle * Association) + ConnectError) : Label :=
  match r with inl (ch, a) => LConnected ch (my_verification_tag a) | inr _ => LIdle end.

Inductive endpoint_step (e : Endpoint) : Label → Endpoint → Prop :=
| step_handle patience tsn cookie now remote ip ecn data r e' :
    endpoint_handle crc patience tsn cookie now remote ip ecn data e = ROk r e' →
    endpoint_step e (handle_label data r) e'
| step_connect patience random_aid tsn now cc remote r e' :
    connect patience random_aid tsn now cc remote e = ROk r e' → endpoint_step e (connect_label r) e'
| step_event ch r e' :
    endpoint_handle_event ch EndpointEvent_drained e = ROk r e' → endpoint_step e (LRemoved ch) e'
| step_server_config sc r e' :
    set_server_config sc e = ROk r e' → endpoint_step e (LLimit (concurrent_associations <$> sc)) e'
| step_reject r e' : reject_new_associations e = ROk r e' → endpoint_step e LReject e'
| step_poll r e' : endpoint_poll_transmit e = ROk r e' → endpoint_step e LIdle e'.

(** ** The tables and the set of live associations *)

Definition meta_of (p : option (Z * Z)) (m : option AssociationMeta) : Prop :=
  match p, m with
  | Some (aid, tag), Some m => init_cid m = tag ∧ loc_cids m = {[ 0 := aid ]} ∧ cids_issued m = 1
  | None, None => True
  | _, _ => False
  end.

Record routes (e : Endpoint) (d : Demux) : Prop := mk_routes {
  rt_live ch : meta_of (live d !! ch) (slab_get (associations e) ch);
  rt_ids aid ch : association_ids e !! aid = Some ch ↔ ∃ tag, live d !! ch = Some (aid, tag);
  rt_init tag ch : association_ids_init e !! tag = Some ch → ∃ aid, live d !! ch = Some (aid, tag);
  rt_len : slab_len (associations e) = Z.of_nat (size (live d));
  rt_size : size (association_ids e) = size (live d);
  rt_limit : limit d = concurrent_associations <$> server_config e;
  rt_accepting : accepting d = negb (rejecting e);
}.

Lemma routes_new cfg sc :
  routes (Endpoint_new cfg sc) (mkDemux ∅ (concurrent_associations <$> sc) true).
Proof.
  split; cbn; try done.
  - intros ch. by rewrite lookup_empty, slab_new_law.
  - intros aid ch. rewrite lookup_empty. split; [done|]. by intros [? ?%lookup_empty_Some].
  - by rewrite slab_len_new_law.
Qed.

Lemma routes_unused e d aid : routes e d → association_ids e !! aid = None → unused d aid.
Proof. intros He Hn ch tag Hl. assert (association_ids e !! aid = Some ch) by (apply He; eauto). congruence. Qed.

(** A new association under an unused id; its peer's tag may be entered in the table of INITs. *)
Lemma routes_insert (e e' : Endpoint) d aid tag remote ch a :
  routes e d → association_ids e !! aid = None →
  slab_insert (associations e) (mkAssociationMeta tag 1 {[ 0 := aid ]} remote) = (ch, a) →
  associations e' = a → association_ids e' = <[aid := ch]> (association_ids e) →
  (association_ids_init e' = association_ids_init e ∨
   association_ids_init e' = <[tag := ch]> (association_ids_init e)) →
  server_config e' = server_config e → rejecting e' = rejecting e →
  live d !! ch = None ∧ routes e' (mkDemux (<[ch := (aid, tag)]> (live d)) (limit d) (accepting d)).
Proof.
  intros He Haid Hins Ha Hids Hinit Hsc Hrej. set (m := mkAssociationMeta _ _ _ _) in Hins.
  assert (ch = (slab_insert (associations e) m).1) as Hch by (by rewrite Hins).
  assert (a = (slab_insert (associations e) m).2) as Ha' by (by rewrite Hins).
  assert (live d !! ch = None) as Hch'.
  { pose proof (rt_live _ _ He ch) as Hl. rewrite Hch, slab_insert_vacant in Hl.
    rewrite Hch. by destruct (live d !! _) as [[]|]. }
  split; [done|]. split; cbn; rewrite ?Hsc, ?Hrej; try apply He.
  - intros j. rewrite Ha, Ha', slab_insert_law, <- Hch. case_decide as Hj; [subst j; by rewrite lookup_insert_eq|].
    rewrite lookup_insert_ne by done. apply He.
  - intros aid' j. rewrite Hids. destruct (decide (aid' = aid)) as [->|Hn].
    + rewrite lookup_insert_eq. split; [intros [= <-]; rewrite lookup_insert_eq; eauto|].
      intros [t Ht]. destruct (decide (j = ch)) as [->|]; [done|]. rewrite lookup_insert_ne in Ht by done.
      destruct (routes_unused _ _ _ He Haid _ _ Ht).
    + rewrite lookup_insert_ne by done. rewrite (rt_ids _ _ He). destruct (decide (j = ch)) as [->|].
      * rewrite lookup_insert_eq, Hch'. naive_solver.
      * by rewrite lookup_insert_ne by done.
  - intros t j Hj. assert (j = ch ∧ t = tag ∨ association_ids_init e !! t = Some j) as [[-> ->]|Hold].
    { destruct Hinit as [Hi|Hi]; rewrite Hi in Hj; [by right|].
      apply lookup_insert_Some in Hj. naive_solver. }
    + rewrite lookup_insert_eq. eauto.
    + apply (rt_init _ _ He) in Hold as [aid' Hold]. exists aid'. rewrite lookup_insert_ne; [done|congruence].
  - rewrite Ha, Ha', slab_len_insert_law, (rt_len _ _ He), map_size_insert_None by done. lia.
  - rewrite Hids, !map_size_insert_None by done. by rewrite (rt_size _ _ He).
Qed.

Lemma values_singleton (k : Z) (v : Z) : values {[ k := v ]} = [v].
Proof.
  unfold values. pose proof (entries_law Z {[ k := v ]}) as H. rewrite map_to_list_singleton in H.
  by apply Permutation_singleton_r in H as ->.
Qed.

Lemma drained_routes e d ch :
  routes e d →
  holds True (endpoint_handle_event ch EndpointEvent_drained)
    (λ _ e', ∃ d', demux_step d (LRemoved ch) d' ∧ routes e' d') (λ _ _, False) e.
Proof.
  intros He. unfold endpoint_handle_event. cbn. apply holds_bind, holds_gets, holds_bind.
  pose proof (rt_live _ _ He ch) as Hch. destruct (slab_get (associations e) ch) as [m|] eqn:Hm.
  2:{ unfold holds. cbn. by rewrite (slab_remove_vacant _ _ _ Hm). }
  destruct (live d !! ch) as [[aid tag]|] eqn:Hl; [|done]. destruct Hch as (Htag & Hcids & _).
  destruct (slab_remove_law _ _ _ _ Hm) as (a & Hr & Hlen & Hget).
  apply holds_lift; rewrite Hr; [|done..]. intros ? [= <-]. apply holds_bind, holds_modify.
  rewrite Hcids, values_singleton. apply holds_bind. cbn [for_each]. apply holds_bind, holds_modify, holds_ret, holds_ret.
  assert (association_ids e !! aid = Some ch) as Haid by (apply He; eauto).
  eexists. split; [apply demux_remove; eauto|]. split; cbn; try apply He.
  - intros j. rewrite Hget. case_decide as Hj; [subst; by rewrite lookup_delete_eq|].
    rewrite lookup_delete_ne by done. apply He.
  - intros aid' j. rewrite lookup_delete_Some, (rt_ids _ _ He). setoid_rewrite lookup_delete_Some. split.
    + intros [Hne [t Ht]]. exists t. split; [|done]. intros <-. rewrite Hl in Ht. congruence.
    + intros [t [Hne Ht]]. split; [|eauto]. intros <-.
      assert (association_ids e !! aid = Some j) by (apply He; eauto). congruence.
  - intros t j [Hne Hj]%lookup_delete_Some. apply (rt_init _ _ He) in Hj as [aid' Hj]. exists aid'.
    apply lookup_delete_Some. split; [|done]. intros <-. rewrite Hl in Hj. congruence.
  - rewrite Hlen, (rt_len _ _ He), map_size_delete_Some by eauto.
    assert (size (live d) ≠ 0%nat) by (intros Hz%map_size_empty_iff; rewrite Hz in Hl; by rewrite lookup_empty in Hl). lia.
  - rewrite !map_size_delete_Some by eauto. by rewrite (rt_size _ _ He).
Qed.

(** Drawing an id changes the generator only, and the id is not in use. *)
Lemma new_aid_fresh patience : ∀ e : Endpoint,
  holds True (new_aid patience)
    (λ aid e', (∃ g, e' = e <| local_cid_generator := g |>) ∧ association_ids e !! aid = None) (λ _ _, False) e.
Proof.
  induction patience as [|patience IH]; intros e; [done|]. cbn [new_aid]. apply holds_bind, holds_gets.
  destruct (generate_aid (local_cid_generator e)) as [aid g]. apply holds_bind, holds_modify, holds_bind, holds_gets.
  case_bool_decide as Hid; [|apply holds_ret; split; [eauto|]; by apply eq_None_not_Some].
  eapply holds_mono; [apply IH| |done]. intros aid' e' [[g' ->] H]. split; [by exists g'|done].
Qed.

(** The [n]-th id the generator gives from now on. *)
Fixpoint nth_draw (n : nat) (g : G) : AssociationId :=
  match n with O => (generate_aid g).1 | S n => nth_draw n (generate_aid g).2 end.

(** The loop ends as soon as the generator gives an id that is not in use. *)
Lemma new_aid_ends n : ∀ patience (e : Endpoint),
  (n < patience)%nat → association_ids e !! nth_draw n (local_cid_generator e) = None →
  ∃ aid e', new_aid patience e = ROk aid e'.
Proof.
  induction n as [|n IH]; intros [|patience] e Hp Hn; try lia; cbn [new_aid nth_draw] in *; run;
    destruct (generate_aid (local_cid_generator e)) as [aid g]; cbn [fst snd] in Hn; case_bool_decide as Hid; eauto.
  - destruct Hid as [ch Hid]. change (association_ids e !! aid = Some ch) in Hid. congruence.
  - apply IH; [lia|done].
Qed.

Lemma routes_generator e d g : routes e d → routes (e <| local_cid_generator := g |>) d.
Proof. intros He. split; apply He. Qed.

(** ** New associations *)

Lemma construct_own a m :
  holds True m (λ _, own a) (λ _ _, False) a →
  match construct a m with Ok a' => own a a' | Err _ => False | _ => True end.
Proof. unfold holds, construct. by destruct (m a). Qed.

Lemma start_timer_own t now a : holds True (start_timer t now) (λ _, own a) (λ _ _, False) a.
Proof.
  unfold start_timer, with_timers. apply holds_bind, holds_gets, holds_bind, holds_gets, holds_bind, holds_lift;
    [intros; by apply holds_modify| |done].
  unfold timer_start, Instant_add, mbind, Outcome_bind. intros err. repeat case_match; discriminate.
Qed.

Lemma Association_new_own for_server cfg mp aid remote ip tsn now :
  match Association_new for_server cfg mp aid remote ip tsn now with
  | Ok a => my_verification_tag a = aid
  | Err _ => False
  | _ => True
  end.
Proof.
  unfold Association_new, mbind, Outcome_bind. destruct (new_common _ _ _ _ _ _ _) as [a|err| |] eqn:Ha; [|..]; try done.
  2:{ exfalso. revert Ha. unfold new_common, checked_add, checked_mul, mbind, Outcome_bind. repeat case_match; discriminate. }
  assert (my_verification_tag a = aid) as Haid.
  { unfold new_common in Ha. do 4 (apply bind_Ok in Ha as (? & _ & Ha)). by apply Ok_Association_inj in Ha as <-. }
  destruct (is_client _); [|done].
  match goal with |- context [construct a ?m] => assert (holds True m (λ _, own a) (λ _ _, False) a) as H%construct_own end.
  { change (M_bind Association ()%type ()%type) with (@mbind (M Association) _ ()%type ()%type). unfold set_state, send_init.
    do 2 (apply holds_bind, holds_modify). apply holds_bind, holds_ignore.
    apply holds_bind, holds_gets, holds_modify.
    match goal with |- holds _ _ _ _ ?a1 => assert (own a a1) as Hown by reflexivity; generalize dependent a1 end.
    clear. intros a1 Hown. eapply holds_mono; [apply start_timer_own| |done]. intros [] a2 H. by etrans. }
  destruct (construct a _); [|done..]. by rewrite H.
Qed.

Lemma add_association_routes e d tsn tag aid remote ip now sc cfg :
  routes e d → association_ids e !! aid = None →
  holds True (add_association tsn tag aid remote ip now sc cfg)
    (λ r e', my_verification_tag r.2 = aid ∧ live d !! r.1 = None ∧
       ∀ e'', e'' = e' ∨ e'' = e' <| association_ids_init ::= <[tag := r.1]> |> →
         routes e'' (mkDemux (<[r.1 := (aid, tag)]> (live d)) (limit d) (accepting d)))
    (λ _ _, False) e.
Proof.
  intros He Haid. unfold add_association. apply holds_bind, holds_self, holds_bind.
  pose proof (Association_new_own (bool_decide (is_Some sc)) cfg (get_max_payload_size (config e)) aid remote ip tsn now) as Hn.
  apply holds_lift; [|intros err E; by rewrite E in Hn|done]. intros conn E. rewrite E in Hn.
  destruct (slab_insert _ _) as [ch a] eqn:Hins. apply holds_bind, holds_modify, holds_ret. split; [done|].
  match goal with |- context [_ = ?e1 ∨ _] => set (e' := e1) end.
  assert (∀ e'', e'' = e' ∨ e'' = e' <| association_ids_init ::= <[tag := ch]> |> →
    live d !! ch = None ∧ routes e'' (mkDemux (<[ch := (aid, tag)]> (live d)) (limit d) (accepting d))) as H.
  { intros e'' [->| ->]; apply (routes_insert e _ d aid tag remote ch a); auto. }
  split; [by apply (H e'); left|]. intros e'' He''. by apply H.
Qed.

(** ** Datagrams *)

Lemma room_iff e d sc :
  routes e d → server_config e = Some sc →
  (concurrent_associations sc <=? slab_len (associations e)) || rejecting e || is_full e = false ↔ room d.
Proof.
  intros He Hsc. unfold room, is_full. rewrite (rt_limit _ _ He), (rt_accepting _ _ He), (rt_len _ _ He), (rt_size _ _ He), Hsc.
  cbn [fmap option_fmap option_map]. change (Z.shiftr (2 ^ 32 - 1) 1 + Z.shiftr (2 ^ 32 - 1) 2) with 3221225470.
  destruct (rejecting e); cbn [negb orb]; [rewrite !orb_true_r; naive_solver|]. rewrite orb_false_r.
  rewrite orb_false_iff, Z.leb_gt, Z.ltb_ge. naive_solver.
Qed.

Lemma known_addressed e d pd ch : routes e d → known_association e pd = Some ch → addressed d pd ch.
Proof.
  unfold known_association. intros He. fold (tag_of pd). destruct (Z.ltb_spec 0 (tag_of pd)) as [Ht|Ht].
  - intros [tag Hl]%(rt_ids _ _ He). exists (tag_of pd), tag. auto.
  - intros H. unfold addressed, init_of. repeat case_match; try done. apply (rt_init _ _ He) in H as [aid Hl].
    exists aid, z. auto.
Qed.

Lemma unknown_stranger e d pd : routes e d → known_association e pd = None → stranger d pd.
Proof.
  unfold known_association. intros He. fold (tag_of pd). intros Hn Ht ch (aid & tag & Hl & [[_ ->]|[? _]]); [|lia].
  destruct (Z.ltb_spec 0 (tag_of pd)); [|lia].
  assert (association_ids e !! tag_of pd = Some ch) by (apply He; eauto). congruence.
Qed.

Lemma handle_first_packet_routes e d patience tsn cookie now remote ip ecn pd :
  routes e d → stranger d pd →
  holds True (handle_first_packet patience tsn cookie now remote ip ecn pd)
    (λ r e', ∃ d', routes e' d' ∧
       demux_step d (match r with Some (ch, a) => LAccepted pd ch (my_verification_tag a) | None => LDropped pd end) d')
    (λ _ _, False) e.
Proof.
  intros He Hst. unfold handle_first_packet.
  destruct (pd_initiate_tag pd) as [tag|] eqn:Htag.
  2:{ apply holds_ret. exists d. split; [done|]. constructor; [done|]. unfold init_of. rewrite Htag. case_match; by intros [[] _]. }
  destruct (pd_first_chunk_type pd =? CT_INIT) eqn:Hty; cbn [negb].
  2:{ apply holds_ret. exists d. split; [done|]. constructor; [done|]. unfold init_of. rewrite Hty. by intros [[] _]. }
  assert (init_of pd = Some tag) as Hinit by (unfold init_of; by rewrite Hty).
  apply holds_bind, holds_self, holds_bind. destruct (server_config e) as [sc|] eqn:Hsc; [|done].
  apply holds_lift; [|done..]. intros ? [= <-]. pose proof (room_iff _ _ _ He Hsc) as Hroom.
  destruct (_ || _ || _); cbv iota.
  { apply holds_ret. exists d. split; [done|]. constructor; [done|]. intros [_ Hr]. by apply Hroom in Hr. }
  apply proj1 in Hroom. specialize (Hroom eq_refl). apply holds_bind. eapply holds_mono; [apply new_aid_fresh| |done].
  intros aid e1 [[g ->] Haid]. cbv beta. apply holds_bind.
  eapply holds_mono; [apply (add_association_routes _ d); [by apply routes_generator|done]| |done].
  intros [ch conn] e2 (Hown & Hch & Hr). cbv beta iota in *. cbn [fst snd] in *. apply holds_bind, holds_modify, holds_bind.
  pose proof (handle_event_own cookie (mkAssociationEvent (Datagram (mkTransmit now remote ecn ip (PayloadPartialDecode pd)))) conn) as Hev%construct_own.
  destruct (construct conn _) as [conn'|err| |]; [|done..]. apply holds_lift; [|done..]. intros ? [= <-]. apply holds_ret.
  eexists. split; [apply Hr; by right|]. rewrite Hev, Hown. constructor; try done. by apply (routes_unused e).
Qed.

Lemma handle_routes e d patience tsn cookie now remote ip ecn data :
  routes e d →
  holds True (endpoint_handle crc patience tsn cookie now remote ip ecn data)
    (λ r e', ∃ d', demux_step d (handle_label data r) d' ∧ routes e' d') (λ _ _, False) e.
Proof.
  intros He. unfold endpoint_handle. apply holds_bind, holds_attempt.
  destruct (PartialDecode_unmarshal crc data) as [pd|err| |] eqn:Hpd; [| |done..]; apply holds_lift; try done.
  2:{ intros ??. apply holds_ret. exists d. unfold handle_label. rewrite Hpd. split; [constructor|done]. }
  intros ? [= <-]. apply holds_bind, holds_self. destruct (known_association e pd) as [ch|] eqn:Hk.
  - apply holds_ret. exists d. unfold handle_label. rewrite Hpd. cbn. split; [|done]. constructor. by eapply known_addressed.
  - apply holds_bind. eapply holds_mono; [apply (handle_first_packet_routes _ d); [done|by eapply unknown_stranger]| |done].
    intros r e' (d' & Hr & Hs). apply holds_ret. exists d'. split; [|done]. unfold handle_label. rewrite Hpd.
    by destruct r as [[]|].
Qed.

(** ** Outgoing associations *)

Section Refuse.
Context (Q : (AssociationHandle * Association) + ConnectError → Endpoint → Prop).

Lemma holds_refuse_if b err k e :
  Q (inr err) e → (b = false → holds True k Q (λ _ _, False) e) → holds True (refuse_if b err k) Q (λ _ _, False) e.
Proof. destruct b; intros; [by apply holds_ret|auto]. Qed.

Lemma holds_or_refuse {C} (o : Outcome C) err k e :
  (∀ x, Q (inr (err x)) e) → (∀ c, o = Ok c → holds True (k c) Q (λ _ _, False) e) →
  holds True (or_refuse o err k) Q (λ _ _, False) e.
Proof.
  intros. apply holds_bind, holds_attempt, holds_lift; [auto|intros; by apply holds_ret|done].
Qed.
End Refuse.

Lemma out_of_band_own cfg mp remote ip li ri a :
  new_with_out_of_band_init cfg mp remote ip li ri = Ok a → my_verification_tag a = initiate_tag li.
Proof.
  unfold new_with_out_of_band_init. intros (this & Hthis & H)%bind_Ok.
  assert (my_verification_tag this = initiate_tag li) as Haid.
  { unfold new_common in Hthis. do 4 (apply bind_Ok in Hthis as (? & _ & Hthis)). by apply Ok_Association_inj in Hthis as <-. }
  rewrite <- Haid. revert H. apply (construct_Ok (own this)). unfold apply_remote_init_params, set_state, push_event.
  by repeat holds_step.
Qed.

Lemma connect_routes e d patience random_aid tsn now cc remote :
  routes e d →
  holds True (connect patience random_aid tsn now cc remote)
    (λ r e', ∃ d', demux_step d (connect_label r) d' ∧ routes e' d') (λ _ _, False) e.
Proof.
  intros He. set (Q := λ r e', _).
  assert (∀ err, Q (inr err) e) as Hrefuse by (intros; exists d; split; [constructor|done]).
  unfold connect. apply holds_bind, holds_self. do 3 (apply holds_refuse_if; [done|intros _]).
  assert (holds True (local_aid ← new_aid patience;
      r ← add_association tsn random_aid local_aid remote None now None (cc_transport cc); mret (inl r)) Q (λ _ _, False) e) as Hplain.
  { apply holds_bind. eapply holds_mono; [apply new_aid_fresh| |done]. intros aid e1 [[g ->] Haid]. cbv beta. apply holds_bind.
    eapply holds_mono; [apply (add_association_routes _ d); [by apply routes_generator|done]| |done].
    intros [ch conn] e2 (Hown & Hch & Hr). cbn [fst snd] in *. apply holds_ret. eexists. split; [|apply Hr; by left].
    cbn. rewrite Hown. constructor; [done|]. by apply (routes_unused e). }
  repeat case_match; try exact Hplain. unfold connect_with_snap.
  repeat first [apply holds_refuse_if; [done|intros ?] | apply holds_or_refuse; [done|intros ? ?]].
  destruct (slab_insert _ _) as [ch a] eqn:Hins. apply holds_bind, holds_modify, holds_ret.
  match goal with H : new_with_out_of_band_init _ _ _ _ ?li ?ri = Ok ?conn |- Q _ ?e1 =>
    pose proof (out_of_band_own _ _ _ _ _ _ _ H) as Hown; set (e' := e1);
    assert (association_ids e !! initiate_tag li = None) as Haid by (apply eq_None_not_Some; by eapply bool_decide_eq_false);
    destruct (routes_insert e e' d (initiate_tag li) (initiate_tag ri) remote ch a) as [Hch Hr]; auto end.
  eexists. split; [|exact Hr]. cbn. rewrite Hown. constructor; [done|]. by apply (routes_unused e).
Qed.

(** ** Refinement *)

Lemma endpoint_step_routes e l e' d :
  routes e d → endpoint_step e l e' → ∃ d', demux_step d l d' ∧ routes e' d'.
Proof.
  intros He. destruct 1 as [patience tsn cookie now remote ip ecn data r e' H|patience aid tsn now cc remote r e' H|ch r e' H|
    sc r e' H|r e' H|r e' H].
  - pose proof (handle_routes e d patience tsn cookie now remote ip ecn data He) as Hh. unfold holds in Hh. by rewrite H in Hh.
  - pose proof (connect_routes e d patience aid tsn now cc remote He) as Hh. unfold holds in Hh. by rewrite H in Hh.
  - pose proof (drained_routes e d ch He) as Hh. unfold holds in Hh. by rewrite H in Hh.
  - injection H as _ <-. eexists. split; [constructor|]. split; try apply He. done.
  - injection H as _ <-. eexists. split; [constructor|]. split; try apply He. done.
  - exists d. split; [constructor|]. unfold endpoint_poll_transmit in H. revert H. run.
    destruct (transmits e); intros [= _ <-]; [done|]. split; apply He.
Qed.

(** Claim C5.  The endpoint refines the demultiplexer: whatever sequence of datagrams, connects, drained
    associations and configuration changes it goes through, the visible results are those of [Demux]
    started with no association.  So a datagram with a tag reaches exactly the live association that owns
    this tag and a tagless one only an association whose peer started with this INIT; an id is never
    given out twice; a datagram starts an association exactly when it is an INIT of a stranger and there is room. *)
Theorem endpoint_refines_demux cfg sc ls e :
  trace endpoint_step (Endpoint_new cfg sc) ls e →
  ∃ d, trace demux_step (mkDemux ∅ (concurrent_associations <$> sc) true) ls d ∧ routes e d.
Proof.
  intros Htr. remember (Endpoint_new cfg sc) as e0 eqn:He0. induction Htr as [|e0 ls e1 l e2 _ IH Hstep].
  - subst. eexists. split; [constructor|apply routes_new].
  - destruct (IH He0) as (d1 & Htr & Hr). destruct (endpoint_step_routes _ _ _ _ Hr Hstep) as (d2 & Hd & Hr2).
    exists d2. split; [by econstructor|done].
Qed.
End Refinement.

(** ** A concrete run: a server accepts an association, which is drained later *)

Lemma evaluated_result {S A} (r : Res S A) (f : A → S → bool) :
  match r with ROk a s => f a s | _ => false end = true → ∃ a s, r = ROk a s ∧ f a s = true.
Proof. destruct r; [eauto|done..]. Qed.

#[local] Existing Instances map_slab map_slab_laws counter list_buf list_iter list_iter_laws.

Lemma endpoint_refines_demux_witness :
  ∃ ls e d, trace (endpoint_step (λ _, 0)) (demo_endpoint 1 (Some ServerConfig_default)) ls e ∧ length ls = 2%nat ∧
    trace demux_step (mkDemux ∅ (Some 100000) true) ls d ∧ routes e d.
Proof.
  destruct (evaluated_result
    (endpoint_handle (λ _, 0) 1 5 [1; 2; 3] 0 demo_addr None None demo_init_packet (demo_endpoint 1 (Some ServerConfig_default)))
    (λ r e, match endpoint_handle_event 0 EndpointEvent_drained e with ROk _ _ => true | _ => false end))
    as (r & e1 & E1 & F1); [vm_compute; reflexivity|].
  destruct (evaluated_result (endpoint_handle_event 0 EndpointEvent_drained e1) (λ _ _, true)) as (r2 & e2 & E2 & _).
  { by destruct (endpoint_handle_event 0 EndpointEvent_drained e1). }
  eexists _, e2.
  assert (trace (endpoint_step (λ _, 0)) (demo_endpoint 1 (Some ServerConfig_default))
    (([] ++ [handle_label (λ _, 0) demo_init_packet r]) ++ [LRemoved 0]) e2) as Htr.
  { eapply trace_snoc; [eapply trace_snoc; [apply trace_nil|by eapply step_handle]|by eapply step_event]. }
  destruct (endpoint_refines_demux (λ _, 0) _ _ _ _ Htr) as (d & Hd & Hr). exists d. by split_and!.
Defined.
