(* ===== verification/EndpointSnap.v ===== *)
(** * Connecting with tokens, and a client that is sent an INIT

    Two endpoints that exchange SNAP tokens out of band are connected at once,
    without a packet.  An endpoint that is no server does not survive an INIT
    it does not expect. *)

From stdpp Require Import base list gmap numbers sets relations.
From Stdlib Require Import ZArith Lia ZifyBool.
From S2P Require Import Prelude Bytes Util Params Chunks ChunksRoundtrip Packet Shared Monad Timer Config.
From S2P Require Import Association AssocControl AssocMachine AssocHandshake Endpoint EndpointRoute.

Section Snap.
Context {I : MapIter} {B : BufApi} {BL : BufLaws B} {SL : SlabApi} {SLL : SlabLaws SL}.
Context {G : Type} {GEN : AssociationIdGenerator G} (crc : Bytes → u32).
Abbreviation Endpoint := (@Endpoint SL G) (only parsing).

(** ** Tokens *)

(** What the random numbers and the configuration of a token must be. *)
Record token_ok (cfg : TransportConfig) (tag tsn : u32) : Prop := mk_token_ok {
  to_tag : uN 32 tag ∧ tag ≠ 0;
  to_tsn : uN 32 tsn ∧ tsn ≠ 0;
  to_buffer : uN 32 (tc_max_receive_buffer_size cfg) ∧ 1500 <= tc_max_receive_buffer_size cfg;
}.

Lemma snap_init_wf cfg tag tsn : token_ok cfg tag tsn → Chunk_wf (CInit (snap_init cfg tag tsn)).
Proof.
  intros [[? _] [? _] [? _]]. split; [done|]. cbn. split_and!; try done. repeat constructor; done.
Qed.

Lemma snap_init_check cfg tag tsn : token_ok cfg tag tsn → ChunkInit_check (snap_init cfg tag tsn) = Ok tt.
Proof.
  intros [[_ ?] _ [_ ?]]. unfold ChunkInit_check, guard_err. cbn.
  by rewrite (proj2 (Z.eqb_neq _ _)), (proj2 (Z.ltb_ge _ _)) by lia.
Qed.

Lemma generate_snap_token_Ok cfg tag tsn :
  token_ok cfg tag tsn → generate_snap_token cfg tag tsn = Ok (Chunk_wire (CInit (snap_init cfg tag tsn))).
Proof.
  intros Hok. unfold generate_snap_token. rewrite (snap_init_check _ _ _ Hok). cbn [mbind Outcome_bind].
  apply (Chunk_marshal_to_wire (CInit _) []), snap_init_wf, Hok.
Qed.

Lemma token_parses cfg tag tsn :
  token_ok cfg tag tsn →
  ChunkInit_unmarshal (Chunk_wire (CInit (snap_init cfg tag tsn))) = Ok (snap_init cfg tag tsn).
Proof.
  intros Hok. rewrite <- (app_nil_r (Chunk_wire _)). apply ChunkInit_unmarshal_wire; [by apply snap_init_wf|by right].
Qed.

Lemma token_small cfg tag tsn : token_ok cfg tag tsn → len (Chunk_wire (CInit (snap_init cfg tag tsn))) <= MAX_SNAP_INIT_BYTES.
Proof. intros Hok. unfold len, MAX_SNAP_INIT_BYTES. cbn. lia. Qed.

(** ** One side *)

Lemma construct_returns this m (Q : Association → Prop) :
  holds False m (λ _, Q) (λ _ _, False) this → ∃ a, construct this m = Ok a ∧ Q a.
Proof. unfold holds, construct. destruct (m this); [eauto|done..]. Qed.

Definition mtu_ok (max_payload_size : u32) : Prop := 0 <= max_payload_size ∧ 4 * (max_payload_size + 28) < 2 ^ 32.

Lemma new_common_returns cfg mp remote ip side tag tsn :
  mtu_ok mp → ∃ a, new_common cfg mp remote ip side tag tsn = Ok a ∧ Association.side a = side.
Proof.
  intros [? ?]. unfold new_common, checked_add, checked_mul, COMMON_HEADER_SIZE, DATA_CHUNK_HEADER_SIZE.
  rewrite (proj2 (Z.ltb_lt (mp + 12) _)) by lia. cbn [mbind Outcome_bind].
  rewrite (proj2 (Z.ltb_lt (mp + 12 + 16) _)) by lia. cbn [mbind Outcome_bind].
  rewrite !(proj2 (Z.ltb_lt _ _)) by lia. cbn [mbind Outcome_bind]. by eexists.
Qed.

(** An association that was established without a handshake, for the peer of the token [ri]. *)
Record snapped (cfg : TransportConfig) (li ri : ChunkInit) (a : Association) : Prop := mk_snapped {
  sn_state : state a = Established ∧ handshake_completed a = true ∧ events a = [Event.Connected];
  sn_idle : control_queue a = [] ∧ ∀ t, timer_get (timers a) t = None;
  sn_side : side a = if initiate_tag li <=? initiate_tag ri then Server else Client;
  sn_own : my_verification_tag a = initiate_tag li ∧ my_next_tsn a = initial_tsn li ∧
    max_receive_buffer_size a = tc_max_receive_buffer_size cfg;
  sn_peer : peer_verification_tag a = initiate_tag ri ∧ peer_last_tsn a = wrapping_sub 32 (initial_tsn ri) 1 ∧
    peer_last_reconfig_rsn a = wrapping_sub 32 (initial_tsn ri) 1 ∧
    rwnd a = advertised_receiver_window_credit ri ∧
    use_forward_tsn a = existsb mentions_forward_tsn (params ri);
}.

Lemma out_of_band_snapped cfg mp remote ip li ri :
  mtu_ok mp → ∃ a, new_with_out_of_band_init cfg mp remote ip li ri = Ok a ∧ snapped cfg li ri a.
Proof.
  intros Hmp. unfold new_with_out_of_band_init.
  destruct (new_common_returns cfg mp remote ip (if initiate_tag li <=? initiate_tag ri then Server else Client)
    (initiate_tag li) (initial_tsn li) Hmp) as (this & E & Hside).
  destruct (new_common_end _ _ _ _ _ _ _ _ E) as ([(? & ? & ?) _ _ (_ & Hf & He) _] & ? & ? & ? & ?).
  rewrite E. change (mbind ?f (Ok this)) with (f this). cbv beta. apply construct_returns.
  unfold apply_remote_init_params, set_state, push_event. repeat holds_step.
  split; cbn; rewrite ?Hf, ?He; auto.
Qed.

(** The endpoint can take the connection. *)
Record snap_ready (e : Endpoint) (cfg : TransportConfig) (remote : SocketAddr) (own peer : AssociationId) : Prop := mk_snap_ready {
  sr_room : is_full e = false;
  sr_ports : port remote ≠ 0 ∧ tc_local_port cfg ≠ 0 ∧ tc_remote_port cfg ≠ 0;
  sr_ids : association_ids e !! own = None ∧ association_ids e !! peer = None;
  sr_init : association_ids_init e !! own = None ∧ association_ids_init e !! peer = None;
  sr_mtu : mtu_ok (get_max_payload_size (config e));
}.

Definition snap_client (cfg cfg' : TransportConfig) (tag tsn tag' tsn' : u32) : ClientConfig :=
  with_snap (mkClientConfig cfg None None) (Chunk_wire (CInit (snap_init cfg tag tsn)))
    (Chunk_wire (CInit (snap_init cfg' tag' tsn'))).

Lemma connect_snap_one e cfg cfg' tag tsn tag' tsn' remote patience random_aid n now :
  token_ok cfg tag tsn → token_ok cfg' tag' tsn' → tag ≠ tag' → snap_ready e cfg remote tag tag' →
  ∃ ch a e', connect patience random_aid n now (snap_client cfg cfg' tag tsn tag' tsn') remote e = ROk (inl (ch, a)) e' ∧
    snapped cfg (snap_init cfg tag tsn) (snap_init cfg' tag' tsn') a ∧ association_ids e' !! tag = Some ch.
Proof.
  intros Ht Ht' Hne [Hroom (Hp & Hlp & Hrp) [Hi1 Hi2] [Hj1 Hj2] Hmtu].
  destruct (out_of_band_snapped cfg _ remote None (snap_init cfg tag tsn) (snap_init cfg' tag' tsn') Hmtu) as (a & Ha & Hs).
  unfold connect, connect_with_snap, refuse_if, or_refuse. run. cbn [snap_client with_snap cc_transport local_sctp_init remote_sctp_init].
  rewrite Hroom, (proj2 (Z.eqb_neq (port remote) 0) Hp), (proj2 (Z.eqb_neq _ 0) Hlp), (proj2 (Z.eqb_neq _ 0) Hrp). cbn [orb].
  rewrite (proj2 (Z.ltb_ge _ _) (token_small _ _ _ Ht)), (proj2 (Z.ltb_ge _ _) (token_small _ _ _ Ht')).
  rewrite (token_parses _ _ _ Ht), (token_parses _ _ _ Ht'). cbn [is_ack snap_init initiate_tag initial_tsn ChunkInit_set_supported_extensions].
  rewrite (snap_init_check _ _ _ Ht), (snap_init_check _ _ _ Ht').
  destruct Ht as [[_ H1] [_ H2] _], Ht' as [[_ H3] [_ H4] _].
  rewrite (proj2 (Z.eqb_neq tag 0) H1), (proj2 (Z.eqb_neq tag' 0) H3), (proj2 (Z.eqb_neq tsn 0) H2), (proj2 (Z.eqb_neq tsn' 0) H4),
    (proj2 (Z.eqb_neq tag tag') Hne), Hi1, Hi2, Hj1, Hj2, !bool_decide_false by (by intros []).
  cbn [cc_transport] in Ha. rewrite Ha. destruct (slab_insert _ _) as [ch sl]. eexists ch, a, _. split; [reflexivity|].
  split; [done|]. cbn. by rewrite lookup_insert_eq.
Qed.

(** ** Both sides *)

Record snap_connected (a b : Association) : Prop := mk_snap_connected {
  sc_state : state a = Established ∧ handshake_completed a = true ∧ events a = [Event.Connected];
  sc_idle : control_queue a = [] ∧ ∀ t, timer_get (timers a) t = None;
  sc_knows : knows a b;
  sc_side : side a = Side_not (side b);
}.

Lemma snapped_connected cfg cfg' tag tsn tag' tsn' a b :
  tag ≠ tag' → snapped cfg (snap_init cfg tag tsn) (snap_init cfg' tag' tsn') a →
  snapped cfg' (snap_init cfg' tag' tsn') (snap_init cfg tag tsn) b → snap_connected a b.
Proof.
  intros Hne [? ? Ha _ (? & ? & ? & ? & ?)] [_ _ Hb (? & ? & ?) _]. cbn in *. split; [done..| |].
  - constructor; congruence.
  - rewrite Ha, Hb. destruct (Z.leb_spec tag tag'), (Z.leb_spec tag' tag); try done; lia.
Qed.

(** Claim C29.  Tokens connect: two endpoints can always make tokens from usable configurations, and when each
    calls [connect] with its own token and the other's, both calls return an established association
    that has announced itself once, has nothing to send and no timer armed, knows its peer's tag, initial
    TSN and receive window, and the two take opposite sides; from then on each endpoint routes its tag to it. *)
Theorem snap_connects (e1 e2 : Endpoint) cfg1 cfg2 tag1 tsn1 tag2 tsn2 addr1 addr2 p1 p2 r1 r2 n1 n2 now1 now2 :
  token_ok cfg1 tag1 tsn1 → token_ok cfg2 tag2 tsn2 → tag1 ≠ tag2 →
  snap_ready e1 cfg1 addr2 tag1 tag2 → snap_ready e2 cfg2 addr1 tag2 tag1 →
  ∃ t1 t2, generate_snap_token cfg1 tag1 tsn1 = Ok t1 ∧ generate_snap_token cfg2 tag2 tsn2 = Ok t2 ∧
  ∃ ch1 a1 e1' ch2 a2 e2',
    connect p1 r1 n1 now1 (with_snap (mkClientConfig cfg1 None None) t1 t2) addr2 e1 = ROk (inl (ch1, a1)) e1' ∧
    connect p2 r2 n2 now2 (with_snap (mkClientConfig cfg2 None None) t2 t1) addr1 e2 = ROk (inl (ch2, a2)) e2' ∧
    snap_connected a1 a2 ∧ snap_connected a2 a1 ∧
    association_ids e1' !! tag1 = Some ch1 ∧ association_ids e2' !! tag2 = Some ch2.
Proof.
  intros Ht1 Ht2 Hne Hr1 Hr2. eexists _, _. split_and!; [by apply generate_snap_token_Ok..|].
  destruct (connect_snap_one e1 cfg1 cfg2 tag1 tsn1 tag2 tsn2 addr2 p1 r1 n1 now1) as (ch1 & a1 & e1' & E1 & Hs1 & Hi1); [done..|].
  destruct (connect_snap_one e2 cfg2 cfg1 tag2 tsn2 tag1 tsn1 addr1 p2 r2 n2 now2) as (ch2 & a2 & e2' & E2 & Hs2 & Hi2); [done..|].
  exists ch1, a1, e1', ch2, a2, e2'. split_and!; try done.
  - by apply (snapped_connected _ _ _ _ _ _ _ _ Hne Hs1 Hs2).
  - by apply (snapped_connected _ _ _ _ _ _ _ _ (not_eq_sym Hne) Hs2 Hs1).
Qed.

(** ** An INIT at an endpoint that is no server *)

(** Claim C39.  An endpoint without a server configuration panics on a well-formed datagram from anybody that
    starts with an INIT it does not know: the server configuration is unwrapped before it is checked. *)
Theorem client_panics_on_init (e : Endpoint) data pd patience tsn cookie now remote ip ecn :
  PartialDecode_unmarshal crc data = Ok pd → is_Some (init_of pd) → known_association e pd = None →
  server_config e = None →
  endpoint_handle crc patience tsn cookie now remote ip ecn data e = RPanic.
Proof.
  intros Hpd Hinit Hk Hsc. unfold endpoint_handle, handle_first_packet, init_of in *. run. rewrite Hpd, Hk.
  destruct (pd_first_chunk_type pd =? CT_INIT); [|by destruct Hinit].
  destruct (pd_initiate_tag pd); [|by destruct Hinit]. cbn [negb]. by rewrite Hsc.
Qed.
End Snap.

#[local] Existing Instances map_slab map_slab_laws counter list_buf list_buf_laws list_iter.

Lemma demo_token_ok tag tsn : bool_decide (0 < tag < 2 ^ 32 ∧ 0 < tsn < 2 ^ 32) = true → token_ok TransportConfig_default tag tsn.
Proof. intros [? ?]%bool_decide_eq_true. constructor; [unfold uN; lia..|]. split; vm_compute; intuition discriminate. Qed.

Lemma demo_snap_ready aid sc own peer : snap_ready (demo_endpoint aid sc) TransportConfig_default demo_addr own peer.
Proof. constructor; [done|by vm_compute|split; apply lookup_empty..|]. split; vm_compute; congruence. Qed.

Lemma snap_connects_witness :
  ∃ t1 t2, generate_snap_token TransportConfig_default 7 100 = Ok t1 ∧ generate_snap_token TransportConfig_default 9 200 = Ok t2 ∧
  ∃ ch1 a1 e1' ch2 a2 e2',
    connect 1 0 0 0 (with_snap (mkClientConfig TransportConfig_default None None) t1 t2) demo_addr (demo_endpoint 1 None) =
      ROk (inl (ch1, a1)) e1' ∧
    connect 1 0 0 0 (with_snap (mkClientConfig TransportConfig_default None None) t2 t1) demo_addr (demo_endpoint 1 None) =
      ROk (inl (ch2, a2)) e2' ∧
    snap_connected a1 a2 ∧ snap_connected a2 a1 ∧
    association_ids e1' !! 7 = Some ch1 ∧ association_ids e2' !! 9 = Some ch2.
Proof.
  apply snap_connects.
  - by apply demo_token_ok.
  - by apply demo_token_ok.
  - done.
  - apply demo_snap_ready.
  - apply demo_snap_ready.
Defined.

Lemma client_panics_on_init_witness :
  endpoint_handle (λ _, 0) 1 5 [1; 2; 3] 0 demo_addr None None demo_init_packet (demo_endpoint 1 None) = RPanic.
Proof.
  apply (client_panics_on_init (λ _, 0) (demo_endpoint 1 None) demo_init_packet
    (mkPartialDecode (mkCommonHeader 5000 5000 0) (drop 12 demo_init_packet) CT_INIT (Some 305419896) None)).
  - vm_compute. reflexivity.
  - by eexists.
  - vm_compute. reflexivity.
  - reflexivity.
Defined.
